(** * TempoMate: the timing core, embedded and verified

    A shallow embedding of the clock engine of TempoMate (the seven timing
    methods, [PlayerState], [GameState], [PeriodManager], [MoveCounter],
    [TimerEngine] and the tick and correction paths of [App]).

    Conventions of the embedding.
    - JavaScript numbers that hold milliseconds, move counts and period
      indices are integers here ([Z]); no rounding of doubles is modelled.
    - A JavaScript object is a record; a method that mutates [this] or an
      argument is a function that returns the new value.
    - An optional property ([undefined] when absent) is an [option].
    - What the browser supplies ([Date.now()], [performance.now()], the
      frame handle, [document.visibilityState]) is an argument.
    - Rendering and sound calls do not touch the modelled state and are
      left out. *)

From Stdlib Require Import ZArith Lia Bool List.
From stdpp Require Import base option countable gmap.
From Equations Require Import Equations.
Import ListNotations.

Local Open Scope Z_scope.

(** ** utils/constants.js *)

Inductive GameStatus := IDLE | RUNNING | PAUSED | FROZEN | CORRECTING.

Inductive Player := LEFT | RIGHT.

Inductive TimingMethodType :=
  TIME | FISCHER | US_DELAY | DELAY | BYO_YOMI | CANADIAN_BYO | UPCOUNT | END.

Inductive FlagState := NONE | BLINKING | NON_BLINKING.

Inductive Color := white | black.

#[global] Instance GameStatus_eq_dec : EqDecision GameStatus.
Proof. solve_decision. Defined.

#[global] Instance Player_eq_dec : EqDecision Player.
Proof. solve_decision. Defined.

#[global] Instance TimingMethodType_eq_dec : EqDecision TimingMethodType.
Proof. solve_decision. Defined.

#[global] Instance FlagState_eq_dec : EqDecision FlagState.
Proof. solve_decision. Defined.

#[global] Instance Player_countable : Countable Player.
Proof.
  refine (inj_countable' (fun p => match p with LEFT => false | RIGHT => true end)
                         (fun b : bool => if b then RIGHT else LEFT) _).
  intros []; reflexivity.
Defined.

(** [x || 0] and [x ?? 0] on a numeric property that may be absent. *)
Definition orZero (o : option Z) : Z := default 0 o.

(** [a ?? b] *)
Definition nullish {A} (a b : option A) : option A :=
  match a with Some _ => a | None => b end.

(** ** state/PlayerState.js *)

Record PlayerState := mkPlayerState {
  side : Player;
  timeMs : Z;
  currentPeriod : Z;
  moves : Z;
  flagState : FlagState;
  flagSetTime : option Z;
  color : Color;
  delayRemainingMs : Z;
  inDelay : bool;
  turnStartTimeMs : Z;
  byoMomentsRemaining : Z;
  byoMomentTimeMs : Z;
  hasStarted : bool
}.

(** Field assignments [p.f = v]. *)
Definition set_timeMs (v : Z) (p : PlayerState) : PlayerState :=
  mkPlayerState (side p) v (currentPeriod p) (moves p) (flagState p)
    (flagSetTime p) (color p) (delayRemainingMs p) (inDelay p)
    (turnStartTimeMs p) (byoMomentsRemaining p) (byoMomentTimeMs p) (hasStarted p).

Definition set_currentPeriod (v : Z) (p : PlayerState) : PlayerState :=
  mkPlayerState (side p) (timeMs p) v (moves p) (flagState p)
    (flagSetTime p) (color p) (delayRemainingMs p) (inDelay p)
    (turnStartTimeMs p) (byoMomentsRemaining p) (byoMomentTimeMs p) (hasStarted p).

Definition set_moves (v : Z) (p : PlayerState) : PlayerState :=
  mkPlayerState (side p) (timeMs p) (currentPeriod p) v (flagState p)
    (flagSetTime p) (color p) (delayRemainingMs p) (inDelay p)
    (turnStartTimeMs p) (byoMomentsRemaining p) (byoMomentTimeMs p) (hasStarted p).

Definition set_color (v : Color) (p : PlayerState) : PlayerState :=
  mkPlayerState (side p) (timeMs p) (currentPeriod p) (moves p) (flagState p)
    (flagSetTime p) v (delayRemainingMs p) (inDelay p)
    (turnStartTimeMs p) (byoMomentsRemaining p) (byoMomentTimeMs p) (hasStarted p).

Definition set_delayRemainingMs (v : Z) (p : PlayerState) : PlayerState :=
  mkPlayerState (side p) (timeMs p) (currentPeriod p) (moves p) (flagState p)
    (flagSetTime p) (color p) v (inDelay p)
    (turnStartTimeMs p) (byoMomentsRemaining p) (byoMomentTimeMs p) (hasStarted p).

Definition set_inDelay (v : bool) (p : PlayerState) : PlayerState :=
  mkPlayerState (side p) (timeMs p) (currentPeriod p) (moves p) (flagState p)
    (flagSetTime p) (color p) (delayRemainingMs p) v
    (turnStartTimeMs p) (byoMomentsRemaining p) (byoMomentTimeMs p) (hasStarted p).

Definition set_turnStartTimeMs (v : Z) (p : PlayerState) : PlayerState :=
  mkPlayerState (side p) (timeMs p) (currentPeriod p) (moves p) (flagState p)
    (flagSetTime p) (color p) (delayRemainingMs p) (inDelay p)
    v (byoMomentsRemaining p) (byoMomentTimeMs p) (hasStarted p).

Definition set_byoMomentsRemaining (v : Z) (p : PlayerState) : PlayerState :=
  mkPlayerState (side p) (timeMs p) (currentPeriod p) (moves p) (flagState p)
    (flagSetTime p) (color p) (delayRemainingMs p) (inDelay p)
    (turnStartTimeMs p) v (byoMomentTimeMs p) (hasStarted p).

Definition set_byoMomentTimeMs (v : Z) (p : PlayerState) : PlayerState :=
  mkPlayerState (side p) (timeMs p) (currentPeriod p) (moves p) (flagState p)
    (flagSetTime p) (color p) (delayRemainingMs p) (inDelay p)
    (turnStartTimeMs p) (byoMomentsRemaining p) v (hasStarted p).

(** [new PlayerState(side)] *)
Definition newPlayerState (s : Player) : PlayerState :=
  mkPlayerState s 0 0 0 NONE None
    (match s with LEFT => white | RIGHT => black end)
    0 false 0 0 0 false.

(** The object literal that [GameState.initGame] hands to [PlayerState.init]. *)
Record InitConfig := mkInitConfig {
  init_timeMs : option Z;
  init_delayMs : option Z;
  init_byoMoments : option Z;
  init_byoTimeMs : option Z
}.

Module PlayerStateOps.

Definition init (c : InitConfig) (p : PlayerState) : PlayerState :=
  mkPlayerState (side p) (orZero (init_timeMs c)) 0 0 NONE None (color p)
    0 false 0 (orZero (init_byoMoments c)) (orZero (init_byoTimeMs c)) false.

Definition clearFlag (p : PlayerState) : PlayerState :=
  mkPlayerState (side p) (timeMs p) (currentPeriod p) (moves p) NONE
    None (color p) (delayRemainingMs p) (inDelay p)
    (turnStartTimeMs p) (byoMomentsRemaining p) (byoMomentTimeMs p) (hasStarted p).

(** [now] is the reading of [Date.now()]. *)
Definition setFlag (state : FlagState) (now : Z) (p : PlayerState) : PlayerState :=
  mkPlayerState (side p) (timeMs p) (currentPeriod p) (moves p) state
    (Some now) (color p) (delayRemainingMs p) (inDelay p)
    (turnStartTimeMs p) (byoMomentsRemaining p) (byoMomentTimeMs p) (hasStarted p).

End PlayerStateOps.

(** ** A period of an option configuration *)

Record PeriodConfig := mkPeriodConfig {
  method : TimingMethodType;
  cfg_timeMs : option Z;
  cfg_delayMs : option Z;
  cfg_movesRequired : option Z;
  cfg_byoTimeMs : option Z;
  cfg_byoMoments : option Z
}.

(** ** engine/TimingMethod.js: what [onTick] returns *)

Record TickResult := mkTickResult {
  expired : bool;
  remainingMs : Z;
  momentExpired : bool
}.

(** The countdown shared by the methods that clamp at zero:
    [timeMs -= deltaMs; if (timeMs <= 0) { timeMs = 0; expired }]. *)
Definition clampExpiry (p : PlayerState) : PlayerState * TickResult :=
  if timeMs p <=? 0
  then (set_timeMs 0 p, mkTickResult true 0 false)
  else (p, mkTickResult false (timeMs p) false).

(** ** engine/methods/TimeMethod.js *)
Module TimeMethod.

Definition onTurnStart (p : PlayerState) : PlayerState := p.

Definition onTick (deltaMs : Z) (p : PlayerState) : PlayerState * TickResult :=
  clampExpiry (set_timeMs (timeMs p - deltaMs) p).

Definition onTurnEnd (p : PlayerState) : PlayerState := p.

Definition isExpired (p : PlayerState) : bool := timeMs p <=? 0.

End TimeMethod.

(** ** engine/methods/FischerMethod.js *)
Module FischerMethod.

Record t := mk { bonusMs : Z; movesRequired : Z }.

Definition new (c : PeriodConfig) : t :=
  mk (orZero (cfg_delayMs c)) (orZero (cfg_movesRequired c)).

Definition onTurnStart (m : t) (p : PlayerState) : PlayerState := p.

Definition onTick (m : t) (deltaMs : Z) (p : PlayerState) : PlayerState * TickResult :=
  clampExpiry (set_timeMs (timeMs p - deltaMs) p).

Definition onTurnEnd (m : t) (p : PlayerState) : PlayerState :=
  if timeMs p <=? 0 then p
  else set_timeMs (timeMs p + bonusMs m) p.

Definition isPeriodCompleteByMoves (m : t) (p : PlayerState) (periodStartMoves : Z) : bool :=
  if movesRequired m <=? 0 then false
  else movesRequired m <=? moves p - periodStartMoves.

Definition isExpired (m : t) (p : PlayerState) : bool := timeMs p <=? 0.

End FischerMethod.

(** ** engine/methods/BronsteinDelayMethod.js *)
Module BronsteinDelayMethod.

Record t := mk { delayMs : Z }.

Definition new (c : PeriodConfig) : t := mk (orZero (cfg_delayMs c)).

Definition onTurnStart (m : t) (p : PlayerState) : PlayerState :=
  set_turnStartTimeMs (timeMs p) p.

Definition onTick (m : t) (deltaMs : Z) (p : PlayerState) : PlayerState * TickResult :=
  clampExpiry (set_timeMs (timeMs p - deltaMs) p).

Definition onTurnEnd (m : t) (p : PlayerState) : PlayerState :=
  if timeMs p <=? 0 then p
  else if turnStartTimeMs p <=? 0 then p
  else
    let timeUsed := turnStartTimeMs p - timeMs p in
    let compensation := Z.min (delayMs m) (Z.max 0 timeUsed) in
    let p1 := set_timeMs (timeMs p + compensation) p in
    if turnStartTimeMs p1 <? timeMs p1
    then set_timeMs (turnStartTimeMs p1) p1
    else p1.

Definition isExpired (m : t) (p : PlayerState) : bool := timeMs p <=? 0.

End BronsteinDelayMethod.

(** ** engine/methods/UsDelayMethod.js *)
Module UsDelayMethod.

Record t := mk { delayMs : Z }.

Definition new (c : PeriodConfig) : t := mk (orZero (cfg_delayMs c)).

Definition onTurnStart (m : t) (p : PlayerState) : PlayerState :=
  set_inDelay true (set_delayRemainingMs (delayMs m) p).

Definition onTick (m : t) (deltaMs : Z) (p : PlayerState) : PlayerState * TickResult :=
  let p1 :=
    if inDelay p then
      let p2 := set_delayRemainingMs (delayRemainingMs p - deltaMs) p in
      if delayRemainingMs p2 <=? 0 then
        let overflow := - delayRemainingMs p2 in
        let p3 := set_inDelay false (set_delayRemainingMs 0 p2) in
        if 0 <? overflow then set_timeMs (timeMs p3 - overflow) p3 else p3
      else p2
    else set_timeMs (timeMs p - deltaMs) p in
  clampExpiry p1.

Definition onTurnEnd (m : t) (p : PlayerState) : PlayerState :=
  set_delayRemainingMs 0 (set_inDelay false p).

Definition isExpired (m : t) (p : PlayerState) : bool := timeMs p <=? 0.

End UsDelayMethod.

(** ** engine/methods/ByoYomiMethod.js *)
Module ByoYomiMethod.

Record t := mk { byoTimeMs : Z; byoMoments : Z; _momentsAtTurnStart : Z }.

Definition new (c : PeriodConfig) : t :=
  mk (orZero (cfg_byoTimeMs c)) (orZero (cfg_byoMoments c)) 0.

Definition onTurnStart (m : t) (p : PlayerState) : t * PlayerState :=
  (mk (byoTimeMs m) (byoMoments m) (byoMomentsRemaining p), p).

(** How the [while] loop of [onTick] is left: by the [return] inside its
    body, or by its condition becoming false (with the local
    [momentExpired]). *)
Inductive LoopExit :=
| Returned (p : PlayerState) (r : TickResult)
| Exited (p : PlayerState) (momentExpired : bool).

(** [while (playerState.timeMs <= 0 && playerState.byoMomentsRemaining > 0)].
    Every iteration decrements [byoMomentsRemaining], which is positive
    when the body runs: this is the measure. *)
Equations? consumeMoments (m : t) (p : PlayerState) (momentExpired : bool) : LoopExit
  by wf (Z.to_nat (byoMomentsRemaining p)) lt :=
  consumeMoments m p momentExpired with
    decide (timeMs p <= 0 /\ 0 < byoMomentsRemaining p) => {
    | left _ =>
        if byoMomentsRemaining p - 1 <=? 0
        then Returned (set_timeMs 0 (set_byoMomentsRemaining (byoMomentsRemaining p - 1) p))
                      (mkTickResult true 0 false)
        else consumeMoments m
               (set_timeMs (timeMs p + byoTimeMs m)
                  (set_byoMomentsRemaining (byoMomentsRemaining p - 1) p))
               true
    | right _ => Exited p momentExpired }.
Proof.
  simpl. lia.
Qed.

Definition onTick (m : t) (deltaMs : Z) (p : PlayerState) : PlayerState * TickResult :=
  let p1 := set_timeMs (timeMs p - deltaMs) p in
  if timeMs p1 <=? 0 then
    if byoMoments m =? 0 then
      let overflow := - timeMs p1 in
      let p2 := set_timeMs (byoTimeMs m - overflow) p1 in
      let p3 := if timeMs p2 <=? 0 then set_timeMs 1 p2 else p2 in
      (p3, mkTickResult false (timeMs p3) true)
    else
      match consumeMoments m p1 false with
      | Returned p2 r => (p2, r)
      | Exited p2 momentExpired =>
          if timeMs p2 <=? 0 then (set_timeMs 0 p2, mkTickResult true 0 false)
          else if momentExpired then (p2, mkTickResult false (timeMs p2) true)
          else (p2, mkTickResult false (timeMs p2) false)
      end
  else (p1, mkTickResult false (timeMs p1) false).

Definition onTurnEnd (m : t) (p : PlayerState) : PlayerState :=
  if 0 <? timeMs p then
    let momentsConsumed :=
      _momentsAtTurnStart m -
      (if byoMoments m =? 0 then _momentsAtTurnStart m else byoMomentsRemaining p) in
    if momentsConsumed <=? 0 then set_timeMs (byoTimeMs m) p else p
  else p.

Definition isExpired (m : t) (p : PlayerState) : bool :=
  if byoMoments m =? 0 then false
  else (timeMs p <=? 0) && (byoMomentsRemaining p <=? 0).

End ByoYomiMethod.

(** ** engine/methods/CanadianByoYomiMethod.js *)
Module CanadianByoYomiMethod.

Record t := mk { byoTimeMs : Z; movesRequired : Z; _movesInPeriod : Z }.

Definition new (c : PeriodConfig) : t :=
  mk (Z.min (orZero (cfg_byoTimeMs c)) 599000) (orZero (cfg_movesRequired c)) 0.

Definition onTurnStart (m : t) (p : PlayerState) : PlayerState := p.

Definition onTick (m : t) (deltaMs : Z) (p : PlayerState) : PlayerState * TickResult :=
  clampExpiry (set_timeMs (timeMs p - deltaMs) p).

Definition onTurnEnd (m : t) (p : PlayerState) : t * PlayerState :=
  (mk (byoTimeMs m) (movesRequired m) (_movesInPeriod m + 1), p).

Definition reload (m : t) (p : PlayerState) : t * PlayerState :=
  (mk (byoTimeMs m) (movesRequired m) 0, set_timeMs (byoTimeMs m) p).

Definition isExpired (m : t) (p : PlayerState) : bool := timeMs p <=? 0.

End CanadianByoYomiMethod.

(** ** engine/methods/UpcountMethod.js *)
Module UpcountMethod.

Definition onTurnStart (p : PlayerState) : PlayerState := p.

Definition onTick (deltaMs : Z) (p : PlayerState) : PlayerState * TickResult :=
  let p1 := set_timeMs (timeMs p + deltaMs) p in
  (p1, mkTickResult false (timeMs p1) false).

Definition onTurnEnd (p : PlayerState) : PlayerState := p.

Definition isExpired (p : PlayerState) : bool := false.

End UpcountMethod.

(** ** The closed family of timing methods

    An instance of one of the seven classes, with the fields its
    constructor sets.  The methods below are the dynamic dispatch of
    [method.onTurnStart(player)] and the like; those that write a field of
    the method object return the method too. *)
Inductive TimingMethod :=
| ofTime
| ofFischer (m : FischerMethod.t)
| ofBronsteinDelay (m : BronsteinDelayMethod.t)
| ofUsDelay (m : UsDelayMethod.t)
| ofByoYomi (m : ByoYomiMethod.t)
| ofCanadianByoYomi (m : CanadianByoYomiMethod.t)
| ofUpcount.

Module TimingMethodOps.

Definition onTurnStart (m : TimingMethod) (p : PlayerState) : TimingMethod * PlayerState :=
  match m with
  | ofTime => (m, TimeMethod.onTurnStart p)
  | ofFischer f => (m, FischerMethod.onTurnStart f p)
  | ofBronsteinDelay b => (m, BronsteinDelayMethod.onTurnStart b p)
  | ofUsDelay u => (m, UsDelayMethod.onTurnStart u p)
  | ofByoYomi b => let '(b', p') := ByoYomiMethod.onTurnStart b p in (ofByoYomi b', p')
  | ofCanadianByoYomi c => (m, CanadianByoYomiMethod.onTurnStart c p)
  | ofUpcount => (m, UpcountMethod.onTurnStart p)
  end.

Definition onTick (m : TimingMethod) (deltaMs : Z) (p : PlayerState)
  : PlayerState * TickResult :=
  match m with
  | ofTime => TimeMethod.onTick deltaMs p
  | ofFischer f => FischerMethod.onTick f deltaMs p
  | ofBronsteinDelay b => BronsteinDelayMethod.onTick b deltaMs p
  | ofUsDelay u => UsDelayMethod.onTick u deltaMs p
  | ofByoYomi b => ByoYomiMethod.onTick b deltaMs p
  | ofCanadianByoYomi c => CanadianByoYomiMethod.onTick c deltaMs p
  | ofUpcount => UpcountMethod.onTick deltaMs p
  end.

Definition onTurnEnd (m : TimingMethod) (p : PlayerState) : TimingMethod * PlayerState :=
  match m with
  | ofTime => (m, TimeMethod.onTurnEnd p)
  | ofFischer f => (m, FischerMethod.onTurnEnd f p)
  | ofBronsteinDelay b => (m, BronsteinDelayMethod.onTurnEnd b p)
  | ofUsDelay u => (m, UsDelayMethod.onTurnEnd u p)
  | ofByoYomi b => (m, ByoYomiMethod.onTurnEnd b p)
  | ofCanadianByoYomi c =>
      let '(c', p') := CanadianByoYomiMethod.onTurnEnd c p in (ofCanadianByoYomi c', p')
  | ofUpcount => (m, UpcountMethod.onTurnEnd p)
  end.

Definition getType (m : TimingMethod) : TimingMethodType :=
  match m with
  | ofTime => TIME
  | ofFischer _ => FISCHER
  | ofBronsteinDelay _ => DELAY
  | ofUsDelay _ => US_DELAY
  | ofByoYomi _ => BYO_YOMI
  | ofCanadianByoYomi _ => CANADIAN_BYO
  | ofUpcount => UPCOUNT
  end.

End TimingMethodOps.

(** ** The option configuration handed to [GameState.initGame] *)

Record OptionConfig := mkOptionConfig {
  periods : list PeriodConfig;
  freezeDefault : option bool;
  soundDefault : option bool;
  leftTimeMs : option Z;
  rightTimeMs : option Z
}.

(** [periods[i]]: [undefined] outside the array. *)
Definition periodAt (l : list PeriodConfig) (i : Z) : option PeriodConfig :=
  if i <? 0 then None else l !! Z.to_nat i.

(** How a call ends: it returns [r] in state [s], or it throws in state [s]
    (what was written before the [throw] stays written). *)
Inductive Completion (S R : Type) :=
| Normal (s : S) (r : R)
| Throw (s : S).
Arguments Normal {S R} s r.
Arguments Throw {S R} s.

(** ** state/GameState.js

    The listener list is left out: [notify] calls each listener under
    [try]/[catch] and writes no field of the state. *)

Record GameState := mkGameState {
  status : GameStatus;
  activePlayer : option Player;
  left : PlayerState;
  right : PlayerState;
  selectedOption : Z;
  optionConfig : option OptionConfig;
  freezeEnabled : bool;
  soundEnabled : bool;
  hasBeenStarted : bool;
  _preCorrectionStatus : option GameStatus
}.

Definition set_status (v : GameStatus) (g : GameState) : GameState :=
  mkGameState v (activePlayer g) (left g) (right g) (selectedOption g)
    (optionConfig g) (freezeEnabled g) (soundEnabled g) (hasBeenStarted g)
    (_preCorrectionStatus g).

Definition set_left (v : PlayerState) (g : GameState) : GameState :=
  mkGameState (status g) (activePlayer g) v (right g) (selectedOption g)
    (optionConfig g) (freezeEnabled g) (soundEnabled g) (hasBeenStarted g)
    (_preCorrectionStatus g).

Definition set_right (v : PlayerState) (g : GameState) : GameState :=
  mkGameState (status g) (activePlayer g) (left g) v (selectedOption g)
    (optionConfig g) (freezeEnabled g) (soundEnabled g) (hasBeenStarted g)
    (_preCorrectionStatus g).

Definition set__preCorrectionStatus (v : option GameStatus) (g : GameState) : GameState :=
  mkGameState (status g) (activePlayer g) (left g) (right g) (selectedOption g)
    (optionConfig g) (freezeEnabled g) (soundEnabled g) (hasBeenStarted g) v.

Definition opposite (s : Player) : Player :=
  match s with LEFT => RIGHT | RIGHT => LEFT end.

Module GameStateOps.

(** [new GameState()] *)
Definition new : GameState :=
  mkGameState IDLE None (newPlayerState LEFT) (newPlayerState RIGHT) 1 None
    false false false None.

Definition getPlayer (s : Player) (g : GameState) : PlayerState :=
  match s with LEFT => left g | RIGHT => right g end.

Definition getOpponent (s : Player) (g : GameState) : PlayerState :=
  match s with LEFT => right g | RIGHT => left g end.

(** A write through the reference that [getPlayer(side)] returned. *)
Definition setPlayer (s : Player) (p : PlayerState) (g : GameState) : GameState :=
  match s with LEFT => set_left p g | RIGHT => set_right p g end.

Definition getActivePlayerState (g : GameState) : option PlayerState :=
  match activePlayer g with
  | None => None
  | Some s => Some (getPlayer s g)
  end.

Definition initGame (config : OptionConfig) (g : GameState) : Completion GameState unit :=
  let g1 :=
    mkGameState IDLE None (left g) (right g) (selectedOption g) (Some config)
      (default false (freezeDefault config)) (default false (soundDefault config))
      false (_preCorrectionStatus g) in
  match periods config with
  | [] => Throw g1
  | firstPeriod :: _ =>
      let l :=
        PlayerStateOps.init
          (mkInitConfig (nullish (leftTimeMs config) (cfg_timeMs firstPeriod))
             (cfg_delayMs firstPeriod) (cfg_byoMoments firstPeriod)
             (cfg_byoTimeMs firstPeriod))
          (left g1) in
      let r :=
        PlayerStateOps.init
          (mkInitConfig (nullish (rightTimeMs config) (cfg_timeMs firstPeriod))
             (cfg_delayMs firstPeriod) (cfg_byoMoments firstPeriod)
             (cfg_byoTimeMs firstPeriod))
          (right g1) in
      Normal (set_right (set_color black r) (set_left (set_color white l) g1)) tt
  end.

Definition startGame (s : Player) (g : GameState) : GameState :=
  let g1 :=
    mkGameState RUNNING (Some (opposite s)) (left g) (right g) (selectedOption g)
      (optionConfig g) (freezeEnabled g) (soundEnabled g) true
      (_preCorrectionStatus g) in
  let g2 := setPlayer s (set_color white (getPlayer s g1)) g1 in
  setPlayer (opposite s) (set_color black (getOpponent s g2)) g2.

Definition switchTurn (g : GameState) : GameState :=
  match status g with
  | RUNNING =>
      let g1 :=
        match activePlayer g with
        | Some s => setPlayer s (set_moves (moves (getPlayer s g) + 1) (getPlayer s g)) g
        | None => g
        end in
      mkGameState (status g1)
        (match activePlayer g1 with Some LEFT => Some RIGHT | _ => Some LEFT end)
        (left g1) (right g1) (selectedOption g1) (optionConfig g1)
        (freezeEnabled g1) (soundEnabled g1) (hasBeenStarted g1)
        (_preCorrectionStatus g1)
  | _ => g
  end.

Definition pause (g : GameState) : GameState :=
  match status g with RUNNING => set_status PAUSED g | _ => g end.

Definition resume (g : GameState) : GameState :=
  match status g with PAUSED => set_status RUNNING g | _ => g end.

Definition freeze (g : GameState) : GameState :=
  match status g with
  | RUNNING | PAUSED => set_status FROZEN g
  | _ => g
  end.

Definition enterCorrectionMode (g : GameState) : GameState :=
  match status g with
  | PAUSED | FROZEN => set_status CORRECTING (set__preCorrectionStatus (Some (status g)) g)
  | _ => g
  end.

Definition exitCorrectionMode (g : GameState) : GameState :=
  match status g with
  | CORRECTING =>
      set__preCorrectionStatus None
        (set_status (default PAUSED (_preCorrectionStatus g)) g)
  | _ => g
  end.

Definition reset (g : GameState) : Completion GameState unit :=
  match optionConfig g with
  | Some c => initGame c g
  | None => Normal g tt
  end.

Definition isInFinalPeriod (s : Player) (g : GameState) : bool :=
  match optionConfig g with
  | None => true
  | Some c => Z.of_nat (length (periods c)) - 1 <=? currentPeriod (getPlayer s g)
  end.

Definition togglePause (g : GameState) : GameState :=
  match status g with
  | RUNNING => pause g
  | PAUSED => resume g
  | _ => g
  end.

Definition toggleSound (g : GameState) : GameState :=
  mkGameState (status g) (activePlayer g) (left g) (right g) (selectedOption g)
    (optionConfig g) (freezeEnabled g) (negb (soundEnabled g)) (hasBeenStarted g)
    (_preCorrectionStatus g).

(** Returns whether the toggle was applied. *)
Definition toggleFreeze (g : GameState) : GameState * bool :=
  if hasBeenStarted g then (g, false)
  else
    (mkGameState (status g) (activePlayer g) (left g) (right g) (selectedOption g)
       (optionConfig g) (negb (freezeEnabled g)) (soundEnabled g) (hasBeenStarted g)
       (_preCorrectionStatus g),
     true).

Definition getCurrentPeriodConfig (s : Player) (g : GameState) : option PeriodConfig :=
  match optionConfig g with
  | None => None
  | Some c => periodAt (periods c) (currentPeriod (getPlayer s g))
  end.

Definition isPlayable (g : GameState) : bool :=
  match status g with
  | RUNNING | IDLE => true
  | _ => false
  end.

End GameStateOps.

(** ** engine/PeriodManager.js *)

Record PeriodManager := mkPeriodManager {
  activeMethods : gmap Player TimingMethod;
  _periodStartMoves : gmap Player Z
}.

(** What [PeriodManager.onTick] returns. *)
Record PeriodResult := mkPeriodResult {
  expiredResult : bool;
  periodTransition : bool
}.

Module PeriodManagerOps.

(** [new PeriodManager(gameState)]; the game state it refers to is passed
    to each method below. *)
Definition new : PeriodManager :=
  mkPeriodManager ∅ (<[LEFT := 0]> (<[RIGHT := 0]> ∅)).

Definition createMethod (periodConfig : PeriodConfig) : TimingMethod :=
  match method periodConfig with
  | TIME => ofTime
  | FISCHER => ofFischer (FischerMethod.new periodConfig)
  | DELAY => ofBronsteinDelay (BronsteinDelayMethod.new periodConfig)
  | US_DELAY => ofUsDelay (UsDelayMethod.new periodConfig)
  | BYO_YOMI => ofByoYomi (ByoYomiMethod.new periodConfig)
  | CANADIAN_BYO => ofCanadianByoYomi (CanadianByoYomiMethod.new periodConfig)
  | UPCOUNT => ofUpcount
  | END => ofTime
  end.

Definition init (g : GameState) (pm : PeriodManager) : PeriodManager :=
  match optionConfig g with
  | None => pm
  | Some config =>
      match periods config with
      | [] => pm
      | firstPeriod :: _ =>
          mkPeriodManager
            (<[RIGHT := createMethod firstPeriod]> (<[LEFT := createMethod firstPeriod]> ∅))
            (<[LEFT := 0]> (<[RIGHT := 0]> ∅))
      end
  end.

Definition getMethod (s : Player) (pm : PeriodManager) : option TimingMethod :=
  activeMethods pm !! s.

Definition setMethod (s : Player) (m : TimingMethod) (pm : PeriodManager) : PeriodManager :=
  mkPeriodManager (<[s := m]> (activeMethods pm)) (_periodStartMoves pm).

Definition onTurnStart (s : Player) (st : GameState * PeriodManager)
  : GameState * PeriodManager :=
  let '(g, pm) := st in
  match getMethod s pm with
  | Some m =>
      let '(m', p') := TimingMethodOps.onTurnStart m (GameStateOps.getPlayer s g) in
      (GameStateOps.setPlayer s p' g, setMethod s m' pm)
  | None => st
  end.

Definition onTurnEnd (s : Player) (st : GameState * PeriodManager)
  : GameState * PeriodManager :=
  let '(g, pm) := st in
  match getMethod s pm with
  | Some m =>
      let '(m', p') := TimingMethodOps.onTurnEnd m (GameStateOps.getPlayer s g) in
      (GameStateOps.setPlayer s p' g, setMethod s m' pm)
  | None => st
  end.

(** [oldConfig] is a parameter of the source function that its body never
    reads. *)
Definition _transitionPlayerToPeriod (s : Player) (periodIdx : Z)
    (oldConfig : option PeriodConfig) (newConfig : PeriodConfig)
    (st : GameState * PeriodManager) : GameState * PeriodManager :=
  let '(g, pm) := st in
  let p := set_currentPeriod periodIdx (GameStateOps.getPlayer s g) in
  let p1 :=
    match method newConfig with
    | BYO_YOMI =>
        set_timeMs (orZero (cfg_byoTimeMs newConfig))
          (set_byoMomentTimeMs (orZero (cfg_byoTimeMs newConfig))
             (set_byoMomentsRemaining (orZero (cfg_byoMoments newConfig)) p))
    | CANADIAN_BYO => set_timeMs (orZero (cfg_byoTimeMs newConfig)) p
    | UPCOUNT => set_timeMs 0 p
    | _ => set_timeMs (timeMs p + orZero (cfg_timeMs newConfig)) p
    end in
  let p2 := set_inDelay false (set_delayRemainingMs 0 p1) in
  (GameStateOps.setPlayer s p2 g,
   mkPeriodManager (<[s := createMethod newConfig]> (activeMethods pm))
     (<[s := moves p2]> (_periodStartMoves pm))).

(** [now] is the reading of [Date.now()] that [setFlag] takes.  The call
    throws (a [TypeError]) where the source reads [config.periods] of a
    [null] configuration or [.method] of an [undefined] period. *)
Definition _transitionToNextPeriod (s : Player) (moveBasedTransition : bool) (now : Z)
    (st : GameState * PeriodManager)
  : Completion (GameState * PeriodManager) PeriodResult :=
  let '(g, pm) := st in
  match optionConfig g with
  | None => Throw st
  | Some config =>
      let player := GameStateOps.getPlayer s g in
      let opponent := GameStateOps.getOpponent s g in
      let currentPeriodIdx := currentPeriod player in
      let nextPeriodIdx := currentPeriodIdx + 1 in
      if Z.of_nat (length (periods config)) <=? nextPeriodIdx then
        Normal (GameStateOps.setPlayer s (PlayerStateOps.setFlag BLINKING now player) g, pm)
               (mkPeriodResult true false)
      else
        let currentPeriodConfig := periodAt (periods config) currentPeriodIdx in
        match periodAt (periods config) nextPeriodIdx with
        | None => Throw st
        | Some nextPeriodConfig =>
            if decide (method nextPeriodConfig = END) then
              Normal (GameStateOps.setPlayer s (PlayerStateOps.setFlag BLINKING now player) g, pm)
                     (mkPeriodResult true false)
            else if moveBasedTransition then
              Normal (_transitionPlayerToPeriod s nextPeriodIdx currentPeriodConfig
                        nextPeriodConfig st)
                     (mkPeriodResult false true)
            else
              let st1 :=
                (GameStateOps.setPlayer s (PlayerStateOps.setFlag NON_BLINKING now player) g,
                 pm) in
              let st2 :=
                _transitionPlayerToPeriod s nextPeriodIdx currentPeriodConfig
                  nextPeriodConfig st1 in
              let st3 :=
                if currentPeriod (GameStateOps.getOpponent s (fst st2)) =? currentPeriodIdx
                then _transitionPlayerToPeriod (opposite s) nextPeriodIdx
                       currentPeriodConfig nextPeriodConfig st2
                else st2 in
              Normal st3 (mkPeriodResult false true)
        end
  end.

Definition _handleExpiry (s : Player) (now : Z) (st : GameState * PeriodManager)
  : Completion (GameState * PeriodManager) PeriodResult :=
  let '(g, pm) := st in
  if GameStateOps.isInFinalPeriod s g then
    Normal (GameStateOps.setPlayer s
              (PlayerStateOps.setFlag BLINKING now (GameStateOps.getPlayer s g)) g, pm)
           (mkPeriodResult true false)
  else _transitionToNextPeriod s false now st.

Definition onTick (deltaMs : Z) (s : Player) (now : Z) (st : GameState * PeriodManager)
  : Completion (GameState * PeriodManager) PeriodResult :=
  let '(g, pm) := st in
  match getMethod s pm with
  | None => Normal st (mkPeriodResult false false)
  | Some m =>
      let '(p', result) := TimingMethodOps.onTick m deltaMs (GameStateOps.getPlayer s g) in
      let st1 := (GameStateOps.setPlayer s p' g, pm) in
      if expired result then _handleExpiry s now st1
      else
        match m with
        | ofFischer f =>
            if FischerMethod.isPeriodCompleteByMoves f p'
                 (default 0 (_periodStartMoves pm !! s))
            then _transitionToNextPeriod s true now st1
            else Normal st1 (mkPeriodResult false false)
        | _ => Normal st1 (mkPeriodResult false false)
        end
  end.

End PeriodManagerOps.

(** ** engine/MoveCounter.js *)

Record MoveCounter := mkMoveCounter {
  leftMoves : Z;
  rightMoves : Z
}.

Module MoveCounterOps.

Definition new : MoveCounter := mkMoveCounter 0 0.

Definition recordMove (s : Player) (mc : MoveCounter) : MoveCounter :=
  match s with
  | LEFT => mkMoveCounter (leftMoves mc + 1) (rightMoves mc)
  | RIGHT => mkMoveCounter (leftMoves mc) (rightMoves mc + 1)
  end.

Definition getMoves (s : Player) (mc : MoveCounter) : Z :=
  match s with LEFT => leftMoves mc | RIGHT => rightMoves mc end.

Definition setMoves (s : Player) (count : Z) (mc : MoveCounter) : MoveCounter :=
  match s with
  | LEFT => mkMoveCounter (Z.max 0 count) (rightMoves mc)
  | RIGHT => mkMoveCounter (leftMoves mc) (Z.max 0 count)
  end.

Definition reset (mc : MoveCounter) : MoveCounter := mkMoveCounter 0 0.

End MoveCounterOps.

(** ** engine/TimerEngine.js

    [C] is the type of the tick callbacks that can be installed.  The
    readings of [performance.now()] and [Date.now()] and the handle that
    [requestAnimationFrame] returns are arguments.  Each method returns the
    engine together with what it did to the outside, in order. *)

Inductive VisibilityState := visible | hidden.

Inductive Effect :=
| RequestFrame (handle : Z)
| CancelFrame (handle : Z)
| Deliver (deltaMs : Z)
| AddVisibilityListener
| RemoveVisibilityListener.

Record TimerEngine (C : Type) := mkTimerEngine {
  _rafId : option Z;
  _lastTimestamp : Z;
  _running : bool;
  _onTick : option C;
  _hiddenAtWallClock : Z
}.
Arguments mkTimerEngine {C} _ _ _ _ _.
Arguments _rafId {C} _.
Arguments _lastTimestamp {C} _.
Arguments _running {C} _.
Arguments _onTick {C} _.
Arguments _hiddenAtWallClock {C} _.

Module TimerEngineOps.
Section Callback.

Context {C : Type}.

(** [call c deltaMs e]: what running the callback [c] on [deltaMs] does to
    the engine that invoked it (a callback may call [stop]). *)
Variable call : C -> Z -> TimerEngine C -> TimerEngine C.

Definition new : TimerEngine C := mkTimerEngine None 0 false None 0.

Definition setTickCallback (callback : C) (e : TimerEngine C) : TimerEngine C :=
  mkTimerEngine (_rafId e) (_lastTimestamp e) (_running e) (Some callback)
    (_hiddenAtWallClock e).

Definition start (perfNow handle : Z) (e : TimerEngine C) : TimerEngine C * list Effect :=
  if _running e then (e, [])
  else
    (mkTimerEngine (Some handle) perfNow true (_onTick e) (_hiddenAtWallClock e),
     [RequestFrame handle; AddVisibilityListener]).

Definition stop (e : TimerEngine C) : TimerEngine C * list Effect :=
  if _running e then
    (mkTimerEngine None (_lastTimestamp e) false (_onTick e) (_hiddenAtWallClock e),
     match _rafId e with
     | Some h => [CancelFrame h; RemoveVisibilityListener]
     | None => [RemoveVisibilityListener]
     end)
  else (e, []).

Definition isRunning (e : TimerEngine C) : bool := _running e.

(** [if (this._onTick && d > 0) this._onTick(d)] *)
Definition deliver (d : Z) (e : TimerEngine C) : TimerEngine C * list Effect :=
  match _onTick e with
  | Some c => if 0 <? d then (call c d e, [Deliver d]) else (e, [])
  | None => (e, [])
  end.

Definition _tick (timestamp handle : Z) (e : TimerEngine C) : TimerEngine C * list Effect :=
  if _running e then
    let delta := timestamp - _lastTimestamp e in
    let e1 :=
      mkTimerEngine (_rafId e) timestamp (_running e) (_onTick e) (_hiddenAtWallClock e) in
    let clampedDelta := Z.min delta 1000 in
    let '(e2, out) := deliver clampedDelta e1 in
    (mkTimerEngine (Some handle) (_lastTimestamp e2) (_running e2) (_onTick e2)
       (_hiddenAtWallClock e2),
     out ++ [RequestFrame handle])
  else (e, []).

Definition cancelPending (e : TimerEngine C) : TimerEngine C * list Effect :=
  match _rafId e with
  | Some h =>
      (mkTimerEngine None (_lastTimestamp e) (_running e) (_onTick e)
         (_hiddenAtWallClock e),
       [CancelFrame h])
  | None => (e, [])
  end.

Definition _handleVisibilityChange (visibilityState : VisibilityState)
    (dateNow perfNow handle : Z) (e : TimerEngine C) : TimerEngine C * list Effect :=
  if _running e then
    match visibilityState with
    | visible =>
        let '(e1, out1) := cancelPending e in
        let now := dateNow in
        let delta := now - _hiddenAtWallClock e1 in
        let e2 :=
          mkTimerEngine (_rafId e1) perfNow (_running e1) (_onTick e1)
            (_hiddenAtWallClock e1) in
        let '(e3, out2) := deliver delta e2 in
        (mkTimerEngine (Some handle) (_lastTimestamp e3) (_running e3) (_onTick e3)
           (_hiddenAtWallClock e3),
         out1 ++ out2 ++ [RequestFrame handle])
    | hidden =>
        let '(e1, out1) := cancelPending e in
        (mkTimerEngine (_rafId e1) (_lastTimestamp e1) (_running e1) (_onTick e1) dateNow,
         out1)
    end
  else (e, []).

Definition destroy (e : TimerEngine C) : TimerEngine C * list Effect :=
  let '(e1, out) := stop e in
  (mkTimerEngine (_rafId e1) (_lastTimestamp e1) (_running e1) None
     (_hiddenAtWallClock e1),
   out).

(** The deltas handed to the tick callback, in order. *)
Definition delivered (out : list Effect) : list Z :=
  omap (fun ev => match ev with Deliver d => Some d | _ => None end) out.

End Callback.
End TimerEngineOps.

(** ** app.js: the tick path and the correction callback of [App] *)

(** The one callback that [App] installs: its bound [_onTick]. *)
Inductive AppCallback := boundOnTick.

Record App := mkApp {
  gameState : GameState;
  timerEngine : TimerEngine AppCallback;
  periodManager : PeriodManager;
  moveCounter : MoveCounter
}.

(** The values that [CorrectionMode.save] hands to the apply callback. *)
Record Corrected := mkCorrected {
  c_leftTimeMs : Z;
  c_rightTimeMs : Z;
  c_leftMoves : Z;
  c_rightMoves : Z;
  c_leftPeriod : Z;
  c_rightPeriod : Z
}.

Module AppOps.

(** [this.timerEngine.stop()] inside [App]: [stop] never invokes the
    callback, so what the callback does is of no matter here. *)
Definition stopEngine (e : TimerEngine AppCallback) : TimerEngine AppCallback :=
  fst (TimerEngineOps.stop e).

(** [_onTick(deltaMs)]; [now] is the reading of [Date.now()] used when a
    flag is set. *)
Definition _onTick (deltaMs : Z) (now : Z) (a : App) : Completion App unit :=
  let gs := gameState a in
  match status gs, activePlayer gs with
  | RUNNING, Some active =>
      match PeriodManagerOps.onTick deltaMs active now (gs, periodManager a) with
      | Throw (gs1, pm1) => Throw (mkApp gs1 (timerEngine a) pm1 (moveCounter a))
      | Normal (gs1, pm1) result =>
          if expiredResult result then
            let activeState := GameStateOps.getPlayer active gs1 in
            let gs2 :=
              if decide (flagState activeState = NONE)
              then GameStateOps.setPlayer active
                     (PlayerStateOps.setFlag BLINKING now activeState) gs1
              else gs1 in
            if freezeEnabled gs2 && GameStateOps.isInFinalPeriod active gs2 then
              Normal (mkApp (GameStateOps.freeze gs2) (stopEngine (timerEngine a)) pm1
                        (moveCounter a)) tt
            else Normal (mkApp gs2 (timerEngine a) pm1 (moveCounter a)) tt
          else Normal (mkApp gs1 (timerEngine a) pm1 (moveCounter a)) tt
      end
  | _, _ => Normal a tt
  end.

(** The first callback handed to [correctionMode.enter] in
    [_enterCorrection]. *)
Definition applyCorrection (corrected : Corrected) (a : App) : App :=
  let gs := gameState a in
  let l :=
    set_currentPeriod (c_leftPeriod corrected)
      (set_moves (c_leftMoves corrected) (set_timeMs (c_leftTimeMs corrected) (left gs))) in
  let r :=
    set_currentPeriod (c_rightPeriod corrected)
      (set_moves (c_rightMoves corrected) (set_timeMs (c_rightTimeMs corrected) (right gs))) in
  let gs1 := set_right r (set_left l gs) in
  let mc :=
    MoveCounterOps.setMoves RIGHT (c_rightMoves corrected)
      (MoveCounterOps.setMoves LEFT (c_leftMoves corrected) (moveCounter a)) in
  let '(gs2, pm2) :=
    match optionConfig gs1 with
    | Some config =>
        let maxPeriod := Z.of_nat (length (periods config)) - 1 in
        let gs' :=
          set_right
            (set_currentPeriod (Z.max 0 (Z.min (c_rightPeriod corrected) maxPeriod))
               (right gs1))
            (set_left
               (set_currentPeriod (Z.max 0 (Z.min (c_leftPeriod corrected) maxPeriod))
                  (left gs1))
               gs1) in
        let leftPeriodConfig := periodAt (periods config) (currentPeriod (left gs')) in
        let rightPeriodConfig := periodAt (periods config) (currentPeriod (right gs')) in
        let pm1 :=
          match leftPeriodConfig with
          | Some c => PeriodManagerOps.setMethod LEFT (PeriodManagerOps.createMethod c)
                        (periodManager a)
          | None => periodManager a
          end in
        let pm' :=
          match rightPeriodConfig with
          | Some c => PeriodManagerOps.setMethod RIGHT (PeriodManagerOps.createMethod c) pm1
          | None => pm1
          end in
        (gs', pm')
    | None => (gs1, periodManager a)
    end in
  mkApp (GameStateOps.exitCorrectionMode gs2) (timerEngine a) pm2 mc.

End AppOps.

(** ** Notions used in the statements *)

(** A whole turn as [App] drives it: [onTurnStart], the ticks, [onTurnEnd]. *)
Definition bronsteinTurn (m : BronsteinDelayMethod.t) (deltas : list Z) (p : PlayerState)
  : PlayerState :=
  BronsteinDelayMethod.onTurnEnd m
    (fold_left (fun q d => fst (BronsteinDelayMethod.onTick m d q)) deltas
       (BronsteinDelayMethod.onTurnStart m p)).

(** The state in which a call ended, however it ended. *)
Definition stateOf {S R : Type} (c : Completion S R) : S :=
  match c with Normal s _ => s | Throw s => s end.

Definition threw {S R : Type} (c : Completion S R) : bool :=
  match c with Normal _ _ => false | Throw _ => true end.

(** The new method's family for which a transition adds the period's main
    time to what remains (the last branch of [_transitionPlayerToPeriod]). *)
Definition addsMainTime (t : TimingMethodType) : bool :=
  match t with
  | TIME | FISCHER | DELAY | US_DELAY => true
  | _ => false
  end.

(** Clocks, methods and configurations of the repository's unit tests. *)
Module Fixtures.

Definition player (t : Z) : PlayerState :=
  PlayerStateOps.init (mkInitConfig (Some t) None None None) (newPlayerState LEFT).

Definition bronstein := BronsteinDelayMethod.mk 10000.

Definition usDelay := UsDelayMethod.mk 5000.

Definition byoInfinite := ByoYomiMethod.mk 20000 0 0.
Definition byoFive := ByoYomiMethod.mk 60000 5 0.

Definition twoPeriods : OptionConfig :=
  mkOptionConfig [mkPeriodConfig TIME (Some 300000) None None None None;
                  mkPeriodConfig TIME (Some 150000) None None None None]
    (Some false) (Some false) None None.

Definition configured (c : OptionConfig) : GameState * PeriodManager :=
  let g := stateOf (GameStateOps.initGame c GameStateOps.new) in
  (g, PeriodManagerOps.init g PeriodManagerOps.new).

End Fixtures.

(** ** A turn of a timing method, as the period manager drives it *)

Definition sumZ (l : list Z) : Z := fold_right Z.add 0 l.

(** The ticks of one turn, one after the other, on the same clock. *)
Definition ticks (m : TimingMethod) (deltas : list Z) (p : PlayerState) : PlayerState :=
  fold_left (fun q d => fst (TimingMethodOps.onTick m d q)) deltas p.

(** [onTurnStart], the ticks, [onTurnEnd]. *)
Definition turn (m : TimingMethod) (deltas : list Z) (p : PlayerState)
  : TimingMethod * PlayerState :=
  let '(m1, p1) := TimingMethodOps.onTurnStart m p in
  TimingMethodOps.onTurnEnd m1 (ticks m1 deltas p1).

(** The methods whose [onTick] is the plain countdown clamped at zero. *)
Definition clampsAtZero (m : TimingMethod) : bool :=
  match m with
  | ofTime | ofFischer _ | ofBronsteinDelay _ | ofCanadianByoYomi _ => true
  | _ => false
  end.

(** ** engine/PeriodManager.js: the method type and the Canadian reload *)
Module PeriodManagerMore.

Definition getMethodType (s : Player) (pm : PeriodManager) : TimingMethodType :=
  match PeriodManagerOps.getMethod s pm with
  | Some m => TimingMethodOps.getType m
  | None => TIME
  end.

(** Returns whether the reload was performed. *)
Definition reloadCanadianByo (s : Player) (st : GameState * PeriodManager)
  : GameState * PeriodManager * bool :=
  let '(g, pm) := st in
  match PeriodManagerOps.getMethod s pm with
  | Some (ofCanadianByoYomi c) =>
      let '(c', p') := CanadianByoYomiMethod.reload c (GameStateOps.getPlayer s g) in
      (GameStateOps.setPlayer s (PlayerStateOps.clearFlag p') g,
       PeriodManagerOps.setMethod s (ofCanadianByoYomi c') pm, true)
  | _ => (g, pm, false)
  end.

End PeriodManagerMore.

(** The clock of side [s] after its method's tick (the clock as it is when
    no method is installed), and the game state holding it. *)
Definition ticked (deltaMs : Z) (s : Player) (g : GameState) (pm : PeriodManager)
  : PlayerState :=
  match PeriodManagerOps.getMethod s pm with
  | Some m => fst (TimingMethodOps.onTick m deltaMs (GameStateOps.getPlayer s g))
  | None => GameStateOps.getPlayer s g
  end.

Definition afterMethodTick (deltaMs : Z) (s : Player) (g : GameState) (pm : PeriodManager)
  : GameState :=
  GameStateOps.setPlayer s (ticked deltaMs s g pm) g.

(** Every clock's period index lies within the configured periods. *)
Definition periodsInRange (g : GameState) : Prop :=
  match optionConfig g with
  | Some config =>
      0 <= currentPeriod (left g) <= Z.of_nat (length (periods config)) - 1 /\
      0 <= currentPeriod (right g) <= Z.of_nat (length (periods config)) - 1
  | None => False
  end.

(** ** engine/TimerEngine.js: a run of animation frames

    Each frame is the timestamp it is called with and the handle of the
    frame it requests.  What the frames did to the outside is collected in
    order. *)
Fixpoint frames {C : Type} (call : C -> Z -> TimerEngine C -> TimerEngine C)
    (fs : list (Z * Z)) (e : TimerEngine C) : TimerEngine C * list Effect :=
  match fs with
  | [] => (e, [])
  | (timestamp, handle) :: rest =>
      let '(e1, out1) := TimerEngineOps._tick call timestamp handle e in
      let '(e2, out2) := frames call rest e1 in
      (e2, out1 ++ out2)
  end.

(** The timestamps never go back, starting from [t0]. *)
Fixpoint ascending (t0 : Z) (fs : list (Z * Z)) : Prop :=
  match fs with
  | [] => True
  | (t, _) :: rest => t0 <= t /\ ascending t rest
  end.

(** No two consecutive timestamps are more than [cap] apart. *)
Fixpoint gapsWithin (cap t0 : Z) (fs : list (Z * Z)) : Prop :=
  match fs with
  | [] => True
  | (t, _) :: rest => t - t0 <= cap /\ gapsWithin cap t rest
  end.

Definition lastTimestampOf (t0 : Z) (fs : list (Z * Z)) : Z :=
  List.last (map fst fs) t0.

(** ** ui/CorrectionMode.js

    The overlay's DOM is left out.  The two callbacks that [enter] stores
    are values of the types [S] and [K]; [save] and [cancel] return the call
    they make, for the caller to run. *)

Module Field.

Inductive type := hours | minutes | seconds | moves | period.

Record t := mk { side : Player; type_ : type }.

End Field.

Definition FIELDS : list Field.t :=
  [ Field.mk LEFT Field.hours;
    Field.mk LEFT Field.minutes;
    Field.mk LEFT Field.seconds;
    Field.mk RIGHT Field.hours;
    Field.mk RIGHT Field.minutes;
    Field.mk RIGHT Field.seconds;
    Field.mk LEFT Field.moves;
    Field.mk RIGHT Field.moves;
    Field.mk LEFT Field.period;
    Field.mk RIGHT Field.period ].

(** The object handed to [enter]. *)
Module EnterState.

Record t := mk {
  leftTimeMs : Z;
  rightTimeMs : Z;
  leftMoves : Z;
  rightMoves : Z;
  leftPeriod : Z;
  rightPeriod : Z;
  totalPeriods : Z
}.

End EnterState.

(** [this._values] once [enter] has filled it. *)
Module Values.

Record t := mk {
  leftHours : Z;
  leftMinutes : Z;
  leftSeconds : Z;
  rightHours : Z;
  rightMinutes : Z;
  rightSeconds : Z;
  leftMoves : Z;
  rightMoves : Z;
  leftPeriod : Z;
  rightPeriod : Z;
  totalPeriods : Z
}.

(** [this._values[key]] for the key that [_adjustField] builds from a field. *)
Definition get (f : Field.t) (v : t) : Z :=
  match Field.side f, Field.type_ f with
  | LEFT, Field.hours => leftHours v
  | LEFT, Field.minutes => leftMinutes v
  | LEFT, Field.seconds => leftSeconds v
  | LEFT, Field.moves => leftMoves v
  | LEFT, Field.period => leftPeriod v
  | RIGHT, Field.hours => rightHours v
  | RIGHT, Field.minutes => rightMinutes v
  | RIGHT, Field.seconds => rightSeconds v
  | RIGHT, Field.moves => rightMoves v
  | RIGHT, Field.period => rightPeriod v
  end.

Definition set (f : Field.t) (x : Z) (v : t) : t :=
  match Field.side f, Field.type_ f with
  | LEFT, Field.hours =>
      mk x (leftMinutes v) (leftSeconds v) (rightHours v) (rightMinutes v) (rightSeconds v)
        (leftMoves v) (rightMoves v) (leftPeriod v) (rightPeriod v) (totalPeriods v)
  | LEFT, Field.minutes =>
      mk (leftHours v) x (leftSeconds v) (rightHours v) (rightMinutes v) (rightSeconds v)
        (leftMoves v) (rightMoves v) (leftPeriod v) (rightPeriod v) (totalPeriods v)
  | LEFT, Field.seconds =>
      mk (leftHours v) (leftMinutes v) x (rightHours v) (rightMinutes v) (rightSeconds v)
        (leftMoves v) (rightMoves v) (leftPeriod v) (rightPeriod v) (totalPeriods v)
  | RIGHT, Field.hours =>
      mk (leftHours v) (leftMinutes v) (leftSeconds v) x (rightMinutes v) (rightSeconds v)
        (leftMoves v) (rightMoves v) (leftPeriod v) (rightPeriod v) (totalPeriods v)
  | RIGHT, Field.minutes =>
      mk (leftHours v) (leftMinutes v) (leftSeconds v) (rightHours v) x (rightSeconds v)
        (leftMoves v) (rightMoves v) (leftPeriod v) (rightPeriod v) (totalPeriods v)
  | RIGHT, Field.seconds =>
      mk (leftHours v) (leftMinutes v) (leftSeconds v) (rightHours v) (rightMinutes v) x
        (leftMoves v) (rightMoves v) (leftPeriod v) (rightPeriod v) (totalPeriods v)
  | LEFT, Field.moves =>
      mk (leftHours v) (leftMinutes v) (leftSeconds v) (rightHours v) (rightMinutes v)
        (rightSeconds v) x (rightMoves v) (leftPeriod v) (rightPeriod v) (totalPeriods v)
  | RIGHT, Field.moves =>
      mk (leftHours v) (leftMinutes v) (leftSeconds v) (rightHours v) (rightMinutes v)
        (rightSeconds v) (leftMoves v) x (leftPeriod v) (rightPeriod v) (totalPeriods v)
  | LEFT, Field.period =>
      mk (leftHours v) (leftMinutes v) (leftSeconds v) (rightHours v) (rightMinutes v)
        (rightSeconds v) (leftMoves v) (rightMoves v) x (rightPeriod v) (totalPeriods v)
  | RIGHT, Field.period =>
      mk (leftHours v) (leftMinutes v) (leftSeconds v) (rightHours v) (rightMinutes v)
        (rightSeconds v) (leftMoves v) (rightMoves v) (leftPeriod v) x (totalPeriods v)
  end.

End Values.

(** [_values] is [None] for the empty object that the constructor stores;
    the methods that read the values are behind the [_active] guard, and
    only [enter] sets [_active], after it has filled them. *)
Record CorrectionMode (S K : Type) := mkCorrectionMode {
  _activeFieldIndex : Z;
  _values : option Values.t;
  _onSave : option S;
  _onCancel : option K;
  _active : bool
}.
Arguments mkCorrectionMode {S K} _ _ _ _ _.
Arguments _activeFieldIndex {S K} _.
Arguments _values {S K} _.
Arguments _onSave {S K} _.
Arguments _onCancel {S K} _.
Arguments _active {S K} _.

Module CorrectionModeOps.
Section Callbacks.

Context {S K : Type}.

Definition new : CorrectionMode S K := mkCorrectionMode 0 None None None false.

(** [{ hours, minutes, seconds }]; [%] is the remainder that truncates. *)
Definition _msToComponents (ms : Z) : Z * Z * Z :=
  let totalSeconds := Z.max 0 ms / 1000 in
  (totalSeconds / 3600, Z.rem totalSeconds 3600 / 60, Z.rem totalSeconds 60).

Definition _componentsToMs (hours minutes seconds : Z) : Z :=
  (hours * 3600 + minutes * 60 + seconds) * 1000.

Definition enter (state : EnterState.t) (onSave : S) (onCancel : K)
    (cm : CorrectionMode S K) : CorrectionMode S K :=
  let '(lh, lm, ls) := _msToComponents (EnterState.leftTimeMs state) in
  let '(rh, rm, rs) := _msToComponents (EnterState.rightTimeMs state) in
  mkCorrectionMode 0
    (Some (Values.mk lh lm ls rh rm rs
             (EnterState.leftMoves state) (EnterState.rightMoves state)
             (EnterState.leftPeriod state) (EnterState.rightPeriod state)
             (EnterState.totalPeriods state)))
    (Some onSave) (Some onCancel) true.

Definition exit (cm : CorrectionMode S K) : CorrectionMode S K :=
  mkCorrectionMode (_activeFieldIndex cm) (_values cm) (_onSave cm) (_onCancel cm) false.

Definition isActive (cm : CorrectionMode S K) : bool := _active cm.

Definition nextField (cm : CorrectionMode S K) : CorrectionMode S K :=
  if _active cm then
    mkCorrectionMode (Z.rem (_activeFieldIndex cm + 1) (Z.of_nat (length FIELDS)))
      (_values cm) (_onSave cm) (_onCancel cm) (_active cm)
  else cm.

Definition prevField (cm : CorrectionMode S K) : CorrectionMode S K :=
  if _active cm then
    mkCorrectionMode
      (Z.rem (_activeFieldIndex cm - 1 + Z.of_nat (length FIELDS)) (Z.of_nat (length FIELDS)))
      (_values cm) (_onSave cm) (_onCancel cm) (_active cm)
  else cm.

(** The click on a field of the overlay. *)
Definition selectField (fieldIndex : Z) (cm : CorrectionMode S K) : CorrectionMode S K :=
  mkCorrectionMode fieldIndex (_values cm) (_onSave cm) (_onCancel cm) (_active cm).

(** [FIELDS[i]]: [undefined] outside the array. *)
Definition fieldAt (i : Z) : option Field.t :=
  if i <? 0 then None else FIELDS !! Z.to_nat i.

(** The [switch] of [_adjustField] on the values. *)
Definition adjustValues (field : Field.t) (delta : Z) (v : Values.t) : Values.t :=
  match Field.type_ field with
  | Field.hours => Values.set field (Z.max 0 (Z.min 9 (Values.get field v + delta))) v
  | Field.minutes => Values.set field (Z.max 0 (Z.min 59 (Values.get field v + delta))) v
  | Field.seconds => Values.set field (Z.max 0 (Z.min 59 (Values.get field v + delta))) v
  | Field.moves =>
      let newVal := Z.max 0 (Values.get field v + delta) in
      let oldVal := Values.get field v in
      let v1 := Values.set field newVal v in
      match Field.side field with
      | LEFT =>
          let diff := newVal - oldVal in
          Values.set (Field.mk RIGHT Field.moves) (Z.max 0 (Values.rightMoves v1 + diff)) v1
      | RIGHT => v1
      end
  | Field.period =>
      Values.set field
        (Z.max 0 (Z.min (Values.totalPeriods v - 1) (Values.get field v + delta))) v
  end.

(** [_adjustField] throws (a [TypeError]) where [FIELDS[i]] is [undefined].
    After the [switch] it calls [_updateDisplay], which throws (a
    [TypeError]) where the field elements are not rendered: [enter] renders
    them and [exit] drops them, so they are there exactly while the overlay
    is active.  On the empty object that the constructor stores for the
    values, before the first [enter], the [switch] writes a [NaN] that
    [Values.t] does not hold; nothing is rendered then, and the call
    throws. *)
Definition _adjustField (delta : Z) (cm : CorrectionMode S K)
  : Completion (CorrectionMode S K) unit :=
  match fieldAt (_activeFieldIndex cm) with
  | None => Throw cm
  | Some field =>
      match _values cm with
      | Some v =>
          let cm1 :=
            mkCorrectionMode (_activeFieldIndex cm) (Some (adjustValues field delta v))
              (_onSave cm) (_onCancel cm) (_active cm) in
          if _active cm then Normal cm1 tt else Throw cm1
      | None => Throw cm
      end
  end.

Definition increment (cm : CorrectionMode S K) : Completion (CorrectionMode S K) unit :=
  if _active cm then _adjustField 1 cm else Normal cm tt.

Definition decrement (cm : CorrectionMode S K) : Completion (CorrectionMode S K) unit :=
  if _active cm then _adjustField (-1) cm else Normal cm tt.

(** What [save] hands to [_onSave]. *)
Definition corrected (v : Values.t) : Corrected :=
  mkCorrected
    (_componentsToMs (Values.leftHours v) (Values.leftMinutes v) (Values.leftSeconds v))
    (_componentsToMs (Values.rightHours v) (Values.rightMinutes v) (Values.rightSeconds v))
    (Values.leftMoves v) (Values.rightMoves v) (Values.leftPeriod v) (Values.rightPeriod v).

(** Returns the call of [_onSave] that it makes, if it makes one. *)
Definition save (cm : CorrectionMode S K) : CorrectionMode S K * option (S * Corrected) :=
  if _active cm then
    (exit cm,
     match _onSave cm, _values cm with
     | Some onSave, Some v => Some (onSave, corrected v)
     | _, _ => None
     end)
  else (cm, None).

(** Returns the call of [_onCancel] that it makes, if it makes one. *)
Definition cancel (cm : CorrectionMode S K) : CorrectionMode S K * option K :=
  (exit cm, _onCancel cm).

End Callbacks.
End CorrectionModeOps.

(** What the user does on the shown overlay: the four buttons and the click
    on one of the fields. *)
Inductive OverlayOp :=
| opNext
| opPrev
| opIncrement
| opDecrement
| opSelect (fieldIndex : Z).

Definition overlayStep {S K : Type} (o : OverlayOp) (cm : CorrectionMode S K)
  : Completion (CorrectionMode S K) unit :=
  match o with
  | opNext => Normal (CorrectionModeOps.nextField cm) tt
  | opPrev => Normal (CorrectionModeOps.prevField cm) tt
  | opIncrement => CorrectionModeOps.increment cm
  | opDecrement => CorrectionModeOps.decrement cm
  | opSelect i => Normal (CorrectionModeOps.selectField i cm) tt
  end.

(** The steps one after the other, up to the first that throws. *)
Fixpoint overlayRun {S K : Type} (ops : list OverlayOp) (cm : CorrectionMode S K)
  : Completion (CorrectionMode S K) unit :=
  match ops with
  | [] => Normal cm tt
  | o :: rest =>
      match overlayStep o cm with
      | Normal cm1 _ => overlayRun rest cm1
      | Throw cm1 => Throw cm1
      end
  end.

(** A click selects one of the fields that the overlay shows. *)
Definition opInRange (o : OverlayOp) : Prop :=
  match o with
  | opSelect i => 0 <= i < Z.of_nat (length FIELDS)
  | _ => True
  end.

(** The ranges of the values that the overlay edits. *)
Definition valuesOk (v : Values.t) : Prop :=
  0 <= Values.leftHours v /\ 0 <= Values.leftMinutes v <= 59 /\
  0 <= Values.leftSeconds v <= 59 /\
  0 <= Values.rightHours v /\ 0 <= Values.rightMinutes v <= 59 /\
  0 <= Values.rightSeconds v <= 59 /\
  0 <= Values.leftMoves v /\ 0 <= Values.rightMoves v /\
  0 <= Values.leftPeriod v <= Values.totalPeriods v - 1 /\
  0 <= Values.rightPeriod v <= Values.totalPeriods v - 1.

Definition correctedOk (totalPeriods : Z) (c : Corrected) : Prop :=
  0 <= c_leftTimeMs c /\ Z.rem (c_leftTimeMs c) 1000 = 0 /\
  0 <= c_rightTimeMs c /\ Z.rem (c_rightTimeMs c) 1000 = 0 /\
  0 <= c_leftMoves c /\ 0 <= c_rightMoves c /\
  0 <= c_leftPeriod c <= totalPeriods - 1 /\
  0 <= c_rightPeriod c <= totalPeriods - 1.

(** What holds of the shown overlay after each step. *)
Definition overlayOk {S K : Type} (total : Z) (cm : CorrectionMode S K) : Prop :=
  _active cm = true /\ 0 <= _activeFieldIndex cm < Z.of_nat (length FIELDS) /\
  exists v, _values cm = Some v /\ valuesOk v /\ Values.totalPeriods v = total.

(** ** presets/presets.js

    The display strings ([name], [description]) are left out; a preset is
    its [id] and what [initGame] reads of it. *)
Module Presets.

Definition min (m : Z) : Z := m * 60 * 1000.
Definition hr (h : Z) : Z := h * 60 * 60 * 1000.
Definition sec (s : Z) : Z := s * 1000.

Record Preset := mkPreset { id : Z; config : OptionConfig }.

Definition presets : list Preset :=
  [
  mkPreset 1
    (mkOptionConfig
       [mkPeriodConfig TIME (Some (min 5)) None None None None]
       (Some false) (Some false) None None);
  mkPreset 2
    (mkOptionConfig
       [mkPeriodConfig TIME (Some (min 10)) None None None None]
       (Some false) (Some false) None None);
  mkPreset 3
    (mkOptionConfig
       [mkPeriodConfig TIME (Some (min 25)) None None None None]
       (Some false) (Some false) None None);
  mkPreset 4
    (mkOptionConfig
       [mkPeriodConfig TIME (Some (hr 1)) None None None None]
       (Some false) (Some false) None None);
  mkPreset 5
    (mkOptionConfig
       [mkPeriodConfig TIME (Some (hr 2)) None None None None]
       (Some false) (Some false) None None);
  mkPreset 6
    (mkOptionConfig
       [mkPeriodConfig TIME (Some (hr 2)) None None None None;
        mkPeriodConfig TIME (Some (min 30)) None None None None]
       (Some false) (Some false) None None);
  mkPreset 7
    (mkOptionConfig
       [mkPeriodConfig TIME (Some (hr 2)) None None None None;
        mkPeriodConfig TIME (Some (hr 1)) None None None None]
       (Some false) (Some false) None None);
  mkPreset 8
    (mkOptionConfig
       [mkPeriodConfig TIME (Some (hr 2)) None None None None;
        mkPeriodConfig TIME (Some (hr 1)) None None None None;
        mkPeriodConfig TIME (Some (min 30)) None None None None]
       (Some false) (Some false) None None);
  mkPreset 9
    (mkOptionConfig
       [mkPeriodConfig TIME (Some (hr 2)) None None None None;
        mkPeriodConfig TIME (Some (hr 1)) None None None None;
        mkPeriodConfig TIME (Some (hr 1)) None None None None]
       (Some false) (Some false) None None);
  mkPreset 10
    (mkOptionConfig
       [mkPeriodConfig FISCHER (Some (min 3)) (Some (sec 2)) None None None]
       (Some true) (Some false) None None);
  mkPreset 11
    (mkOptionConfig
       [mkPeriodConfig FISCHER (Some (min 25)) (Some (sec 10)) None None None]
       (Some true) (Some false) None None);
  mkPreset 12
    (mkOptionConfig
       [mkPeriodConfig FISCHER (Some (hr 1 + min 30)) (Some (sec 30)) None None None]
       (Some true) (Some false) None None);
  mkPreset 13
    (mkOptionConfig
       [mkPeriodConfig FISCHER (Some (hr 1 + min 30)) (Some (sec 30)) None None None;
        mkPeriodConfig FISCHER (Some (min 30)) (Some (sec 30)) None None None]
       (Some true) (Some false) None None);
  mkPreset 14
    (mkOptionConfig
       [mkPeriodConfig FISCHER (Some (hr 1 + min 40)) (Some (sec 30)) None None None;
        mkPeriodConfig FISCHER (Some (min 50)) (Some (sec 30)) None None None;
        mkPeriodConfig FISCHER (Some (min 15)) (Some (sec 30)) None None None]
       (Some true) (Some false) None None);
  mkPreset 15
    (mkOptionConfig
       [mkPeriodConfig DELAY (Some (min 25)) (Some (sec 10)) None None None]
       (Some true) (Some false) None None);
  mkPreset 16
    (mkOptionConfig
       [mkPeriodConfig DELAY (Some (hr 1 + min 55)) (Some (sec 5)) None None None]
       (Some true) (Some false) None None);
  mkPreset 17
    (mkOptionConfig
       [mkPeriodConfig DELAY (Some (hr 2)) (Some (sec 30)) None None None;
        mkPeriodConfig DELAY (Some (min 15)) (Some (sec 30)) None None None]
       (Some true) (Some false) None None);
  mkPreset 18
    (mkOptionConfig
       [mkPeriodConfig DELAY (Some (hr 2)) (Some (sec 30)) None None None;
        mkPeriodConfig DELAY (Some (hr 1)) (Some (sec 30)) None None None;
        mkPeriodConfig DELAY (Some (min 15)) (Some (sec 30)) None None None]
       (Some true) (Some false) None None);
  mkPreset 19
    (mkOptionConfig
       [mkPeriodConfig TIME (Some (hr 1)) None None None None;
        mkPeriodConfig CANADIAN_BYO None None None (Some (min 5)) None]
       (Some false) (Some true) None None);
  mkPreset 20
    (mkOptionConfig
       [mkPeriodConfig TIME (Some (hr 1)) None None None None;
        mkPeriodConfig BYO_YOMI None None None (Some (sec 20)) (Some (1))]
       (Some false) (Some true) None None);
  mkPreset 21
    (mkOptionConfig
       [mkPeriodConfig TIME (Some (min 25)) None None None None;
        mkPeriodConfig UPCOUNT None None None None None]
       (Some false) (Some true) None None);
  mkPreset 22
    (mkOptionConfig
       [mkPeriodConfig US_DELAY (Some (min 5)) (Some (sec 2)) None None None]
       (Some false) (Some false) None None);
  mkPreset 23
    (mkOptionConfig
       [mkPeriodConfig US_DELAY (Some (min 25)) (Some (sec 5)) None None None]
       (Some false) (Some false) None None);
  mkPreset 24
    (mkOptionConfig
       [mkPeriodConfig US_DELAY (Some (hr 1 + min 55)) (Some (sec 5)) None None None;
        mkPeriodConfig US_DELAY (Some (hr 1)) (Some (sec 5)) None None None]
       (Some false) (Some false) None None);
  mkPreset 25
    (mkOptionConfig
       [mkPeriodConfig TIME (Some (min 1)) None None None None]
       (Some false) (Some false) None None);
  mkPreset 26
    (mkOptionConfig
       [mkPeriodConfig TIME (Some (sec 30)) None None None None]
       (Some false) (Some false) None None)
  ].

(** [presets.find((p) => p.id === id) || null] *)
Definition getPreset (n : Z) : option OptionConfig :=
  option_map config (find (fun p => id p =? n) presets).

End Presets.

(** ** utils/constants.js: [Limits] *)
Module Limits.

Definition MAX_PERIODS : Z := 4.
Definition MAX_MANUAL_OPTIONS : Z := 5.
Definition MANUAL_OPTION_START : Z := 27.
Definition MANUAL_OPTION_END : Z := 31.
Definition TOTAL_PRESETS : Z := 26.

End Limits.

(** ** storage/StorageManager.js

    What [JSON.parse] gave for one slot of the stored array, as far as the
    validation tells the values apart, for the stored entries that are
    option configurations: the periods of [slotOption] are period objects
    with numbers in their fields.  The entries that pass the validation
    without being option configurations are added by [StoredEntry] below. *)
Inductive StoredSlot :=
| slotNull
| slotWithoutPeriods
| slotOption (c : OptionConfig).

Module StorageManager.

(** [parsed] is [None] where nothing is stored, the stored text does not
    parse or the parsed value is not an array. *)
Definition loadCustomOptions (parsed : option (list StoredSlot)) : list (option OptionConfig) :=
  match parsed with
  | Some l =>
      map (fun slot =>
             match slot with
             | slotOption c => match periods c with [] => None | _ :: _ => Some c end
             | _ => None
             end)
          (take (Z.to_nat Limits.MAX_MANUAL_OPTIONS)
             (l ++ replicate (Z.to_nat Limits.MAX_MANUAL_OPTIONS - length l) slotNull))
  | None => [None; None; None; None; None]
  end.

Definition loadCustomOption (slot : Z) (parsed : option (list StoredSlot))
  : option OptionConfig :=
  if (slot <? 0) || (Limits.MAX_MANUAL_OPTIONS <=? slot) then None
  else
    match loadCustomOptions parsed !! Z.to_nat slot with
    | Some (Some c) => Some c
    | _ => None
    end.

(** [stored] is the number that [parseInt] read, if one is stored. *)
Definition loadLastOption (stored : option Z) : Z :=
  match stored with
  | Some num => if (1 <=? num) && (num <=? Limits.MANUAL_OPTION_END) then num else 1
  | None => 1
  end.

End StorageManager.

(** ** app.js: the input handlers of [App]

    Besides the four objects of [App], the handlers read the correction
    overlay and the pending confirmation of a reset.  Sound, display, theme,
    rotation and wake lock are left out; what is written to [localStorage] is
    left out, and what is read from it is an argument. *)

(** The two closures that [_enterCorrection] hands to the overlay. *)
Inductive ApplyCallback := applyCallback.
Inductive CancelCallback := cancelCallback.

Definition set_selectedOption (v : Z) (g : GameState) : GameState :=
  mkGameState (status g) (activePlayer g) (left g) (right g) v
    (optionConfig g) (freezeEnabled g) (soundEnabled g) (hasBeenStarted g)
    (_preCorrectionStatus g).

Record AppUi := mkAppUi {
  app : App;
  correctionMode : CorrectionMode ApplyCallback CancelCallback;
  _resetPending : bool
}.

Inductive Direction := navLeft | navRight | navUp | navDown.

(** A call on the overlay, made from a handler of [App]. *)
Definition liftOverlay (u : AppUi)
    (c : Completion (CorrectionMode ApplyCallback CancelCallback) unit)
  : Completion AppUi unit :=
  match c with
  | Normal cm _ => Normal (mkAppUi (app u) cm (_resetPending u)) tt
  | Throw cm => Throw (mkAppUi (app u) cm (_resetPending u))
  end.

Module AppHandlers.

Definition set_app (a : App) (u : AppUi) : AppUi :=
  mkAppUi a (correctionMode u) (_resetPending u).

Definition set_gameState (g : GameState) (a : App) : App :=
  mkApp g (timerEngine a) (periodManager a) (moveCounter a).

(** [new App()] followed by [setTickCallback] of [init]. *)
Definition new : AppUi :=
  mkAppUi
    (mkApp GameStateOps.new
       (TimerEngineOps.setTickCallback boundOnTick TimerEngineOps.new)
       PeriodManagerOps.new MoveCounterOps.new)
    CorrectionModeOps.new false.

(** [this.timerEngine.start()]: [start] never invokes the callback. *)
Definition startEngine (perfNow handle : Z) (e : TimerEngine AppCallback)
  : TimerEngine AppCallback :=
  fst (TimerEngineOps.start perfNow handle e).

(** [periodManager.onTurnStart(gs.activePlayer)]: with no active side the
    map has no method and nothing happens. *)
Definition onTurnStartOf (active : option Player) (st : GameState * PeriodManager)
  : GameState * PeriodManager :=
  match active with
  | Some s => PeriodManagerOps.onTurnStart s st
  | None => st
  end.

Definition onTurnEndOf (active : option Player) (st : GameState * PeriodManager)
  : GameState * PeriodManager :=
  match active with
  | Some s => PeriodManagerOps.onTurnEnd s st
  | None => st
  end.

(** [moveCounter.recordMove(side)]: every side but ['left'] counts for the
    right. *)
Definition recordMoveOf (active : option Player) (mc : MoveCounter) : MoveCounter :=
  match active with
  | Some s => MoveCounterOps.recordMove s mc
  | None => MoveCounterOps.recordMove RIGHT mc
  end.

(** The first tap or key press of a match: the [IDLE] branch shared by
    [_handleClockTap] and [_handleSwitchTurn]. *)
Definition startMatch (side : Player) (perfNow handle : Z) (a : App) : App :=
  let gs1 := GameStateOps.startGame side (gameState a) in
  let pm1 := PeriodManagerOps.init gs1 (periodManager a) in
  let '(gs2, pm2) := onTurnStartOf (activePlayer gs1) (gs1, pm1) in
  mkApp gs2 (startEngine perfNow handle (timerEngine a)) pm2 (moveCounter a).

Definition _switchTurn (a : App) : App :=
  let gs := gameState a in
  let previousActive := activePlayer gs in
  let '(gs1, pm1) := onTurnEndOf previousActive (gs, periodManager a) in
  let mc := recordMoveOf previousActive (moveCounter a) in
  let gs2 := GameStateOps.switchTurn gs1 in
  let '(gs3, pm3) := onTurnStartOf (activePlayer gs2) (gs2, pm1) in
  mkApp gs3 (timerEngine a) pm3 mc.

Definition _handleClockTap (side : Player) (perfNow handle : Z) (a : App) : App :=
  match status (gameState a) with
  | IDLE => startMatch side perfNow handle a
  | RUNNING =>
      if decide (activePlayer (gameState a) = Some side) then _switchTurn a else a
  | _ => a
  end.

Definition _handleSwitchTurn (perfNow handle : Z) (a : App) : App :=
  match status (gameState a) with
  | IDLE => startMatch LEFT perfNow handle a
  | RUNNING => _switchTurn a
  | _ => a
  end.

Definition _handleTogglePause (perfNow handle : Z) (a : App) : App :=
  match status (gameState a) with
  | RUNNING =>
      mkApp (GameStateOps.pause (gameState a)) (AppOps.stopEngine (timerEngine a))
        (periodManager a) (moveCounter a)
  | PAUSED =>
      mkApp (GameStateOps.resume (gameState a)) (startEngine perfNow handle (timerEngine a))
        (periodManager a) (moveCounter a)
  | _ => a
  end.

Definition _cancelResetConfirmation (u : AppUi) : AppUi :=
  mkAppUi (app u) (correctionMode u) false.

Definition _openSettings (u : AppUi) : AppUi :=
  let u1 := if _resetPending u then _cancelResetConfirmation u else u in
  let a := app u1 in
  match status (gameState a) with
  | RUNNING =>
      set_app (mkApp (GameStateOps.pause (gameState a)) (AppOps.stopEngine (timerEngine a))
                 (periodManager a) (moveCounter a)) u1
  | _ => u1
  end.

(** Where [initGame] throws, the move counter is not reset. *)
Definition _selectOption (config : OptionConfig) (optionNumber : Z) (a : App)
  : Completion App unit :=
  match GameStateOps.initGame config (set_selectedOption optionNumber (gameState a)) with
  | Normal gs1 _ =>
      Normal (mkApp gs1 (timerEngine a) (periodManager a)
                (MoveCounterOps.reset (moveCounter a))) tt
  | Throw gs1 => Throw (set_gameState gs1 a)
  end.

(** [parsed] is what is stored for the custom options. *)
Definition _loadOption (optionNumber : Z) (parsed : option (list StoredSlot)) (a : App)
  : Completion App unit :=
  let fallback :=
    match Presets.getPreset 1 with
    | Some preset => _selectOption preset 1 a
    | None => Normal a tt
    end in
  let manual :=
    if (Limits.MANUAL_OPTION_START <=? optionNumber)
       && (optionNumber <=? Limits.MANUAL_OPTION_END)
    then
      match StorageManager.loadCustomOption (optionNumber - Limits.MANUAL_OPTION_START)
              parsed with
      | Some custom => _selectOption custom optionNumber a
      | None => fallback
      end
    else fallback in
  if (1 <=? optionNumber) && (optionNumber <=? Limits.TOTAL_PRESETS) then
    match Presets.getPreset optionNumber with
    | Some preset => _selectOption preset optionNumber a
    | None => manual
    end
  else manual.

(** [settingsVisible] is the reading of [settingsPanel.isVisible()]. *)
Definition _quickPreset (num : Z) (settingsVisible : bool) (a : App) : Completion App unit :=
  match status (gameState a) with
  | IDLE =>
      if settingsVisible then Normal a tt
      else
        match Presets.getPreset num with
        | Some preset => _selectOption preset num a
        | None => Normal a tt
        end
  | _ => Normal a tt
  end.

Definition _toggleSound (a : App) : App :=
  set_gameState (GameStateOps.toggleSound (gameState a)) a.

Definition _toggleFreeze (a : App) : App :=
  set_gameState (fst (GameStateOps.toggleFreeze (gameState a))) a.

(** Where [reset] throws, the move counter is not reset. *)
Definition _confirmReset (u : AppUi) : Completion AppUi unit :=
  let a := app u in
  match status (gameState a) with
  | IDLE => Normal u tt
  | _ =>
      if _resetPending u then
        let u1 := _cancelResetConfirmation u in
        let e := AppOps.stopEngine (timerEngine a) in
        match GameStateOps.reset (gameState a) with
        | Normal gs1 _ =>
            Normal (set_app (mkApp gs1 e (periodManager a)
                               (MoveCounterOps.reset (moveCounter a))) u1) tt
        | Throw gs1 =>
            Throw (set_app (mkApp gs1 e (periodManager a) (moveCounter a)) u1)
        end
      else Normal (mkAppUi (app u) (correctionMode u) true) tt
  end.

(** The call that the overlay makes, run on [App]: the two closures of
    [_enterCorrection]. *)
Definition runSave (call : option (ApplyCallback * Corrected)) (a : App) : App :=
  match call with
  | Some (applyCallback, corrected) => AppOps.applyCorrection corrected a
  | None => a
  end.

Definition runCancel (call : option CancelCallback) (a : App) : App :=
  match call with
  | Some cancelCallback => set_gameState (GameStateOps.exitCorrectionMode (gameState a)) a
  | None => a
  end.

Definition _enterCorrection (u : AppUi) : AppUi :=
  let a := app u in
  let gs := gameState a in
  match status gs with
  | PAUSED | FROZEN =>
      let gs1 := GameStateOps.enterCorrectionMode gs in
      let state :=
        EnterState.mk (timeMs (left gs1)) (timeMs (right gs1))
          (moves (left gs1)) (moves (right gs1))
          (currentPeriod (left gs1)) (currentPeriod (right gs1))
          (match optionConfig gs1 with
           | Some c => Z.of_nat (length (periods c))
           | None => 1
           end) in
      mkAppUi (set_gameState gs1 a)
        (CorrectionModeOps.enter state applyCallback cancelCallback (correctionMode u))
        (_resetPending u)
  | _ => u
  end.

(** The overlay's save and cancel buttons. *)
Definition overlaySave (u : AppUi) : AppUi :=
  let '(cm, call) := CorrectionModeOps.save (correctionMode u) in
  mkAppUi (runSave call (app u)) cm (_resetPending u).

Definition overlayCancel (u : AppUi) : AppUi :=
  let '(cm, call) := CorrectionModeOps.cancel (correctionMode u) in
  mkAppUi (runCancel call (app u)) cm (_resetPending u).

Definition _handleEscape (settingsVisible : bool) (perfNow handle : Z) (u : AppUi) : AppUi :=
  if _resetPending u then _cancelResetConfirmation u
  else if CorrectionModeOps.isActive (correctionMode u) then
    let u1 := overlayCancel u in
    set_app (set_gameState (GameStateOps.exitCorrectionMode (gameState (app u1))) (app u1)) u1
  else if settingsVisible then u
  else
    match status (gameState (app u)) with
    | RUNNING => set_app (_handleTogglePause perfNow handle (app u)) u
    | _ => u
    end.

Definition _handleNav (direction : Direction) (u : AppUi) : Completion AppUi unit :=
  if CorrectionModeOps.isActive (correctionMode u) then
    liftOverlay u
      (match direction with
       | navLeft => overlayStep opPrev (correctionMode u)
       | navRight => overlayStep opNext (correctionMode u)
       | navUp => overlayStep opIncrement (correctionMode u)
       | navDown => overlayStep opDecrement (correctionMode u)
       end)
  else Normal u tt.

End AppHandlers.

(** ** What happens to a running [App]

    One constructor for each way into the handlers: the input events that
    [_setupInput] wires, the settings panel's callback, the engine's tick,
    the timer that ends a reset confirmation, and the overlay's buttons,
    which are there only while the overlay is shown. *)
Inductive Event :=
| evClockTap (side : Player) (perfNow handle : Z)
| evSwitchTurn (perfNow handle : Z)
| evTogglePause (perfNow handle : Z)
| evTick (deltaMs now : Z)
| evOpenSettings
| evSelectOption (config : OptionConfig) (optionNumber : Z)
| evQuickPreset (num : Z) (settingsVisible : bool)
| evToggleSound
| evToggleFreeze
| evConfirmReset
| evResetTimeout
| evEscape (settingsVisible : bool) (perfNow handle : Z)
| evNav (direction : Direction)
| evEnterCorrection
| evOverlay (op : OverlayOp)
| evOverlaySave
| evOverlayCancel.

Definition liftApp (u : AppUi) (c : Completion App unit) : Completion AppUi unit :=
  match c with
  | Normal a _ => Normal (AppHandlers.set_app a u) tt
  | Throw a => Throw (AppHandlers.set_app a u)
  end.

Definition step (ev : Event) (u : AppUi) : Completion AppUi unit :=
  match ev with
  | evClockTap side perfNow handle =>
      Normal (AppHandlers.set_app (AppHandlers._handleClockTap side perfNow handle (app u)) u) tt
  | evSwitchTurn perfNow handle =>
      Normal (AppHandlers.set_app (AppHandlers._handleSwitchTurn perfNow handle (app u)) u) tt
  | evTogglePause perfNow handle =>
      Normal (AppHandlers.set_app (AppHandlers._handleTogglePause perfNow handle (app u)) u) tt
  | evTick deltaMs now => liftApp u (AppOps._onTick deltaMs now (app u))
  | evOpenSettings => Normal (AppHandlers._openSettings u) tt
  | evSelectOption config optionNumber =>
      liftApp u (AppHandlers._selectOption config optionNumber (app u))
  | evQuickPreset num settingsVisible =>
      liftApp u (AppHandlers._quickPreset num settingsVisible (app u))
  | evToggleSound => Normal (AppHandlers.set_app (AppHandlers._toggleSound (app u)) u) tt
  | evToggleFreeze => Normal (AppHandlers.set_app (AppHandlers._toggleFreeze (app u)) u) tt
  | evConfirmReset => AppHandlers._confirmReset u
  | evResetTimeout => Normal (AppHandlers._cancelResetConfirmation u) tt
  | evEscape settingsVisible perfNow handle =>
      Normal (AppHandlers._handleEscape settingsVisible perfNow handle u) tt
  | evNav direction => AppHandlers._handleNav direction u
  | evEnterCorrection => Normal (AppHandlers._enterCorrection u) tt
  | evOverlay op =>
      if CorrectionModeOps.isActive (correctionMode u)
      then liftOverlay u (overlayStep op (correctionMode u))
      else Normal u tt
  | evOverlaySave =>
      if CorrectionModeOps.isActive (correctionMode u)
      then Normal (AppHandlers.overlaySave u) tt
      else Normal u tt
  | evOverlayCancel =>
      if CorrectionModeOps.isActive (correctionMode u)
      then Normal (AppHandlers.overlayCancel u) tt
      else Normal u tt
  end.

(** The events one after the other; an exception ends the handler that
    threw, and the next event finds the state as the throw left it.  The
    second component tells whether a handler threw. *)
Fixpoint run (evs : list Event) (u : AppUi) : AppUi * bool :=
  match evs with
  | [] => (u, false)
  | ev :: rest =>
      let c := step ev u in
      let '(u', t) := run rest (stateOf c) in
      (u', threw c || t)
  end.

(** [App.init]: the option last used is loaded into a new [App]. *)
Definition boot (storedLast : option Z) (parsed : option (list StoredSlot))
  : Completion AppUi unit :=
  liftApp AppHandlers.new
    (AppHandlers._loadOption (StorageManager.loadLastOption storedLast) parsed
       (app AppHandlers.new)).

(** The configurations that the settings panel hands over have a period;
    the clicks are on fields that the overlay shows. *)
Definition eventOk (ev : Event) : Prop :=
  match ev with
  | evSelectOption config _ => periods config <> []
  | evOverlay op => opInRange op
  | _ => True
  end.

(** *** What holds between the events *)

(** The engine runs while the match is running and stands while it is
    paused, frozen or under correction; a match that has left [IDLE] has an
    active side. *)
Definition engineFollowsStatus (a : App) : Prop :=
  match status (gameState a) with
  | RUNNING => _running (timerEngine a) = true /\ activePlayer (gameState a) <> None
  | PAUSED | FROZEN | CORRECTING =>
      _running (timerEngine a) = false /\ activePlayer (gameState a) <> None
  | IDLE => True
  end.

(** Everything of the match but the two clocks is the same. *)
Definition sameMatch (g g' : GameState) : Prop :=
  status g' = status g /\ activePlayer g' = activePlayer g /\
  optionConfig g' = optionConfig g /\
  _preCorrectionStatus g' = _preCorrectionStatus g.

(** The move count and the period index of a clock are the same. *)
Definition sameCounts (p p' : PlayerState) : Prop :=
  moves p' = moves p /\ currentPeriod p' = currentPeriod p.

Definition preCorrectionOk (g : GameState) : Prop :=
  _preCorrectionStatus g = None \/ _preCorrectionStatus g = Some PAUSED \/
  _preCorrectionStatus g = Some FROZEN.

Definition movesInSync (a : App) : Prop :=
  leftMoves (moveCounter a) = moves (left (gameState a)) /\
  rightMoves (moveCounter a) = moves (right (gameState a)) /\
  0 <= moves (left (gameState a)) /\ 0 <= moves (right (gameState a)).

Definition overlayMovesOk (cm : CorrectionMode ApplyCallback CancelCallback) : Prop :=
  _active cm = true ->
  0 <= _activeFieldIndex cm < Z.of_nat (length FIELDS) /\
  exists v, _values cm = Some v /\ 0 <= Values.leftMoves v /\ 0 <= Values.rightMoves v.

Definition AppInv (a : App) : Prop :=
  engineFollowsStatus a /\ preCorrectionOk (gameState a) /\
  movesInSync a /\ periodsInRange (gameState a).

Definition Inv (u : AppUi) : Prop :=
  AppInv (app u) /\ overlayMovesOk (correctionMode u).

Definition sameMoves (g g' : GameState) : Prop :=
  moves (left g') = moves (left g) /\ moves (right g') = moves (right g).

(** The state in which [App.init] leaves the application. *)
Definition booted (storedLast : option Z) (parsed : option (list StoredSlot)) : AppUi :=
  stateOf (boot storedLast parsed).

(** *** [App.init] on stored entries of any shape

    The validation in [loadCustomOptions] keeps every entry with a
    [periods] array that is not empty, whatever the array holds.
    [StoredEntry] adds to [StoredSlot] the kept entries that are no option
    configurations, as far as [App.init] tells them apart ([initGame] reads
    the length of the array and its first element):
    - [entryFirstPeriodNull]: the array starts with [null], and [initGame]
      throws a [TypeError] where it reads a field of the first period;
    - [entryUntyped]: the first element is not [null], but a later period
      is, or a period is no object, or a field holds no number.  What the
      application does with such an entry is not modelled. *)
Inductive StoredEntry :=
| entryTyped (slot : StoredSlot)
| entryFirstPeriodNull
| entryUntyped.

(** What [loadCustomOption] returns when it is not [null]. *)
Inductive LoadedEntry :=
| loadedOption (c : OptionConfig)
| loadedFirstPeriodNull
| loadedUntyped.

(** How [App.init] ends: it returns, it throws, or it goes on with an entry
    that is not modelled. *)
Inductive InitOutcome (S : Type) :=
| initReturned (s : S)
| initThrew
| initUntyped.
Arguments initReturned {S} s.
Arguments initThrew {S}.
Arguments initUntyped {S}.

Module AnyStored.

Definition loadCustomOptions (parsed : option (list StoredEntry))
  : list (option LoadedEntry) :=
  match parsed with
  | Some l =>
      map (fun entry =>
             match entry with
             | entryTyped (slotOption c) =>
                 match periods c with [] => None | _ :: _ => Some (loadedOption c) end
             | entryTyped _ => None
             | entryFirstPeriodNull => Some loadedFirstPeriodNull
             | entryUntyped => Some loadedUntyped
             end)
          (take (Z.to_nat Limits.MAX_MANUAL_OPTIONS)
             (l ++ replicate (Z.to_nat Limits.MAX_MANUAL_OPTIONS - length l)
                     (entryTyped slotNull)))
  | None => [None; None; None; None; None]
  end.

Definition loadCustomOption (slot : Z) (parsed : option (list StoredEntry))
  : option LoadedEntry :=
  if (slot <? 0) || (Limits.MAX_MANUAL_OPTIONS <=? slot) then None
  else
    match loadCustomOptions parsed !! Z.to_nat slot with
    | Some (Some entry) => Some entry
    | _ => None
    end.

Definition ended (c : Completion App unit) : InitOutcome App :=
  match c with
  | Normal a _ => initReturned a
  | Throw _ => initThrew
  end.

(** [App._loadOption]: [_selectOption] hands the loaded entry to
    [initGame]. *)
Definition _loadOption (optionNumber : Z) (parsed : option (list StoredEntry)) (a : App)
  : InitOutcome App :=
  let fallback :=
    match Presets.getPreset 1 with
    | Some preset => ended (AppHandlers._selectOption preset 1 a)
    | None => initReturned a
    end in
  let manual :=
    if (Limits.MANUAL_OPTION_START <=? optionNumber)
       && (optionNumber <=? Limits.MANUAL_OPTION_END)
    then
      match loadCustomOption (optionNumber - Limits.MANUAL_OPTION_START) parsed with
      | Some (loadedOption custom) =>
          ended (AppHandlers._selectOption custom optionNumber a)
      | Some loadedFirstPeriodNull => initThrew
      | Some loadedUntyped => initUntyped
      | None => fallback
      end
    else fallback in
  if (1 <=? optionNumber) && (optionNumber <=? Limits.TOTAL_PRESETS) then
    match Presets.getPreset optionNumber with
    | Some preset => ended (AppHandlers._selectOption preset optionNumber a)
    | None => manual
    end
  else manual.

(** [App.init]: the option last used is loaded into a new [App]. *)
Definition init (storedLast : option Z) (parsed : option (list StoredEntry))
  : InitOutcome AppUi :=
  match _loadOption (StorageManager.loadLastOption storedLast) parsed
          (app AppHandlers.new) with
  | initReturned a => initReturned (AppHandlers.set_app a AppHandlers.new)
  | initThrew => initThrew
  | initUntyped => initUntyped
  end.

End AnyStored.

(** The events that are not a new option, a reset or the way into the
    correction overlay. *)
Definition keepsFrozen (ev : Event) : Prop :=
  match ev with
  | evSelectOption _ _ | evConfirmReset | evEnterCorrection => False
  | _ => True
  end.

(** A short match: the first tap, ticks, a turn, a pause with a correction
    of the left move count, and a new option from the settings panel. *)
Module Scenario.

Definition events : list Event :=
  [ evClockTap LEFT 0 1;
    evTick 1000 5;
    evSwitchTurn 0 0;
    evTick 500 6;
    evTogglePause 0 0;
    evEnterCorrection;
    evOverlay (opSelect 6);
    evOverlay opIncrement;
    evOverlaySave;
    evTogglePause 9000 7;
    evOpenSettings;
    evSelectOption Fixtures.twoPeriods 6 ].

(** The same without the new option, frozen at the flag of the right side. *)
Definition untilFlag : list Event :=
  [ evToggleFreeze;
    evClockTap LEFT 0 1;
    evTick 1000 5;
    evTick 299000 6 ].

Definition whileFrozen : list Event :=
  [ evClockTap RIGHT 0 2;
    evTick 1000 7;
    evSwitchTurn 0 3;
    evTogglePause 0 4;
    evToggleSound;
    evEscape false 0 5;
    evNav navUp;
    evOverlaySave ].

End Scenario.

(** Nothing of the match or of the engine has moved, but for the sound and
    freeze settings. *)
Definition standsStill (u u' : AppUi) : Prop :=
  status (gameState (app u')) = status (gameState (app u)) /\
  activePlayer (gameState (app u')) = activePlayer (gameState (app u)) /\
  left (gameState (app u')) = left (gameState (app u)) /\
  right (gameState (app u')) = right (gameState (app u)) /\
  optionConfig (gameState (app u')) = optionConfig (gameState (app u)) /\
  timerEngine (app u') = timerEngine (app u) /\
  periodManager (app u') = periodManager (app u) /\
  moveCounter (app u') = moveCounter (app u) /\
  _active (correctionMode u') = _active (correctionMode u).

(** ** utils/constants.js: [SoundConfig] *)
Module SoundConfig.

Definition WARNING_TIME_MS : Z := 10000.
Definition COUNTDOWN_START_MS : Z := 5000.
Definition FINAL_BEEP_MS : Z := 1000.
Definition BEEP_FREQUENCY : Z := 880.
Definition BEEP_DURATION_SHORT : Z := 80.
Definition BEEP_DURATION_LONG : Z := 300.

End SoundConfig.

(** ** ui/SoundManager.js

    The audio context is left out: what is recorded of a beep is the call
    of [_playBeep] with its frequency and duration. *)
Record Beep := mkBeep { frequency : Z; duration : Z }.

Record SoundManager := mkSoundManager {
  _enabled : bool;
  _lastBeepSecond : option Z;
  _warningPlayed : bool
}.

Module SoundManagerOps.

Definition new : SoundManager := mkSoundManager false None false.

Definition setEnabled (enabled : bool) (sm : SoundManager) : SoundManager :=
  mkSoundManager enabled (_lastBeepSecond sm) (_warningPlayed sm).

Definition toggle (sm : SoundManager) : SoundManager * bool :=
  (mkSoundManager (negb (_enabled sm)) (_lastBeepSecond sm) (_warningPlayed sm),
   negb (_enabled sm)).

Definition isEnabled (sm : SoundManager) : bool := _enabled sm.

(** [Math.ceil(remainingMs / 1000)] *)
Definition ceilSeconds (remainingMs : Z) : Z := - ((- remainingMs) / 1000).

Definition checkAndBeep (remainingMs : Z) (sm : SoundManager) : SoundManager * list Beep :=
  if _enabled sm then
    let remainingSeconds := ceilSeconds remainingMs in
    if (remainingMs <=? SoundConfig.WARNING_TIME_MS) && negb (_warningPlayed sm)
       && (SoundConfig.COUNTDOWN_START_MS <? remainingMs)
    then
      (mkSoundManager (_enabled sm) (Some remainingSeconds) true,
       [mkBeep SoundConfig.BEEP_FREQUENCY SoundConfig.BEEP_DURATION_SHORT])
    else if (remainingMs <=? SoundConfig.COUNTDOWN_START_MS)
            && (SoundConfig.FINAL_BEEP_MS <? remainingMs)
    then
      if decide (_lastBeepSecond sm = Some remainingSeconds) then (sm, [])
      else
        (mkSoundManager (_enabled sm) (Some remainingSeconds) (_warningPlayed sm),
         [mkBeep SoundConfig.BEEP_FREQUENCY SoundConfig.BEEP_DURATION_SHORT])
    else if (remainingMs <=? SoundConfig.FINAL_BEEP_MS) && (0 <? remainingMs)
    then
      if decide (_lastBeepSecond sm = Some 0) then (sm, [])
      else
        (mkSoundManager (_enabled sm) (Some 0) (_warningPlayed sm),
         [mkBeep SoundConfig.BEEP_FREQUENCY SoundConfig.BEEP_DURATION_LONG])
    else (sm, [])
  else (sm, []).

(** [BEEP_FREQUENCY * 1.5] *)
Definition playMomentBeep (sm : SoundManager) : list Beep :=
  if _enabled sm then [mkBeep 1320 SoundConfig.BEEP_DURATION_LONG] else [].

Definition playPeriodBeep (sm : SoundManager) : list Beep :=
  if _enabled sm then [mkBeep SoundConfig.BEEP_FREQUENCY SoundConfig.BEEP_DURATION_LONG]
  else [].

Definition resetBeepState (sm : SoundManager) : SoundManager :=
  mkSoundManager (_enabled sm) None false.

(** The remaining times of successive calls, on the same sound manager. *)
Fixpoint checkAll (times : list Z) (sm : SoundManager) : SoundManager * list Beep :=
  match times with
  | [] => (sm, [])
  | t :: rest =>
      let '(sm1, out1) := checkAndBeep t sm in
      let '(sm2, out2) := checkAll rest sm1 in
      (sm2, out1 ++ out2)
  end.

End SoundManagerOps.

(** The remaining times never grow, starting below [t0]. *)
Fixpoint descending (t0 : Z) (times : list Z) : Prop :=
  match times with
  | [] => True
  | t :: rest => t <= t0 /\ descending t rest
  end.

(** ** app.js: what the handlers do to the sound manager

    [u] is the application as the handler finds it. *)
Module AppSound.

(** The sound calls of [_onTick].  The result of [periodManager.onTick] has
    no [momentExpired], so the moment beep is never asked for here. *)
Definition _onTick (deltaMs now : Z) (a : App) (sm : SoundManager)
  : SoundManager * list Beep :=
  let gs := gameState a in
  match status gs, activePlayer gs with
  | RUNNING, Some active =>
      match PeriodManagerOps.onTick deltaMs active now (gs, periodManager a) with
      | Throw _ => (sm, [])
      | Normal (gs1, pm1) result =>
          let activeState := GameStateOps.getPlayer active gs1 in
          let '(sm1, out1) :=
            if soundEnabled gs1 then
              match PeriodManagerOps.getMethod active pm1 with
              | Some m =>
                  if decide (TimingMethodOps.getType m = UPCOUNT) then (sm, [])
                  else SoundManagerOps.checkAndBeep (timeMs activeState) sm
              | None => (sm, [])
              end
            else (sm, []) in
          if periodTransition result then
            (SoundManagerOps.resetBeepState sm1,
             out1 ++ (if soundEnabled gs1 then SoundManagerOps.playPeriodBeep sm1 else []))
          else (sm1, out1)
      end
  | _, _ => (sm, [])
  end.

(** The branch of a tap or key press that starts the match or ends a turn
    resets the beep state. *)
Definition onTap (turnTaken : bool) (sm : SoundManager) : SoundManager :=
  if turnTaken then SoundManagerOps.resetBeepState sm else sm.

Definition onEvent (ev : Event) (u : AppUi) (sm : SoundManager) : SoundManager * list Beep :=
  let gs := gameState (app u) in
  match ev with
  | evClockTap side _ _ =>
      (onTap (match status gs with
              | IDLE => true
              | RUNNING => bool_decide (activePlayer gs = Some side)
              | _ => false
              end) sm, [])
  | evSwitchTurn _ _ =>
      (onTap (match status gs with IDLE | RUNNING => true | _ => false end) sm, [])
  | evTick deltaMs now => _onTick deltaMs now (app u) sm
  | evToggleSound =>
      (SoundManagerOps.setEnabled (soundEnabled (GameStateOps.toggleSound gs)) sm, [])
  | _ => (sm, [])
  end.

(** The events one after the other, as [run] takes them, with the sound
    manager and the beeps asked for. *)
Fixpoint onEvents (evs : list Event) (u : AppUi) (sm : SoundManager)
  : SoundManager * list Beep :=
  match evs with
  | [] => (sm, [])
  | ev :: rest =>
      let '(sm1, out1) := onEvent ev u sm in
      let '(sm2, out2) := onEvents rest (stateOf (step ev u)) sm1 in
      (sm2, out1 ++ out2)
  end.

End AppSound.

Definition notToggleSound (ev : Event) : Prop :=
  match ev with evToggleSound => False | _ => True end.

(** A match on preset 20, whose sound is on by default, run down into its
    last seconds of the first period and over the end of it. *)
Definition lastSeconds : list Event :=
  [ evClockTap LEFT 0 1;
    evTick 3590500 5;
    evTick 5000 6;
    evTick 1000 7;
    evTick 3000 8;
    evTick 600 9 ].

(** An upper bound for the beeps that [checkAndBeep] can still ask for when
    the remaining times to come are at most [t]: the warning, the seconds 5
    to 2 of the countdown that are not yet passed or beeped for, and the
    last second. *)
Definition beepsLeft (sm : SoundManager) (t : Z) : Z :=
  let c := SoundManagerOps.ceilSeconds t in
  (if _warningPlayed sm then 0 else 1)
  + (Z.max 0 (Z.min c 5 - 1)
     - (if decide (_lastBeepSecond sm = Some c) then
          if (2 <=? c) && (c <=? 5) then 1 else 0
        else 0))
  + (if decide (_lastBeepSecond sm = Some 0) then 0 else 1).

(** The second last beeped for is not behind the remaining time. *)
Definition beepSecondAhead (sm : SoundManager) (t : Z) : Prop :=
  forall k, _lastBeepSecond sm = Some k ->
            (k = 0 /\ t <= 1000) \/ SoundManagerOps.ceilSeconds t <= k.

(** Twenty-five moves in five minutes of Canadian byo-yomi from the start. *)
Definition canadianPeriod : PeriodConfig :=
  mkPeriodConfig CANADIAN_BYO None None (Some 25) (Some 300000) None.

Definition canadianOnly : OptionConfig :=
  mkOptionConfig [canadianPeriod] (Some false) (Some true) None None.

(** ** The closed family of timing methods: [isExpired] *)
Module TimingMethodMore.

Definition isExpired (m : TimingMethod) (p : PlayerState) : bool :=
  match m with
  | ofTime => TimeMethod.isExpired p
  | ofFischer f => FischerMethod.isExpired f p
  | ofBronsteinDelay b => BronsteinDelayMethod.isExpired b p
  | ofUsDelay u => UsDelayMethod.isExpired u p
  | ofByoYomi b => ByoYomiMethod.isExpired b p
  | ofCanadianByoYomi c => CanadianByoYomiMethod.isExpired c p
  | ofUpcount => UpcountMethod.isExpired p
  end.

End TimingMethodMore.

(** Two Fischer periods of forty and of twenty moves, and the first of them
    alone. *)
Definition fischerByMoves : OptionConfig :=
  mkOptionConfig
    [mkPeriodConfig FISCHER (Some 5400000) (Some 30000) (Some 40) None None;
     mkPeriodConfig FISCHER (Some 1800000) (Some 30000) (Some 20) None None]
    (Some true) (Some false) None None.

Definition fischerOnePeriod : OptionConfig :=
  mkOptionConfig
    [mkPeriodConfig FISCHER (Some 5400000) (Some 30000) (Some 40) None None]
    (Some true) (Some false) None None.

(** The match on [c] in which the left side has made [n] moves. *)
Definition afterMoves (c : OptionConfig) (n : Z) : GameState * PeriodManager :=
  let '(g, pm) := Fixtures.configured c in
  (GameStateOps.setPlayer LEFT (set_moves n (GameStateOps.getPlayer LEFT g)) g, pm).

(** The events that do not configure the match anew. *)
Definition noNewOption (ev : Event) : Prop :=
  match ev with
  | evSelectOption _ _ | evQuickPreset _ _ | evConfirmReset => False
  | _ => True
  end.

(** The sound manager is enabled exactly when the match's sound setting is
    on. *)
Definition soundFollows (u : AppUi) (sm : SoundManager) : Prop :=
  SoundManagerOps.isEnabled sm = soundEnabled (gameState (app u)).

(** Preset 17 played into the time trouble of the right side: its clock runs
    out during a turn that it began with 70 s, the second period's 15 min
    are added, and it ends the turn five seconds later. *)
Definition bronsteinTimeTrouble : list Event :=
  [ evClockTap LEFT 0 1;
    evTick 7160000 5;
    evSwitchTurn 0 0;
    evTick 1000 6;
    evSwitchTurn 0 0;
    evTick 70000 7;
    evTick 5000 8;
    evSwitchTurn 0 0 ].

(** The configuration of preset 17. *)
Definition bronsteinTwoPeriods : OptionConfig :=
  mkOptionConfig
    [mkPeriodConfig DELAY (Some 7200000) (Some 30000) None None None;
     mkPeriodConfig DELAY (Some 900000) (Some 30000) None None None]
    (Some true) (Some false) None None.

(** The freeze setting is the same, and a started match is still started. *)
Definition keepsFreeze (g g' : GameState) : Prop :=
  freezeEnabled g' = freezeEnabled g /\
  (hasBeenStarted g = true -> hasBeenStarted g' = true).

(** * Verification *)

Ltac unfold_setters :=
  unfold set_timeMs, set_currentPeriod, set_moves, set_color, set_delayRemainingMs,
    set_inDelay, set_turnStartTimeMs, set_byoMomentsRemaining, set_byoMomentTimeMs,
    PlayerStateOps.setFlag, PlayerStateOps.clearFlag in *.

(** Decide a boolean comparison on [Z] and keep the fact. *)
Ltac zcase :=
  match goal with
  | |- context [?a <=? ?b] => destruct (Z.leb_spec a b)
  | |- context [?a <? ?b] => destruct (Z.ltb_spec a b)
  | |- context [?a =? ?b] => destruct (Z.eqb_spec a b)
  end.

(** ** The repository's unit tests, replayed on the embedding *)

Module UnitTests.
Import Fixtures.

(** BronsteinDelayMethod.test.js: 25 min and 10 s of delay. *)

Example bronstein_compensates_fully :
  timeMs (bronsteinTurn bronstein [5000] (player 1500000)) = 1500000.
Proof. reflexivity. Qed.

Example bronstein_compensates_up_to_delay :
  timeMs (bronsteinTurn bronstein [15000] (player 1500000)) = 1495000.
Proof. reflexivity. Qed.

Example bronstein_expires :
  let p := BronsteinDelayMethod.onTurnStart bronstein (set_timeMs 500 (player 1500000)) in
  let '(p', r) := BronsteinDelayMethod.onTick bronstein 600 p in
  (expired r, timeMs p') = (true, 0).
Proof. reflexivity. Qed.

(** UsDelayMethod.test.js: 5 min and 5 s of delay. *)

Example usdelay_counts_down_delay_first :
  let p := fst (UsDelayMethod.onTick usDelay 2000
                  (UsDelayMethod.onTurnStart usDelay (player 300000))) in
  (delayRemainingMs p, inDelay p, timeMs p) = (3000, true, 300000).
Proof. reflexivity. Qed.

Example usdelay_exact_delay :
  let p := fst (UsDelayMethod.onTick usDelay 5000
                  (UsDelayMethod.onTurnStart usDelay (player 300000))) in
  (delayRemainingMs p, inDelay p, timeMs p) = (0, false, 300000).
Proof. reflexivity. Qed.

Example usdelay_overflows_into_main_time :
  let p := fst (UsDelayMethod.onTick usDelay 7000
                  (UsDelayMethod.onTurnStart usDelay (player 300000))) in
  (delayRemainingMs p, inDelay p, timeMs p) = (0, false, 298000).
Proof. reflexivity. Qed.

Example usdelay_clears_delay_state_on_turn_end :
  let p := UsDelayMethod.onTurnEnd usDelay
             (fst (UsDelayMethod.onTick usDelay 2000
                     (UsDelayMethod.onTurnStart usDelay (player 300000)))) in
  (inDelay p, delayRemainingMs p) = (false, 0).
Proof. reflexivity. Qed.

Example usdelay_expires_when_main_time_reaches_zero :
  let p := fst (UsDelayMethod.onTick usDelay 5000
                  (UsDelayMethod.onTurnStart usDelay (player 300000))) in
  let '(p', r) := UsDelayMethod.onTick usDelay 1000 (set_timeMs 500 p) in
  (expired r, timeMs p') = (true, 0).
Proof. reflexivity. Qed.

(** ByoYomiMethod.test.js *)

Example byoyomi_infinite_reloads_with_overflow :
  let '(p', r) := ByoYomiMethod.onTick byoInfinite 200 (set_timeMs 100 (player 20000)) in
  (expired r, momentExpired r, timeMs p') = (false, true, 19900).
Proof. reflexivity. Qed.

Example byoyomi_resets_on_turn_end :
  let '(m, p) := ByoYomiMethod.onTurnStart byoInfinite (player 20000) in
  timeMs (ByoYomiMethod.onTurnEnd m (fst (ByoYomiMethod.onTick m 5000 p))) = 20000.
Proof. reflexivity. Qed.

Example byoyomi_decrements_moments :
  let p := set_byoMomentsRemaining 5 (set_timeMs 100 (player 60000)) in
  let '(p', r) := ByoYomiMethod.onTick byoFive 200 p in
  (momentExpired r, byoMomentsRemaining p', timeMs p') = (true, 4, 59900).
Proof. vm_compute. reflexivity. Qed.

Example byoyomi_expires_when_all_moments_are_used :
  let p := set_byoMomentsRemaining 1 (set_timeMs 100 (player 60000)) in
  let '(p', r) := ByoYomiMethod.onTick byoFive 200 p in
  (expired r, byoMomentsRemaining p', timeMs p') = (true, 0, 0).
Proof. vm_compute. reflexivity. Qed.

(** A tick that spans two whole moments and part of a third. *)
Example byoyomi_tick_spanning_moments :
  let p := set_byoMomentsRemaining 5 (set_timeMs 100 (player 60000)) in
  let '(p', r) := ByoYomiMethod.onTick byoFive 130200 p in
  (expired r, momentExpired r, byoMomentsRemaining p', timeMs p') = (false, true, 2, 49900).
Proof. vm_compute. reflexivity. Qed.

(** MoveCounter.test.js *)
Example moveCounter_does_not_go_below_zero :
  MoveCounterOps.getMoves LEFT (MoveCounterOps.setMoves LEFT (-5) MoveCounterOps.new) = 0.
Proof. reflexivity. Qed.

(** PeriodManager.test.js: five minutes, then two and a half. *)

Example periodManager_transitions_on_expiry :
  let '(g, pm) := configured twoPeriods in
  match PeriodManagerOps.onTick 200 LEFT 0 (set_left (set_timeMs 100 (left g)) g, pm) with
  | Normal (g', _) r =>
      (expiredResult r, periodTransition r, currentPeriod (left g'), flagState (left g'),
       currentPeriod (right g'), timeMs (left g'), timeMs (right g'))
      = (false, true, 1, NON_BLINKING, 1, 150000, 450000)
  | Throw _ => False
  end.
Proof. vm_compute. reflexivity. Qed.

Example periodManager_blinking_flag_in_final_period :
  let '(g, pm) := configured twoPeriods in
  let g1 := set_left (set_timeMs 100 (set_currentPeriod 1 (left g))) g in
  match PeriodManagerOps.onTick 200 LEFT 0 (g1, pm) with
  | Normal (g', _) r => (expiredResult r, flagState (left g')) = (true, BLINKING)
  | Throw _ => False
  end.
Proof. vm_compute. reflexivity. Qed.

Example periodManager_fischer_bonus :
  let c :=
    mkOptionConfig [mkPeriodConfig FISCHER (Some 180000) (Some 2000) None None None]
      (Some true) (Some false) None None in
  match PeriodManagerOps.onTick 5000 LEFT 0 (configured c) with
  | Normal st _ => timeMs (left (fst (PeriodManagerOps.onTurnEnd LEFT st))) = 177000
  | Throw _ => False
  end.
Proof. vm_compute. reflexivity. Qed.

(** background-timer spec, last test: sudden death without freeze; the flag
    falls, the clock stays at 0 and the match keeps running. *)
Example app_expiry_without_freeze :
  let c :=
    mkOptionConfig [mkPeriodConfig TIME (Some 5000) None None None None]
      (Some false) (Some false) None None in
  let g := GameStateOps.startGame LEFT (fst (configured c)) in
  let a := mkApp g TimerEngineOps.new (snd (configured c)) MoveCounterOps.new in
  match AppOps._onTick 3000 0 a with
  | Normal a1 _ =>
      match AppOps._onTick 2000 0 a1 with
      | Normal a2 _ =>
          (timeMs (right (gameState a1)), timeMs (right (gameState a2)),
           flagState (right (gameState a2)), status (gameState a2),
           timeMs (left (gameState a2)))
          = (2000, 0, BLINKING, RUNNING, 5000)
      | Throw _ => False
      end
  | Throw _ => False
  end.
Proof. vm_compute. reflexivity. Qed.

(** A hide and show cycle of three seconds of wall clock: one tick of
    3000 ms, above the cap of a frame, and then the next frame is asked
    for. *)
Example timerEngine_background_gap :
  let e0 : TimerEngine AppCallback :=
    fst (TimerEngineOps.start 0 1
           (TimerEngineOps.setTickCallback boundOnTick TimerEngineOps.new)) in
  let call := fun (_ : AppCallback) (_ : Z) (e : TimerEngine AppCallback) => e in
  let '(e1, out1) := TimerEngineOps._handleVisibilityChange call hidden 10000 200 2 e0 in
  let '(e2, out2) := TimerEngineOps._handleVisibilityChange call visible 13000 200 3 e1 in
  (out1, _rafId e1, out2) = ([CancelFrame 1], None, [Deliver 3000; RequestFrame 3]).
Proof. reflexivity. Qed.

End UnitTests.

(** ** The zero-clamping countdown *)

Lemma clampExpiry_expired (p : PlayerState) :
  expired (snd (clampExpiry p)) = true -> timeMs (fst (clampExpiry p)) = 0.
Proof.
  unfold clampExpiry. zcase; simpl; [reflexivity | discriminate].
Qed.

Lemma clampExpiry_time (p : PlayerState) :
  timeMs (fst (clampExpiry p)) = Z.max 0 (timeMs p).
Proof.
  unfold clampExpiry. zcase; simpl; lia.
Qed.

Lemma clampExpiry_nonneg_id (p : PlayerState) :
  0 <= timeMs p -> fst (clampExpiry p) = p.
Proof.
  intros Hp. unfold clampExpiry. zcase; simpl; [| reflexivity].
  assert (timeMs p = 0) as E by lia.
  destruct p; simpl in *. unfold set_timeMs; simpl. now rewrite E.
Qed.

(** ** Bronstein delay *)

(** C3.  A Bronstein turn that ends with positive remaining time and a
    positive turn-start snapshot gets back [min(delayMs, time used)], where
    the time used is the snapshot minus the remaining time; the result is
    at most the snapshot and at least [min(remaining + delayMs, snapshot)].
    With the clock expired or the snapshot not positive, [onTurnEnd]
    changes nothing. *)
Theorem bronstein_onTurnEnd_compensation (m : BronsteinDelayMethod.t) (p : PlayerState) :
  (0 < timeMs p -> 0 < turnStartTimeMs p ->
   let p' := BronsteinDelayMethod.onTurnEnd m p in
   timeMs p' =
     timeMs p + Z.min (BronsteinDelayMethod.delayMs m) (turnStartTimeMs p - timeMs p)
   /\ timeMs p' <= turnStartTimeMs p
   /\ Z.min (timeMs p + BronsteinDelayMethod.delayMs m) (turnStartTimeMs p) <= timeMs p'
   /\ turnStartTimeMs p' = turnStartTimeMs p)
  /\ (timeMs p <= 0 \/ turnStartTimeMs p <= 0 -> BronsteinDelayMethod.onTurnEnd m p = p).
Proof.
  split.
  - intros Ht Hs. unfold BronsteinDelayMethod.onTurnEnd.
    destruct (Z.leb_spec (timeMs p) 0); [lia |].
    destruct (Z.leb_spec (turnStartTimeMs p) 0); [lia |].
    cbv zeta. unfold_setters. simpl.
    destruct (Z.ltb_spec (turnStartTimeMs p)
                (timeMs p + Z.min (BronsteinDelayMethod.delayMs m)
                              (Z.max 0 (turnStartTimeMs p - timeMs p)))); simpl; lia.
  - intros H. unfold BronsteinDelayMethod.onTurnEnd.
    destruct (Z.leb_spec (timeMs p) 0); [reflexivity |].
    destruct (Z.leb_spec (turnStartTimeMs p) 0); [reflexivity | lia].
Qed.

Lemma bronstein_onTurnEnd_compensation_witness :
  let m := BronsteinDelayMethod.mk 10000 in
  let p := set_turnStartTimeMs 1500000 (set_timeMs 1485000 (newPlayerState LEFT)) in
  timeMs (BronsteinDelayMethod.onTurnEnd m p) = 1485000 + Z.min 10000 (1500000 - 1485000).
Proof.
  intros m p.
  destruct (bronstein_onTurnEnd_compensation m p) as [H _].
  destruct H as [H _]; [reflexivity | reflexivity | exact H].
Defined.

Lemma bronstein_ticks_keep_snapshot (m : BronsteinDelayMethod.t) (deltas : list Z)
    (p : PlayerState) :
  turnStartTimeMs
    (fold_left (fun q d => fst (BronsteinDelayMethod.onTick m d q)) deltas p)
  = turnStartTimeMs p.
Proof.
  revert p. induction deltas as [| d ds IH]; intros p; simpl; [reflexivity |].
  rewrite IH. unfold BronsteinDelayMethod.onTick, clampExpiry.
  zcase; reflexivity.
Qed.

(** The time that [onTurnEnd] leaves, in closed form. *)
Lemma BronsteinDelayMethod_onTurnEnd_time (m : BronsteinDelayMethod.t) (p : PlayerState) :
  timeMs (BronsteinDelayMethod.onTurnEnd m p) =
  if (0 <? timeMs p) && (0 <? turnStartTimeMs p)
  then Z.min (timeMs p + BronsteinDelayMethod.delayMs m) (turnStartTimeMs p)
  else timeMs p.
Proof.
  unfold BronsteinDelayMethod.onTurnEnd.
  destruct (Z.leb_spec (timeMs p) 0) as [Ht | Ht].
  - destruct (Z.ltb_spec 0 (timeMs p)); [lia | reflexivity].
  - destruct (Z.ltb_spec 0 (timeMs p)); [| lia]. cbn [andb].
    destruct (Z.leb_spec (turnStartTimeMs p) 0) as [Hs | Hs].
    + destruct (Z.ltb_spec 0 (turnStartTimeMs p)); [lia | reflexivity].
    + destruct (Z.ltb_spec 0 (turnStartTimeMs p)); [| lia].
      cbv zeta. unfold_setters. simpl.
      destruct (Z.ltb_spec (turnStartTimeMs p)
                  (timeMs p + Z.min (BronsteinDelayMethod.delayMs m)
                                (Z.max 0 (turnStartTimeMs p - timeMs p)))); simpl; lia.
Qed.

(** Over a whole turn the clock never ends above where it started. *)
Lemma bronsteinTurn_never_gains (m : BronsteinDelayMethod.t) (deltas : list Z)
    (p : PlayerState) :
  0 < timeMs p -> timeMs (bronsteinTurn m deltas p) <= timeMs p.
Proof.
  intros Hp. unfold bronsteinTurn.
  set (q := fold_left _ deltas _).
  assert (turnStartTimeMs q = timeMs p) as Hq
    by (unfold q; now rewrite bronstein_ticks_keep_snapshot).
  rewrite BronsteinDelayMethod_onTurnEnd_time, Hq.
  destruct (Z.ltb_spec 0 (timeMs q)), (Z.ltb_spec 0 (timeMs p)); cbn [andb]; lia.
Qed.

(** ** US delay *)

(** C5, as the specification words it, fails once the overflow reaches the
    main time: 500 ms of main time, a delay of 5000 ms, one tick of
    5000 + 1000 ms.  The clock is clamped to 0, so the main time went down
    by 500 ms, not by 1000 ms. *)
Lemma usdelay_overflow_counterexample :
  let m := UsDelayMethod.mk 5000 in
  let p := UsDelayMethod.onTurnStart m (set_timeMs 500 (newPlayerState LEFT)) in
  let k := 1000 in
  inDelay p = true /\ 0 < k /\
  timeMs (fst (UsDelayMethod.onTick m (delayRemainingMs p + k) p)) <> timeMs p - k.
Proof.
  vm_compute. repeat split; discriminate.
Qed.

(** C5 (amended).  In the delay phase with [delayRemainingMs = d], one tick
    of [d + k] with [k > 0] leaves the delay phase with [delayRemainingMs]
    at 0; the main time goes down by exactly [k] when it exceeds [k], and is
    otherwise clamped to 0 with expiry reported.  A tick shorter than [d] on
    a clock whose main time is not negative changes [delayRemainingMs]
    only, lowering it by the tick. *)
Theorem usdelay_onTick_delay_phase (m : UsDelayMethod.t) (p : PlayerState) (d : Z) :
  inDelay p = true -> delayRemainingMs p = d ->
  (forall k, 0 < k ->
     let '(p', r) := UsDelayMethod.onTick m (d + k) p in
     inDelay p' = false /\ delayRemainingMs p' = 0 /\
     (k < timeMs p -> timeMs p' = timeMs p - k /\ expired r = false) /\
     (timeMs p <= k -> timeMs p' = 0 /\ expired r = true))
  /\ (forall deltaMs, deltaMs < d -> 0 <= timeMs p ->
        let p' := fst (UsDelayMethod.onTick m deltaMs p) in
        p' = set_delayRemainingMs (d - deltaMs) p /\
        timeMs p' = timeMs p /\ inDelay p' = true).
Proof.
  intros Hin Hd. split.
  - intros k Hk. unfold UsDelayMethod.onTick. rewrite Hin. cbv zeta.
    unfold_setters. simpl.
    destruct (Z.leb_spec (delayRemainingMs p - (d + k)) 0); [| lia]. simpl.
    destruct (Z.ltb_spec 0 (- (delayRemainingMs p - (d + k)))); [| lia]. simpl.
    unfold clampExpiry. simpl.
    destruct (Z.leb_spec (timeMs p - - (delayRemainingMs p - (d + k))) 0); simpl;
      repeat split; intros; try reflexivity; try lia.
  - intros deltaMs Hlt Hp. unfold UsDelayMethod.onTick. rewrite Hin. cbv zeta.
    unfold_setters. simpl.
    destruct (Z.leb_spec (delayRemainingMs p - deltaMs) 0); [lia |].
    rewrite clampExpiry_nonneg_id by exact Hp.
    simpl. rewrite Hd, Hin. repeat split; reflexivity.
Qed.

Lemma usdelay_onTick_delay_phase_witness :
  let m := UsDelayMethod.mk 5000 in
  let p := UsDelayMethod.onTurnStart m (set_timeMs 300000 (newPlayerState LEFT)) in
  timeMs (fst (UsDelayMethod.onTick m (5000 + 2000) p)) = 298000.
Proof.
  intros m p.
  destruct (usdelay_onTick_delay_phase m p 5000 eq_refl eq_refl) as [H _].
  specialize (H 2000 eq_refl).
  destruct (UsDelayMethod.onTick m (5000 + 2000) p) as [p' r].
  destruct H as (_ & _ & H & _).
  destruct H as [H _]; [reflexivity | exact H].
Defined.

(** C9, as the specification words it, fails on every clock: after
    [onTurnEnd] the delay flag is off, not on. *)
Lemma usdelay_onTurnEnd_counterexample :
  let m := UsDelayMethod.mk 5000 in
  let p := UsDelayMethod.onTurnStart m (set_timeMs 300000 (newPlayerState LEFT)) in
  ~ (inDelay (UsDelayMethod.onTurnEnd m p) = true /\
     delayRemainingMs (UsDelayMethod.onTurnEnd m p) = 0).
Proof.
  vm_compute. intros [H _]. discriminate H.
Qed.

(** C9 (amended).  On any clock, [onTurnEnd] of the US-delay method turns
    [inDelay] off and clears [delayRemainingMs], touching nothing else; the
    next [onTurnStart] loads the configured delay and turns [inDelay] on. *)
Theorem usdelay_onTurnEnd_clears (m : UsDelayMethod.t) (p : PlayerState) :
  let p' := UsDelayMethod.onTurnEnd m p in
  inDelay p' = false /\ delayRemainingMs p' = 0 /\
  p' = set_delayRemainingMs 0 (set_inDelay false p) /\
  timeMs p' = timeMs p /\
  inDelay (UsDelayMethod.onTurnStart m p') = true /\
  delayRemainingMs (UsDelayMethod.onTurnStart m p') = UsDelayMethod.delayMs m.
Proof.
  unfold UsDelayMethod.onTurnEnd, UsDelayMethod.onTurnStart. unfold_setters. simpl.
  repeat split; reflexivity.
Qed.

(** ** Byo-yomi *)

(** One unfolding of the [while] loop of [ByoYomiMethod.onTick]. *)
Lemma consumeMoments_unfold (m : ByoYomiMethod.t) (p : PlayerState) (me : bool) :
  ByoYomiMethod.consumeMoments m p me =
  if decide (timeMs p <= 0 /\ 0 < byoMomentsRemaining p) then
    if byoMomentsRemaining p - 1 <=? 0
    then ByoYomiMethod.Returned
           (set_timeMs 0 (set_byoMomentsRemaining (byoMomentsRemaining p - 1) p))
           (mkTickResult true 0 false)
    else ByoYomiMethod.consumeMoments m
           (set_timeMs (timeMs p + ByoYomiMethod.byoTimeMs m)
              (set_byoMomentsRemaining (byoMomentsRemaining p - 1) p))
           true
  else ByoYomiMethod.Exited p me.
Proof.
  rewrite ByoYomiMethod.consumeMoments_equation_1.
  destruct (decide (timeMs p <= 0 /\ 0 < byoMomentsRemaining p)); reflexivity.
Qed.

(** The loop carries the overflow: when the time left after the tick, [t],
    is non-positive, [j + 1] moments are consumed if [t + j * byoTimeMs] is
    still non-positive, [t + (j + 1) * byoTimeMs] is positive, and more than
    [j + 1] moments remain. *)
Lemma consumeMoments_carry (m : ByoYomiMethod.t) (j : nat) :
  forall (p : PlayerState) (me : bool),
    timeMs p + Z.of_nat j * ByoYomiMethod.byoTimeMs m <= 0 ->
    0 < timeMs p + (Z.of_nat j + 1) * ByoYomiMethod.byoTimeMs m ->
    Z.of_nat j + 1 < byoMomentsRemaining p ->
    ByoYomiMethod.consumeMoments m p me =
    ByoYomiMethod.Exited
      (set_timeMs (timeMs p + (Z.of_nat j + 1) * ByoYomiMethod.byoTimeMs m)
         (set_byoMomentsRemaining (byoMomentsRemaining p - (Z.of_nat j + 1)) p))
      true.
Proof.
  induction j as [| j IH]; intros p me Hle Hgt Hn.
  - rewrite consumeMoments_unfold.
    destruct (decide _) as [_ | Hc]; [| lia].
    destruct (Z.leb_spec (byoMomentsRemaining p - 1) 0); [lia |].
    rewrite consumeMoments_unfold.
    destruct (decide _) as [Hc | _]; [unfold_setters; simpl in Hc; lia |].
    unfold_setters; simpl. do 2 f_equal; lia.
  - assert (0 < ByoYomiMethod.byoTimeMs m) as Hb by lia.
    rewrite consumeMoments_unfold.
    destruct (decide _) as [_ | Hc]; [| nia].
    destruct (Z.leb_spec (byoMomentsRemaining p - 1) 0); [lia |].
    rewrite IH; unfold_setters; simpl; try lia.
    do 2 f_equal; lia.
Qed.

(** However the loop is left, the clock is either positive or out of
    moments; a [return] from inside the loop reports expiry at 0. *)
Lemma consumeMoments_exit (m : ByoYomiMethod.t) (p : PlayerState) (me : bool) :
  match ByoYomiMethod.consumeMoments m p me with
  | ByoYomiMethod.Returned p' r =>
      expired r = true /\ timeMs p' = 0 /\ byoMomentsRemaining p' <= 0 /\
      currentPeriod p' = currentPeriod p /\ flagState p' = flagState p
  | ByoYomiMethod.Exited p' _ =>
      (0 < timeMs p' \/ byoMomentsRemaining p' <= 0) /\
      currentPeriod p' = currentPeriod p /\ flagState p' = flagState p
  end.
Proof.
  remember (Z.to_nat (byoMomentsRemaining p)) as n eqn:Hn.
  revert p me Hn. induction n as [n IH] using lt_wf_ind. intros p me Hn.
  rewrite consumeMoments_unfold.
  destruct (decide _) as [Hc | Hc].
  - destruct (Z.leb_spec (byoMomentsRemaining p - 1) 0).
    + unfold_setters; simpl. repeat split; try reflexivity; lia.
    + set (q := set_timeMs _ _).
      specialize (IH (Z.to_nat (byoMomentsRemaining q))).
      assert (byoMomentsRemaining q = byoMomentsRemaining p - 1) as Hq by reflexivity.
      specialize (IH ltac:(rewrite Hq; lia) q true eq_refl).
      destruct (ByoYomiMethod.consumeMoments m q true); exact IH.
  - repeat split; try reflexivity. lia.
Qed.

(** When even the last remaining moment cannot absorb the overflow, the loop
    returns expiry with the clock at 0 and no moment left. *)
Lemma consumeMoments_exhaust (m : ByoYomiMethod.t) (k : nat) :
  forall (p : PlayerState) (me : bool),
    timeMs p <= 0 ->
    byoMomentsRemaining p = Z.of_nat k + 1 ->
    timeMs p + Z.of_nat k * ByoYomiMethod.byoTimeMs m <= 0 ->
    ByoYomiMethod.consumeMoments m p me =
    ByoYomiMethod.Returned (set_timeMs 0 (set_byoMomentsRemaining 0 p))
      (mkTickResult true 0 false).
Proof.
  induction k as [| k IH]; intros p me Ht Hn Hle; rewrite consumeMoments_unfold.
  - destruct (decide _) as [_ | Hc]; [| lia].
    destruct (Z.leb_spec (byoMomentsRemaining p - 1) 0); [| lia].
    unfold_setters; simpl. do 2 f_equal. lia.
  - destruct (decide _) as [_ | Hc]; [| lia].
    destruct (Z.leb_spec (byoMomentsRemaining p - 1) 0); [lia |].
    rewrite IH; unfold_setters; simpl; try reflexivity; try lia.
    destruct (Z.leb_spec (ByoYomiMethod.byoTimeMs m) 0); nia.
Qed.

(** Expiry comes out of a byo-yomi tick only in the finite mode, with the
    clock at 0 and no moment remaining. *)
Lemma ByoYomiMethod_onTick_expired (m : ByoYomiMethod.t) (p : PlayerState) (deltaMs : Z) :
  expired (snd (ByoYomiMethod.onTick m deltaMs p)) = true ->
  ByoYomiMethod.byoMoments m <> 0 /\
  timeMs (fst (ByoYomiMethod.onTick m deltaMs p)) = 0 /\
  byoMomentsRemaining (fst (ByoYomiMethod.onTick m deltaMs p)) <= 0.
Proof.
  unfold ByoYomiMethod.onTick. cbv zeta.
  change (timeMs (set_timeMs (timeMs p - deltaMs) p)) with (timeMs p - deltaMs).
  destruct (Z.leb_spec (timeMs p - deltaMs) 0); [| simpl; discriminate].
  destruct (Z.eqb_spec (ByoYomiMethod.byoMoments m) 0); [simpl; discriminate |].
  pose proof (consumeMoments_exit m (set_timeMs (timeMs p - deltaMs) p) false) as Hex.
  destruct (ByoYomiMethod.consumeMoments m (set_timeMs (timeMs p - deltaMs) p) false)
    as [p2 r | p2 me].
  - simpl. intros _. destruct Hex as (_ & H1 & H2 & _). auto.
  - destruct (Z.leb_spec (timeMs p2) 0).
    + simpl. intros _. destruct Hex as ([Hpos | Hout] & _); [lia |]. auto.
    + destruct me; simpl; discriminate.
Qed.

(** C4.  In the finite mode ([byoMoments <> 0]): with more than one moment
    remaining and the clock at the full moment time, one tick of
    [byoTimeMs + k], [0 < k < byoTimeMs], takes exactly one moment, reports
    [momentExpired] and no expiry, and leaves [byoTimeMs - k].  More
    generally a tick that overshoots by [j + 1] moments, with more than
    [j + 1] moments remaining, takes [j + 1] moments and leaves the overflow
    carried through them.  Expiry is reported only in the finite mode, with
    the clock at 0 and no moment remaining; and it is reported when the
    remaining moments cannot absorb the overflow. *)
Theorem byoyomi_moment_carry (m : ByoYomiMethod.t) (p : PlayerState) :
  (ByoYomiMethod.byoMoments m <> 0 ->
   forall k, 1 < byoMomentsRemaining p -> timeMs p = ByoYomiMethod.byoTimeMs m ->
     0 < k < ByoYomiMethod.byoTimeMs m ->
     ByoYomiMethod.onTick m (ByoYomiMethod.byoTimeMs m + k) p =
     (set_timeMs (ByoYomiMethod.byoTimeMs m - k)
        (set_byoMomentsRemaining (byoMomentsRemaining p - 1) p),
      mkTickResult false (ByoYomiMethod.byoTimeMs m - k) true))
  /\ (ByoYomiMethod.byoMoments m <> 0 ->
      forall deltaMs (j : nat),
        let t := timeMs p - deltaMs in
        let consumed := Z.of_nat j + 1 in
        t + Z.of_nat j * ByoYomiMethod.byoTimeMs m <= 0 ->
        0 < t + consumed * ByoYomiMethod.byoTimeMs m ->
        consumed < byoMomentsRemaining p ->
        ByoYomiMethod.onTick m deltaMs p =
        (set_timeMs (t + consumed * ByoYomiMethod.byoTimeMs m)
           (set_byoMomentsRemaining (byoMomentsRemaining p - consumed) p),
         mkTickResult false (t + consumed * ByoYomiMethod.byoTimeMs m) true))
  /\ (forall deltaMs,
        expired (snd (ByoYomiMethod.onTick m deltaMs p)) = true ->
        ByoYomiMethod.byoMoments m <> 0 /\
        timeMs (fst (ByoYomiMethod.onTick m deltaMs p)) = 0 /\
        byoMomentsRemaining (fst (ByoYomiMethod.onTick m deltaMs p)) <= 0)
  /\ (ByoYomiMethod.byoMoments m <> 0 ->
      forall deltaMs,
        let t := timeMs p - deltaMs in
        1 <= byoMomentsRemaining p -> t <= 0 ->
        t + (byoMomentsRemaining p - 1) * ByoYomiMethod.byoTimeMs m <= 0 ->
        ByoYomiMethod.onTick m deltaMs p =
        (set_timeMs 0 (set_byoMomentsRemaining 0 p), mkTickResult true 0 false)).
Proof.
  assert (forall deltaMs (j : nat),
            ByoYomiMethod.byoMoments m <> 0 ->
            timeMs p - deltaMs + Z.of_nat j * ByoYomiMethod.byoTimeMs m <= 0 ->
            0 < timeMs p - deltaMs + (Z.of_nat j + 1) * ByoYomiMethod.byoTimeMs m ->
            Z.of_nat j + 1 < byoMomentsRemaining p ->
            ByoYomiMethod.onTick m deltaMs p =
            (set_timeMs (timeMs p - deltaMs + (Z.of_nat j + 1) * ByoYomiMethod.byoTimeMs m)
               (set_byoMomentsRemaining (byoMomentsRemaining p - (Z.of_nat j + 1)) p),
             mkTickResult false
               (timeMs p - deltaMs + (Z.of_nat j + 1) * ByoYomiMethod.byoTimeMs m) true))
    as Hcarry.
  { intros deltaMs j Hfin Hle Hgt Hn.
    assert (0 < ByoYomiMethod.byoTimeMs m) as Hb by lia.
    unfold ByoYomiMethod.onTick. cbv zeta.
    change (timeMs (set_timeMs (timeMs p - deltaMs) p)) with (timeMs p - deltaMs).
    destruct (Z.leb_spec (timeMs p - deltaMs) 0); [| nia].
    destruct (Z.eqb_spec (ByoYomiMethod.byoMoments m) 0); [contradiction |].
    rewrite (consumeMoments_carry m j) by (unfold_setters; simpl; lia).
    unfold_setters; simpl.
    destruct (Z.leb_spec
                (timeMs p - deltaMs + (Z.of_nat j + 1) * ByoYomiMethod.byoTimeMs m) 0);
      [lia | reflexivity]. }
  repeat apply conj.
  - intros Hfin k Hn Ht Hk.
    rewrite (Hcarry (ByoYomiMethod.byoTimeMs m + k) 0%nat Hfin) by (simpl; lia).
    simpl. repeat f_equal; lia.
  - intros Hfin deltaMs j t consumed. apply Hcarry; exact Hfin.
  - intros deltaMs. apply ByoYomiMethod_onTick_expired.
  - intros Hfin deltaMs t Hn Ht Hle. subst t.
    unfold ByoYomiMethod.onTick. cbv zeta.
    change (timeMs (set_timeMs (timeMs p - deltaMs) p)) with (timeMs p - deltaMs).
    destruct (Z.leb_spec (timeMs p - deltaMs) 0); [| lia].
    destruct (Z.eqb_spec (ByoYomiMethod.byoMoments m) 0); [contradiction |].
    rewrite (consumeMoments_exhaust m (Z.to_nat (byoMomentsRemaining p - 1)))
      by (unfold_setters; simpl; lia).
    reflexivity.
Qed.

Lemma byoyomi_moment_carry_witness :
  let m := ByoYomiMethod.mk 60000 5 5 in
  let p := set_byoMomentsRemaining 5 (set_timeMs 60000 (newPlayerState LEFT)) in
  ByoYomiMethod.onTick m (60000 + 100) p =
  (set_timeMs (60000 - 100) (set_byoMomentsRemaining (5 - 1) p),
   mkTickResult false (60000 - 100) true).
Proof.
  intros m p.
  destruct (byoyomi_moment_carry m p) as [H _].
  apply (H ltac:(discriminate) 100); [reflexivity | reflexivity | split; reflexivity].
Defined.

(** C10.  In the infinite mode ([byoMoments = 0]) every tick reports no
    expiry and leaves the clock strictly positive; when the overflow taken
    by the reload is at least the moment time the clock is set to exactly
    1 ms; and [isExpired] is false on every clock. *)
Theorem byoyomi_infinite_never_expires (m : ByoYomiMethod.t) (p : PlayerState)
    (deltaMs : Z) :
  ByoYomiMethod.byoMoments m = 0 ->
  let '(p', r) := ByoYomiMethod.onTick m deltaMs p in
  expired r = false /\ 0 < timeMs p' /\
  (timeMs p - deltaMs <= 0 -> ByoYomiMethod.byoTimeMs m <= deltaMs - timeMs p ->
   timeMs p' = 1) /\
  (timeMs p - deltaMs <= 0 -> deltaMs - timeMs p < ByoYomiMethod.byoTimeMs m ->
   timeMs p' = ByoYomiMethod.byoTimeMs m - (deltaMs - timeMs p)) /\
  (forall q, ByoYomiMethod.isExpired m q = false).
Proof.
  intros Hinf. unfold ByoYomiMethod.onTick, ByoYomiMethod.isExpired. cbv zeta.
  rewrite Hinf. simpl (0 =? 0).
  change (timeMs (set_timeMs (timeMs p - deltaMs) p)) with (timeMs p - deltaMs).
  destruct (Z.leb_spec (timeMs p - deltaMs) 0).
  - unfold_setters; simpl.
    destruct (Z.leb_spec (ByoYomiMethod.byoTimeMs m - - (timeMs p - deltaMs)) 0);
      simpl; repeat split; intros; try reflexivity; lia.
  - unfold_setters; simpl. repeat split; intros; try reflexivity; lia.
Qed.

Lemma byoyomi_infinite_never_expires_witness :
  let m := ByoYomiMethod.mk 20000 0 0 in
  let p := set_timeMs 100 (newPlayerState LEFT) in
  let '(p', r) := ByoYomiMethod.onTick m 50000 p in
  expired r = false /\ 0 < timeMs p'.
Proof.
  intros m p.
  pose proof (byoyomi_infinite_never_expires m p 50000 eq_refl) as H.
  destruct (ByoYomiMethod.onTick m 50000 p) as [p' r].
  destruct H as (H1 & H2 & _). split; [exact H1 | exact H2].
Defined.

(** ** The scheduler *)

Section Scheduler.

Context {C : Type}.
Variable call : C -> Z -> TimerEngine C -> TimerEngine C.







End Scheduler.


(** ** Configuring the match *)

(** [initGame] throws exactly on a configuration without periods. *)
Lemma initGame_throws_iff (config : OptionConfig) (g : GameState) :
  threw (GameStateOps.initGame config g) = true <-> periods config = [].
Proof.
  unfold GameStateOps.initGame. destruct (periods config); simpl; split;
    intros H; try reflexivity; discriminate H.
Qed.

(** What the throwing call leaves behind: both clocks are as they were, but
    the configuration, the status, the active side and the freeze and sound
    settings have already been written. *)
Lemma initGame_throw_state (config : OptionConfig) (g : GameState) :
  periods config = [] ->
  GameStateOps.initGame config g =
  Throw (mkGameState IDLE None (left g) (right g) (selectedOption g) (Some config)
           (default false (freezeDefault config)) (default false (soundDefault config))
           false (_preCorrectionStatus g)).
Proof.
  intros H. unfold GameStateOps.initGame. rewrite H. reflexivity.
Qed.

(** C7 at a failing input.  A match configured with one sudden-death period
    of five minutes is started; [initGame] is then called with a
    configuration that has no period.  The call throws, and the state it
    leaves is not the state it found: the period-less configuration is
    stored, the status is back to idle, no side is active, and the freeze
    and sound settings are those of the refused configuration. *)
Theorem initGame_empty_periods_overwrites_state :
  let good :=
    mkOptionConfig [mkPeriodConfig TIME (Some 300000) None None None None]
      (Some false) (Some false) None None in
  let bad := mkOptionConfig [] (Some true) (Some true) None None in
  let g0 := GameStateOps.startGame LEFT (stateOf (GameStateOps.initGame good GameStateOps.new)) in
  let after := GameStateOps.initGame bad g0 in
  threw after = true /\
  stateOf after <> g0 /\
  optionConfig g0 = Some good /\ optionConfig (stateOf after) = Some bad /\
  status g0 = RUNNING /\ status (stateOf after) = IDLE /\
  activePlayer g0 = Some RIGHT /\ activePlayer (stateOf after) = None /\
  freezeEnabled g0 = false /\ freezeEnabled (stateOf after) = true /\
  soundEnabled g0 = false /\ soundEnabled (stateOf after) = true /\
  left (stateOf after) = left g0 /\ right (stateOf after) = right g0.
Proof.
  vm_compute. repeat split; try reflexivity. discriminate.
Qed.

(** ** Applying a correction *)

Lemma exitCorrectionMode_left (g : GameState) :
  left (GameStateOps.exitCorrectionMode g) = left g.
Proof. unfold GameStateOps.exitCorrectionMode. destruct (status g); reflexivity. Qed.

Lemma exitCorrectionMode_right (g : GameState) :
  right (GameStateOps.exitCorrectionMode g) = right g.
Proof. unfold GameStateOps.exitCorrectionMode. destruct (status g); reflexivity. Qed.

(** The method that [createMethod] makes: the class named by the period's
    method (sudden death for the END marker), with the period's own
    parameters. *)
Lemma createMethod_rules (c : PeriodConfig) :
  (method c <> END ->
   TimingMethodOps.getType (PeriodManagerOps.createMethod c) = method c) /\
  (method c = END -> PeriodManagerOps.createMethod c = ofTime) /\
  (method c = FISCHER ->
   PeriodManagerOps.createMethod c
   = ofFischer (FischerMethod.mk (orZero (cfg_delayMs c)) (orZero (cfg_movesRequired c)))) /\
  (method c = DELAY ->
   PeriodManagerOps.createMethod c
   = ofBronsteinDelay (BronsteinDelayMethod.mk (orZero (cfg_delayMs c)))) /\
  (method c = US_DELAY ->
   PeriodManagerOps.createMethod c = ofUsDelay (UsDelayMethod.mk (orZero (cfg_delayMs c)))) /\
  (method c = BYO_YOMI ->
   PeriodManagerOps.createMethod c
   = ofByoYomi (ByoYomiMethod.mk (orZero (cfg_byoTimeMs c)) (orZero (cfg_byoMoments c)) 0)) /\
  (method c = CANADIAN_BYO ->
   PeriodManagerOps.createMethod c
   = ofCanadianByoYomi
       (CanadianByoYomiMethod.mk (Z.min (orZero (cfg_byoTimeMs c)) 599000)
          (orZero (cfg_movesRequired c)) 0)).
Proof.
  unfold PeriodManagerOps.createMethod.
  repeat split; destruct (method c); intros H; try reflexivity; try discriminate H;
    contradiction.
Qed.

(** What the correction does clamp.  With a configuration of at least one
    period in place, applying a correction returns (nothing is rejected)
    with each side's period index clamped into [[0, totalPeriods - 1]], the
    move counter of each side set to the corrected count clamped at 0, and
    each side's timing method created anew from the configuration of the
    period the side is now in. *)
Theorem applyCorrection_clamps (corrected : Corrected) (a : App) (config : OptionConfig) :
  optionConfig (gameState a) = Some config ->
  periods config <> [] ->
  let a' := AppOps.applyCorrection corrected a in
  let totalPeriods := Z.of_nat (length (periods config)) in
  (0 <= currentPeriod (left (gameState a')) <= totalPeriods - 1 /\
   currentPeriod (left (gameState a')) =
     Z.max 0 (Z.min (c_leftPeriod corrected) (totalPeriods - 1))) /\
  (0 <= currentPeriod (right (gameState a')) <= totalPeriods - 1 /\
   currentPeriod (right (gameState a')) =
     Z.max 0 (Z.min (c_rightPeriod corrected) (totalPeriods - 1))) /\
  (leftMoves (moveCounter a') = Z.max 0 (c_leftMoves corrected) /\
   0 <= leftMoves (moveCounter a')) /\
  (rightMoves (moveCounter a') = Z.max 0 (c_rightMoves corrected) /\
   0 <= rightMoves (moveCounter a')) /\
  (exists pl,
      periodAt (periods config) (currentPeriod (left (gameState a'))) = Some pl /\
      activeMethods (periodManager a') !! LEFT = Some (PeriodManagerOps.createMethod pl)) /\
  (exists pr,
      periodAt (periods config) (currentPeriod (right (gameState a'))) = Some pr /\
      activeMethods (periodManager a') !! RIGHT = Some (PeriodManagerOps.createMethod pr)).
Proof.
  intros Hcfg Hne a' totalPeriods.
  assert (1 <= totalPeriods) as Htot.
  { unfold totalPeriods. destruct (periods config); [contradiction | simpl length; lia]. }
  assert (forall i, 0 <= i <= totalPeriods - 1 ->
                    exists pc, periodAt (periods config) i = Some pc) as Hat.
  { intros i Hi. unfold periodAt. destruct (Z.ltb_spec i 0); [lia |].
    apply lookup_lt_is_Some_2. unfold totalPeriods in Hi. lia. }
  set (lp := Z.max 0 (Z.min (c_leftPeriod corrected) (totalPeriods - 1))).
  set (rp := Z.max 0 (Z.min (c_rightPeriod corrected) (totalPeriods - 1))).
  destruct (Hat lp ltac:(unfold lp; lia)) as [pl Hpl].
  destruct (Hat rp ltac:(unfold rp; lia)) as [pr Hpr].
  unfold a', AppOps.applyCorrection. cbv zeta.
  cbn [optionConfig set_right set_left]. rewrite Hcfg.
  cbn [currentPeriod left right set_right set_left set_currentPeriod].
  fold totalPeriods. fold lp. fold rp. rewrite Hpl, Hpr.
  cbn [gameState periodManager moveCounter].
  rewrite exitCorrectionMode_left, exitCorrectionMode_right.
  cbn [currentPeriod left right set_right set_left set_currentPeriod leftMoves rightMoves
       MoveCounterOps.setMoves].
  repeat apply conj; try reflexivity; try (unfold lp, rp; lia).
  - exists pl. split; [exact Hpl |].
    unfold PeriodManagerOps.setMethod. cbn [activeMethods].
    rewrite lookup_insert_ne by discriminate. apply lookup_insert_eq.
  - exists pr. split; [exact Hpr |].
    unfold PeriodManagerOps.setMethod. cbn [activeMethods]. apply lookup_insert_eq.
Qed.

Lemma applyCorrection_clamps_witness :
  let config :=
    mkOptionConfig [mkPeriodConfig TIME (Some 300000) None None None None;
                    mkPeriodConfig FISCHER (Some 150000) (Some 2000) None None None]
      (Some false) (Some false) None None in
  let g := GameStateOps.startGame LEFT (stateOf (GameStateOps.initGame config GameStateOps.new)) in
  let a :=
    mkApp (GameStateOps.enterCorrectionMode (GameStateOps.pause g)) TimerEngineOps.new
      (PeriodManagerOps.init g PeriodManagerOps.new) MoveCounterOps.new in
  let a' := AppOps.applyCorrection (mkCorrected 1000 2000 (-3) 4 7 (-2)) a in
  currentPeriod (left (gameState a')) = 1 /\
  currentPeriod (right (gameState a')) = 0 /\
  leftMoves (moveCounter a') = 0.
Proof.
  intros config g a a'.
  destruct (applyCorrection_clamps (mkCorrected 1000 2000 (-3) 4 7 (-2)) a config
              eq_refl ltac:(discriminate))
    as ((_ & Hl) & (_ & Hr) & (Hm & _) & _).
  split; [exact Hl | split; [exact Hr | exact Hm]].
Defined.


(** The clock's own move count is written as it comes, whatever the
    correction: [PlayerState.moves] is not clamped. *)
Lemma applyCorrection_player_moves (corrected : Corrected) (a : App) :
  moves (left (gameState (AppOps.applyCorrection corrected a))) = c_leftMoves corrected /\
  moves (right (gameState (AppOps.applyCorrection corrected a))) = c_rightMoves corrected.
Proof.
  unfold AppOps.applyCorrection. cbv zeta.
  cbn [optionConfig set_right set_left].
  destruct (optionConfig (gameState a)) as [config |];
    cbn [gameState]; rewrite exitCorrectionMode_left, exitCorrectionMode_right;
    split; reflexivity.
Qed.

(** ** What a tick of a timing method leaves alone *)

Lemma clampExpiry_frame (p : PlayerState) :
  currentPeriod (fst (clampExpiry p)) = currentPeriod p /\
  flagState (fst (clampExpiry p)) = flagState p /\
  moves (fst (clampExpiry p)) = moves p.
Proof.
  unfold clampExpiry. zcase; repeat split; reflexivity.
Qed.

Lemma UsDelayMethod_onTick_frame (m : UsDelayMethod.t) (deltaMs : Z) (p : PlayerState) :
  currentPeriod (fst (UsDelayMethod.onTick m deltaMs p)) = currentPeriod p /\
  flagState (fst (UsDelayMethod.onTick m deltaMs p)) = flagState p /\
  moves (fst (UsDelayMethod.onTick m deltaMs p)) = moves p.
Proof.
  unfold UsDelayMethod.onTick. cbv zeta.
  destruct (inDelay p).
  - destruct (delayRemainingMs (set_delayRemainingMs (delayRemainingMs p - deltaMs) p) <=? 0).
    + destruct (0 <? _);
        match goal with |- context [clampExpiry ?q] =>
          destruct (clampExpiry_frame q) as (-> & -> & ->) end;
        repeat split; reflexivity.
    + match goal with |- context [clampExpiry ?q] =>
        destruct (clampExpiry_frame q) as (-> & -> & ->) end.
      repeat split; reflexivity.
  - match goal with |- context [clampExpiry ?q] =>
      destruct (clampExpiry_frame q) as (-> & -> & ->) end.
    repeat split; reflexivity.
Qed.

Lemma ByoYomiMethod_onTick_frame (m : ByoYomiMethod.t) (deltaMs : Z) (p : PlayerState) :
  currentPeriod (fst (ByoYomiMethod.onTick m deltaMs p)) = currentPeriod p /\
  flagState (fst (ByoYomiMethod.onTick m deltaMs p)) = flagState p.
Proof.
  unfold ByoYomiMethod.onTick. cbv zeta.
  destruct (timeMs (set_timeMs (timeMs p - deltaMs) p) <=? 0); [| split; reflexivity].
  destruct (ByoYomiMethod.byoMoments m =? 0).
  - destruct (timeMs _ <=? 0); split; reflexivity.
  - pose proof (consumeMoments_exit m (set_timeMs (timeMs p - deltaMs) p) false) as Hex.
    destruct (ByoYomiMethod.consumeMoments m (set_timeMs (timeMs p - deltaMs) p) false)
      as [p2 r | p2 me].
    + destruct Hex as (_ & _ & _ & H1 & H2). split; assumption.
    + destruct Hex as (_ & H1 & H2).
      destruct (timeMs p2 <=? 0); [| destruct me]; split; assumption.
Qed.

Lemma TimingMethod_onTick_frame (m : TimingMethod) (deltaMs : Z) (p : PlayerState) :
  currentPeriod (fst (TimingMethodOps.onTick m deltaMs p)) = currentPeriod p /\
  flagState (fst (TimingMethodOps.onTick m deltaMs p)) = flagState p.
Proof.
  destruct m as [| f | b | u | b | c |]; simpl.
  - unfold TimeMethod.onTick.
    destruct (clampExpiry_frame (set_timeMs (timeMs p - deltaMs) p)) as (-> & -> & _).
    split; reflexivity.
  - unfold FischerMethod.onTick.
    destruct (clampExpiry_frame (set_timeMs (timeMs p - deltaMs) p)) as (-> & -> & _).
    split; reflexivity.
  - unfold BronsteinDelayMethod.onTick.
    destruct (clampExpiry_frame (set_timeMs (timeMs p - deltaMs) p)) as (-> & -> & _).
    split; reflexivity.
  - destruct (UsDelayMethod_onTick_frame u deltaMs p) as (H1 & H2 & _). split; assumption.
  - apply ByoYomiMethod_onTick_frame.
  - unfold CanadianByoYomiMethod.onTick.
    destruct (clampExpiry_frame (set_timeMs (timeMs p - deltaMs) p)) as (-> & -> & _).
    split; reflexivity.
  - split; reflexivity.
Qed.

(** Whichever method reports expiry leaves the clock at exactly 0. *)
Lemma TimingMethod_onTick_expired (m : TimingMethod) (deltaMs : Z) (p : PlayerState) :
  expired (snd (TimingMethodOps.onTick m deltaMs p)) = true ->
  timeMs (fst (TimingMethodOps.onTick m deltaMs p)) = 0.
Proof.
  destruct m as [| f | b | u | b | c |]; simpl;
    try (apply clampExpiry_expired).
  - intros H. apply (ByoYomiMethod_onTick_expired b p deltaMs H).
  - discriminate.
Qed.

(** ** The tick of the period manager *)

Lemma getPlayer_setPlayer (s : Player) (p : PlayerState) (g : GameState) :
  GameStateOps.getPlayer s (GameStateOps.setPlayer s p g) = p.
Proof. destruct s; reflexivity. Qed.

Lemma getOpponent_setPlayer (s : Player) (p : PlayerState) (g : GameState) :
  GameStateOps.getOpponent s (GameStateOps.setPlayer s p g) = GameStateOps.getOpponent s g.
Proof. destruct s; reflexivity. Qed.

Lemma setPlayer_frame (s : Player) (p : PlayerState) (g : GameState) :
  status (GameStateOps.setPlayer s p g) = status g /\
  activePlayer (GameStateOps.setPlayer s p g) = activePlayer g /\
  optionConfig (GameStateOps.setPlayer s p g) = optionConfig g /\
  freezeEnabled (GameStateOps.setPlayer s p g) = freezeEnabled g.
Proof. destruct s; repeat split; reflexivity. Qed.

Lemma Normal_inv {S R : Type} (s s' : S) (r r' : R) :
  Normal s r = Normal s' r' -> s = s' /\ r = r'.
Proof. intros H. injection H. auto. Qed.

(** Every way in which the period manager's tick reports expiry: the
    method's tick has run on the side's clock, that clock carries a
    blinking flag, and nothing else has moved. *)
Lemma PeriodManager_onTick_expired (deltaMs : Z) (s : Player) (now : Z)
    (g : GameState) (pm : PeriodManager) (g1 : GameState) (pm1 : PeriodManager)
    (r : PeriodResult) :
  PeriodManagerOps.onTick deltaMs s now (g, pm) = Normal (g1, pm1) r ->
  expiredResult r = true ->
  exists m,
    PeriodManagerOps.getMethod s pm = Some m /\
    pm1 = pm /\
    g1 = GameStateOps.setPlayer s
           (PlayerStateOps.setFlag BLINKING now
              (fst (TimingMethodOps.onTick m deltaMs (GameStateOps.getPlayer s g))))
           (GameStateOps.setPlayer s
              (fst (TimingMethodOps.onTick m deltaMs (GameStateOps.getPlayer s g))) g).
Proof.
  unfold PeriodManagerOps.onTick.
  destruct (PeriodManagerOps.getMethod s pm) as [m |] eqn:Hm.
  2:{ intros H Hr. apply Normal_inv in H as [_ <-]. discriminate Hr. }
  intros H Hr. exists m. split; [reflexivity |].
  destruct (TimingMethodOps.onTick m deltaMs (GameStateOps.getPlayer s g)) as [p' tr].
  cbn [fst].
  set (flagged := GameStateOps.setPlayer s (PlayerStateOps.setFlag BLINKING now p')
                    (GameStateOps.setPlayer s p' g)).
  assert (forall mb,
            PeriodManagerOps._transitionToNextPeriod s mb now
              (GameStateOps.setPlayer s p' g, pm) = Normal (g1, pm1) r ->
            pm1 = pm /\ g1 = flagged) as Htrans.
  { intros mb. unfold PeriodManagerOps._transitionToNextPeriod.
    destruct (optionConfig (GameStateOps.setPlayer s p' g)) as [config |];
      [| discriminate].
    rewrite getPlayer_setPlayer. fold flagged.
    destruct (Z.of_nat (length (periods config)) <=? currentPeriod p' + 1).
    - intros E. apply Normal_inv in E as [E _]. injection E as <- <-. split; reflexivity.
    - destruct (periodAt (periods config) (currentPeriod p' + 1)) as [nextc |];
        [| discriminate].
      destruct (decide (method nextc = END)).
      + intros E. apply Normal_inv in E as [E _]. injection E as <- <-. split; reflexivity.
      + destruct mb; intros E; apply Normal_inv in E as [_ <-]; discriminate Hr. }
  destruct (expired tr).
  - unfold PeriodManagerOps._handleExpiry in H.
    destruct (GameStateOps.isInFinalPeriod s (GameStateOps.setPlayer s p' g)).
    + rewrite getPlayer_setPlayer in H. fold flagged in H.
      apply Normal_inv in H as [E _]. injection E as <- <-. split; reflexivity.
    + exact (Htrans false H).
  - destruct m as [| f | b | u | b | c |];
      try (apply Normal_inv in H as [_ <-]; discriminate Hr).
    destruct (FischerMethod.isPeriodCompleteByMoves f p' _).
    + exact (Htrans true H).
    + apply Normal_inv in H as [_ <-]; discriminate Hr.
Qed.

(** ** The tick of the application *)

Lemma stopEngine_not_running (e : TimerEngine AppCallback) :
  _running (AppOps.stopEngine e) = false.
Proof.
  unfold AppOps.stopEngine, TimerEngineOps.stop.
  destruct (_running e) eqn:E; simpl; [reflexivity | exact E].
Qed.

(** What [_onTick] does on an expiry, with the final period as
    [GameState.isInFinalPeriod] counts it (the side's index is the last
    index of the configuration).  The match is running with [active] to
    move, and the period manager's tick reports expiry.  Then [_onTick]
    returns; the active side's flag is set, whatever the freeze setting; the
    status is frozen exactly when freeze mode is on and [isInFinalPeriod]
    holds of the active side, and then the timer engine has been stopped; in
    every other case the status is still running and the engine has not
    been touched. *)
Theorem onTick_expiry_flag_and_freeze (deltaMs now : Z) (a : App) (active : Player)
    (g1 : GameState) (pm1 : PeriodManager) (r : PeriodResult) :
  status (gameState a) = RUNNING ->
  activePlayer (gameState a) = Some active ->
  PeriodManagerOps.onTick deltaMs active now (gameState a, periodManager a)
    = Normal (g1, pm1) r ->
  expiredResult r = true ->
  exists a',
    AppOps._onTick deltaMs now a = Normal a' tt /\
    flagState (GameStateOps.getPlayer active (gameState a')) <> NONE /\
    (status (gameState a') = FROZEN <->
     freezeEnabled (gameState a) = true /\
     GameStateOps.isInFinalPeriod active (gameState a) = true) /\
    GameStateOps.isInFinalPeriod active (gameState a') =
      GameStateOps.isInFinalPeriod active (gameState a) /\
    freezeEnabled (gameState a') = freezeEnabled (gameState a) /\
    (status (gameState a') = FROZEN -> _running (timerEngine a') = false) /\
    (status (gameState a') <> FROZEN ->
     status (gameState a') = RUNNING /\ timerEngine a' = timerEngine a).
Proof.
  intros Hst Hact Htick Hexp.
  destruct (PeriodManager_onTick_expired _ _ _ _ _ _ _ _ Htick Hexp) as (m & Hm & -> & Hg1).
  set (p' := fst (TimingMethodOps.onTick m deltaMs
                    (GameStateOps.getPlayer active (gameState a)))) in *.
  assert (flagState (GameStateOps.getPlayer active g1) = BLINKING) as Hflag
    by (rewrite Hg1, getPlayer_setPlayer; reflexivity).
  assert (status g1 = RUNNING /\ freezeEnabled g1 = freezeEnabled (gameState a)
          /\ optionConfig g1 = optionConfig (gameState a)) as (Hst1 & Hfr1 & Hcfg1).
  { rewrite Hg1.
    destruct (setPlayer_frame active (PlayerStateOps.setFlag BLINKING now p')
                (GameStateOps.setPlayer active p' (gameState a))) as (-> & _ & -> & ->).
    destruct (setPlayer_frame active p' (gameState a)) as (-> & _ & -> & ->).
    auto. }
  assert (GameStateOps.isInFinalPeriod active g1 =
          GameStateOps.isInFinalPeriod active (gameState a)) as Hfin.
  { unfold GameStateOps.isInFinalPeriod. rewrite Hcfg1.
    destruct (optionConfig (gameState a)); [| reflexivity].
    rewrite Hg1, getPlayer_setPlayer. cbn [currentPeriod PlayerStateOps.setFlag].
    unfold p'. now destruct (TimingMethod_onTick_frame m deltaMs
                               (GameStateOps.getPlayer active (gameState a))) as [-> _]. }
  unfold AppOps._onTick. cbv zeta. rewrite Hst, Hact, Htick, Hexp.
  destruct (decide (flagState (GameStateOps.getPlayer active g1) = NONE)) as [Hn | _];
    [rewrite Hflag in Hn; discriminate |].
  rewrite Hfr1, Hfin.
  destruct (freezeEnabled (gameState a)); cbn [andb].
  - destruct (GameStateOps.isInFinalPeriod active (gameState a)) eqn:Ef.
    + eexists. split; [reflexivity |]. cbn [gameState timerEngine].
      assert (GameStateOps.freeze g1 = set_status FROZEN g1) as ->
        by (unfold GameStateOps.freeze; now rewrite Hst1).
      assert (GameStateOps.getPlayer active (set_status FROZEN g1)
              = GameStateOps.getPlayer active g1) as -> by (destruct active; reflexivity).
      assert (GameStateOps.isInFinalPeriod active (set_status FROZEN g1)
              = GameStateOps.isInFinalPeriod active g1) as -> by (destruct active; reflexivity).
      cbn [status set_status freezeEnabled]. rewrite Hflag, Hfin, Hfr1.
      repeat split; try reflexivity; try discriminate; try congruence.
      intros _. apply stopEngine_not_running.
    + eexists. split; [reflexivity |]. cbn [gameState timerEngine].
      rewrite Hflag, Hst1, Hfin, Hfr1.
      repeat split; try reflexivity; try discriminate; try congruence.
      intros [_ H]; discriminate H.
  - eexists. split; [reflexivity |]. cbn [gameState timerEngine].
    rewrite Hflag, Hst1, Hfin, Hfr1.
    repeat split; try reflexivity; try discriminate; try congruence.
    intros [H _]; discriminate H.
Qed.

(** ** Time-based transitions *)

Lemma transitionPlayer_frame (s : Player) (idx : Z) (old : option PeriodConfig)
    (newc : PeriodConfig) (g : GameState) (pm : PeriodManager) :
  let st := PeriodManagerOps._transitionPlayerToPeriod s idx old newc (g, pm) in
  status (fst st) = status g /\
  activePlayer (fst st) = activePlayer g /\
  optionConfig (fst st) = optionConfig g /\
  freezeEnabled (fst st) = freezeEnabled g /\
  GameStateOps.getOpponent s (fst st) = GameStateOps.getOpponent s g /\
  activeMethods (snd st) !! opposite s = activeMethods pm !! opposite s /\
  activeMethods (snd st) !! s = Some (PeriodManagerOps.createMethod newc) /\
  currentPeriod (GameStateOps.getPlayer s (fst st)) = idx /\
  flagState (GameStateOps.getPlayer s (fst st)) = flagState (GameStateOps.getPlayer s g) /\
  (addsMainTime (method newc) = true ->
   timeMs (GameStateOps.getPlayer s (fst st)) =
     timeMs (GameStateOps.getPlayer s g) + orZero (cfg_timeMs newc)).
Proof.
  unfold PeriodManagerOps._transitionPlayerToPeriod. cbv zeta.
  cbn [fst snd activeMethods].
  rewrite getPlayer_setPlayer, getOpponent_setPlayer.
  destruct (setPlayer_frame s
              (set_inDelay false
                 (set_delayRemainingMs 0
                    match method newc with
                    | BYO_YOMI =>
                        set_timeMs (orZero (cfg_byoTimeMs newc))
                          (set_byoMomentTimeMs (orZero (cfg_byoTimeMs newc))
                             (set_byoMomentsRemaining (orZero (cfg_byoMoments newc))
                                (set_currentPeriod idx (GameStateOps.getPlayer s g))))
                    | CANADIAN_BYO =>
                        set_timeMs (orZero (cfg_byoTimeMs newc))
                          (set_currentPeriod idx (GameStateOps.getPlayer s g))
                    | UPCOUNT => set_timeMs 0 (set_currentPeriod idx (GameStateOps.getPlayer s g))
                    | _ =>
                        set_timeMs
                          (timeMs (set_currentPeriod idx (GameStateOps.getPlayer s g))
                           + orZero (cfg_timeMs newc))
                          (set_currentPeriod idx (GameStateOps.getPlayer s g))
                    end)) g) as (-> & -> & -> & ->).
  repeat apply conj; try reflexivity.
  - apply lookup_insert_ne. destruct s; discriminate.
  - apply lookup_insert_eq.
  - destruct (method newc); reflexivity.
  - destruct (method newc); reflexivity.
  - destruct (method newc); simpl; intros H; try discriminate H; reflexivity.
Qed.

(** The clock that a transition leaves when the new period is of the
    byo-yomi family or the up-count: what the clock held is dropped. *)
Lemma transitionPlayer_time (s : Player) (idx : Z) (old : option PeriodConfig)
    (newc : PeriodConfig) (g : GameState) (pm : PeriodManager) :
  let p' :=
    GameStateOps.getPlayer s
      (fst (PeriodManagerOps._transitionPlayerToPeriod s idx old newc (g, pm))) in
  (method newc = BYO_YOMI \/ method newc = CANADIAN_BYO ->
   timeMs p' = orZero (cfg_byoTimeMs newc)) /\
  (method newc = UPCOUNT -> timeMs p' = 0).
Proof.
  unfold PeriodManagerOps._transitionPlayerToPeriod. cbv zeta.
  cbn [fst]. rewrite getPlayer_setPlayer.
  split.
  - intros [H | H]; rewrite H; reflexivity.
  - intros H; rewrite H; reflexivity.
Qed.

Lemma getPlayer_opposite (s : Player) (g : GameState) :
  GameStateOps.getPlayer (opposite s) g = GameStateOps.getOpponent s g.
Proof. destruct s; reflexivity. Qed.

Lemma getOpponent_opposite (s : Player) (g : GameState) :
  GameStateOps.getOpponent (opposite s) g = GameStateOps.getPlayer s g.
Proof. destruct s; reflexivity. Qed.

Lemma opposite_involutive (s : Player) : opposite (opposite s) = s.
Proof. destruct s; reflexivity. Qed.

(** The time-based transition out of the first of two periods, at the level
    of the period manager. *)
Lemma PeriodManager_onTick_sync (deltaMs now : Z) (A : Player) (g : GameState)
    (pm : PeriodManager) (config : OptionConfig) (P0 P1 : PeriodConfig) (m : TimingMethod) :
  optionConfig g = Some config ->
  periods config = [P0; P1] ->
  method P1 <> END ->
  PeriodManagerOps.getMethod A pm = Some m ->
  currentPeriod (GameStateOps.getPlayer A g) = 0 ->
  expired (snd (TimingMethodOps.onTick m deltaMs (GameStateOps.getPlayer A g))) = true ->
  exists g' pm',
    PeriodManagerOps.onTick deltaMs A now (g, pm) = Normal (g', pm') (mkPeriodResult false true) /\
    status g' = status g /\
    currentPeriod (GameStateOps.getPlayer A g') = 1 /\
    flagState (GameStateOps.getPlayer A g') = NON_BLINKING /\
    (addsMainTime (method P1) = true ->
     timeMs (GameStateOps.getPlayer A g') = orZero (cfg_timeMs P1)) /\
    (method P1 = BYO_YOMI \/ method P1 = CANADIAN_BYO ->
     timeMs (GameStateOps.getPlayer A g') = orZero (cfg_byoTimeMs P1)) /\
    (method P1 = UPCOUNT -> timeMs (GameStateOps.getPlayer A g') = 0) /\
    activeMethods pm' !! A = Some (PeriodManagerOps.createMethod P1) /\
    (currentPeriod (GameStateOps.getOpponent A g) = 0 ->
     currentPeriod (GameStateOps.getOpponent A g') = 1 /\
     (addsMainTime (method P1) = true ->
      timeMs (GameStateOps.getOpponent A g') =
        timeMs (GameStateOps.getOpponent A g) + orZero (cfg_timeMs P1)) /\
     (method P1 = BYO_YOMI \/ method P1 = CANADIAN_BYO ->
      timeMs (GameStateOps.getOpponent A g') = orZero (cfg_byoTimeMs P1)) /\
     (method P1 = UPCOUNT -> timeMs (GameStateOps.getOpponent A g') = 0) /\
     activeMethods pm' !! opposite A = Some (PeriodManagerOps.createMethod P1)) /\
    (currentPeriod (GameStateOps.getOpponent A g) <> 0 ->
     GameStateOps.getOpponent A g' = GameStateOps.getOpponent A g /\
     activeMethods pm' !! opposite A = activeMethods pm !! opposite A).
Proof.
  intros Hcfg Hper Hfam Hm Hcur Hexp.
  pose proof (TimingMethod_onTick_expired m deltaMs _ Hexp) as Hzero.
  destruct (TimingMethod_onTick_frame m deltaMs (GameStateOps.getPlayer A g)) as [Hcp _].
  unfold PeriodManagerOps.onTick. rewrite Hm.
  destruct (TimingMethodOps.onTick m deltaMs (GameStateOps.getPlayer A g)) as [p' tr].
  cbn [fst snd] in *. rewrite Hexp. rewrite Hcur in Hcp.
  set (g0 := GameStateOps.setPlayer A p' g).
  assert (optionConfig g0 = Some config) as Hcfg0
    by (unfold g0; destruct (setPlayer_frame A p' g) as (_ & _ & -> & _); exact Hcfg).
  assert (GameStateOps.getPlayer A g0 = p') as HpA0 by apply getPlayer_setPlayer.
  unfold PeriodManagerOps._handleExpiry, GameStateOps.isInFinalPeriod.
  unfold PeriodManagerOps._transitionToNextPeriod.
  rewrite Hcfg0, Hper, !HpA0, !Hcp.
  change (Z.of_nat (length [P0; P1]) - 1 <=? 0) with false.
  change (Z.of_nat (length [P0; P1]) <=? 0 + 1) with false.
  change (periodAt [P0; P1] (0 + 1)) with (Some P1).
  change (0 + 1) with 1. cbv iota.
  destruct (decide (method P1 = END)) as [E | _]; [contradiction |].
  cbv zeta.
  set (g1 := GameStateOps.setPlayer A (PlayerStateOps.setFlag NON_BLINKING now p') g0).
  pose proof (transitionPlayer_frame A 1 (periodAt [P0; P1] 0) P1 g1 pm) as HA.
  pose proof (transitionPlayer_time A 1 (periodAt [P0; P1] 0) P1 g1 pm) as HAt.
  cbv zeta in HA, HAt.
  destruct (PeriodManagerOps._transitionPlayerToPeriod A 1 (periodAt [P0; P1] 0) P1 (g1, pm))
    as [g2 pm2].
  cbn [fst snd] in HA, HAt.
  destruct HA as (Hs2 & _ & _ & _ & Hopp2 & HmB2 & HmA2 & Hcur2 & Hflag2 & Htime2).
  destruct HAt as [Hbyo2 Hup2].
  assert (GameStateOps.getPlayer A g1 = PlayerStateOps.setFlag NON_BLINKING now p') as HpA1
    by (unfold g1; apply getPlayer_setPlayer).
  assert (GameStateOps.getOpponent A g1 = GameStateOps.getOpponent A g) as Hopp1
    by (unfold g1, g0; now rewrite !getOpponent_setPlayer).
  assert (status g1 = status g) as Hs1.
  { unfold g1, g0.
    destruct (setPlayer_frame A (PlayerStateOps.setFlag NON_BLINKING now p')
                (GameStateOps.setPlayer A p' g)) as (-> & _).
    now destruct (setPlayer_frame A p' g) as (-> & _). }
  rewrite HpA1 in Hflag2, Htime2. cbn [flagState timeMs PlayerStateOps.setFlag] in Hflag2, Htime2.
  rewrite Hzero in Htime2. rewrite Hopp1 in Hopp2.
  change (0 + orZero (cfg_timeMs P1)) with (orZero (cfg_timeMs P1)) in Htime2.
  cbn [fst snd]. rewrite Hopp2.
  destruct (Z.eqb_spec (currentPeriod (GameStateOps.getOpponent A g)) 0) as [HB | HB].
  - pose proof (transitionPlayer_frame (opposite A) 1 (periodAt [P0; P1] 0) P1 g2 pm2) as HB3.
    pose proof (transitionPlayer_time (opposite A) 1 (periodAt [P0; P1] 0) P1 g2 pm2) as HB3t.
    cbv zeta in HB3, HB3t.
    destruct (PeriodManagerOps._transitionPlayerToPeriod (opposite A) 1
                (periodAt [P0; P1] 0) P1 (g2, pm2)) as [g3 pm3].
    cbn [fst snd] in HB3, HB3t. rewrite opposite_involutive in HB3.
    rewrite !getPlayer_opposite, !getOpponent_opposite in HB3.
    rewrite getPlayer_opposite in HB3t.
    destruct HB3 as (Hs3 & _ & _ & _ & HA3 & HmA3 & HmB3 & Hcur3 & _ & Htime3).
    destruct HB3t as [Hbyo3 Hup3].
    exists g3, pm3. split; [reflexivity |].
    rewrite HA3, Hs3, Hs2, HmA3.
    repeat apply conj; try assumption; try congruence.
    intros _. repeat split; try assumption.
    intros Hf. rewrite (Htime3 Hf), Hopp2. reflexivity.
  - exists g2, pm2. split; [reflexivity |].
    repeat apply conj; try assumption; try congruence.
    all: intros _; split; assumption.
Qed.

(** C1, as the specification words it, fails where [P1] is a byo-yomi.
    The shipped option 20 (one hour of sudden death, then a byo-yomi of one
    moment of 20 s): the right side runs out of its hour while the left
    side, still in period 0, holds 40 minutes.  The tick leaves both sides in
    period 1, and the left clock at the 20 s of the byo-yomi: no time of
    [P1] has been added to its 40 minutes, which are gone. *)
Lemma period_sync_byoyomi_counterexample :
  let P0 := mkPeriodConfig TIME (Some 3600000) None None None None in
  let P1 := mkPeriodConfig BYO_YOMI None None None (Some 20000) (Some 1) in
  let config := mkOptionConfig [P0; P1] (Some false) (Some true) None None in
  let g := GameStateOps.startGame LEFT (stateOf (GameStateOps.initGame config GameStateOps.new)) in
  let a :=
    mkApp (set_left (set_timeMs 2400000 (left g)) (set_right (set_timeMs 100 (right g)) g))
      TimerEngineOps.new (PeriodManagerOps.init g PeriodManagerOps.new) MoveCounterOps.new in
  activePlayer (gameState a) = Some RIGHT /\
  currentPeriod (left (gameState a)) = 0 /\ currentPeriod (right (gameState a)) = 0 /\
  exists a',
    AppOps._onTick 200 0 a = Normal a' tt /\
    currentPeriod (right (gameState a')) = 1 /\
    currentPeriod (left (gameState a')) = 1 /\
    flagState (right (gameState a')) = NON_BLINKING /\
    timeMs (left (gameState a')) = 20000 /\
    timeMs (left (gameState a')) <> timeMs (left (gameState a)) + orZero (cfg_timeMs P1) /\
    timeMs (left (gameState a')) <> timeMs (left (gameState a)) + orZero (cfg_byoTimeMs P1).
Proof.
  cbv zeta. repeat split.
  eexists. split; [vm_compute; reflexivity |].
  repeat split; try reflexivity; vm_compute; discriminate.
Qed.

(** C1 (amended).  Two periods [[P0; P1]], the second not the END marker.
    The match is running, side [A] is to move in [P0], and its method's tick
    reports expiry.  Then the tick of the application returns with the match
    still running and [A] in period 1 under a non-blinking flag with [P1]'s
    method installed.  If the opponent was still in period 0 it is in period 1 too,
    with [P1]'s method installed; if it was not, its clock and its method
    are as before: only [A] has been promoted.  Each promoted clock is
    assigned [P1]'s time by the rule of [P1]'s method: when [P1] counts down
    a main time (sudden death, Fischer, Bronstein or US delay) that main
    time is added to what the clock holds ([A]'s clock holds 0); when [P1]
    is a byo-yomi or a Canadian byo-yomi the clock is set to [P1]'s byo-yomi
    time and what it held is dropped; when [P1] is the up-count the clock
    is set to 0. *)
Theorem time_based_period_sync (deltaMs now : Z) (a : App) (A : Player)
    (config : OptionConfig) (P0 P1 : PeriodConfig) (m : TimingMethod) :
  status (gameState a) = RUNNING ->
  activePlayer (gameState a) = Some A ->
  optionConfig (gameState a) = Some config ->
  periods config = [P0; P1] ->
  method P1 <> END ->
  PeriodManagerOps.getMethod A (periodManager a) = Some m ->
  currentPeriod (GameStateOps.getPlayer A (gameState a)) = 0 ->
  expired (snd (TimingMethodOps.onTick m deltaMs
                  (GameStateOps.getPlayer A (gameState a)))) = true ->
  exists a',
    AppOps._onTick deltaMs now a = Normal a' tt /\
    status (gameState a') = RUNNING /\
    (currentPeriod (GameStateOps.getPlayer A (gameState a')) = 1 /\
     flagState (GameStateOps.getPlayer A (gameState a')) = NON_BLINKING /\
     (addsMainTime (method P1) = true ->
      timeMs (GameStateOps.getPlayer A (gameState a')) =
        timeMs (fst (TimingMethodOps.onTick m deltaMs
                       (GameStateOps.getPlayer A (gameState a))))
        + orZero (cfg_timeMs P1) /\
      timeMs (GameStateOps.getPlayer A (gameState a')) = orZero (cfg_timeMs P1)) /\
     (method P1 = BYO_YOMI \/ method P1 = CANADIAN_BYO ->
      timeMs (GameStateOps.getPlayer A (gameState a')) = orZero (cfg_byoTimeMs P1)) /\
     (method P1 = UPCOUNT -> timeMs (GameStateOps.getPlayer A (gameState a')) = 0) /\
     activeMethods (periodManager a') !! A = Some (PeriodManagerOps.createMethod P1)) /\
    (currentPeriod (GameStateOps.getOpponent A (gameState a)) = 0 ->
     currentPeriod (GameStateOps.getOpponent A (gameState a')) = 1 /\
     (addsMainTime (method P1) = true ->
      timeMs (GameStateOps.getOpponent A (gameState a')) =
        timeMs (GameStateOps.getOpponent A (gameState a)) + orZero (cfg_timeMs P1)) /\
     (method P1 = BYO_YOMI \/ method P1 = CANADIAN_BYO ->
      timeMs (GameStateOps.getOpponent A (gameState a')) = orZero (cfg_byoTimeMs P1)) /\
     (method P1 = UPCOUNT -> timeMs (GameStateOps.getOpponent A (gameState a')) = 0) /\
     activeMethods (periodManager a') !! opposite A
       = Some (PeriodManagerOps.createMethod P1)) /\
    (currentPeriod (GameStateOps.getOpponent A (gameState a)) <> 0 ->
     GameStateOps.getOpponent A (gameState a') = GameStateOps.getOpponent A (gameState a) /\
     activeMethods (periodManager a') !! opposite A
       = activeMethods (periodManager a) !! opposite A).
Proof.
  intros Hst Hact Hcfg Hper Hfam Hm Hcur Hexp.
  destruct (PeriodManager_onTick_sync deltaMs now A (gameState a) (periodManager a)
              config P0 P1 m Hcfg Hper Hfam Hm Hcur Hexp)
    as (g' & pm' & Htick & Hs & HcA & HfA & HtA & HbA & HuA & HmA & Hsync & Hkeep).
  exists (mkApp g' (timerEngine a) pm' (moveCounter a)).
  unfold AppOps._onTick. cbv zeta. rewrite Hst, Hact, Htick.
  cbn [expiredResult gameState periodManager].
  rewrite (TimingMethod_onTick_expired m deltaMs _ Hexp).
  repeat apply conj; try assumption; try reflexivity; try congruence.
  intros Hf. rewrite (HtA Hf). split; reflexivity.
Qed.

Lemma time_based_period_sync_witness :
  let P0 := mkPeriodConfig TIME (Some 3600000) None None None None in
  let P1 := mkPeriodConfig CANADIAN_BYO None None None (Some 300000) None in
  let config := mkOptionConfig [P0; P1] (Some false) (Some true) None None in
  let g := GameStateOps.startGame LEFT (stateOf (GameStateOps.initGame config GameStateOps.new)) in
  let a :=
    mkApp (set_right (set_timeMs 100 (right g)) g) TimerEngineOps.new
      (PeriodManagerOps.init g PeriodManagerOps.new) MoveCounterOps.new in
  exists a',
    AppOps._onTick 200 0 a = Normal a' tt /\
    currentPeriod (right (gameState a')) = 1 /\
    currentPeriod (left (gameState a')) = 1 /\
    timeMs (right (gameState a')) = 300000 /\
    timeMs (left (gameState a')) = 300000.
Proof.
  intros P0 P1 config g a.
  destruct (time_based_period_sync 200 0 a RIGHT config P0 P1
              ofTime eq_refl eq_refl eq_refl eq_refl ltac:(discriminate) eq_refl eq_refl
              eq_refl)
    as (a' & Hrun & _ & (HcA & _ & _ & HbA & _) & Hsync & _).
  destruct (Hsync eq_refl) as (HcB & _ & HbB & _).
  exists a'.
  repeat split;
    [exact Hrun | exact HcA | exact HcB | exact (HbA (or_intror eq_refl))
    | exact (HbB (or_intror eq_refl))].
Defined.

(** The same at two periods of sudden death, as in the repository's test
    of the period manager: the second period's main time is added to both
    clocks. *)
Example time_based_period_sync_main_time :
  let g :=
    GameStateOps.startGame LEFT
      (stateOf (GameStateOps.initGame Fixtures.twoPeriods GameStateOps.new)) in
  let a :=
    mkApp (set_right (set_timeMs 100 (right g)) g) TimerEngineOps.new
      (PeriodManagerOps.init g PeriodManagerOps.new) MoveCounterOps.new in
  exists a',
    AppOps._onTick 200 0 a = Normal a' tt /\
    timeMs (right (gameState a')) = 150000 /\
    timeMs (left (gameState a')) = 300000 + 150000.
Proof. eexists. split; [vm_compute; reflexivity |]. split; reflexivity. Qed.

Lemma onTick_expiry_flag_and_freeze_witness :
  let config :=
    mkOptionConfig [mkPeriodConfig TIME (Some 5000) None None None None]
      (Some true) (Some false) None None in
  let g := GameStateOps.startGame LEFT (stateOf (GameStateOps.initGame config GameStateOps.new)) in
  let a :=
    mkApp g (fst (TimerEngineOps.start 0 1
                    (TimerEngineOps.setTickCallback boundOnTick TimerEngineOps.new)))
      (PeriodManagerOps.init g PeriodManagerOps.new) MoveCounterOps.new in
  exists a',
    AppOps._onTick 5000 0 a = Normal a' tt /\
    flagState (right (gameState a')) <> NONE /\
    status (gameState a') = FROZEN /\
    _running (timerEngine a') = false.
Proof.
  intros config g a.
  pose (c := PeriodManagerOps.onTick 5000 RIGHT 0 (gameState a, periodManager a)).
  destruct (onTick_expiry_flag_and_freeze 5000 0 a RIGHT
              (fst (stateOf c)) (snd (stateOf c)) (mkPeriodResult true false)
              eq_refl eq_refl eq_refl eq_refl)
    as (a' & Hrun & Hflag & Hfrozen & _ & _ & Hstop & _).
  destruct Hfrozen as [_ Hfrozen].
  exists a'. repeat split; [exact Hrun | exact Hflag | | ].
  - apply Hfrozen. split; reflexivity.
  - apply Hstop, Hfrozen. split; reflexivity.
Defined.

(** ** Expiry before the END marker

    The period manager takes an expiry for final in three cases: the side's
    index is the last one ([_handleExpiry]), no period follows, or the
    period that follows is the END marker ([_transitionToNextPeriod]).
    [GameState.isInFinalPeriod], which [_onTick] asks before it freezes the
    match, knows the first case only. *)

(** A side runs out of time in a period that the END marker follows, with
    freeze mode on.  The period manager reports the expiry as final (expiry
    reported, no transition, blinking flag), and [_onTick] leaves the match
    running with the engine untouched. *)
Lemma end_marker_expiry_keeps_running (deltaMs now : Z) (a : App) (active : Player)
    (config : OptionConfig) (nextc : PeriodConfig) (m : TimingMethod) :
  let p := GameStateOps.getPlayer active (gameState a) in
  status (gameState a) = RUNNING ->
  activePlayer (gameState a) = Some active ->
  freezeEnabled (gameState a) = true ->
  optionConfig (gameState a) = Some config ->
  0 <= currentPeriod p ->
  periodAt (periods config) (currentPeriod p + 1) = Some nextc ->
  method nextc = END ->
  PeriodManagerOps.getMethod active (periodManager a) = Some m ->
  expired (snd (TimingMethodOps.onTick m deltaMs p)) = true ->
  (exists g1,
      PeriodManagerOps.onTick deltaMs active now (gameState a, periodManager a)
        = Normal (g1, periodManager a) (mkPeriodResult true false) /\
      flagState (GameStateOps.getPlayer active g1) = BLINKING) /\
  exists a',
    AppOps._onTick deltaMs now a = Normal a' tt /\
    flagState (GameStateOps.getPlayer active (gameState a')) = BLINKING /\
    timeMs (GameStateOps.getPlayer active (gameState a')) = 0 /\
    currentPeriod (GameStateOps.getPlayer active (gameState a')) = currentPeriod p /\
    status (gameState a') = RUNNING /\
    timerEngine a' = timerEngine a.
Proof.
  intros p Hst Hact Hfr Hcfg Hcur Hnext Hend Hm Hexp.
  pose proof (TimingMethod_onTick_expired m deltaMs _ Hexp) as Hzero.
  destruct (TimingMethod_onTick_frame m deltaMs p) as [Hcp _].
  assert (currentPeriod p + 1 < Z.of_nat (length (periods config))) as Hlen.
  { unfold periodAt in Hnext.
    destruct (Z.ltb_spec (currentPeriod p + 1) 0); [discriminate |].
    apply lookup_lt_Some in Hnext. lia. }
  set (p' := fst (TimingMethodOps.onTick m deltaMs p)) in *.
  set (g0 := GameStateOps.setPlayer active p' (gameState a)).
  set (g1 := GameStateOps.setPlayer active (PlayerStateOps.setFlag BLINKING now p') g0).
  assert (PeriodManagerOps.onTick deltaMs active now (gameState a, periodManager a)
          = Normal (g1, periodManager a) (mkPeriodResult true false)) as Htick.
  { unfold PeriodManagerOps.onTick. rewrite Hm. fold p.
    destruct (TimingMethodOps.onTick m deltaMs p) as [q tr] eqn:E.
    cbn [fst snd] in *. subst p'. rewrite Hexp.
    unfold PeriodManagerOps._handleExpiry, GameStateOps.isInFinalPeriod.
    fold g0.
    assert (optionConfig g0 = Some config) as Hcfg0
      by (unfold g0; destruct (setPlayer_frame active q (gameState a)) as (_ & _ & -> & _);
          exact Hcfg).
    assert (GameStateOps.getPlayer active g0 = q) as Hq by apply getPlayer_setPlayer.
    rewrite Hcfg0, Hq, Hcp.
    destruct (Z.leb_spec (Z.of_nat (length (periods config)) - 1) (currentPeriod p));
      [lia |].
    unfold PeriodManagerOps._transitionToNextPeriod. rewrite Hcfg0, Hq, Hcp.
    cbv zeta.
    destruct (Z.leb_spec (Z.of_nat (length (periods config))) (currentPeriod p + 1));
      [lia |].
    rewrite Hnext.
    destruct (decide (method nextc = END)) as [_ | Hn]; [reflexivity | contradiction]. }
  assert (GameStateOps.getPlayer active g1 = PlayerStateOps.setFlag BLINKING now p') as Hp1
    by (unfold g1; apply getPlayer_setPlayer).
  split.
  { exists g1. split; [exact Htick |]. rewrite Hp1. reflexivity. }
  assert (GameStateOps.isInFinalPeriod active g1 = false) as Hfin.
  { unfold GameStateOps.isInFinalPeriod.
    assert (optionConfig g1 = Some config) as ->.
    { unfold g1, g0.
      destruct (setPlayer_frame active (PlayerStateOps.setFlag BLINKING now p')
                  (GameStateOps.setPlayer active p' (gameState a))) as (_ & _ & -> & _).
      destruct (setPlayer_frame active p' (gameState a)) as (_ & _ & -> & _).
      exact Hcfg. }
    rewrite Hp1. cbn [currentPeriod PlayerStateOps.setFlag]. rewrite Hcp.
    destruct (Z.leb_spec (Z.of_nat (length (periods config)) - 1) (currentPeriod p));
      [lia | reflexivity]. }
  assert (status g1 = RUNNING) as Hs1.
  { unfold g1, g0.
    destruct (setPlayer_frame active (PlayerStateOps.setFlag BLINKING now p')
                (GameStateOps.setPlayer active p' (gameState a))) as (-> & _).
    destruct (setPlayer_frame active p' (gameState a)) as (-> & _).
    exact Hst. }
  exists (mkApp g1 (timerEngine a) (periodManager a) (moveCounter a)).
  split.
  { unfold AppOps._onTick. cbv zeta. rewrite Hst, Hact, Htick. cbn [expiredResult].
    rewrite Hp1. cbn [flagState PlayerStateOps.setFlag].
    destruct (decide (BLINKING = NONE)) as [Hd | _]; [discriminate Hd |].
    rewrite Hfin, andb_false_r. reflexivity. }
  cbn [gameState timerEngine]. rewrite Hp1.
  cbn [flagState timeMs currentPeriod PlayerStateOps.setFlag].
  repeat split; assumption.
Qed.

(** C2.  A configuration of one sudden-death period of 5 s that the END
    marker follows, with freeze mode on; the match is started and the side
    to move uses up its 5 s.  The period manager reports the expiry as
    final: expiry reported, no transition, blinking flag on a clock at 0.
    Yet [_onTick] does not freeze the match: the status is still running and
    the engine still runs.  With the same period alone in the configuration
    the same tick freezes the match and stops the engine. *)
Theorem onTick_end_marker_expiry_not_frozen :
  let timed := mkPeriodConfig TIME (Some 5000) None None None None in
  let marker := mkPeriodConfig END None None None None None in
  let started := fun l =>
    let g :=
      GameStateOps.startGame LEFT
        (stateOf (GameStateOps.initGame (mkOptionConfig l (Some true) (Some false) None None)
                    GameStateOps.new)) in
    mkApp g (fst (TimerEngineOps.start 0 1
                    (TimerEngineOps.setTickCallback boundOnTick TimerEngineOps.new)))
      (PeriodManagerOps.init g PeriodManagerOps.new) MoveCounterOps.new in
  let a := started [timed; marker] in
  (status (gameState a) = RUNNING /\ activePlayer (gameState a) = Some RIGHT /\
   freezeEnabled (gameState a) = true /\ _running (timerEngine a) = true) /\
  (exists g1 pm1,
      PeriodManagerOps.onTick 5000 RIGHT 0 (gameState a, periodManager a)
        = Normal (g1, pm1) (mkPeriodResult true false) /\
      flagState (right g1) = BLINKING /\ timeMs (right g1) = 0) /\
  (exists a',
      AppOps._onTick 5000 0 a = Normal a' tt /\
      flagState (right (gameState a')) = BLINKING /\
      timeMs (right (gameState a')) = 0 /\
      status (gameState a') = RUNNING /\
      _running (timerEngine a') = true) /\
  (exists a',
      AppOps._onTick 5000 0 (started [timed]) = Normal a' tt /\
      flagState (right (gameState a')) = BLINKING /\
      status (gameState a') = FROZEN /\
      _running (timerEngine a') = false).
Proof.
  cbv zeta. split; [repeat split |]. split; [| split].
  - eexists. eexists. split; [vm_compute; reflexivity |]. split; reflexivity.
  - eexists. split; [vm_compute; reflexivity |]. repeat split.
  - eexists. split; [vm_compute; reflexivity |]. repeat split.
Qed.

Lemma end_marker_expiry_keeps_running_witness :
  let timed := mkPeriodConfig TIME (Some 5000) None None None None in
  let marker := mkPeriodConfig END None None None None None in
  let config := mkOptionConfig [timed; marker] (Some true) (Some false) None None in
  let g := GameStateOps.startGame LEFT (stateOf (GameStateOps.initGame config GameStateOps.new)) in
  let a :=
    mkApp g (fst (TimerEngineOps.start 0 1
                    (TimerEngineOps.setTickCallback boundOnTick TimerEngineOps.new)))
      (PeriodManagerOps.init g PeriodManagerOps.new) MoveCounterOps.new in
  exists a',
    AppOps._onTick 5000 0 a = Normal a' tt /\
    flagState (right (gameState a')) = BLINKING /\
    status (gameState a') = RUNNING.
Proof.
  intros timed marker config g a.
  destruct (end_marker_expiry_keeps_running 5000 0 a RIGHT config marker ofTime
              eq_refl eq_refl eq_refl eq_refl ltac:(vm_compute; discriminate) eq_refl eq_refl
              eq_refl eq_refl)
    as (_ & a' & Hrun & Hflag & _ & _ & Hs & _).
  exists a'. repeat split; assumption.
Defined.

(** * More of the code, verified *)

(** ** Ticks of one turn add up *)

Lemma sumZ_nonneg (l : list Z) : Forall (fun d => 0 <= d) l -> 0 <= sumZ l.
Proof.
  induction 1 as [| d l Hd _ IH]; simpl; lia.
Qed.

Lemma clampsAtZero_onTick (m : TimingMethod) (d : Z) (p : PlayerState) :
  clampsAtZero m = true ->
  TimingMethodOps.onTick m d p = clampExpiry (set_timeMs (timeMs p - d) p).
Proof.
  destruct m; simpl; intros H; try discriminate H; reflexivity.
Qed.

Lemma countdown_ticks_time (m : TimingMethod) (deltas : list Z) (p : PlayerState) :
  clampsAtZero m = true ->
  0 <= timeMs p ->
  Forall (fun d => 0 <= d) deltas ->
  timeMs (ticks m deltas p) = Z.max 0 (timeMs p - sumZ deltas).
Proof.
  intros Hm Hp Hd. revert p Hp.
  induction Hd as [| d ds Hd0 Hds IH]; intros p Hp.
  - simpl. lia.
  - unfold ticks in *. simpl.
    pose proof (sumZ_nonneg ds Hds) as Hs.
    set (q := fst (TimingMethodOps.onTick m d p)).
    assert (timeMs q = Z.max 0 (timeMs p - d)) as Hq
      by (unfold q; rewrite (clampsAtZero_onTick m d p Hm), clampExpiry_time; reflexivity).
    rewrite (IH q ltac:(lia)). lia.
Qed.

(** X1.  Sudden death, Fischer, Bronstein and Canadian byo-yomi count the
    ticks of a turn down as one: on a clock that is not negative, ticks
    that are not negative leave [max(0, time - sum of the ticks)], however
    the elapsed time is cut into ticks, and the clock is never negative. *)
Theorem countdown_ticks_add_up (m : TimingMethod) (deltas : list Z) (p : PlayerState) :
  clampsAtZero m = true ->
  0 <= timeMs p ->
  Forall (fun d => 0 <= d) deltas ->
  timeMs (ticks m deltas p) = Z.max 0 (timeMs p - sumZ deltas) /\
  0 <= timeMs (ticks m deltas p).
Proof.
  intros Hm Hp Hd. rewrite (countdown_ticks_time m deltas p Hm Hp Hd). lia.
Qed.

Lemma countdown_ticks_add_up_witness :
  timeMs (ticks ofTime [2000; 1000; 500] (set_timeMs 5000 (newPlayerState LEFT))) = 1500.
Proof.
  destruct (countdown_ticks_add_up ofTime [2000; 1000; 500]
              (set_timeMs 5000 (newPlayerState LEFT)) eq_refl) as [H _].
  - simpl. lia.
  - repeat constructor; lia.
  - exact H.
Defined.

(** X2.  The up-count method adds every tick to the clock and never reports
    expiry, whatever the clock shows. *)
Theorem upcount_ticks_add_up (deltas : list Z) (p : PlayerState) :
  timeMs (ticks ofUpcount deltas p) = timeMs p + sumZ deltas /\
  (forall d q, expired (snd (TimingMethodOps.onTick ofUpcount d q)) = false) /\
  (forall q, UpcountMethod.isExpired q = false).
Proof.
  split; [| split; reflexivity].
  revert p. induction deltas as [| d ds IH]; intros p; simpl; [lia |].
  unfold ticks in *. simpl. rewrite IH. unfold UpcountMethod.onTick. simpl. lia.
Qed.

(** ** Whole turns *)

Lemma ticks_cons (m : TimingMethod) (d : Z) (ds : list Z) (p : PlayerState) :
  ticks m (d :: ds) p = ticks m ds (fst (TimingMethodOps.onTick m d p)).
Proof. reflexivity. Qed.

(** The main time that the ticks of a US-delay turn leave, from any point of
    the turn. *)
Lemma usdelay_ticks_time (u : UsDelayMethod.t) (deltas : list Z) :
  Forall (fun d => 0 <= d) deltas ->
  forall q, 0 <= timeMs q -> 0 <= delayRemainingMs q ->
    timeMs (ticks (ofUsDelay u) deltas q) =
    if inDelay q
    then Z.max 0 (timeMs q - Z.max 0 (sumZ deltas - delayRemainingMs q))
    else Z.max 0 (timeMs q - sumZ deltas).
Proof.
  induction 1 as [| d ds Hd Hds IH]; intros q Ht Hr.
  - simpl. destruct (inDelay q); lia.
  - pose proof (sumZ_nonneg ds Hds) as Hs.
    rewrite ticks_cons. simpl TimingMethodOps.onTick.
    unfold UsDelayMethod.onTick. cbv zeta.
    destruct (inDelay q) eqn:Ein.
    + change (delayRemainingMs (set_delayRemainingMs (delayRemainingMs q - d) q))
        with (delayRemainingMs q - d).
      destruct (Z.leb_spec (delayRemainingMs q - d) 0).
      * destruct (Z.ltb_spec 0 (- (delayRemainingMs q - d)));
          match goal with |- context [clampExpiry ?s] =>
            pose proof (clampExpiry_time s) as Hc;
            assert (inDelay (fst (clampExpiry s)) = false) as Hi
              by (unfold clampExpiry; destruct (timeMs s <=? 0); reflexivity);
            assert (delayRemainingMs (fst (clampExpiry s)) = 0) as Hdr
              by (unfold clampExpiry; destruct (timeMs s <=? 0); reflexivity)
          end;
          rewrite IH by (rewrite ?Hc, ?Hdr; lia);
          rewrite Hi, Hc; simpl; lia.
      * match goal with |- context [clampExpiry ?s] =>
          pose proof (clampExpiry_time s) as Hc;
          assert (inDelay (fst (clampExpiry s)) = true) as Hi
            by (unfold clampExpiry; destruct (timeMs s <=? 0); simpl; exact Ein);
          assert (delayRemainingMs (fst (clampExpiry s)) = delayRemainingMs q - d) as Hdr
            by (unfold clampExpiry; destruct (timeMs s <=? 0); reflexivity)
        end.
        rewrite IH by (rewrite ?Hc, ?Hdr; simpl; lia).
        rewrite Hi, Hc, Hdr. simpl. lia.
    + match goal with |- context [clampExpiry ?s] =>
        pose proof (clampExpiry_time s) as Hc;
        assert (inDelay (fst (clampExpiry s)) = false) as Hi
          by (unfold clampExpiry; destruct (timeMs s <=? 0); simpl; exact Ein);
        assert (delayRemainingMs (fst (clampExpiry s)) = delayRemainingMs q) as Hdr
          by (unfold clampExpiry; destruct (timeMs s <=? 0); reflexivity)
      end.
      rewrite IH by (rewrite ?Hc, ?Hdr; simpl; lia).
      rewrite Hi, Hc. simpl. lia.
Qed.

(** X3.  A whole US-delay turn charges the main time only for what the
    turn took beyond the delay: with delay [d >= 0], a clock that is not
    negative and ticks that are not negative, the turn leaves
    [max(0, time - max(0, sum - d))], and its end leaves the delay state
    cleared. *)
Theorem usdelay_turn_charges_beyond_delay (u : UsDelayMethod.t) (deltas : list Z)
    (p : PlayerState) :
  0 <= UsDelayMethod.delayMs u ->
  0 <= timeMs p ->
  Forall (fun d => 0 <= d) deltas ->
  let p' := snd (turn (ofUsDelay u) deltas p) in
  timeMs p' = Z.max 0 (timeMs p - Z.max 0 (sumZ deltas - UsDelayMethod.delayMs u)) /\
  inDelay p' = false /\ delayRemainingMs p' = 0.
Proof.
  intros Hd Hp Hds. unfold turn. simpl.
  split; [| split; reflexivity].
  change (timeMs (UsDelayMethod.onTurnEnd u ?q)) with (timeMs q).
  rewrite usdelay_ticks_time; [reflexivity | exact Hds | exact Hp | exact Hd].
Qed.

Lemma usdelay_turn_charges_beyond_delay_witness :
  timeMs (snd (turn (ofUsDelay (UsDelayMethod.mk 5000)) [3000; 4000]
                 (set_timeMs 300000 (newPlayerState LEFT)))) = 298000.
Proof.
  destruct (usdelay_turn_charges_beyond_delay (UsDelayMethod.mk 5000) [3000; 4000]
              (set_timeMs 300000 (newPlayerState LEFT))) as [H _].
  - simpl. lia.
  - simpl. lia.
  - repeat constructor; lia.
  - exact H.
Defined.

Lemma ticks_turnStart_kept (m : TimingMethod) (deltas : list Z) (p : PlayerState) :
  clampsAtZero m = true ->
  turnStartTimeMs (ticks m deltas p) = turnStartTimeMs p.
Proof.
  intros Hm. revert p. induction deltas as [| d ds IH]; intros p; [reflexivity |].
  rewrite ticks_cons, IH, (clampsAtZero_onTick m d p Hm).
  unfold clampExpiry. destruct (timeMs _ <=? 0); reflexivity.
Qed.

(** X4.  The source calls the US delay "functionally identical" to the
    Bronstein delay.  With the same delay [d >= 0] and the same ticks, both
    turns leave [time - max(0, sum - d)] as long as the ticks add up to less
    than the time on the clock.  Once they add up to the time or more they
    part: the Bronstein clock has run out and stays at 0, while the US-delay
    clock still holds time if the sum is below [time + d]. *)
Theorem bronstein_and_usdelay_turns (d : Z) (deltas : list Z) (p : PlayerState) :
  0 <= d ->
  0 < timeMs p ->
  Forall (fun x => 0 <= x) deltas ->
  let bronstein := snd (turn (ofBronsteinDelay (BronsteinDelayMethod.mk d)) deltas p) in
  let usdelay := snd (turn (ofUsDelay (UsDelayMethod.mk d)) deltas p) in
  (sumZ deltas < timeMs p ->
   timeMs bronstein = timeMs p - Z.max 0 (sumZ deltas - d) /\
   timeMs usdelay = timeMs bronstein) /\
  (timeMs p <= sumZ deltas ->
   timeMs bronstein = 0 /\
   (sumZ deltas < timeMs p + d -> 0 < timeMs usdelay)).
Proof.
  intros Hd Hp Hds bronstein usdelay.
  destruct (usdelay_turn_charges_beyond_delay (UsDelayMethod.mk d) deltas p Hd
              ltac:(lia) Hds) as [Hus _].
  fold usdelay in Hus. simpl UsDelayMethod.delayMs in Hus.
  assert (timeMs bronstein =
          if (0 <? Z.max 0 (timeMs p - sumZ deltas)) && (0 <? timeMs p)
          then Z.min (Z.max 0 (timeMs p - sumZ deltas) + d) (timeMs p)
          else Z.max 0 (timeMs p - sumZ deltas)) as Hbr.
  { unfold bronstein, turn. simpl.
    rewrite BronsteinDelayMethod_onTurnEnd_time.
    change (fold_left _ deltas ?q) with
      (ticks (ofBronsteinDelay (BronsteinDelayMethod.mk d)) deltas q).
    rewrite ticks_turnStart_kept by reflexivity.
    rewrite (countdown_ticks_time (ofBronsteinDelay (BronsteinDelayMethod.mk d)) deltas
               (BronsteinDelayMethod.onTurnStart (BronsteinDelayMethod.mk d) p)
               eq_refl ltac:(simpl; lia) Hds).
    reflexivity. }
  split.
  - intros Hlt. rewrite Hus, Hbr.
    destruct (Z.ltb_spec 0 (Z.max 0 (timeMs p - sumZ deltas))); [| lia].
    destruct (Z.ltb_spec 0 (timeMs p)); [| lia]. simpl. lia.
  - intros Hge. rewrite Hus, Hbr.
    destruct (Z.ltb_spec 0 (Z.max 0 (timeMs p - sumZ deltas))); [lia |].
    simpl. lia.
Qed.

Lemma bronstein_and_usdelay_turns_witness :
  let p := set_timeMs 300000 (newPlayerState LEFT) in
  timeMs (snd (turn (ofUsDelay (UsDelayMethod.mk 5000)) [3000; 4000] p)) =
  timeMs (snd (turn (ofBronsteinDelay (BronsteinDelayMethod.mk 5000)) [3000; 4000] p)).
Proof.
  intros p.
  destruct (bronstein_and_usdelay_turns 5000 [3000; 4000] p) as [H _].
  - lia.
  - simpl. lia.
  - repeat constructor; lia.
  - destruct H as [_ H]; [simpl; lia | exact H].
Defined.

(** X5.  A Fischer turn: when the ticks add up to less than the time on the
    clock the turn ends with [time - sum + bonus]; when they reach it the
    clock is at 0 and the end of the turn adds no bonus to it. *)
Theorem fischer_turn (f : FischerMethod.t) (deltas : list Z) (p : PlayerState) :
  0 <= timeMs p ->
  Forall (fun d => 0 <= d) deltas ->
  let p' := snd (turn (ofFischer f) deltas p) in
  (sumZ deltas < timeMs p -> timeMs p' = timeMs p - sumZ deltas + FischerMethod.bonusMs f) /\
  (timeMs p <= sumZ deltas -> timeMs p' = 0).
Proof.
  intros Hp Hds. unfold turn.
  cbn [TimingMethodOps.onTurnStart TimingMethodOps.onTurnEnd snd].
  unfold FischerMethod.onTurnStart.
  pose proof (countdown_ticks_time (ofFischer f) deltas p eq_refl Hp Hds) as Ht.
  unfold FischerMethod.onTurnEnd. rewrite Ht.
  destruct (Z.leb_spec (Z.max 0 (timeMs p - sumZ deltas)) 0).
  - rewrite Ht. split; intros; lia.
  - cbn [timeMs set_timeMs]. split; intros; lia.
Qed.

Lemma fischer_turn_witness :
  timeMs (snd (turn (ofFischer (FischerMethod.mk 2000 0)) [5000]
                 (set_timeMs 180000 (newPlayerState LEFT)))) = 177000.
Proof.
  destruct (fischer_turn (FischerMethod.mk 2000 0) [5000]
              (set_timeMs 180000 (newPlayerState LEFT))) as [H _].
  - simpl. lia.
  - repeat constructor; lia.
  - apply H. simpl. lia.
Defined.

(** ** Byo-yomi turns *)

Lemma byoyomi_ticks_short (b : ByoYomiMethod.t) (deltas : list Z) :
  Forall (fun d => 0 <= d) deltas ->
  forall p, sumZ deltas < timeMs p ->
    ticks (ofByoYomi b) deltas p = set_timeMs (timeMs p - sumZ deltas) p.
Proof.
  induction 1 as [| d ds Hd Hds IH]; intros p Hlt.
  - simpl in *. destruct p; unfold set_timeMs; simpl. f_equal. lia.
  - pose proof (sumZ_nonneg ds Hds) as Hs. simpl in Hlt.
    rewrite ticks_cons. simpl TimingMethodOps.onTick.
    unfold ByoYomiMethod.onTick. cbv zeta.
    change (timeMs (set_timeMs (timeMs p - d) p)) with (timeMs p - d).
    destruct (Z.leb_spec (timeMs p - d) 0); [lia |].
    cbn [fst]. rewrite IH by (simpl; lia).
    unfold set_timeMs; simpl. f_equal. lia.
Qed.

Lemma byoyomi_infinite_tick_positive (b : ByoYomiMethod.t) (d : Z) (p : PlayerState) :
  ByoYomiMethod.byoMoments b = 0 ->
  0 < timeMs (fst (ByoYomiMethod.onTick b d p)).
Proof.
  intros Hinf. unfold ByoYomiMethod.onTick. cbv zeta. rewrite Hinf. simpl (0 =? 0).
  change (timeMs (set_timeMs (timeMs p - d) p)) with (timeMs p - d).
  destruct (Z.leb_spec (timeMs p - d) 0); [| simpl; lia].
  unfold_setters; simpl.
  destruct (Z.leb_spec (ByoYomiMethod.byoTimeMs b - - (timeMs p - d)) 0); simpl; lia.
Qed.

Lemma ByoYomiMethod_onTick_carry (b : ByoYomiMethod.t) (p : PlayerState) (deltaMs : Z)
    (j : nat) :
  ByoYomiMethod.byoMoments b <> 0 ->
  timeMs p - deltaMs + Z.of_nat j * ByoYomiMethod.byoTimeMs b <= 0 ->
  0 < timeMs p - deltaMs + (Z.of_nat j + 1) * ByoYomiMethod.byoTimeMs b ->
  Z.of_nat j + 1 < byoMomentsRemaining p ->
  fst (ByoYomiMethod.onTick b deltaMs p) =
  set_timeMs (timeMs p - deltaMs + (Z.of_nat j + 1) * ByoYomiMethod.byoTimeMs b)
    (set_byoMomentsRemaining (byoMomentsRemaining p - (Z.of_nat j + 1)) p).
Proof.
  intros Hfin Hle Hgt Hn.
  assert (0 < ByoYomiMethod.byoTimeMs b) as Hb by lia.
  unfold ByoYomiMethod.onTick. cbv zeta.
  change (timeMs (set_timeMs (timeMs p - deltaMs) p)) with (timeMs p - deltaMs).
  destruct (Z.leb_spec (timeMs p - deltaMs) 0); [| nia].
  destruct (Z.eqb_spec (ByoYomiMethod.byoMoments b) 0); [contradiction |].
  rewrite (consumeMoments_carry b j) by (unfold_setters; simpl; lia).
  unfold_setters; simpl.
  destruct (Z.leb_spec
              (timeMs p - deltaMs + (Z.of_nat j + 1) * ByoYomiMethod.byoTimeMs b) 0);
    [lia | reflexivity].
Qed.

(** X6.  How a byo-yomi turn ends.  A move made within the time on the
    clock (ticks that are not negative and add up to less than it) leaves
    the full moment time and the moments as they were: nothing is banked.
    In the infinite mode every turn ends on the full moment time.  In the
    finite mode a tick that took [j + 1] moments, with more remaining, is
    not given back: the turn ends on the carried remainder. *)
Theorem byoyomi_turn_end (b : ByoYomiMethod.t) (p : PlayerState) :
  (forall deltas,
      Forall (fun d => 0 <= d) deltas -> sumZ deltas < timeMs p ->
      let p' := snd (turn (ofByoYomi b) deltas p) in
      timeMs p' = ByoYomiMethod.byoTimeMs b /\
      byoMomentsRemaining p' = byoMomentsRemaining p)
  /\ (ByoYomiMethod.byoMoments b = 0 ->
      forall deltas, 0 < timeMs p \/ deltas <> [] ->
        timeMs (snd (turn (ofByoYomi b) deltas p)) = ByoYomiMethod.byoTimeMs b)
  /\ (ByoYomiMethod.byoMoments b <> 0 ->
      forall deltaMs (j : nat),
        let consumed := Z.of_nat j + 1 in
        timeMs p - deltaMs + Z.of_nat j * ByoYomiMethod.byoTimeMs b <= 0 ->
        0 < timeMs p - deltaMs + consumed * ByoYomiMethod.byoTimeMs b ->
        consumed < byoMomentsRemaining p ->
        let p' := snd (turn (ofByoYomi b) [deltaMs] p) in
        timeMs p' = timeMs p - deltaMs + consumed * ByoYomiMethod.byoTimeMs b /\
        byoMomentsRemaining p' = byoMomentsRemaining p - consumed).
Proof.
  repeat apply conj.
  - intros deltas Hds Hlt. unfold turn.
    cbn [TimingMethodOps.onTurnStart ByoYomiMethod.onTurnStart TimingMethodOps.onTurnEnd snd].
    rewrite (byoyomi_ticks_short _ deltas Hds p Hlt).
    unfold ByoYomiMethod.onTurnEnd.
    cbn [timeMs set_timeMs byoMomentsRemaining ByoYomiMethod.byoMoments
         ByoYomiMethod._momentsAtTurnStart ByoYomiMethod.byoTimeMs].
    destruct (Z.ltb_spec 0 (timeMs p - sumZ deltas)); [| lia].
    destruct (ByoYomiMethod.byoMoments b =? 0);
      rewrite Z.sub_diag; simpl; split; reflexivity.
  - intros Hinf deltas Hpos. unfold turn.
    cbn [TimingMethodOps.onTurnStart ByoYomiMethod.onTurnStart TimingMethodOps.onTurnEnd snd].
    set (b1 := ByoYomiMethod.mk _ _ _).
    assert (forall ds q, 0 < timeMs q \/ ds <> [] -> 0 < timeMs (ticks (ofByoYomi b1) ds q))
      as Hticks.
    { induction ds as [| d ds IH]; intros q Hq.
      - destruct Hq as [Hq | Hq]; [exact Hq | contradiction].
      - rewrite ticks_cons. apply IH. left.
        apply byoyomi_infinite_tick_positive. exact Hinf. }
    specialize (Hticks deltas p Hpos).
    unfold ByoYomiMethod.onTurnEnd.
    destruct (Z.ltb_spec 0 (timeMs (ticks (ofByoYomi b1) deltas p))); [| lia].
    unfold b1 at 1 2 3.
    cbn [ByoYomiMethod.byoMoments ByoYomiMethod._momentsAtTurnStart ByoYomiMethod.byoTimeMs].
    rewrite Hinf. simpl (0 =? 0). rewrite Z.sub_diag. reflexivity.
  - intros Hfin deltaMs j consumed Hle Hgt Hn. unfold turn.
    cbn [TimingMethodOps.onTurnStart ByoYomiMethod.onTurnStart TimingMethodOps.onTurnEnd snd].
    rewrite ticks_cons. cbn [ticks fold_left TimingMethodOps.onTick].
    rewrite (ByoYomiMethod_onTick_carry
               (ByoYomiMethod.mk (ByoYomiMethod.byoTimeMs b) (ByoYomiMethod.byoMoments b)
                  (byoMomentsRemaining p)) p deltaMs j Hfin Hle Hgt Hn).
    unfold ByoYomiMethod.onTurnEnd.
    cbn [timeMs set_timeMs byoMomentsRemaining set_byoMomentsRemaining
         ByoYomiMethod.byoMoments ByoYomiMethod._momentsAtTurnStart ByoYomiMethod.byoTimeMs].
    fold consumed.
    destruct (Z.ltb_spec 0 (timeMs p - deltaMs + consumed * ByoYomiMethod.byoTimeMs b));
      [| lia].
    destruct (Z.eqb_spec (ByoYomiMethod.byoMoments b) 0); [contradiction |].
    destruct (Z.leb_spec (byoMomentsRemaining p - (byoMomentsRemaining p - consumed)) 0);
      [unfold consumed in *; lia |].
    split; reflexivity.
Qed.

Lemma byoyomi_turn_end_witness :
  let b := ByoYomiMethod.mk 20000 3 0 in
  let p := set_byoMomentsRemaining 3 (set_timeMs 20000 (newPlayerState LEFT)) in
  timeMs (snd (turn (ofByoYomi b) [5000; 2000] p)) = 20000.
Proof.
  intros b p.
  destruct (byoyomi_turn_end b p) as [H _].
  destruct (H [5000; 2000]) as [H1 _].
  - repeat constructor; lia.
  - simpl. lia.
  - exact H1.
Defined.

(** ** No countdown below zero *)

Lemma clampExpiry_zero_iff (p : PlayerState) :
  0 <= timeMs (fst (clampExpiry p)) /\
  (expired (snd (clampExpiry p)) = true <-> timeMs (fst (clampExpiry p)) = 0).
Proof.
  unfold clampExpiry. destruct (Z.leb_spec (timeMs p) 0); simpl; split;
    try lia; split; intros H; try reflexivity; try discriminate H; lia.
Qed.

(** X7.  A tick of any method but the up-count leaves the clock at 0 or
    above, whatever the clock and the tick were.  A tick that reports expiry
    leaves the clock at exactly 0; and for every such method but byo-yomi
    the converse holds: a clock left at 0 is reported expired. *)
Theorem onTick_never_below_zero (m : TimingMethod) (d : Z) (p : PlayerState) :
  m <> ofUpcount ->
  0 <= timeMs (fst (TimingMethodOps.onTick m d p)) /\
  (expired (snd (TimingMethodOps.onTick m d p)) = true ->
   timeMs (fst (TimingMethodOps.onTick m d p)) = 0) /\
  ((forall b, m <> ofByoYomi b) ->
   timeMs (fst (TimingMethodOps.onTick m d p)) = 0 ->
   expired (snd (TimingMethodOps.onTick m d p)) = true).
Proof.
  intros Hup.
  destruct m as [| f | b | u | b | c |]; cbn [TimingMethodOps.onTick].
  1-3, 6: (try unfold TimeMethod.onTick; try unfold FischerMethod.onTick;
           try unfold BronsteinDelayMethod.onTick; try unfold CanadianByoYomiMethod.onTick;
           match goal with |- context [clampExpiry ?s] =>
             destruct (clampExpiry_zero_iff s) as [H0 [H1 H2]];
             destruct (clampExpiry s) as [p' r] end;
           simpl in *; repeat split; auto).
  - unfold UsDelayMethod.onTick. cbv zeta.
    match goal with |- context [clampExpiry ?s] =>
      destruct (clampExpiry_zero_iff s) as [H0 [H1 H2]];
      destruct (clampExpiry s) as [p' r] end.
    simpl in *; repeat split; auto.
  - pose proof (ByoYomiMethod_onTick_expired b p d) as Hexp.
    assert (0 <= timeMs (fst (ByoYomiMethod.onTick b d p))) as Hpos.
    { unfold ByoYomiMethod.onTick. cbv zeta.
      change (timeMs (set_timeMs (timeMs p - d) p)) with (timeMs p - d).
      destruct (Z.leb_spec (timeMs p - d) 0); [| simpl; lia].
      destruct (ByoYomiMethod.byoMoments b =? 0).
      - unfold_setters; simpl.
        destruct (Z.leb_spec (ByoYomiMethod.byoTimeMs b - - (timeMs p - d)) 0); simpl; lia.
      - pose proof (consumeMoments_exit b (set_timeMs (timeMs p - d) p) false) as Hex.
        destruct (ByoYomiMethod.consumeMoments b (set_timeMs (timeMs p - d) p) false)
          as [p2 r | p2 me].
        + simpl. lia.
        + destruct (Z.leb_spec (timeMs p2) 0); [simpl; lia |].
          destruct me; simpl; lia. }
    destruct (ByoYomiMethod.onTick b d p) as [p' r]. simpl in *.
    repeat split; auto.
    + intros H. apply Hexp in H. tauto.
    + intros Hb. exfalso. exact (Hb b eq_refl).
  - exfalso. exact (Hup eq_refl).
Qed.

Lemma onTick_never_below_zero_witness :
  ofUsDelay Fixtures.usDelay <> ofUpcount /\
  0 <= timeMs (fst (TimingMethodOps.onTick (ofUsDelay Fixtures.usDelay) 700
                      (Fixtures.player 500))).
Proof.
  split; [discriminate |].
  apply (onTick_never_below_zero (ofUsDelay Fixtures.usDelay) 700 (Fixtures.player 500)).
  discriminate.
Defined.

(** ** The shapes of a period-manager tick *)


(** Every outcome of the period manager's tick, by shape. *)
Lemma PeriodManager_onTick_cases (deltaMs : Z) (s : Player) (now : Z)
    (g : GameState) (pm : PeriodManager) :
  let p' := ticked deltaMs s g pm in
  let g0 := afterMethodTick deltaMs s g pm in
  let out := PeriodManagerOps.onTick deltaMs s now (g, pm) in
  (PeriodManagerOps.getMethod s pm = None /\ out = Normal (g, pm) (mkPeriodResult false false))
  \/ out = Normal (g0, pm) (mkPeriodResult false false)
  \/ out = Normal (GameStateOps.setPlayer s (PlayerStateOps.setFlag BLINKING now p') g0, pm)
              (mkPeriodResult true false)
  \/ (exists config nextc,
        optionConfig g = Some config /\
        currentPeriod p' + 1 < Z.of_nat (length (periods config)) /\
        periodAt (periods config) (currentPeriod p' + 1) = Some nextc /\
        method nextc <> END /\
        let old := periodAt (periods config) (currentPeriod p') in
        let st2 :=
          PeriodManagerOps._transitionPlayerToPeriod s (currentPeriod p' + 1) old nextc
            (GameStateOps.setPlayer s (PlayerStateOps.setFlag NON_BLINKING now p') g0, pm) in
        (out = Normal (PeriodManagerOps._transitionPlayerToPeriod s (currentPeriod p' + 1)
                         old nextc (g0, pm))
                      (mkPeriodResult false true)
         \/ (currentPeriod (GameStateOps.getOpponent s g) <> currentPeriod p' /\
             out = Normal st2 (mkPeriodResult false true))
         \/ (currentPeriod (GameStateOps.getOpponent s g) = currentPeriod p' /\
             out = Normal (PeriodManagerOps._transitionPlayerToPeriod (opposite s)
                             (currentPeriod p' + 1) old nextc st2)
                          (mkPeriodResult false true))))
  \/ (out = Throw (g0, pm) /\
      (optionConfig g = None \/
       exists config, optionConfig g = Some config /\ currentPeriod p' + 1 < 0)).
Proof.
  intros p' g0 out. unfold out, PeriodManagerOps.onTick.
  unfold g0, afterMethodTick, p', ticked.
  destruct (PeriodManagerOps.getMethod s pm) as [m |]; [| left; split; reflexivity].
  destruct (TimingMethodOps.onTick m deltaMs (GameStateOps.getPlayer s g)) as [q tr].
  cbn [fst]. right.
  set (h := GameStateOps.setPlayer s q g).
  assert (GameStateOps.getPlayer s h = q) as Hq by apply getPlayer_setPlayer.
  assert (GameStateOps.getOpponent s h = GameStateOps.getOpponent s g) as Ho
    by apply getOpponent_setPlayer.
  assert (optionConfig h = optionConfig g) as Hc
    by (unfold h; now destruct (setPlayer_frame s q g) as (_ & _ & -> & _)).
  assert (forall mb,
            let t := PeriodManagerOps._transitionToNextPeriod s mb now (h, pm) in
            t = Normal (GameStateOps.setPlayer s (PlayerStateOps.setFlag BLINKING now q) h, pm)
                  (mkPeriodResult true false)
            \/ (exists config nextc,
                  optionConfig g = Some config /\
                  currentPeriod q + 1 < Z.of_nat (length (periods config)) /\
                  periodAt (periods config) (currentPeriod q + 1) = Some nextc /\
                  method nextc <> END /\
                  let old := periodAt (periods config) (currentPeriod q) in
                  let st2 :=
                    PeriodManagerOps._transitionPlayerToPeriod s (currentPeriod q + 1) old
                      nextc
                      (GameStateOps.setPlayer s (PlayerStateOps.setFlag NON_BLINKING now q) h,
                       pm) in
                  (t = Normal (PeriodManagerOps._transitionPlayerToPeriod s
                                 (currentPeriod q + 1) old nextc (h, pm))
                         (mkPeriodResult false true)
                   \/ (currentPeriod (GameStateOps.getOpponent s g) <> currentPeriod q /\
                       t = Normal st2 (mkPeriodResult false true))
                   \/ (currentPeriod (GameStateOps.getOpponent s g) = currentPeriod q /\
                       t = Normal (PeriodManagerOps._transitionPlayerToPeriod (opposite s)
                                     (currentPeriod q + 1) old nextc st2)
                                  (mkPeriodResult false true))))
            \/ (t = Throw (h, pm) /\
                (optionConfig g = None \/
                 exists config, optionConfig g = Some config /\ currentPeriod q + 1 < 0)))
    as Htrans.
  { intros mb. cbv zeta. unfold PeriodManagerOps._transitionToNextPeriod.
    rewrite Hc, Hq.
    destruct (optionConfig g) as [config |];
      [| right; right; split; [reflexivity | left; reflexivity]].
    destruct (Z.leb_spec (Z.of_nat (length (periods config))) (currentPeriod q + 1));
      [left; reflexivity |].
    destruct (periodAt (periods config) (currentPeriod q + 1)) as [nextc |] eqn:Enext.
    - destruct (decide (method nextc = END)); [left; reflexivity |].
      right; left. exists config, nextc. repeat split; try assumption.
      destruct mb; [left; reflexivity |]. right.
      cbv zeta.
      pose proof (transitionPlayer_frame s (currentPeriod q + 1)
                    (periodAt (periods config) (currentPeriod q)) nextc
                    (GameStateOps.setPlayer s (PlayerStateOps.setFlag NON_BLINKING now q) h)
                    pm) as Hf.
      cbv zeta in Hf. destruct Hf as (_ & _ & _ & _ & Hopp & _).
      rewrite Hopp, getOpponent_setPlayer, Ho.
      destruct (Z.eqb_spec (currentPeriod (GameStateOps.getOpponent s g)) (currentPeriod q));
        [right | left]; split; auto.
    - right; right. split; [reflexivity |]. right. exists config. split; [reflexivity |].
      unfold periodAt in Enext.
      destruct (Z.ltb_spec (currentPeriod q + 1) 0); [assumption |].
      apply lookup_ge_None_1 in Enext. lia. }
  destruct (expired tr).
  - unfold PeriodManagerOps._handleExpiry.
    destruct (GameStateOps.isInFinalPeriod s h).
    + rewrite Hq. right; left. reflexivity.
    + right. exact (Htrans false).
  - destruct m as [| f | b | u | b | c |]; try (left; reflexivity).
    destruct (FischerMethod.isPeriodCompleteByMoves f q _); [| left; reflexivity].
    right. exact (Htrans true).
Qed.

Lemma ticked_frame (deltaMs : Z) (s : Player) (g : GameState) (pm : PeriodManager) :
  currentPeriod (ticked deltaMs s g pm) = currentPeriod (GameStateOps.getPlayer s g) /\
  flagState (ticked deltaMs s g pm) = flagState (GameStateOps.getPlayer s g).
Proof.
  unfold ticked. destruct (PeriodManagerOps.getMethod s pm) as [m |];
    [apply TimingMethod_onTick_frame | split; reflexivity].
Qed.

Lemma setFlag_setPlayer_frame (s : Player) (f : FlagState) (now : Z) (q : PlayerState)
    (g : GameState) :
  let h := GameStateOps.setPlayer s (PlayerStateOps.setFlag f now q)
             (GameStateOps.setPlayer s q g) in
  status h = status g /\ activePlayer h = activePlayer g /\
  optionConfig h = optionConfig g /\ freezeEnabled h = freezeEnabled g /\
  GameStateOps.getOpponent s h = GameStateOps.getOpponent s g /\
  GameStateOps.getPlayer s h = PlayerStateOps.setFlag f now q.
Proof.
  destruct s; repeat split; reflexivity.
Qed.

(** What every normal outcome of the period manager's tick satisfies. *)
Lemma PeriodManager_onTick_facts (deltaMs : Z) (s : Player) (now : Z)
    (g : GameState) (pm : PeriodManager) (g' : GameState) (pm' : PeriodManager)
    (r : PeriodResult) :
  PeriodManagerOps.onTick deltaMs s now (g, pm) = Normal (g', pm') r ->
  (status g' = status g /\ activePlayer g' = activePlayer g /\
   optionConfig g' = optionConfig g /\ freezeEnabled g' = freezeEnabled g) /\
  (currentPeriod (GameStateOps.getPlayer s g') = currentPeriod (GameStateOps.getPlayer s g)
   \/ (periodTransition r = true /\
       currentPeriod (GameStateOps.getPlayer s g')
         = currentPeriod (GameStateOps.getPlayer s g) + 1 /\
       exists config,
         optionConfig g = Some config /\
         currentPeriod (GameStateOps.getPlayer s g) + 1 < Z.of_nat (length (periods config))))
  /\ ((GameStateOps.getOpponent s g' = GameStateOps.getOpponent s g /\
       activeMethods pm' !! opposite s = activeMethods pm !! opposite s)
      \/ (periodTransition r = true /\ expiredResult r = false /\
          currentPeriod (GameStateOps.getOpponent s g)
            = currentPeriod (GameStateOps.getPlayer s g) /\
          currentPeriod (GameStateOps.getPlayer s g')
            = currentPeriod (GameStateOps.getPlayer s g) + 1 /\
          currentPeriod (GameStateOps.getOpponent s g')
            = currentPeriod (GameStateOps.getOpponent s g) + 1 /\
          flagState (GameStateOps.getOpponent s g')
            = flagState (GameStateOps.getOpponent s g))).
Proof.
  intros Hout.
  destruct (ticked_frame deltaMs s g pm) as [Hcp _].
  pose proof (PeriodManager_onTick_cases deltaMs s now g pm) as Hcases.
  cbv zeta in Hcases. rewrite Hout in Hcases. unfold afterMethodTick in Hcases.
  set (q := ticked deltaMs s g pm) in *.
  destruct Hcases as [[_ E] | [E | [E | [(config & nextc & Hcfg & Hlt & Hat & Hend & E) | [E _]]]]];
    try discriminate E.
  - apply Normal_inv in E as [E _]. injection E as -> ->.
    repeat split; auto.
  - apply Normal_inv in E as [E _]. injection E as -> ->.
    destruct (setPlayer_frame s q g) as (-> & -> & -> & ->).
    rewrite getPlayer_setPlayer, getOpponent_setPlayer. repeat split; auto.
  - apply Normal_inv in E as [E _]. injection E as -> ->.
    destruct (setFlag_setPlayer_frame s BLINKING now q g) as (-> & -> & -> & -> & -> & ->).
    repeat split; auto.
  - destruct E as [E | [[Hne E] | [Heq E]]].
    + apply Normal_inv in E as [E ->].
      pose proof (transitionPlayer_frame s (currentPeriod q + 1)
                    (periodAt (periods config) (currentPeriod q)) nextc
                    (GameStateOps.setPlayer s q g) pm) as Hf.
      cbv zeta in Hf. rewrite <- E in Hf. cbn [fst snd] in Hf.
      destruct Hf as (-> & -> & -> & -> & -> & -> & _ & -> & _).
      destruct (setPlayer_frame s q g) as (-> & -> & -> & ->).
      rewrite getOpponent_setPlayer, Hcp.
      repeat split; auto.
      right. repeat split; auto. exists config. rewrite <- Hcp. auto.
    + apply Normal_inv in E as [E ->].
      pose proof (transitionPlayer_frame s (currentPeriod q + 1)
                    (periodAt (periods config) (currentPeriod q)) nextc
                    (GameStateOps.setPlayer s (PlayerStateOps.setFlag NON_BLINKING now q)
                       (GameStateOps.setPlayer s q g)) pm) as Hf.
      cbv zeta in Hf. rewrite <- E in Hf. cbn [fst snd] in Hf.
      destruct Hf as (-> & -> & -> & -> & -> & -> & _ & -> & _).
      destruct (setFlag_setPlayer_frame s NON_BLINKING now q g)
        as (-> & -> & -> & -> & -> & _).
      rewrite Hcp. repeat split; auto.
      right. repeat split; auto. exists config. rewrite <- Hcp. auto.
    + apply Normal_inv in E as [E ->].
      set (st2 := PeriodManagerOps._transitionPlayerToPeriod s (currentPeriod q + 1)
                    (periodAt (periods config) (currentPeriod q)) nextc
                    (GameStateOps.setPlayer s (PlayerStateOps.setFlag NON_BLINKING now q)
                       (GameStateOps.setPlayer s q g), pm)) in *.
      pose proof (transitionPlayer_frame s (currentPeriod q + 1)
                    (periodAt (periods config) (currentPeriod q)) nextc
                    (GameStateOps.setPlayer s (PlayerStateOps.setFlag NON_BLINKING now q)
                       (GameStateOps.setPlayer s q g)) pm) as Hf2.
      cbv zeta in Hf2. fold st2 in Hf2.
      destruct st2 as [g2 pm2]. cbn [fst snd] in Hf2.
      destruct Hf2 as (Hs2 & Ha2 & Hc2 & Hfz2 & Ho2 & _ & _ & Hp2 & _).
      destruct (setFlag_setPlayer_frame s NON_BLINKING now q g)
        as (Hs1 & Ha1 & Hc1 & Hfz1 & Ho1 & _).
      pose proof (transitionPlayer_frame (opposite s) (currentPeriod q + 1)
                    (periodAt (periods config) (currentPeriod q)) nextc g2 pm2) as Hf3.
      cbv zeta in Hf3. rewrite <- E in Hf3. cbn [fst snd] in Hf3.
      rewrite opposite_involutive, !getPlayer_opposite, !getOpponent_opposite in Hf3.
      destruct Hf3 as (Hs3 & Ha3 & Hc3 & Hfz3 & Hp3 & _ & _ & Ho3 & Hfl3 & _).
      rewrite Hs3, Ha3, Hc3, Hfz3, Hs2, Ha2, Hc2, Hfz2, Hs1, Ha1, Hc1, Hfz1.
      rewrite Hp3, Hp2, Ho3, Hfl3, Ho2, Ho1, Hcp.
      repeat split; auto.
      * right. repeat split; auto. exists config. rewrite <- Hcp. auto.
      * right. rewrite Heq, Hcp. repeat split; auto.
Qed.

(** X8.  A tick of one side that returns leaves the match status, the active
    side, the configuration and the freeze setting as they were.  The other
    side's clock and method are untouched, except in the one case of a period
    transition found while both sides were in the same period: then the
    other side is moved one period up as well, its flag unchanged. *)
Theorem tick_leaves_opponent_unless_synced (deltaMs : Z) (s : Player) (now : Z)
    (g : GameState) (pm : PeriodManager) (g' : GameState) (pm' : PeriodManager)
    (r : PeriodResult) :
  PeriodManagerOps.onTick deltaMs s now (g, pm) = Normal (g', pm') r ->
  (status g' = status g /\ activePlayer g' = activePlayer g /\
   optionConfig g' = optionConfig g /\ freezeEnabled g' = freezeEnabled g) /\
  ((GameStateOps.getOpponent s g' = GameStateOps.getOpponent s g /\
    activeMethods pm' !! opposite s = activeMethods pm !! opposite s)
   \/ (periodTransition r = true /\ expiredResult r = false /\
       currentPeriod (GameStateOps.getOpponent s g)
         = currentPeriod (GameStateOps.getPlayer s g) /\
       currentPeriod (GameStateOps.getOpponent s g')
         = currentPeriod (GameStateOps.getOpponent s g) + 1 /\
       flagState (GameStateOps.getOpponent s g')
         = flagState (GameStateOps.getOpponent s g))).
Proof.
  intros Hout.
  destruct (PeriodManager_onTick_facts _ _ _ _ _ _ _ _ Hout) as (Hfr & _ & Hopp).
  split; [exact Hfr |].
  destruct Hopp as [Hsame | (Ht & He & Hc & _ & Hc' & Hf)]; [left; exact Hsame | right].
  repeat split; assumption.
Qed.

Lemma tick_leaves_opponent_unless_synced_witness :
  exists g' pm' r,
    PeriodManagerOps.onTick 1000 LEFT 7 (Fixtures.configured Fixtures.twoPeriods)
      = Normal (g', pm') r /\
    status g' = status (fst (Fixtures.configured Fixtures.twoPeriods)).
Proof.
  destruct (PeriodManagerOps.onTick 1000 LEFT 7 (Fixtures.configured Fixtures.twoPeriods))
    as [[g' pm'] r |] eqn:E; [| vm_compute in E; discriminate E].
  exists g', pm', r. split; [reflexivity |].
  unfold Fixtures.configured in E.
  exact (proj1 (proj1 (tick_leaves_opponent_unless_synced _ _ _ _ _ _ _ _ E))).
Defined.

Lemma periodsInRange_inv (g : GameState) :
  periodsInRange g ->
  exists config, optionConfig g = Some config /\
    0 <= currentPeriod (left g) <= Z.of_nat (length (periods config)) - 1 /\
    0 <= currentPeriod (right g) <= Z.of_nat (length (periods config)) - 1.
Proof.
  unfold periodsInRange. destruct (optionConfig g) as [config |]; [| tauto].
  intros H. exists config. tauto.
Qed.

Lemma getPlayer_range (g : GameState) (config : OptionConfig) (x : Player) :
  0 <= currentPeriod (left g) <= Z.of_nat (length (periods config)) - 1 ->
  0 <= currentPeriod (right g) <= Z.of_nat (length (periods config)) - 1 ->
  0 <= currentPeriod (GameStateOps.getPlayer x g) <= Z.of_nat (length (periods config)) - 1.
Proof. destruct x; simpl; auto. Qed.

Lemma PeriodManager_onTick_in_range (deltaMs : Z) (s : Player) (now : Z)
    (g : GameState) (pm : PeriodManager) :
  periodsInRange g ->
  exists g' pm' r,
    PeriodManagerOps.onTick deltaMs s now (g, pm) = Normal (g', pm') r /\
    periodsInRange g' /\
    forall x, currentPeriod (GameStateOps.getPlayer x g)
                <= currentPeriod (GameStateOps.getPlayer x g')
                <= currentPeriod (GameStateOps.getPlayer x g) + 1.
Proof.
  intros Hr. destruct (periodsInRange_inv g Hr) as (config & Hcfg & Hl & Hrt).
  pose proof (getPlayer_range g config s Hl Hrt) as Hs.
  pose proof (getPlayer_range g config (opposite s) Hl Hrt) as Ho.
  rewrite getPlayer_opposite in Ho.
  destruct (PeriodManagerOps.onTick deltaMs s now (g, pm)) as [[g' pm'] r | st] eqn:E.
  - exists g', pm', r. split; [reflexivity |].
    destruct (PeriodManager_onTick_facts _ _ _ _ _ _ _ _ E)
      as ((_ & _ & Hc' & _) & Hown & Hopp).
    assert (currentPeriod (GameStateOps.getPlayer s g)
              <= currentPeriod (GameStateOps.getPlayer s g')
              <= currentPeriod (GameStateOps.getPlayer s g) + 1 /\
            currentPeriod (GameStateOps.getPlayer s g')
              <= Z.of_nat (length (periods config)) - 1) as [Hs1 Hs2].
    { destruct Hown as [-> | (_ & -> & config' & Hcfg' & Hlt)]; [lia |].
      rewrite Hcfg in Hcfg'. injection Hcfg' as <-. lia. }
    assert (currentPeriod (GameStateOps.getOpponent s g)
              <= currentPeriod (GameStateOps.getOpponent s g')
              <= currentPeriod (GameStateOps.getOpponent s g) + 1 /\
            currentPeriod (GameStateOps.getOpponent s g')
              <= Z.of_nat (length (periods config)) - 1) as [Ho1 Ho2].
    { destruct Hopp as [[-> _] | (_ & _ & Heq & Hs' & -> & _)]; [lia |].
      rewrite Heq, <- Hs'. lia. }
    split.
    + unfold periodsInRange. rewrite Hc', Hcfg.
      destruct s; simpl in *; lia.
    + intros x. destruct s, x; simpl in *; lia.
  - exfalso.
    pose proof (PeriodManager_onTick_cases deltaMs s now g pm) as Hcases.
    cbv zeta in Hcases. rewrite E in Hcases.
    destruct (ticked_frame deltaMs s g pm) as [Hcp _].
    destruct Hcases as [[_ F] | [F | [F | [(c & n & _ & _ & _ & _ & F) | [_ F]]]]];
      try discriminate F.
    + destruct F as [F | [[_ F] | [_ F]]]; discriminate F.
    + destruct F as [F | (c & Hc & Hlt)].
      * rewrite Hcfg in F. discriminate F.
      * rewrite Hcp in Hlt. lia.
Qed.

(** X9.  On a match whose two period indices lie within the configured
    periods, a tick of either side always returns (it never throws), both
    indices still lie within the configured periods afterwards, and each
    index is what it was or one more. *)
Theorem tick_keeps_periods_in_range (deltaMs : Z) (s : Player) (now : Z)
    (g : GameState) (pm : PeriodManager) :
  periodsInRange g ->
  exists g' pm' r,
    PeriodManagerOps.onTick deltaMs s now (g, pm) = Normal (g', pm') r /\
    periodsInRange g' /\
    forall x, currentPeriod (GameStateOps.getPlayer x g)
                <= currentPeriod (GameStateOps.getPlayer x g')
                <= currentPeriod (GameStateOps.getPlayer x g) + 1.
Proof. exact (PeriodManager_onTick_in_range deltaMs s now g pm). Qed.

Lemma tick_keeps_periods_in_range_witness :
  periodsInRange (fst (Fixtures.configured Fixtures.twoPeriods)) /\
  exists g' pm' r,
    PeriodManagerOps.onTick 400000 LEFT 7 (Fixtures.configured Fixtures.twoPeriods)
      = Normal (g', pm') r /\
    periodsInRange g'.
Proof.
  assert (periodsInRange (fst (Fixtures.configured Fixtures.twoPeriods))) as H.
  { vm_compute. repeat split; discriminate. }
  split; [exact H |].
  destruct (tick_keeps_periods_in_range 400000 LEFT 7 _
              (snd (Fixtures.configured Fixtures.twoPeriods)) H)
    as (g' & pm' & r & E & Hr & _).
  exists g', pm', r. split; [exact E | exact Hr].
Defined.

(** ** The Canadian reload *)

Lemma setPlayer_setPlayer (s : Player) (p q : PlayerState) (g : GameState) :
  GameStateOps.setPlayer s p (GameStateOps.setPlayer s q g) = GameStateOps.setPlayer s p g.
Proof. destruct s; reflexivity. Qed.

Lemma setMethod_setMethod (s : Player) (m n : TimingMethod) (pm : PeriodManager) :
  PeriodManagerOps.setMethod s m (PeriodManagerOps.setMethod s n pm)
  = PeriodManagerOps.setMethod s m pm.
Proof.
  unfold PeriodManagerOps.setMethod. cbn [activeMethods _periodStartMoves].
  rewrite insert_insert_eq. reflexivity.
Qed.

Lemma getMethod_setMethod (s : Player) (m : TimingMethod) (pm : PeriodManager) :
  PeriodManagerOps.getMethod s (PeriodManagerOps.setMethod s m pm) = Some m.
Proof.
  unfold PeriodManagerOps.getMethod, PeriodManagerOps.setMethod. cbn [activeMethods].
  apply lookup_insert_eq.
Qed.

(** X10.  The reload of a side whose method is the Canadian byo-yomi is
    performed whatever the clock shows (also at 0 with the flag up): the
    clock is the method's byo-yomi time again, the flag is gone, the other
    side is untouched, and a second reload changes nothing more.  The next
    tick shorter than the byo-yomi time then just counts down, without
    expiry or flag. *)
Theorem canadian_reload_revives (s : Player) (g : GameState) (pm : PeriodManager)
    (c : CanadianByoYomiMethod.t) (d now : Z) :
  PeriodManagerOps.getMethod s pm = Some (ofCanadianByoYomi c) ->
  0 <= d < CanadianByoYomiMethod.byoTimeMs c ->
  let r := PeriodManagerMore.reloadCanadianByo s (g, pm) in
  snd r = true /\
  timeMs (GameStateOps.getPlayer s (fst (fst r))) = CanadianByoYomiMethod.byoTimeMs c /\
  flagState (GameStateOps.getPlayer s (fst (fst r))) = NONE /\
  GameStateOps.getOpponent s (fst (fst r)) = GameStateOps.getOpponent s g /\
  PeriodManagerMore.reloadCanadianByo s (fst r) = r /\
  exists g2,
    PeriodManagerOps.onTick d s now (fst r)
      = Normal (g2, snd (fst r)) (mkPeriodResult false false) /\
    timeMs (GameStateOps.getPlayer s g2) = CanadianByoYomiMethod.byoTimeMs c - d /\
    flagState (GameStateOps.getPlayer s g2) = NONE.
Proof.
  intros Hm Hd. unfold PeriodManagerMore.reloadCanadianByo. rewrite Hm.
  unfold CanadianByoYomiMethod.reload. cbv zeta. cbn [fst snd].
  rewrite getPlayer_setPlayer, getOpponent_setPlayer, getMethod_setMethod.
  cbn [CanadianByoYomiMethod.byoTimeMs CanadianByoYomiMethod.movesRequired].
  rewrite setPlayer_setPlayer, setMethod_setMethod.
  repeat split.
  unfold PeriodManagerOps.onTick. rewrite getMethod_setMethod.
  cbn [TimingMethodOps.onTick]. unfold CanadianByoYomiMethod.onTick, clampExpiry.
  rewrite getPlayer_setPlayer.
  change (timeMs (set_timeMs ?x ?p)) with x.
  unfold PlayerStateOps.clearFlag, set_timeMs at 2. cbn [timeMs].
  destruct (Z.leb_spec (CanadianByoYomiMethod.byoTimeMs c - d) 0); [lia |].
  cbn [expired]. eexists. split; [reflexivity |].
  rewrite getPlayer_setPlayer. split; reflexivity.
Qed.

Lemma canadian_reload_revives_witness :
  let st := Fixtures.configured canadianOnly in
  snd (PeriodManagerMore.reloadCanadianByo LEFT st) = true /\
  timeMs (GameStateOps.getPlayer LEFT (fst (fst (PeriodManagerMore.reloadCanadianByo LEFT st))))
  = 300000.
Proof.
  intros st.
  assert (PeriodManagerOps.getMethod LEFT (snd st)
          = Some (ofCanadianByoYomi (CanadianByoYomiMethod.new canadianPeriod))) as Hm
    by (vm_compute; reflexivity).
  assert (0 <= 1000 < CanadianByoYomiMethod.byoTimeMs
                        (CanadianByoYomiMethod.new canadianPeriod)) as Hd
    by (vm_compute; split; [discriminate | reflexivity]).
  destruct (canadian_reload_revives LEFT (fst st) (snd st)
              (CanadianByoYomiMethod.new canadianPeriod) 1000 7 Hm Hd) as (H1 & H2 & _).
  split; [exact H1 | exact H2].
Defined.

(** ** Runs of animation frames *)

Section SchedulerRuns.

Context {C : Type}.
Variable call : C -> Z -> TimerEngine C -> TimerEngine C.

(** The callback leaves the engine as it is (it does not stop it). *)
Hypothesis call_keeps : forall c d e, call c d e = e.

Lemma delivered_app (a b : list Effect) :
  TimerEngineOps.delivered (a ++ b) = TimerEngineOps.delivered a ++ TimerEngineOps.delivered b.
Proof. unfold TimerEngineOps.delivered. apply omap_app. Qed.

Lemma sumZ_app (a b : list Z) : sumZ (a ++ b) = sumZ a + sumZ b.
Proof. induction a as [| x a IH]; simpl; [reflexivity | rewrite IH; lia]. Qed.

Lemma last_cons_default (l : list Z) (x d : Z) :
  List.last (x :: l) d = List.last l x.
Proof.
  revert x d. induction l as [| a l IH]; intros x d; [reflexivity |].
  change (List.last (a :: l) d = List.last (a :: l) x). rewrite !IH. reflexivity.
Qed.

Lemma _tick_running (c : C) (timestamp handle : Z) (e : TimerEngine C) :
  _running e = true -> _onTick e = Some c ->
  let d := Z.min (timestamp - _lastTimestamp e) 1000 in
  TimerEngineOps._tick call timestamp handle e
  = (mkTimerEngine (Some handle) timestamp true (Some c) (_hiddenAtWallClock e),
     (if 0 <? d then [Deliver d] else []) ++ [RequestFrame handle]).
Proof.
  intros Hrun Hcb d. unfold TimerEngineOps._tick, TimerEngineOps.deliver.
  rewrite Hrun. cbn [_onTick _lastTimestamp _running _rafId _hiddenAtWallClock].
  rewrite Hcb. fold d. destruct (0 <? d).
  - rewrite call_keeps. reflexivity.
  - reflexivity.
Qed.

Lemma frames_sum (c : C) (fs : list (Z * Z)) (e : TimerEngine C) :
  _running e = true -> _onTick e = Some c ->
  ascending (_lastTimestamp e) fs ->
  let out := frames call fs e in
  _running (fst out) = true /\ _onTick (fst out) = Some c /\
  _lastTimestamp (fst out) = lastTimestampOf (_lastTimestamp e) fs /\
  0 <= sumZ (TimerEngineOps.delivered (snd out))
    <= lastTimestampOf (_lastTimestamp e) fs - _lastTimestamp e /\
  (gapsWithin 1000 (_lastTimestamp e) fs ->
   sumZ (TimerEngineOps.delivered (snd out))
   = lastTimestampOf (_lastTimestamp e) fs - _lastTimestamp e).
Proof.
  revert e. induction fs as [| [t h] rest IH]; intros e Hrun Hcb Hasc.
  - cbn. repeat split; auto; lia.
  - destruct Hasc as [Hle Hasc]. cbn [frames].
    rewrite (_tick_running c t h e Hrun Hcb). cbv zeta.
    set (e1 := mkTimerEngine (Some h) t true (Some c) (_hiddenAtWallClock e)).
    specialize (IH e1 eq_refl eq_refl Hasc). cbv zeta in IH.
    destruct (frames call rest e1) as [e2 out2]. cbn [fst snd] in *.
    destruct IH as (Hr2 & Hc2 & Hl2 & Hs2 & Hg2).
    assert (lastTimestampOf (_lastTimestamp e) ((t, h) :: rest) = lastTimestampOf t rest)
      as Hlast.
    { unfold lastTimestampOf. cbn [map fst]. apply last_cons_default. }
    rewrite Hlast. cbn [_lastTimestamp e1] in *.
    rewrite delivered_app, sumZ_app.
    assert (sumZ (TimerEngineOps.delivered
                    ((if 0 <? Z.min (t - _lastTimestamp e) 1000
                      then [Deliver (Z.min (t - _lastTimestamp e) 1000)] else [])
                     ++ [RequestFrame h]))
            = Z.min (t - _lastTimestamp e) 1000) as Hd.
    { destruct (Z.ltb_spec 0 (Z.min (t - _lastTimestamp e) 1000)); cbn; lia. }
    rewrite Hd. repeat split; auto; try lia.
    intros [Hgap Hgaps]. specialize (Hg2 Hgaps). lia.
Qed.

(** X11.  A run of animation frames on a running engine whose callback
    does not stop it, with timestamps that never go back: the ticks handed to
    the callback add up to at most the time between the engine's last
    timestamp and the last frame, and to exactly that time when no two
    consecutive frames are more than 1000 ms apart.  The engine is still
    running afterwards and measures from the last frame. *)
Theorem frames_deliver_elapsed (c : C) (fs : list (Z * Z)) (e : TimerEngine C) :
  _running e = true -> _onTick e = Some c ->
  ascending (_lastTimestamp e) fs ->
  let elapsed := lastTimestampOf (_lastTimestamp e) fs - _lastTimestamp e in
  let out := frames call fs e in
  _running (fst out) = true /\
  _lastTimestamp (fst out) = lastTimestampOf (_lastTimestamp e) fs /\
  0 <= sumZ (TimerEngineOps.delivered (snd out)) <= elapsed /\
  (gapsWithin 1000 (_lastTimestamp e) fs ->
   sumZ (TimerEngineOps.delivered (snd out)) = elapsed).
Proof.
  intros Hrun Hcb Hasc elapsed out.
  destruct (frames_sum c fs e Hrun Hcb Hasc) as (H1 & _ & H3 & H4 & H5).
  repeat split; auto; apply H4.
Qed.

(** X12.  Starting a stopped engine requests one frame and adds the
    visibility listener; stopping it again cancels that very frame and
    removes the listener, and leaves the engine not running with no frame
    pending.  Starting a running engine does nothing (no second frame loop),
    and a frame that still arrives after the stop does nothing. *)
Theorem start_stop_pairing (perfNow handle : Z) (e : TimerEngine C) :
  _running e = false ->
  let started := TimerEngineOps.start perfNow handle e in
  let stopped := TimerEngineOps.stop (fst started) in
  snd started = [RequestFrame handle; AddVisibilityListener] /\
  _lastTimestamp (fst started) = perfNow /\
  snd stopped = [CancelFrame handle; RemoveVisibilityListener] /\
  _running (fst stopped) = false /\ _rafId (fst stopped) = None /\
  _onTick (fst stopped) = _onTick e /\
  (forall perfNow' handle',
      TimerEngineOps.start perfNow' handle' (fst started) = (fst started, [])) /\
  (forall timestamp handle',
      TimerEngineOps._tick call timestamp handle' (fst stopped) = (fst stopped, [])) /\
  TimerEngineOps.stop (fst stopped) = (fst stopped, []).
Proof.
  intros Hrun. unfold TimerEngineOps.start, TimerEngineOps.stop, TimerEngineOps._tick.
  rewrite Hrun. cbn. repeat split; reflexivity.
Qed.

End SchedulerRuns.

Lemma frames_deliver_elapsed_witness :
  let e : TimerEngine AppCallback := mkTimerEngine (Some 7) 1000 true (Some boundOnTick) 0 in
  sumZ (TimerEngineOps.delivered
          (snd (frames (fun _ _ e0 => e0) [(1016, 8); (1016, 9); (1050, 10)] e))) = 50.
Proof.
  intros e.
  refine (proj2 (proj2 (proj2
            (frames_deliver_elapsed (fun _ _ e0 => e0) _ boundOnTick
               [(1016, 8); (1016, 9); (1050, 10)] e eq_refl eq_refl _))) _).
  - intros; reflexivity.
  - cbn. lia.
  - cbn. lia.
Defined.

Lemma start_stop_pairing_witness :
  let e : TimerEngine AppCallback :=
    TimerEngineOps.setTickCallback boundOnTick TimerEngineOps.new in
  snd (TimerEngineOps.stop (fst (TimerEngineOps.start 1000 7 e)))
  = [CancelFrame 7; RemoveVisibilityListener].
Proof.
  intros e.
  exact (proj1 (proj2 (proj2
           (start_stop_pairing (fun _ _ e0 => e0) 1000 7 e eq_refl)))).
Defined.

(** ** The correction overlay *)

Section Correction.

Context {S K : Type}.

Lemma _msToComponents_spec (ms : Z) :
  let '(h, m, s) := @CorrectionModeOps._msToComponents ms in
  0 <= h /\ 0 <= m <= 59 /\ 0 <= s <= 59 /\
  h * 3600 + m * 60 + s = Z.max 0 ms / 1000.
Proof.
  unfold CorrectionModeOps._msToComponents. cbv zeta.
  set (t := Z.max 0 ms / 1000).
  assert (0 <= t) as Ht by (apply Z.div_pos; lia).
  rewrite !Z.rem_mod_nonneg by lia.
  pose proof (Z.mod_pos_bound t 3600 ltac:(lia)) as H1.
  pose proof (Z.mod_pos_bound t 60 ltac:(lia)) as H2.
  pose proof (Z.div_mod t 3600 ltac:(lia)) as H3.
  pose proof (Z.div_mod (t mod 3600) 60 ltac:(lia)) as H4.
  assert ((t mod 3600) mod 60 = t mod 60) as H5.
  { replace (t mod 3600) with (t + - (60 * (t / 3600)) * 60) by lia.
    apply Z.mod_add. lia. }
  assert (0 <= t / 3600) by (apply Z.div_pos; lia).
  assert (0 <= t mod 3600 / 60 <= 59).
  { split; [apply Z.div_pos; lia |].
    apply Z.lt_succ_r. apply Z.div_lt_upper_bound; lia. }
  repeat split; try lia.
Qed.

(** X13.  Hours, minutes and seconds within their ranges are read back
    from the milliseconds they make. *)
Theorem correction_components_round_trip (h m s : Z) :
  0 <= h -> 0 <= m <= 59 -> 0 <= s <= 59 ->
  @CorrectionModeOps._msToComponents (@CorrectionModeOps._componentsToMs h m s) = (h, m, s).
Proof.
  intros Hh Hm Hs.
  unfold CorrectionModeOps._msToComponents, CorrectionModeOps._componentsToMs. cbv zeta.
  rewrite Z.max_r by lia. rewrite Z.div_mul by lia.
  rewrite !Z.rem_mod_nonneg by lia.
  assert ((h * 3600 + m * 60 + s) / 3600 = h) as E1.
  { symmetry. apply (Z.div_unique _ 3600 h (m * 60 + s)); lia. }
  assert ((h * 3600 + m * 60 + s) mod 3600 = m * 60 + s) as E2.
  { symmetry. apply (Z.mod_unique _ 3600 h (m * 60 + s)); lia. }
  assert ((h * 3600 + m * 60 + s) mod 60 = s) as E3.
  { symmetry. apply (Z.mod_unique _ 60 (h * 60 + m) s); lia. }
  rewrite E1, E2, E3.
  assert ((m * 60 + s) / 60 = m) as E4.
  { symmetry. apply (Z.div_unique _ 60 m s); lia. }
  rewrite E4. reflexivity.
Qed.

(** X14.  Entering the overlay and saving without an edit hands back each
    clock cut down to whole seconds (0 for a clock below 0), so up to 999 ms
    of a clock are lost; the move counts and period indices come back as
    they were given, and the overlay is closed. *)
Theorem enter_then_save_truncates (state : EnterState.t) (onSave : S) (onCancel : K)
    (cm : CorrectionMode S K) :
  let floorSec := fun ms => 1000 * (Z.max 0 ms / 1000) in
  let '(cm', call) :=
    CorrectionModeOps.save (CorrectionModeOps.enter state onSave onCancel cm) in
  _active cm' = false /\
  call = Some (onSave,
               mkCorrected (floorSec (EnterState.leftTimeMs state))
                 (floorSec (EnterState.rightTimeMs state))
                 (EnterState.leftMoves state) (EnterState.rightMoves state)
                 (EnterState.leftPeriod state) (EnterState.rightPeriod state)) /\
  floorSec (EnterState.leftTimeMs state) <= Z.max 0 (EnterState.leftTimeMs state)
    < floorSec (EnterState.leftTimeMs state) + 1000 /\
  floorSec (EnterState.rightTimeMs state) <= Z.max 0 (EnterState.rightTimeMs state)
    < floorSec (EnterState.rightTimeMs state) + 1000.
Proof.
  cbv zeta. unfold CorrectionModeOps.enter.
  pose proof (_msToComponents_spec (EnterState.leftTimeMs state)) as Hl.
  pose proof (_msToComponents_spec (EnterState.rightTimeMs state)) as Hr.
  destruct (CorrectionModeOps._msToComponents (EnterState.leftTimeMs state))
    as [[lh lm] ls].
  destruct (CorrectionModeOps._msToComponents (EnterState.rightTimeMs state))
    as [[rh rm] rs].
  destruct Hl as (_ & _ & _ & Hl). destruct Hr as (_ & _ & _ & Hr).
  unfold CorrectionModeOps.save, CorrectionModeOps.exit, CorrectionModeOps.corrected,
    CorrectionModeOps._componentsToMs.
  cbn [_active _onSave _values Values.leftHours Values.leftMinutes Values.leftSeconds
       Values.rightHours Values.rightMinutes Values.rightSeconds Values.leftMoves
       Values.rightMoves Values.leftPeriod Values.rightPeriod].
  rewrite Hl, Hr.
  pose proof (Z.div_mod (Z.max 0 (EnterState.leftTimeMs state)) 1000 ltac:(lia)).
  pose proof (Z.mod_pos_bound (Z.max 0 (EnterState.leftTimeMs state)) 1000 ltac:(lia)).
  pose proof (Z.div_mod (Z.max 0 (EnterState.rightTimeMs state)) 1000 ltac:(lia)).
  pose proof (Z.mod_pos_bound (Z.max 0 (EnterState.rightTimeMs state)) 1000 ltac:(lia)).
  repeat split; try lia.
  do 2 f_equal. f_equal; lia.
Qed.

Lemma fieldAt_in_range (i : Z) :
  0 <= i < Z.of_nat (length FIELDS) -> exists f, CorrectionModeOps.fieldAt i = Some f.
Proof.
  intros Hi. unfold CorrectionModeOps.fieldAt.
  destruct (Z.ltb_spec i 0); [lia |].
  apply lookup_lt_is_Some_2. lia.
Qed.

Lemma adjustValues_ok (f : Field.t) (delta : Z) (v : Values.t) :
  valuesOk v -> valuesOk (CorrectionModeOps.adjustValues f delta v) /\
  Values.totalPeriods (CorrectionModeOps.adjustValues f delta v) = Values.totalPeriods v.
Proof.
  unfold valuesOk. intros H.
  destruct f as [[] []]; unfold CorrectionModeOps.adjustValues; cbn; lia.
Qed.

Lemma rem_FIELDS (i : Z) :
  0 <= i -> 0 <= Z.rem i (Z.of_nat (length FIELDS)) < Z.of_nat (length FIELDS).
Proof.
  intros Hi. rewrite Z.rem_mod_nonneg by (cbn; lia). apply Z.mod_pos_bound. cbn. lia.
Qed.

Lemma overlayStep_ok (total : Z) (o : OverlayOp) (cm : CorrectionMode S K) :
  overlayOk total cm -> opInRange o ->
  exists cm', overlayStep o cm = Normal cm' tt /\ overlayOk total cm' /\
              _onSave cm' = _onSave cm /\ _onCancel cm' = _onCancel cm.
Proof.
  intros (Hact & Hidx & v & Hv & Hok & Htot) Hin.
  destruct o as [| | | | i]; cbn [overlayStep].
  - unfold CorrectionModeOps.nextField. rewrite Hact. eexists. split; [reflexivity |].
    cbn [_onSave _onCancel]. repeat split; cbn [_active _activeFieldIndex _values]; auto;
      try (apply rem_FIELDS; lia). exists v. auto.
  - unfold CorrectionModeOps.prevField. rewrite Hact. eexists. split; [reflexivity |].
    cbn [_onSave _onCancel]. repeat split; cbn [_active _activeFieldIndex _values]; auto;
      try (apply rem_FIELDS; lia). exists v. auto.
  - unfold CorrectionModeOps.increment, CorrectionModeOps._adjustField. rewrite Hact.
    destruct (fieldAt_in_range _ Hidx) as [f ->]. rewrite Hv.
    eexists. split; [reflexivity |].
    destruct (adjustValues_ok f 1 v Hok) as [Hok' Htot'].
    cbn [_onSave _onCancel]. repeat split; cbn [_active _activeFieldIndex _values]; auto;
      try apply Hidx.
    exists (CorrectionModeOps.adjustValues f 1 v).
    split; [reflexivity | split; [exact Hok' | rewrite Htot'; exact Htot]].
  - unfold CorrectionModeOps.decrement, CorrectionModeOps._adjustField. rewrite Hact.
    destruct (fieldAt_in_range _ Hidx) as [f ->]. rewrite Hv.
    eexists. split; [reflexivity |].
    destruct (adjustValues_ok f (-1) v Hok) as [Hok' Htot'].
    cbn [_onSave _onCancel]. repeat split; cbn [_active _activeFieldIndex _values]; auto;
      try apply Hidx.
    exists (CorrectionModeOps.adjustValues f (-1) v).
    split; [reflexivity | split; [exact Hok' | rewrite Htot'; exact Htot]].
  - eexists. split; [reflexivity |]. unfold CorrectionModeOps.selectField.
    cbn [_onSave _onCancel]. cbn [opInRange] in Hin.
    repeat split; cbn [_active _activeFieldIndex _values]; auto; try lia.
    exists v. auto.
Qed.

Lemma enter_ok (state : EnterState.t) (onSave : S) (onCancel : K) (cm : CorrectionMode S K) :
  0 <= EnterState.leftMoves state -> 0 <= EnterState.rightMoves state ->
  0 <= EnterState.leftPeriod state <= EnterState.totalPeriods state - 1 ->
  0 <= EnterState.rightPeriod state <= EnterState.totalPeriods state - 1 ->
  overlayOk (EnterState.totalPeriods state) (CorrectionModeOps.enter state onSave onCancel cm)
  /\ _onSave (CorrectionModeOps.enter state onSave onCancel cm) = Some onSave
  /\ _onCancel (CorrectionModeOps.enter state onSave onCancel cm) = Some onCancel.
Proof.
  intros Hlm Hrm Hlp Hrp. unfold CorrectionModeOps.enter.
  pose proof (_msToComponents_spec (EnterState.leftTimeMs state)) as Hl.
  pose proof (_msToComponents_spec (EnterState.rightTimeMs state)) as Hr.
  destruct (CorrectionModeOps._msToComponents (EnterState.leftTimeMs state))
    as [[lh lm] ls].
  destruct (CorrectionModeOps._msToComponents (EnterState.rightTimeMs state))
    as [[rh rm] rs].
  repeat split; cbn; try lia.
  eexists. split; [reflexivity |]. unfold valuesOk. cbn. repeat split; lia.
Qed.

Lemma overlayRun_ok (total : Z) (ops : list OverlayOp) (cm : CorrectionMode S K) :
  overlayOk total cm -> Forall opInRange ops ->
  exists cm', overlayRun ops cm = Normal cm' tt /\ overlayOk total cm' /\
              _onSave cm' = _onSave cm /\ _onCancel cm' = _onCancel cm.
Proof.
  revert cm. induction ops as [| o ops IH]; intros cm Hok Hall.
  - exists cm. cbn. auto.
  - inversion Hall as [| ? ? Ho Hrest]; subst.
    destruct (overlayStep_ok total o cm Hok Ho) as (cm1 & E1 & Hok1 & Hs1 & Hc1).
    destruct (IH cm1 Hok1 Hrest) as (cm2 & E2 & Hok2 & Hs2 & Hc2).
    exists cm2. cbn [overlayRun]. rewrite E1.
    split; [exact E2 | split; [exact Hok2 | split; congruence]].
Qed.

(** X15.  The overlay entered with move counts of 0 or more and period
    indices within the periods: whatever sequence of field changes and
    increments and decrements follows, no step throws, and saving hands
    back clocks of 0 or more in whole seconds, move counts of 0 or more and
    period indices within the periods. *)
Theorem overlay_edits_stay_in_range (state : EnterState.t) (onSave : S) (onCancel : K)
    (cm0 : CorrectionMode S K) (ops : list OverlayOp) :
  0 <= EnterState.leftMoves state -> 0 <= EnterState.rightMoves state ->
  0 <= EnterState.leftPeriod state <= EnterState.totalPeriods state - 1 ->
  0 <= EnterState.rightPeriod state <= EnterState.totalPeriods state - 1 ->
  Forall opInRange ops ->
  exists cm' c,
    overlayRun ops (CorrectionModeOps.enter state onSave onCancel cm0) = Normal cm' tt /\
    snd (CorrectionModeOps.save cm') = Some (onSave, c) /\
    correctedOk (EnterState.totalPeriods state) c.
Proof.
  intros Hlm Hrm Hlp Hrp Hall.
  destruct (enter_ok state onSave onCancel cm0 Hlm Hrm Hlp Hrp) as (Hok & Hs & _).
  destruct (overlayRun_ok _ ops _ Hok Hall) as (cm' & E & Hok' & Hs' & _).
  destruct Hok' as (Hact & _ & v & Hv & Hvok & Htot).
  exists cm', (CorrectionModeOps.corrected v). split; [exact E |].
  unfold CorrectionModeOps.save. rewrite Hact, Hs', Hs, Hv. cbn [snd].
  split; [reflexivity |].
  unfold valuesOk in Hvok. unfold correctedOk, CorrectionModeOps.corrected,
    CorrectionModeOps._componentsToMs. cbn. rewrite <- Htot.
  rewrite !Z.rem_mul by lia. repeat split; lia.
Qed.

End Correction.

Lemma correction_components_round_trip_witness :
  @CorrectionModeOps._msToComponents (@CorrectionModeOps._componentsToMs 1 30 15) = (1, 30, 15).
Proof.
  apply correction_components_round_trip; lia.
Defined.

Lemma overlay_edits_stay_in_range_witness :
  let state := EnterState.mk 299500 300000 3 2 0 0 2 in
  exists (cm' : CorrectionMode unit unit) c,
    overlayRun [opSelect 6; opDecrement; opNext; opIncrement; opPrev]
      (CorrectionModeOps.enter state tt tt CorrectionModeOps.new) = Normal cm' tt /\
    snd (CorrectionModeOps.save cm') = Some (tt, c) /\
    correctedOk 2 c.
Proof.
  intros state.
  apply (overlay_edits_stay_in_range state tt tt CorrectionModeOps.new
           [opSelect 6; opDecrement; opNext; opIncrement; opPrev]);
    cbn; try lia.
  repeat constructor; cbn; lia.
Defined.

(** ** The handlers of [App] *)

Lemma consumeMoments_moves (m : ByoYomiMethod.t) (p : PlayerState) (me : bool) :
  match ByoYomiMethod.consumeMoments m p me with
  | ByoYomiMethod.Returned p' _ => moves p' = moves p
  | ByoYomiMethod.Exited p' _ => moves p' = moves p
  end.
Proof.
  remember (Z.to_nat (byoMomentsRemaining p)) as n eqn:Hn.
  revert p me Hn. induction n as [n IH] using lt_wf_ind. intros p me Hn.
  rewrite consumeMoments_unfold.
  destruct (decide _) as [Hc | Hc]; [| reflexivity].
  destruct (Z.leb_spec (byoMomentsRemaining p - 1) 0); [reflexivity |].
  set (q := set_timeMs _ _).
  specialize (IH (Z.to_nat (byoMomentsRemaining q))).
  assert (byoMomentsRemaining q = byoMomentsRemaining p - 1) as Hq by reflexivity.
  specialize (IH ltac:(rewrite Hq; lia) q true eq_refl).
  destruct (ByoYomiMethod.consumeMoments m q true); exact IH.
Qed.

Lemma TimingMethod_onTick_moves (m : TimingMethod) (deltaMs : Z) (p : PlayerState) :
  moves (fst (TimingMethodOps.onTick m deltaMs p)) = moves p.
Proof.
  destruct m as [| f | b | u | b | c |]; cbn [TimingMethodOps.onTick].
  1-3, 6: (try unfold TimeMethod.onTick; try unfold FischerMethod.onTick;
           try unfold BronsteinDelayMethod.onTick; try unfold CanadianByoYomiMethod.onTick;
           match goal with |- context [clampExpiry ?s] =>
             destruct (clampExpiry_frame s) as (_ & _ & ->) end; reflexivity).
  - apply UsDelayMethod_onTick_frame.
  - unfold ByoYomiMethod.onTick. cbv zeta.
    destruct (timeMs (set_timeMs (timeMs p - deltaMs) p) <=? 0); [| reflexivity].
    destruct (ByoYomiMethod.byoMoments b =? 0).
    + destruct (timeMs _ <=? 0); reflexivity.
    + pose proof (consumeMoments_moves b (set_timeMs (timeMs p - deltaMs) p) false) as Hm.
      destruct (ByoYomiMethod.consumeMoments b (set_timeMs (timeMs p - deltaMs) p) false)
        as [p2 r | p2 me]; [exact Hm |].
      destruct (timeMs p2 <=? 0); [| destruct me]; exact Hm.
  - reflexivity.
Qed.

Lemma TimingMethod_onTurnStart_counts (m : TimingMethod) (p : PlayerState) :
  sameCounts p (snd (TimingMethodOps.onTurnStart m p)).
Proof.
  destruct m as [| f | b | u | b | c |]; split; reflexivity.
Qed.

Lemma TimingMethod_onTurnEnd_counts (m : TimingMethod) (p : PlayerState) :
  sameCounts p (snd (TimingMethodOps.onTurnEnd m p)).
Proof.
  destruct m as [| f | b | u | b | c |]; cbn [TimingMethodOps.onTurnEnd snd];
    try (split; reflexivity).
  - unfold FischerMethod.onTurnEnd.
    repeat match goal with |- context [if ?c then _ else _] => destruct c end;
      split; reflexivity.
  - unfold BronsteinDelayMethod.onTurnEnd. cbv zeta.
    repeat match goal with |- context [if ?c then _ else _] => destruct c end;
      split; reflexivity.
  - unfold ByoYomiMethod.onTurnEnd. cbv zeta.
    repeat match goal with |- context [if ?c then _ else _] => destruct c end;
      split; reflexivity.
Qed.

Lemma sameMatch_refl (g : GameState) : sameMatch g g.
Proof. repeat split. Qed.

Lemma sameMatch_trans (g1 g2 g3 : GameState) :
  sameMatch g1 g2 -> sameMatch g2 g3 -> sameMatch g1 g3.
Proof.
  unfold sameMatch. intros (A1 & A2 & A3 & A4) (B1 & B2 & B3 & B4).
  repeat split; congruence.
Qed.

Lemma sameMoves_refl (g : GameState) : sameMoves g g.
Proof. split; reflexivity. Qed.

Lemma sameMoves_trans (g1 g2 g3 : GameState) :
  sameMoves g1 g2 -> sameMoves g2 g3 -> sameMoves g1 g3.
Proof. unfold sameMoves. intros [A1 A2] [B1 B2]. split; congruence. Qed.

Lemma setPlayer_sameMatch (s : Player) (p : PlayerState) (g : GameState) :
  sameMatch g (GameStateOps.setPlayer s p g).
Proof. destruct s; repeat split. Qed.

Lemma setPlayer_sameMoves (s : Player) (p : PlayerState) (g : GameState) :
  moves p = moves (GameStateOps.getPlayer s g) ->
  sameMoves g (GameStateOps.setPlayer s p g).
Proof. destruct s; intros H; split; simpl; auto. Qed.

Lemma setPlayer_periods (s : Player) (p : PlayerState) (g : GameState) :
  currentPeriod p = currentPeriod (GameStateOps.getPlayer s g) ->
  periodsInRange g -> periodsInRange (GameStateOps.setPlayer s p g).
Proof.
  unfold periodsInRange. destruct s; simpl; intros ->; auto.
Qed.

Lemma transition_same (s : Player) (idx : Z) (old : option PeriodConfig)
    (newc : PeriodConfig) (g : GameState) (pm : PeriodManager) :
  let st := PeriodManagerOps._transitionPlayerToPeriod s idx old newc (g, pm) in
  sameMatch g (fst st) /\ sameMoves g (fst st).
Proof.
  unfold PeriodManagerOps._transitionPlayerToPeriod. cbv zeta. cbn [fst].
  split; [apply setPlayer_sameMatch |].
  apply setPlayer_sameMoves. destruct (method newc); reflexivity.
Qed.

Lemma ticked_moves (deltaMs : Z) (s : Player) (g : GameState) (pm : PeriodManager) :
  moves (ticked deltaMs s g pm) = moves (GameStateOps.getPlayer s g).
Proof.
  unfold ticked. destruct (PeriodManagerOps.getMethod s pm) as [m |];
    [apply TimingMethod_onTick_moves | reflexivity].
Qed.

(** A tick of the period manager that returns has kept everything of the
    match but the clocks, and the move counts of both clocks. *)
Lemma PeriodManager_onTick_same (deltaMs : Z) (s : Player) (now : Z)
    (g : GameState) (pm : PeriodManager) (g' : GameState) (pm' : PeriodManager)
    (r : PeriodResult) :
  PeriodManagerOps.onTick deltaMs s now (g, pm) = Normal (g', pm') r ->
  sameMatch g g' /\ sameMoves g g'.
Proof.
  intros Hout.
  pose proof (ticked_moves deltaMs s g pm) as Hmv.
  pose proof (PeriodManager_onTick_cases deltaMs s now g pm) as Hcases.
  cbv zeta in Hcases. rewrite Hout in Hcases. unfold afterMethodTick in Hcases.
  set (q := ticked deltaMs s g pm) in *.
  assert (sameMatch g (GameStateOps.setPlayer s q g) /\
          sameMoves g (GameStateOps.setPlayer s q g)) as [A0 B0].
  { split; [apply setPlayer_sameMatch | apply setPlayer_sameMoves; exact Hmv]. }
  assert (forall f, sameMatch g (GameStateOps.setPlayer s (PlayerStateOps.setFlag f now q)
                                   (GameStateOps.setPlayer s q g)) /\
                    sameMoves g (GameStateOps.setPlayer s (PlayerStateOps.setFlag f now q)
                                   (GameStateOps.setPlayer s q g))) as Hflag.
  { intros f. split.
    - eapply sameMatch_trans; [exact A0 | apply setPlayer_sameMatch].
    - eapply sameMoves_trans; [exact B0 |]. apply setPlayer_sameMoves.
      rewrite getPlayer_setPlayer. reflexivity. }
  destruct Hcases as [[_ E] | [E | [E | [(config & nextc & Hcfg & Hlt & Hat & Hend & E) | [E _]]]]];
    try discriminate E.
  - apply Normal_inv in E as [E _]. injection E as -> ->.
    split; [apply sameMatch_refl | apply sameMoves_refl].
  - apply Normal_inv in E as [E _]. injection E as -> ->. auto.
  - apply Normal_inv in E as [E _]. injection E as -> ->. apply Hflag.
  - destruct E as [E | [[Hne E] | [Heq E]]]; apply Normal_inv in E as [E _].
    + pose proof (transition_same s (currentPeriod q + 1)
                    (periodAt (periods config) (currentPeriod q)) nextc
                    (GameStateOps.setPlayer s q g) pm) as Hf.
      cbv zeta in Hf. rewrite <- E in Hf. cbn [fst] in Hf. destruct Hf as [A1 B1].
      split; [eapply sameMatch_trans | eapply sameMoves_trans]; eauto.
    + pose proof (transition_same s (currentPeriod q + 1)
                    (periodAt (periods config) (currentPeriod q)) nextc
                    (GameStateOps.setPlayer s (PlayerStateOps.setFlag NON_BLINKING now q)
                       (GameStateOps.setPlayer s q g)) pm) as Hf.
      cbv zeta in Hf. rewrite <- E in Hf. cbn [fst] in Hf. destruct Hf as [A1 B1].
      destruct (Hflag NON_BLINKING) as [A2 B2].
      split; [eapply sameMatch_trans | eapply sameMoves_trans]; eauto.
    + set (st2 := PeriodManagerOps._transitionPlayerToPeriod s (currentPeriod q + 1)
                    (periodAt (periods config) (currentPeriod q)) nextc
                    (GameStateOps.setPlayer s (PlayerStateOps.setFlag NON_BLINKING now q)
                       (GameStateOps.setPlayer s q g), pm)) in *.
      pose proof (transition_same s (currentPeriod q + 1)
                    (periodAt (periods config) (currentPeriod q)) nextc
                    (GameStateOps.setPlayer s (PlayerStateOps.setFlag NON_BLINKING now q)
                       (GameStateOps.setPlayer s q g)) pm) as Hf2.
      cbv zeta in Hf2. fold st2 in Hf2. destruct st2 as [g2 pm2]. cbn [fst] in Hf2.
      pose proof (transition_same (opposite s) (currentPeriod q + 1)
                    (periodAt (periods config) (currentPeriod q)) nextc g2 pm2) as Hf3.
      cbv zeta in Hf3. rewrite <- E in Hf3. cbn [fst] in Hf3.
      destruct Hf2 as [A2 B2]. destruct Hf3 as [A3 B3].
      destruct (Hflag NON_BLINKING) as [A1 B1].
      split; [eapply sameMatch_trans; [eapply sameMatch_trans |]
             | eapply sameMoves_trans; [eapply sameMoves_trans |]]; eauto.
Qed.

Lemma startEngine_running (perfNow handle : Z) (e : TimerEngine AppCallback) :
  _running (AppHandlers.startEngine perfNow handle e) = true.
Proof.
  unfold AppHandlers.startEngine, TimerEngineOps.start.
  destruct (_running e) eqn:E; simpl; [exact E | reflexivity].
Qed.

Lemma sameMatch_periods (g g' : GameState) :
  sameMatch g g' ->
  currentPeriod (left g') = currentPeriod (left g) ->
  currentPeriod (right g') = currentPeriod (right g) ->
  periodsInRange g -> periodsInRange g'.
Proof.
  intros (_ & _ & Hc & _) Hl Hr. unfold periodsInRange. rewrite Hc, Hl, Hr. auto.
Qed.

Lemma onTurnStart_same (s : Player) (g : GameState) (pm : PeriodManager) :
  let st := PeriodManagerOps.onTurnStart s (g, pm) in
  sameMatch g (fst st) /\ sameMoves g (fst st) /\
  currentPeriod (left (fst st)) = currentPeriod (left g) /\
  currentPeriod (right (fst st)) = currentPeriod (right g).
Proof.
  unfold PeriodManagerOps.onTurnStart. cbv zeta.
  destruct (PeriodManagerOps.getMethod s pm) as [m |];
    [| cbn [fst]; repeat split; reflexivity].
  pose proof (TimingMethod_onTurnStart_counts m (GameStateOps.getPlayer s g)) as [Hm Hc].
  destruct (TimingMethodOps.onTurnStart m (GameStateOps.getPlayer s g)) as [m' p'].
  cbn [fst snd] in *.
  split; [apply setPlayer_sameMatch |].
  split; [apply setPlayer_sameMoves; exact Hm |].
  destruct s; simpl in *; auto.
Qed.

Lemma onTurnEnd_same (s : Player) (g : GameState) (pm : PeriodManager) :
  let st := PeriodManagerOps.onTurnEnd s (g, pm) in
  sameMatch g (fst st) /\ sameMoves g (fst st) /\
  currentPeriod (left (fst st)) = currentPeriod (left g) /\
  currentPeriod (right (fst st)) = currentPeriod (right g).
Proof.
  unfold PeriodManagerOps.onTurnEnd. cbv zeta.
  destruct (PeriodManagerOps.getMethod s pm) as [m |];
    [| cbn [fst]; repeat split; reflexivity].
  pose proof (TimingMethod_onTurnEnd_counts m (GameStateOps.getPlayer s g)) as [Hm Hc].
  destruct (TimingMethodOps.onTurnEnd m (GameStateOps.getPlayer s g)) as [m' p'].
  cbn [fst snd] in *.
  split; [apply setPlayer_sameMatch |].
  split; [apply setPlayer_sameMoves; exact Hm |].
  destruct s; simpl in *; auto.
Qed.

Lemma startGame_facts (s : Player) (g : GameState) :
  let g' := GameStateOps.startGame s g in
  status g' = RUNNING /\ activePlayer g' = Some (opposite s) /\
  optionConfig g' = optionConfig g /\
  _preCorrectionStatus g' = _preCorrectionStatus g /\
  sameMoves g g' /\
  currentPeriod (left g') = currentPeriod (left g) /\
  currentPeriod (right g') = currentPeriod (right g).
Proof. destruct s; repeat split. Qed.

Lemma startMatch_inv (s : Player) (perfNow handle : Z) (a : App) :
  AppInv a -> AppInv (AppHandlers.startMatch s perfNow handle a).
Proof.
  intros (HE & HP & (HM1 & HM2 & HM3 & HM4) & HR).
  unfold AppHandlers.startMatch. cbv zeta.
  destruct (startGame_facts s (gameState a)) as (S1 & S2 & S3 & S4 & [S5 S6] & S7 & S8).
  rewrite S2. cbn [AppHandlers.onTurnStartOf].
  pose proof (onTurnStart_same (opposite s) (GameStateOps.startGame s (gameState a))
                (PeriodManagerOps.init (GameStateOps.startGame s (gameState a))
                   (periodManager a))) as Hst.
  cbv zeta in Hst.
  destruct (PeriodManagerOps.onTurnStart _ _) as [g2 pm2]. cbn [fst] in Hst.
  destruct Hst as ((T1 & T2 & T3 & T4) & [T5 T6] & T7 & T8).
  repeat split; cbn [gameState timerEngine moveCounter].
  - unfold engineFollowsStatus. cbn [gameState timerEngine]. rewrite T1, S1.
    split; [apply startEngine_running | rewrite T2, S2; discriminate].
  - unfold preCorrectionOk in *. rewrite T4, S4. exact HP.
  - congruence.
  - congruence.
  - rewrite T5, S5. exact HM3.
  - rewrite T6, S6. exact HM4.
  - unfold periodsInRange in *. rewrite T3, S3, T7, T8, S7, S8. exact HR.
Qed.

Lemma switchTurn_facts (s : Player) (g : GameState) :
  status g = RUNNING -> activePlayer g = Some s ->
  let g' := GameStateOps.switchTurn g in
  status g' = RUNNING /\ activePlayer g' = Some (opposite s) /\
  optionConfig g' = optionConfig g /\
  _preCorrectionStatus g' = _preCorrectionStatus g /\
  moves (GameStateOps.getPlayer s g') = moves (GameStateOps.getPlayer s g) + 1 /\
  moves (GameStateOps.getOpponent s g') = moves (GameStateOps.getOpponent s g) /\
  currentPeriod (left g') = currentPeriod (left g) /\
  currentPeriod (right g') = currentPeriod (right g).
Proof.
  intros Hs Ha. unfold GameStateOps.switchTurn. rewrite Hs, Ha.
  destruct s; simpl; rewrite ?Ha; repeat split; auto.
Qed.

Lemma _switchTurn_inv (a : App) :
  AppInv a -> status (gameState a) = RUNNING -> AppInv (AppHandlers._switchTurn a).
Proof.
  intros (HE & HP & (HM1 & HM2 & HM3 & HM4) & HR) Hs.
  unfold engineFollowsStatus in HE. rewrite Hs in HE. destruct HE as [Hrun Hact].
  destruct (activePlayer (gameState a)) as [s |] eqn:Ha; [| contradiction].
  unfold AppHandlers._switchTurn. cbv zeta. rewrite Ha.
  cbn [AppHandlers.onTurnEndOf AppHandlers.recordMoveOf].
  pose proof (onTurnEnd_same s (gameState a) (periodManager a)) as He. cbv zeta in He.
  destruct (PeriodManagerOps.onTurnEnd s (gameState a, periodManager a)) as [g1 pm1].
  cbn [fst] in He. destruct He as ((E1 & E2 & E3 & E4) & [E5 E6] & E7 & E8).
  destruct (switchTurn_facts s g1 ltac:(congruence) ltac:(congruence))
    as (W1 & W2 & W3 & W4 & W5 & W6 & W7 & W8).
  rewrite W2. cbn [AppHandlers.onTurnStartOf].
  pose proof (onTurnStart_same (opposite s) (GameStateOps.switchTurn g1) pm1) as Hst.
  cbv zeta in Hst.
  destruct (PeriodManagerOps.onTurnStart (opposite s) (GameStateOps.switchTurn g1, pm1))
    as [g3 pm3].
  cbn [fst] in Hst. destruct Hst as ((T1 & T2 & T3 & T4) & [T5 T6] & T7 & T8).
  repeat split; cbn [gameState timerEngine moveCounter].
  - unfold engineFollowsStatus. cbn [gameState timerEngine]. rewrite T1, W1.
    split; [exact Hrun | rewrite T2, W2; discriminate].
  - unfold preCorrectionOk in *. rewrite T4, W4, E4. exact HP.
  - rewrite T5. destruct s; cbn [MoveCounterOps.recordMove leftMoves rightMoves
                                   GameStateOps.getPlayer GameStateOps.getOpponent] in *;
      congruence.
  - rewrite T6. destruct s; cbn [MoveCounterOps.recordMove leftMoves rightMoves
                                   GameStateOps.getPlayer GameStateOps.getOpponent] in *;
      congruence.
  - rewrite T5. destruct s; cbn [GameStateOps.getPlayer GameStateOps.getOpponent] in *; lia.
  - rewrite T6. destruct s; cbn [GameStateOps.getPlayer GameStateOps.getOpponent] in *; lia.
  - unfold periodsInRange in *. rewrite T3, W3, E3, T7, T8, W7, W8, E7, E8. exact HR.
Qed.

Lemma _handleClockTap_inv (s : Player) (perfNow handle : Z) (a : App) :
  AppInv a -> AppInv (AppHandlers._handleClockTap s perfNow handle a).
Proof.
  intros H. unfold AppHandlers._handleClockTap.
  destruct (status (gameState a)) eqn:Hs; auto.
  - apply startMatch_inv; exact H.
  - destruct (decide _); [apply _switchTurn_inv |]; auto.
Qed.

Lemma _handleSwitchTurn_inv (perfNow handle : Z) (a : App) :
  AppInv a -> AppInv (AppHandlers._handleSwitchTurn perfNow handle a).
Proof.
  intros H. unfold AppHandlers._handleSwitchTurn.
  destruct (status (gameState a)) eqn:Hs; auto.
  - apply startMatch_inv; exact H.
  - apply _switchTurn_inv; auto.
Qed.

Lemma set_status_inv (st : GameStatus) (e : TimerEngine AppCallback) (a : App) :
  AppInv a -> status (gameState a) <> IDLE ->
  match st with
  | RUNNING => _running e = true
  | IDLE => True
  | _ => _running e = false
  end ->
  AppInv (mkApp (set_status st (gameState a)) e (periodManager a) (moveCounter a)).
Proof.
  intros (HE & HP & HM & HR) Hs He.
  assert (activePlayer (gameState a) <> None) as Hact.
  { unfold engineFollowsStatus in HE. destruct (status (gameState a)); tauto. }
  repeat split; try apply HM; cbn [gameState timerEngine moveCounter].
  - unfold engineFollowsStatus. cbn [gameState timerEngine set_status status activePlayer].
    destruct st; auto.
  - exact HP.
  - exact HR.
Qed.

Lemma _handleTogglePause_inv (perfNow handle : Z) (a : App) :
  AppInv a -> AppInv (AppHandlers._handleTogglePause perfNow handle a).
Proof.
  intros H. unfold AppHandlers._handleTogglePause.
  destruct (status (gameState a)) eqn:Hs; auto.
  - unfold GameStateOps.pause. rewrite Hs.
    apply set_status_inv; [exact H | congruence | apply stopEngine_not_running].
  - unfold GameStateOps.resume. rewrite Hs.
    apply set_status_inv; [exact H | congruence | apply startEngine_running].
Qed.

Lemma AppInv_same (a : App) (g' : GameState) (pm' : PeriodManager) :
  AppInv a -> sameMatch (gameState a) g' -> sameMoves (gameState a) g' ->
  periodsInRange g' ->
  AppInv (mkApp g' (timerEngine a) pm' (moveCounter a)).
Proof.
  intros (HE & HP & (HM1 & HM2 & HM3 & HM4) & HR) (S1 & S2 & S3 & S4) [M1 M2] HR'.
  repeat split; cbn [gameState timerEngine moveCounter]; try congruence.
  - unfold engineFollowsStatus in *. cbn [gameState timerEngine]. rewrite S1, S2. exact HE.
  - unfold preCorrectionOk in *. rewrite S4. exact HP.
Qed.

Lemma _onTick_inv (deltaMs now : Z) (a : App) :
  AppInv a -> exists a', AppOps._onTick deltaMs now a = Normal a' tt /\ AppInv a'.
Proof.
  intros H. unfold AppOps._onTick. cbv zeta.
  destruct (status (gameState a)) eqn:Hs; try (exists a; split; [reflexivity | exact H]).
  destruct (activePlayer (gameState a)) as [s |] eqn:Ha;
    [| exists a; split; [reflexivity | exact H]].
  pose proof H as (HE & HP & HM & HR).
  destruct (PeriodManager_onTick_in_range deltaMs s now (gameState a) (periodManager a) HR)
    as (g1 & pm1 & r & E & HR1 & _).
  rewrite E.
  destruct (PeriodManager_onTick_same _ _ _ _ _ _ _ _ E) as [Hsame Hmoves].
  destruct (expiredResult r);
    [| eexists; split; [reflexivity | apply AppInv_same; assumption]].
  set (gs2 := if decide (flagState (GameStateOps.getPlayer s g1) = NONE)
              then GameStateOps.setPlayer s
                     (PlayerStateOps.setFlag BLINKING now (GameStateOps.getPlayer s g1)) g1
              else g1).
  assert (sameMatch (gameState a) gs2 /\ sameMoves (gameState a) gs2 /\ periodsInRange gs2)
    as (A & B & C).
  { unfold gs2. destruct (decide _); [| auto].
    split; [eapply sameMatch_trans; [exact Hsame | apply setPlayer_sameMatch] |].
    split; [eapply sameMoves_trans; [exact Hmoves | apply setPlayer_sameMoves; reflexivity] |].
    apply setPlayer_periods; [reflexivity | exact HR1]. }
  pose proof (AppInv_same a gs2 pm1 H A B C) as Hinv2.
  destruct (freezeEnabled gs2 && GameStateOps.isInFinalPeriod s gs2);
    [| eexists; split; [reflexivity | exact Hinv2]].
  eexists. split; [reflexivity |].
  assert (status gs2 = RUNNING) as Hs2 by (destruct A as [A1 _]; congruence).
  unfold GameStateOps.freeze. rewrite Hs2.
  apply (set_status_inv FROZEN (AppOps.stopEngine (timerEngine a))
           (mkApp gs2 (timerEngine a) pm1 (moveCounter a)) Hinv2).
  - cbn [gameState]. congruence.
  - apply stopEngine_not_running.
Qed.

Lemma initGame_facts (config : OptionConfig) (g : GameState) :
  periods config <> [] ->
  exists g',
    GameStateOps.initGame config g = Normal g' tt /\
    status g' = IDLE /\ activePlayer g' = None /\ optionConfig g' = Some config /\
    _preCorrectionStatus g' = _preCorrectionStatus g /\
    selectedOption g' = selectedOption g /\
    moves (left g') = 0 /\ moves (right g') = 0 /\
    currentPeriod (left g') = 0 /\ currentPeriod (right g') = 0.
Proof.
  intros Hne. unfold GameStateOps.initGame. cbv zeta.
  destruct (periods config) as [| firstPeriod rest]; [contradiction |].
  eexists. split; [reflexivity |]. repeat split.
Qed.

Lemma _selectOption_inv (config : OptionConfig) (optionNumber : Z) (a : App) :
  periods config <> [] -> preCorrectionOk (gameState a) ->
  exists a',
    AppHandlers._selectOption config optionNumber a = Normal a' tt /\ AppInv a' /\
    status (gameState a') = IDLE /\ optionConfig (gameState a') = Some config /\
    selectedOption (gameState a') = optionNumber.
Proof.
  intros Hne HP. unfold AppHandlers._selectOption.
  destruct (initGame_facts config (set_selectedOption optionNumber (gameState a)) Hne)
    as (g' & -> & F1 & F2 & F3 & F4 & F5 & F6 & F7 & F8 & F9).
  eexists. split; [reflexivity |].
  assert (1 <= Z.of_nat (length (periods config))) as Hlen.
  { destruct (periods config); [contradiction | simpl length; lia]. }
  repeat split; cbn [gameState timerEngine moveCounter MoveCounterOps.reset leftMoves
                      rightMoves]; try congruence; try lia.
  - unfold engineFollowsStatus. cbn [gameState]. rewrite F1. exact I.
  - unfold preCorrectionOk in *. rewrite F4. exact HP.
  - unfold periodsInRange. rewrite F3, F8, F9. lia.
  - rewrite F5. reflexivity.
Qed.

Lemma presets_have_periods :
  List.Forall (fun p => periods (Presets.config p) <> []) Presets.presets.
Proof. repeat constructor; discriminate. Qed.

Lemma getPreset_periods (n : Z) (c : OptionConfig) :
  Presets.getPreset n = Some c -> periods c <> [].
Proof.
  unfold Presets.getPreset. intros H.
  destruct (find (fun p => Presets.id p =? n) Presets.presets) as [p |] eqn:E;
    [| discriminate H].
  injection H as <-. apply List.find_some in E as [Hin _].
  exact (proj1 (List.Forall_forall _ _) presets_have_periods p Hin).
Qed.

Lemma getPreset_some_iff (n : Z) :
  (exists c, Presets.getPreset n = Some c) <-> 1 <= n <= Limits.TOTAL_PRESETS.
Proof.
  unfold Limits.TOTAL_PRESETS. split.
  - intros [c H]. unfold Presets.getPreset in H.
    destruct (find (fun p => Presets.id p =? n) Presets.presets) as [p |] eqn:E;
      [| discriminate H].
    apply List.find_some in E as [Hin Hid]. apply Z.eqb_eq in Hid. subst n.
    assert (List.Forall (fun p => 1 <= Presets.id p <= 26) Presets.presets) as Hall.
    { repeat constructor; cbn; lia. }
    exact (proj1 (List.Forall_forall _ _) Hall p Hin).
  - intros Hn.
    assert (n = 1 \/ n = 2 \/ n = 3 \/ n = 4 \/ n = 5 \/ n = 6 \/ n = 7 \/ n = 8 \/ n = 9 \/
            n = 10 \/ n = 11 \/ n = 12 \/ n = 13 \/ n = 14 \/ n = 15 \/ n = 16 \/ n = 17 \/
            n = 18 \/ n = 19 \/ n = 20 \/ n = 21 \/ n = 22 \/ n = 23 \/ n = 24 \/ n = 25 \/
            n = 26) as Hcases by lia.
    repeat (destruct Hcases as [-> | Hcases]; [eexists; reflexivity |]).
    subst n. eexists; reflexivity.
Qed.

Lemma loadCustomOptions_valid (parsed : option (list StoredSlot)) :
  length (StorageManager.loadCustomOptions parsed) = 5%nat /\
  List.Forall (fun o => match o with Some c => periods c <> [] | None => True end)
    (StorageManager.loadCustomOptions parsed).
Proof.
  unfold StorageManager.loadCustomOptions, Limits.MAX_MANUAL_OPTIONS.
  destruct parsed as [l |]; [| split; [reflexivity | repeat constructor]].
  split.
  - rewrite length_map, length_take, length_app, length_replicate. lia.
  - apply List.Forall_forall. intros o Hin. apply List.in_map_iff in Hin as (slot & <- & _).
    destruct slot as [| | c]; auto. destruct (periods c) eqn:E; [auto | congruence].
Qed.

Lemma loadCustomOption_periods (slot : Z) (parsed : option (list StoredSlot))
    (c : OptionConfig) :
  StorageManager.loadCustomOption slot parsed = Some c -> periods c <> [].
Proof.
  unfold StorageManager.loadCustomOption.
  destruct ((slot <? 0) || (Limits.MAX_MANUAL_OPTIONS <=? slot)); [discriminate |].
  destruct (StorageManager.loadCustomOptions parsed !! Z.to_nat slot) as [[c' |] |] eqn:E;
    try discriminate.
  intros H. injection H as <-.
  destruct (loadCustomOptions_valid parsed) as [_ Hall].
  apply (proj1 (List.Forall_forall _ _) Hall (Some c')).
  apply list_elem_of_In. eapply list_elem_of_lookup_2. exact E.
Qed.

Lemma _quickPreset_inv (num : Z) (settingsVisible : bool) (a : App) :
  AppInv a ->
  exists a', AppHandlers._quickPreset num settingsVisible a = Normal a' tt /\ AppInv a'.
Proof.
  intros H. unfold AppHandlers._quickPreset.
  destruct (status (gameState a)); try (exists a; split; [reflexivity | exact H]).
  destruct settingsVisible; [exists a; split; [reflexivity | exact H] |].
  destruct (Presets.getPreset num) as [preset |] eqn:E;
    [| exists a; split; [reflexivity | exact H]].
  destruct (_selectOption_inv preset num a (getPreset_periods _ _ E) (proj1 (proj2 H)))
    as (a' & E' & Hinv & _).
  exists a'. auto.
Qed.

Lemma _loadOption_inv (optionNumber : Z) (parsed : option (list StoredSlot)) (a : App) :
  preCorrectionOk (gameState a) ->
  exists a' config n,
    AppHandlers._loadOption optionNumber parsed a = Normal a' tt /\ AppInv a' /\
    status (gameState a') = IDLE /\ optionConfig (gameState a') = Some config /\
    selectedOption (gameState a') = n /\
    ((1 <= optionNumber <= Limits.TOTAL_PRESETS /\ n = optionNumber /\
      Presets.getPreset optionNumber = Some config)
     \/ (Limits.MANUAL_OPTION_START <= optionNumber <= Limits.MANUAL_OPTION_END /\
         n = optionNumber /\
         StorageManager.loadCustomOption (optionNumber - Limits.MANUAL_OPTION_START) parsed
           = Some config)
     \/ (n = 1 /\ Presets.getPreset 1 = Some config)).
Proof.
  intros HP.
  assert (exists a' config,
            match Presets.getPreset 1 with
            | Some preset => AppHandlers._selectOption preset 1 a
            | None => Normal a tt
            end = Normal a' tt /\ AppInv a' /\
            status (gameState a') = IDLE /\ optionConfig (gameState a') = Some config /\
            selectedOption (gameState a') = 1 /\ Presets.getPreset 1 = Some config)
    as (af & cf & Ef & Hf1 & Hf2 & Hf3 & Hf4 & Hf5).
  { destruct (proj2 (getPreset_some_iff 1) ltac:(unfold Limits.TOTAL_PRESETS; lia))
      as [c1 E1].
    rewrite E1.
    destruct (_selectOption_inv c1 1 a (getPreset_periods _ _ E1) HP)
      as (a' & E' & Hinv & Hs & Hc & Hn).
    exists a', c1. repeat (split; [solve [auto] |]); auto. }
  assert (exists a' config n,
            (if (Limits.MANUAL_OPTION_START <=? optionNumber)
                && (optionNumber <=? Limits.MANUAL_OPTION_END)
             then
               match StorageManager.loadCustomOption
                       (optionNumber - Limits.MANUAL_OPTION_START) parsed with
               | Some custom => AppHandlers._selectOption custom optionNumber a
               | None =>
                   match Presets.getPreset 1 with
                   | Some preset => AppHandlers._selectOption preset 1 a
                   | None => Normal a tt
                   end
               end
             else
               match Presets.getPreset 1 with
               | Some preset => AppHandlers._selectOption preset 1 a
               | None => Normal a tt
               end) = Normal a' tt /\ AppInv a' /\
            status (gameState a') = IDLE /\ optionConfig (gameState a') = Some config /\
            selectedOption (gameState a') = n /\
            ((Limits.MANUAL_OPTION_START <= optionNumber <= Limits.MANUAL_OPTION_END /\
              n = optionNumber /\
              StorageManager.loadCustomOption (optionNumber - Limits.MANUAL_OPTION_START)
                parsed = Some config)
             \/ (n = 1 /\ Presets.getPreset 1 = Some config)))
    as (am & cm & nm & Em & Hm1 & Hm2 & Hm3 & Hm4 & Hm5).
  { destruct (Z.leb_spec Limits.MANUAL_OPTION_START optionNumber);
      destruct (Z.leb_spec optionNumber Limits.MANUAL_OPTION_END); cbn [andb];
      try (exists af, cf, 1; repeat (split; [solve [auto] |]); auto; fail).
    destruct (StorageManager.loadCustomOption _ parsed) as [custom |] eqn:Ec;
      [| exists af, cf, 1; repeat (split; [solve [auto] |]); auto].
    destruct (_selectOption_inv custom optionNumber a (loadCustomOption_periods _ _ _ Ec) HP)
      as (a' & E' & Hinv & Hs & Hc & Hn).
    exists a', custom, optionNumber. repeat (split; [solve [auto] |]); auto. }
  unfold AppHandlers._loadOption. cbv zeta.
  destruct (Z.leb_spec 1 optionNumber);
    destruct (Z.leb_spec optionNumber Limits.TOTAL_PRESETS); cbn [andb];
    try (exists am, cm, nm; repeat (split; [solve [auto] |]); tauto).
  destruct (Presets.getPreset optionNumber) as [preset |] eqn:E;
    [| exists am, cm, nm; repeat (split; [solve [auto] |]); tauto].
  destruct (_selectOption_inv preset optionNumber a (getPreset_periods _ _ E) HP)
    as (a' & E' & Hinv & Hs & Hc & Hn).
  exists a', preset, optionNumber. repeat (split; [solve [auto] |]); auto.
Qed.

Lemma exitCorrectionMode_inv (a : App) :
  AppInv a ->
  AppInv (AppHandlers.set_gameState (GameStateOps.exitCorrectionMode (gameState a)) a).
Proof.
  intros H. pose proof H as (HE & HP & HM & HR).
  unfold GameStateOps.exitCorrectionMode, AppHandlers.set_gameState.
  destruct (status (gameState a)) eqn:Hs; try (destruct a as [g e pm mc]; exact H).
  unfold engineFollowsStatus in HE. rewrite Hs in HE. destruct HE as [Hrun Hact].
  repeat split; try apply HM; cbn [gameState timerEngine moveCounter].
  - unfold engineFollowsStatus.
    cbn [gameState timerEngine set__preCorrectionStatus set_status status activePlayer].
    destruct HP as [-> | [-> | ->]]; cbn; auto.
  - left. reflexivity.
  - exact HR.
Qed.

Lemma applyCorrection_inv (c : Corrected) (a : App) :
  AppInv a -> 0 <= c_leftMoves c -> 0 <= c_rightMoves c ->
  AppInv (AppOps.applyCorrection c a).
Proof.
  intros H Hl Hr. pose proof H as (HE & HP & HM & HR).
  destruct (periodsInRange_inv _ HR) as (config & Hcfg & Hlp & Hrp).
  set (maxPeriod := Z.of_nat (length (periods config)) - 1).
  set (l := set_currentPeriod (Z.max 0 (Z.min (c_leftPeriod c) maxPeriod))
              (set_moves (c_leftMoves c) (set_timeMs (c_leftTimeMs c) (left (gameState a))))).
  set (r := set_currentPeriod (Z.max 0 (Z.min (c_rightPeriod c) maxPeriod))
              (set_moves (c_rightMoves c)
                 (set_timeMs (c_rightTimeMs c) (right (gameState a))))).
  set (gs2 := set_right r (set_left l (gameState a))).
  assert (exists pm2,
            AppOps.applyCorrection c a
            = AppHandlers.set_gameState (GameStateOps.exitCorrectionMode gs2)
                (mkApp gs2 (timerEngine a) pm2
                   (MoveCounterOps.setMoves RIGHT (c_rightMoves c)
                      (MoveCounterOps.setMoves LEFT (c_leftMoves c) (moveCounter a)))))
    as [pm2 ->].
  { unfold AppOps.applyCorrection. cbv zeta. cbn [optionConfig set_right set_left].
    rewrite Hcfg. eexists. reflexivity. }
  match goal with
  | |- AppInv (AppHandlers.set_gameState _ ?x) => apply (exitCorrectionMode_inv x)
  end.
  repeat split; cbn [gameState timerEngine moveCounter].
  - exact HE.
  - exact HP.
  - cbn. lia.
  - cbn. lia.
  - exact Hl.
  - exact Hr.
  - unfold periodsInRange. cbn [gs2 optionConfig set_right set_left]. rewrite Hcfg.
    cbn. unfold maxPeriod in *. lia.
Qed.

Lemma adjustValues_moves (f : Field.t) (delta : Z) (v : Values.t) :
  0 <= Values.leftMoves v -> 0 <= Values.rightMoves v ->
  0 <= Values.leftMoves (CorrectionModeOps.adjustValues f delta v) /\
  0 <= Values.rightMoves (CorrectionModeOps.adjustValues f delta v).
Proof.
  intros Hl Hr. destruct f as [[] []]; unfold CorrectionModeOps.adjustValues; cbn; lia.
Qed.

Lemma overlayStep_moves (o : OverlayOp) (cm : CorrectionMode ApplyCallback CancelCallback) :
  overlayMovesOk cm -> opInRange o ->
  exists cm', overlayStep o cm = Normal cm' tt /\ overlayMovesOk cm'.
Proof.
  intros Hok Hin. unfold overlayMovesOk in *.
  destruct (_active cm) eqn:Hact.
  2:{ destruct o; cbn [overlayStep]; unfold CorrectionModeOps.nextField,
        CorrectionModeOps.prevField, CorrectionModeOps.increment,
        CorrectionModeOps.decrement, CorrectionModeOps.selectField; rewrite ?Hact;
        eexists; (split; [reflexivity |]); cbn [_active]; congruence. }
  destruct (Hok eq_refl) as (Hidx & v & Hv & Hl & Hr).
  destruct o as [| | | | i]; cbn [overlayStep].
  - unfold CorrectionModeOps.nextField. rewrite Hact. eexists. split; [reflexivity |].
    intros _. cbn [_activeFieldIndex _values]. split; [apply rem_FIELDS; lia |]. eauto.
  - unfold CorrectionModeOps.prevField. rewrite Hact. eexists. split; [reflexivity |].
    intros _. cbn [_activeFieldIndex _values]. split; [apply rem_FIELDS; lia |]. eauto.
  - unfold CorrectionModeOps.increment, CorrectionModeOps._adjustField. rewrite Hact.
    destruct (fieldAt_in_range _ Hidx) as [f ->]. rewrite Hv.
    eexists. split; [reflexivity |]. intros _. cbn [_activeFieldIndex _values].
    split; [exact Hidx |]. eexists. split; [reflexivity |].
    apply adjustValues_moves; assumption.
  - unfold CorrectionModeOps.decrement, CorrectionModeOps._adjustField. rewrite Hact.
    destruct (fieldAt_in_range _ Hidx) as [f ->]. rewrite Hv.
    eexists. split; [reflexivity |]. intros _. cbn [_activeFieldIndex _values].
    split; [exact Hidx |]. eexists. split; [reflexivity |].
    apply adjustValues_moves; assumption.
  - eexists. split; [reflexivity |]. unfold CorrectionModeOps.selectField.
    intros _. cbn [_activeFieldIndex _values]. cbn [opInRange] in Hin.
    split; [exact Hin |]. eauto.
Qed.

Lemma exit_overlayMovesOk (cm : CorrectionMode ApplyCallback CancelCallback) :
  overlayMovesOk (CorrectionModeOps.exit cm).
Proof. unfold overlayMovesOk, CorrectionModeOps.exit. cbn. discriminate. Qed.

Lemma overlaySave_inv (u : AppUi) : Inv u -> Inv (AppHandlers.overlaySave u).
Proof.
  intros [Ha Ho]. unfold AppHandlers.overlaySave, CorrectionModeOps.save.
  destruct (_active (correctionMode u)) eqn:Hact; [| split; assumption].
  split; cbn [app correctionMode]; [| apply exit_overlayMovesOk].
  destruct (Ho Hact) as (_ & v & Hv & Hl & Hr). rewrite Hv.
  destruct (_onSave (correctionMode u)) as [[] |]; cbn [AppHandlers.runSave]; [| exact Ha].
  apply applyCorrection_inv; assumption.
Qed.

Lemma overlayCancel_inv (u : AppUi) : Inv u -> Inv (AppHandlers.overlayCancel u).
Proof.
  intros [Ha Ho]. unfold AppHandlers.overlayCancel, CorrectionModeOps.cancel.
  split; cbn [app correctionMode]; [| apply exit_overlayMovesOk].
  destruct (_onCancel (correctionMode u)) as [[] |]; cbn [AppHandlers.runCancel];
    [| exact Ha].
  apply exitCorrectionMode_inv; exact Ha.
Qed.

Lemma _enterCorrection_inv (u : AppUi) : Inv u -> Inv (AppHandlers._enterCorrection u).
Proof.
  intros [Ha Ho]. pose proof Ha as (HE & HP & HM & HR).
  unfold AppHandlers._enterCorrection. cbv zeta.
  unfold engineFollowsStatus in HE.
  destruct (status (gameState (app u))) eqn:Hs; try (split; assumption);
    unfold GameStateOps.enterCorrectionMode; rewrite Hs;
    (split; cbn [app correctionMode];
     [ split; [| split; [| split]];
       [ unfold engineFollowsStatus; cbn; exact HE
       | unfold preCorrectionOk; cbn; auto
       | exact HM
       | exact HR ]
     | unfold overlayMovesOk, CorrectionModeOps.enter; intros _;
       destruct (CorrectionModeOps._msToComponents _) as [[lh lm] ls];
       destruct (CorrectionModeOps._msToComponents _) as [[rh rm] rs];
       cbn; split; [lia |]; eexists; split; [reflexivity |]; split; apply HM ]).
Qed.

Lemma pauseAndStop_inv (a : App) :
  AppInv a -> status (gameState a) = RUNNING ->
  AppInv (mkApp (GameStateOps.pause (gameState a)) (AppOps.stopEngine (timerEngine a))
            (periodManager a) (moveCounter a)).
Proof.
  intros H Hs. unfold GameStateOps.pause. rewrite Hs.
  apply set_status_inv; [exact H | congruence | apply stopEngine_not_running].
Qed.

Lemma _openSettings_inv (u : AppUi) : Inv u -> Inv (AppHandlers._openSettings u).
Proof.
  intros [Ha Ho]. unfold AppHandlers._openSettings. cbv zeta.
  assert (app (if _resetPending u then AppHandlers._cancelResetConfirmation u else u) = app u
          /\ correctionMode (if _resetPending u then AppHandlers._cancelResetConfirmation u
                             else u) = correctionMode u) as [-> Ec].
  { destruct (_resetPending u); split; reflexivity. }
  destruct (status (gameState (app u))) eqn:Hs;
    try (split; [destruct (_resetPending u); exact Ha | rewrite Ec; exact Ho]).
  split; cbn [AppHandlers.set_app app correctionMode]; [| rewrite Ec; exact Ho].
  apply pauseAndStop_inv; assumption.
Qed.

Lemma set_gameState_inv (g' : GameState) (a : App) :
  AppInv a -> sameMatch (gameState a) g' -> left g' = left (gameState a) ->
  right g' = right (gameState a) ->
  AppInv (AppHandlers.set_gameState g' a).
Proof.
  intros H Hsame Hl Hr. unfold AppHandlers.set_gameState.
  apply AppInv_same; auto.
  - split; congruence.
  - destruct H as (_ & _ & _ & HR). destruct Hsame as (_ & _ & Hc & _).
    unfold periodsInRange in *. rewrite Hc, Hl, Hr. exact HR.
Qed.

Lemma _toggleSound_inv (a : App) : AppInv a -> AppInv (AppHandlers._toggleSound a).
Proof.
  intros H. unfold AppHandlers._toggleSound.
  apply set_gameState_inv; auto. repeat split.
Qed.

Lemma _toggleFreeze_inv (a : App) : AppInv a -> AppInv (AppHandlers._toggleFreeze a).
Proof.
  intros H. unfold AppHandlers._toggleFreeze, GameStateOps.toggleFreeze.
  destruct (hasBeenStarted (gameState a)); cbn [fst];
    apply set_gameState_inv; auto; repeat split.
Qed.

Lemma _confirmReset_inv (u : AppUi) :
  Inv u -> exists u', AppHandlers._confirmReset u = Normal u' tt /\ Inv u'.
Proof.
  intros [Ha Ho]. pose proof Ha as (HE & HP & HM & HR).
  unfold AppHandlers._confirmReset. cbv zeta.
  assert (exists u',
            (if _resetPending u then
               match GameStateOps.reset (gameState (app u)) with
               | Normal gs1 _ =>
                   Normal (AppHandlers.set_app
                             (mkApp gs1 (AppOps.stopEngine (timerEngine (app u)))
                                (periodManager (app u))
                                (MoveCounterOps.reset (moveCounter (app u))))
                             (AppHandlers._cancelResetConfirmation u)) tt
               | Throw gs1 =>
                   Throw (AppHandlers.set_app
                            (mkApp gs1 (AppOps.stopEngine (timerEngine (app u)))
                               (periodManager (app u)) (moveCounter (app u)))
                            (AppHandlers._cancelResetConfirmation u))
               end
             else Normal (mkAppUi (app u) (correctionMode u) true) tt) = Normal u' tt
            /\ Inv u') as Hgo.
  { destruct (_resetPending u); [| eexists; split; [reflexivity | split; assumption]].
    destruct (periodsInRange_inv _ HR) as (config & Hcfg & Hlp & _).
    unfold GameStateOps.reset. rewrite Hcfg.
    assert (periods config <> []) as Hne.
    { intros E. rewrite E in Hlp. simpl in Hlp. lia. }
    destruct (initGame_facts config (gameState (app u)) Hne)
      as (g' & -> & F1 & F2 & F3 & F4 & F5 & F6 & F7 & F8 & F9).
    eexists. split; [reflexivity |].
    split; cbn [AppHandlers.set_app AppHandlers._cancelResetConfirmation app correctionMode];
      [| exact Ho].
    assert (1 <= Z.of_nat (length (periods config))) as Hlen.
    { destruct (periods config); [contradiction | simpl length; lia]. }
    split; [| split; [| split]].
    - unfold engineFollowsStatus. cbn [gameState]. rewrite F1. exact I.
    - unfold preCorrectionOk in *. cbn [gameState]. rewrite F4. exact HP.
    - unfold movesInSync. cbn [gameState moveCounter MoveCounterOps.reset leftMoves
                                 rightMoves]. rewrite F6, F7. lia.
    - unfold periodsInRange. cbn [gameState]. rewrite F3, F8, F9. lia. }
  destruct (status (gameState (app u))); try exact Hgo.
  eexists. split; [reflexivity | split; assumption].
Qed.

Lemma _handleNav_inv (direction : Direction) (u : AppUi) :
  Inv u -> exists u', AppHandlers._handleNav direction u = Normal u' tt /\ Inv u'.
Proof.
  intros [Ha Ho]. unfold AppHandlers._handleNav.
  destruct (CorrectionModeOps.isActive (correctionMode u));
    [| eexists; split; [reflexivity | split; assumption]].
  assert (exists o, opInRange o /\
            match direction with
            | navLeft => overlayStep opPrev (correctionMode u)
            | navRight => overlayStep opNext (correctionMode u)
            | navUp => overlayStep opIncrement (correctionMode u)
            | navDown => overlayStep opDecrement (correctionMode u)
            end = overlayStep o (correctionMode u)) as (o & Hin & ->).
  { destruct direction; eexists; (split; [| reflexivity]); exact I. }
  destruct (overlayStep_moves o (correctionMode u) Ho Hin) as (cm' & -> & Ho').
  eexists. split; [reflexivity |]. split; assumption.
Qed.

Lemma _handleEscape_inv (settingsVisible : bool) (perfNow handle : Z) (u : AppUi) :
  Inv u -> Inv (AppHandlers._handleEscape settingsVisible perfNow handle u).
Proof.
  intros Hu. pose proof Hu as [Ha Ho]. unfold AppHandlers._handleEscape.
  destruct (_resetPending u); [split; assumption |].
  destruct (CorrectionModeOps.isActive (correctionMode u)).
  - destruct (overlayCancel_inv u Hu) as [Ha1 Ho1].
    split; cbn [AppHandlers.set_app app correctionMode]; [| exact Ho1].
    apply exitCorrectionMode_inv; exact Ha1.
  - destruct settingsVisible; [exact Hu |].
    destruct (status (gameState (app u))); try exact Hu.
    split; cbn [AppHandlers.set_app app correctionMode]; [| exact Ho].
    apply _handleTogglePause_inv; exact Ha.
Qed.

(** Every handler keeps what holds between the events, and returns. *)
Lemma step_inv (ev : Event) (u : AppUi) :
  Inv u -> eventOk ev -> exists u', step ev u = Normal u' tt /\ Inv u'.
Proof.
  intros Hu Hev. pose proof Hu as [Ha Ho].
  destruct ev; cbn [step eventOk] in *.
  - eexists. split; [reflexivity |]. split; [apply _handleClockTap_inv |]; assumption.
  - eexists. split; [reflexivity |]. split; [apply _handleSwitchTurn_inv |]; assumption.
  - eexists. split; [reflexivity |]. split; [apply _handleTogglePause_inv |]; assumption.
  - destruct (_onTick_inv deltaMs now (app u) Ha) as (a' & -> & Ha').
    eexists. split; [reflexivity |]. split; assumption.
  - eexists. split; [reflexivity |]. apply _openSettings_inv; exact Hu.
  - destruct (_selectOption_inv config optionNumber (app u) Hev (proj1 (proj2 Ha)))
      as (a' & -> & Ha' & _).
    eexists. split; [reflexivity |]. split; assumption.
  - destruct (_quickPreset_inv num settingsVisible (app u) Ha) as (a' & -> & Ha').
    eexists. split; [reflexivity |]. split; assumption.
  - eexists. split; [reflexivity |]. split; [apply _toggleSound_inv |]; assumption.
  - eexists. split; [reflexivity |]. split; [apply _toggleFreeze_inv |]; assumption.
  - apply _confirmReset_inv; exact Hu.
  - eexists. split; [reflexivity |]. split; assumption.
  - eexists. split; [reflexivity |]. apply _handleEscape_inv; exact Hu.
  - apply _handleNav_inv; exact Hu.
  - eexists. split; [reflexivity |]. apply _enterCorrection_inv; exact Hu.
  - destruct (CorrectionModeOps.isActive (correctionMode u));
      [| eexists; split; [reflexivity | exact Hu]].
    destruct (overlayStep_moves op (correctionMode u) Ho Hev) as (cm' & -> & Ho').
    eexists. split; [reflexivity |]. split; assumption.
  - destruct (CorrectionModeOps.isActive (correctionMode u));
      eexists; (split; [reflexivity |]); [apply overlaySave_inv |]; exact Hu.
  - destruct (CorrectionModeOps.isActive (correctionMode u));
      eexists; (split; [reflexivity |]); [apply overlayCancel_inv |]; exact Hu.
Qed.

Lemma run_inv (evs : list Event) (u : AppUi) :
  Inv u -> List.Forall eventOk evs ->
  Inv (fst (run evs u)) /\ snd (run evs u) = false.
Proof.
  revert u. induction evs as [| ev evs IH]; intros u Hu Hall.
  - cbn. auto.
  - inversion Hall as [| ? ? Hev Hrest]; subst.
    destruct (step_inv ev u Hu Hev) as (u' & E & Hu').
    cbn [run]. rewrite E. cbn [stateOf threw].
    specialize (IH u' Hu' Hrest). destruct (run evs u') as [u'' t].
    cbn [fst snd orb] in *. exact IH.
Qed.

Lemma boot_inv (storedLast : option Z) (parsed : option (list StoredSlot)) :
  exists u, boot storedLast parsed = Normal u tt /\ Inv u /\
            status (gameState (app u)) = IDLE.
Proof.
  unfold boot.
  destruct (_loadOption_inv (StorageManager.loadLastOption storedLast) parsed
              (app AppHandlers.new) ltac:(left; reflexivity))
    as (a' & config & n & -> & Ha' & Hs & _).
  eexists. split; [reflexivity |]. split; [| exact Hs].
  split; [exact Ha' |]. cbn. unfold overlayMovesOk. cbn. discriminate.
Qed.

(** ** The application between its events *)

Lemma booted_inv (storedLast : option Z) (parsed : option (list StoredSlot)) :
  threw (boot storedLast parsed) = false /\ Inv (booted storedLast parsed) /\
  status (gameState (app (booted storedLast parsed))) = IDLE.
Proof.
  unfold booted. destruct (boot_inv storedLast parsed) as (u & -> & Hu & Hs).
  cbn. auto.
Qed.

(** *** [App.init] on what is stored *)

Lemma list_lookup_map_option {A B : Type} (f : A -> B) (l : list A) (i : nat) :
  map f l !! i = option_map f (l !! i).
Proof.
  revert i. induction l as [| x l IH]; intros [| i]; cbn; auto.
Qed.

Lemma AnyStored_loadCustomOption_at (slot : Z) (l : list StoredEntry) :
  0 <= slot < 5 ->
  AnyStored.loadCustomOption slot (Some l) =
    match l !! Z.to_nat slot with
    | Some (entryTyped (slotOption c)) =>
        match periods c with [] => None | _ :: _ => Some (loadedOption c) end
    | Some entryFirstPeriodNull => Some loadedFirstPeriodNull
    | Some entryUntyped => Some loadedUntyped
    | _ => None
    end.
Proof.
  intros Hs. unfold AnyStored.loadCustomOption, AnyStored.loadCustomOptions,
    Limits.MAX_MANUAL_OPTIONS.
  destruct (Z.ltb_spec slot 0); [lia |]. destruct (Z.leb_spec 5 slot); [lia |].
  cbn [orb]. change (Z.to_nat 5) with 5%nat.
  rewrite list_lookup_map_option, lookup_take_lt by lia.
  destruct (decide (Z.to_nat slot < length l)%nat) as [Hl | Hl].
  - rewrite lookup_app_l by exact Hl.
    destruct (l !! Z.to_nat slot) as [[[| | c] | |] |]; cbn [option_map]; try reflexivity.
    destruct (periods c); reflexivity.
  - rewrite lookup_app_r by lia.
    rewrite (proj2 (lookup_ge_None l (Z.to_nat slot))) by lia.
    destruct (replicate (5 - length l) (entryTyped slotNull)
                !! (Z.to_nat slot - length l)%nat) as [e |] eqn:E; [| reflexivity].
    apply lookup_replicate in E as [-> _]. reflexivity.
Qed.




Lemma StorageManager_loadCustomOption_at (slot : Z) (l : list StoredSlot) :
  0 <= slot < 5 ->
  StorageManager.loadCustomOption slot (Some l) =
    match l !! Z.to_nat slot with
    | Some (slotOption c) => match periods c with [] => None | _ :: _ => Some c end
    | _ => None
    end.
Proof.
  intros Hs. unfold StorageManager.loadCustomOption, StorageManager.loadCustomOptions,
    Limits.MAX_MANUAL_OPTIONS.
  destruct (Z.ltb_spec slot 0); [lia |]. destruct (Z.leb_spec 5 slot); [lia |].
  cbn [orb]. change (Z.to_nat 5) with 5%nat.
  rewrite list_lookup_map_option, lookup_take_lt by lia.
  destruct (decide (Z.to_nat slot < length l)%nat) as [Hl | Hl].
  - rewrite lookup_app_l by exact Hl.
    destruct (l !! Z.to_nat slot) as [[| | c] |]; cbn [option_map]; try reflexivity.
    destruct (periods c); reflexivity.
  - rewrite lookup_app_r by lia.
    rewrite (proj2 (lookup_ge_None l (Z.to_nat slot))) by lia.
    destruct (replicate (5 - length l) slotNull !! (Z.to_nat slot - length l)%nat)
      as [e |] eqn:E; [| reflexivity].
    apply lookup_replicate in E as [-> _]. reflexivity.
Qed.

(** On stored entries that are option configurations, the functions on
    [StoredEntry] are those on [StoredSlot]. *)
Lemma AnyStored_loadCustomOption_typed (slot : Z) (parsed : option (list StoredSlot)) :
  AnyStored.loadCustomOption slot (option_map (map entryTyped) parsed)
  = option_map loadedOption (StorageManager.loadCustomOption slot parsed).
Proof.
  destruct (decide (0 <= slot < 5)) as [Hs | Hs].
  - destruct parsed as [l |]; cbn [option_map].
    + rewrite (AnyStored_loadCustomOption_at slot _ Hs),
        (StorageManager_loadCustomOption_at slot l Hs), list_lookup_map_option.
      destruct (l !! Z.to_nat slot) as [[| | c] |]; cbn [option_map]; try reflexivity.
      destruct (periods c); reflexivity.
    + unfold AnyStored.loadCustomOption, StorageManager.loadCustomOption,
        AnyStored.loadCustomOptions, StorageManager.loadCustomOptions.
      destruct ((slot <? 0) || (Limits.MAX_MANUAL_OPTIONS <=? slot)); [reflexivity |].
      destruct (Z.to_nat slot) as [| [| [| [| [| k]]]]]; reflexivity.
  - unfold AnyStored.loadCustomOption, StorageManager.loadCustomOption,
      Limits.MAX_MANUAL_OPTIONS.
    destruct (Z.ltb_spec slot 0); destruct (Z.leb_spec 5 slot); cbn [orb];
      try reflexivity. lia.
Qed.

Lemma AnyStored_loadOption_typed (n : Z) (parsed : option (list StoredSlot)) (a : App) :
  AnyStored._loadOption n (option_map (map entryTyped) parsed) a
  = AnyStored.ended (AppHandlers._loadOption n parsed a).
Proof.
  unfold AnyStored._loadOption, AppHandlers._loadOption. cbv zeta.
  rewrite AnyStored_loadCustomOption_typed.
  destruct ((1 <=? n) && (n <=? Limits.TOTAL_PRESETS));
    destruct (Presets.getPreset n); try reflexivity;
    destruct ((Limits.MANUAL_OPTION_START <=? n) && (n <=? Limits.MANUAL_OPTION_END));
    destruct (StorageManager.loadCustomOption (n - Limits.MANUAL_OPTION_START) parsed);
    cbn [option_map]; destruct (Presets.getPreset 1); reflexivity.
Qed.

(** The state [booted] of the statements below is the state in which
    [App.init] returns on stored option configurations. *)
Lemma AnyStored_init_typed (storedLast : option Z) (parsed : option (list StoredSlot)) :
  AnyStored.init storedLast (option_map (map entryTyped) parsed)
  = initReturned (booted storedLast parsed).
Proof.
  unfold AnyStored.init, booted. rewrite AnyStored_loadOption_typed.
  destruct (boot_inv storedLast parsed) as (u & E & _). rewrite E.
  unfold boot in E.
  destruct (AppHandlers._loadOption (StorageManager.loadLastOption storedLast) parsed
              (app AppHandlers.new)) as [a' [] | a']; [| discriminate E].
  cbn [liftApp] in E. apply Normal_inv in E as [<- _]. reflexivity.
Qed.


(** X17.  After any events, the move counter of [App] and the move counts
    of the two clocks agree, and none is negative. *)
Theorem move_counter_stays_in_sync (storedLast : option Z)
    (parsed : option (list StoredSlot)) (evs : list Event) :
  List.Forall eventOk evs ->
  let a := app (fst (run evs (booted storedLast parsed))) in
  MoveCounterOps.getMoves LEFT (moveCounter a) = moves (left (gameState a)) /\
  MoveCounterOps.getMoves RIGHT (moveCounter a) = moves (right (gameState a)) /\
  0 <= moves (left (gameState a)) /\ 0 <= moves (right (gameState a)).
Proof.
  intros Hall a. destruct (booted_inv storedLast parsed) as (_ & Hu & _).
  destruct (run_inv evs _ Hu Hall) as [[(_ & _ & HM & _) _] _]. exact HM.
Qed.

(** X18.  After any events: while the match is running the engine runs and
    a side is active; while the match is paused, frozen or under correction
    the engine stands. *)
Theorem engine_follows_match_status (storedLast : option Z)
    (parsed : option (list StoredSlot)) (evs : list Event) :
  List.Forall eventOk evs ->
  let a := app (fst (run evs (booted storedLast parsed))) in
  (status (gameState a) = RUNNING ->
   TimerEngineOps.isRunning (timerEngine a) = true /\ activePlayer (gameState a) <> None) /\
  (status (gameState a) = PAUSED \/ status (gameState a) = FROZEN \/
   status (gameState a) = CORRECTING ->
   TimerEngineOps.isRunning (timerEngine a) = false).
Proof.
  intros Hall a. destruct (booted_inv storedLast parsed) as (_ & Hu & _).
  destruct (run_inv evs _ Hu Hall) as [[(HE & _) _] _]. fold a in HE.
  unfold engineFollowsStatus in HE. unfold TimerEngineOps.isRunning.
  split.
  - intros Hs. rewrite Hs in HE. exact HE.
  - intros [Hs | [Hs | Hs]]; rewrite Hs in HE; apply HE.
Qed.


(** The last option is the custom option 27, and the stored entry of its
    slot has a [periods] array that holds [null]: [init] throws. *)
Example init_throws_on_null_period :
  AnyStored.loadCustomOptions (Some [entryFirstPeriodNull])
    = [Some loadedFirstPeriodNull; None; None; None; None] /\
  AnyStored.init (Some 27) (Some [entryFirstPeriodNull]) = initThrew.
Proof. split; reflexivity. Qed.

(** A stored custom option of one sudden-death period of 5 s that the END
    marker follows, with freeze mode on, is loaded by [App.init]; the match
    is started and the side to move uses up its time.  Its flag blinks, and
    the match is still running. *)
Example end_marker_option_from_storage :
  let config :=
    mkOptionConfig [mkPeriodConfig TIME (Some 5000) None None None None;
                    mkPeriodConfig END None None None None None]
      (Some true) (Some false) None None in
  AnyStored.init (Some 27) (Some [entryTyped (slotOption config)])
    = initReturned (booted (Some 27) (Some [slotOption config])) /\
  let out :=
    run [evClockTap LEFT 0 1; evTick 5000 7] (booted (Some 27) (Some [slotOption config])) in
  snd out = false /\
  freezeEnabled (gameState (app (fst out))) = true /\
  flagState (right (gameState (app (fst out)))) = BLINKING /\
  timeMs (right (gameState (app (fst out)))) = 0 /\
  status (gameState (app (fst out))) = RUNNING /\
  TimerEngineOps.isRunning (timerEngine (app (fst out))) = true.
Proof. cbv zeta. split; [vm_compute; reflexivity |]. vm_compute. repeat split. Qed.


Lemma move_counter_stays_in_sync_witness :
  List.Forall eventOk Scenario.events /\
  MoveCounterOps.getMoves LEFT
    (moveCounter (app (fst (run Scenario.events (booted (Some 3) None)))))
  = moves (left (gameState (app (fst (run Scenario.events (booted (Some 3) None)))))).
Proof.
  assert (List.Forall eventOk Scenario.events) as H.
  { repeat constructor; cbn; try lia; discriminate. }
  split; [exact H |].
  exact (proj1 (move_counter_stays_in_sync (Some 3) None Scenario.events H)).
Defined.

Lemma engine_follows_match_status_witness :
  List.Forall eventOk Scenario.untilFlag /\
  (status (gameState (app (fst (run Scenario.untilFlag (booted (Some 1) None))))) = FROZEN ->
   TimerEngineOps.isRunning
     (timerEngine (app (fst (run Scenario.untilFlag (booted (Some 1) None))))) = false).
Proof.
  assert (List.Forall eventOk Scenario.untilFlag) as H.
  { repeat constructor. }
  split; [exact H |].
  intros Hs.
  apply (proj2 (engine_follows_match_status (Some 1) None Scenario.untilFlag H)).
  right. left. exact Hs.
Defined.

Example scenario_until_flag_is_frozen :
  status (gameState (app (fst (run Scenario.untilFlag (booted (Some 1) None))))) = FROZEN.
Proof. vm_compute. reflexivity. Qed.

Example scenario_events_end_idle :
  let a := app (fst (run Scenario.events (booted None None))) in
  status (gameState a) = IDLE /\ selectedOption (gameState a) = 6 /\
  timeMs (left (gameState a)) = 300000.
Proof. vm_compute. repeat split. Qed.

Lemma standsStill_refl (u : AppUi) : standsStill u u.
Proof. repeat split. Qed.

Lemma standsStill_trans (u1 u2 u3 : AppUi) :
  standsStill u1 u2 -> standsStill u2 u3 -> standsStill u1 u3.
Proof.
  unfold standsStill.
  intros (A1 & A2 & A3 & A4 & A5 & A6 & A7 & A8 & A9)
         (B1 & B2 & B3 & B4 & B5 & B6 & B7 & B8 & B9).
  repeat split; congruence.
Qed.

Lemma frozen_step (ev : Event) (u : AppUi) :
  status (gameState (app u)) = FROZEN -> _active (correctionMode u) = false ->
  keepsFrozen ev ->
  exists u', step ev u = Normal u' tt /\ standsStill u u'.
Proof.
  intros Hs Hact Hev.
  destruct ev; cbn [step keepsFrozen] in *; try contradiction;
    unfold AppHandlers._handleClockTap, AppHandlers._handleSwitchTurn,
      AppHandlers._handleTogglePause, AppOps._onTick, AppHandlers._openSettings,
      AppHandlers._quickPreset, AppHandlers._handleEscape, AppHandlers._handleNav,
      CorrectionModeOps.isActive;
    cbv zeta; rewrite ?Hs, ?Hact.
  - eexists. split; [reflexivity |]. repeat split.
  - eexists. split; [reflexivity |]. repeat split.
  - eexists. split; [reflexivity |]. repeat split.
  - eexists. split; [reflexivity |]. repeat split.
  - destruct (_resetPending u); cbn; rewrite Hs; eexists; (split; [reflexivity |]);
      repeat split.
  - eexists. split; [reflexivity |]. repeat split.
  - eexists. split; [reflexivity |]. repeat split.
  - eexists. split; [reflexivity |]. unfold AppHandlers._toggleFreeze,
      GameStateOps.toggleFreeze.
    destruct (hasBeenStarted (gameState (app u))); repeat split.
  - eexists. split; [reflexivity |]. repeat split.
  - destruct (_resetPending u); [eexists; split; [reflexivity |]; repeat split |].
    destruct settingsVisible; eexists; (split; [reflexivity |]); repeat split.
  - eexists. split; [reflexivity |]. repeat split.
  - eexists. split; [reflexivity |]. repeat split.
  - eexists. split; [reflexivity |]. repeat split.
  - eexists. split; [reflexivity |]. repeat split.
Qed.

(** X20.  A frozen match with the correction overlay closed stands still:
    whatever taps, key presses, pause toggles, ticks and other events follow,
    short of a new option, a confirmed reset or entering the correction
    overlay, the match stays frozen, both clocks, the active side, the engine,
    the timing methods and the move counter are what they were, and no
    handler throws. *)
Theorem frozen_match_stands_still (evs : list Event) (u : AppUi) :
  status (gameState (app u)) = FROZEN -> _active (correctionMode u) = false ->
  List.Forall keepsFrozen evs ->
  standsStill u (fst (run evs u)) /\ snd (run evs u) = false.
Proof.
  revert u. induction evs as [| ev evs IH]; intros u Hs Hact Hall.
  - cbn. split; [apply standsStill_refl | reflexivity].
  - inversion Hall as [| ? ? Hev Hrest]; subst.
    destruct (frozen_step ev u Hs Hact Hev) as (u' & E & Hstill).
    cbn [run]. rewrite E. cbn [stateOf threw].
    pose proof Hstill as (S1 & _ & _ & _ & _ & _ & _ & _ & S9).
    specialize (IH u' ltac:(congruence) ltac:(congruence) Hrest).
    destruct (run evs u') as [u'' t]. cbn [fst snd orb] in *.
    destruct IH as [IH1 IH2]. split; [| exact IH2].
    eapply standsStill_trans; eassumption.
Qed.

Lemma frozen_match_stands_still_witness :
  let u := fst (run Scenario.untilFlag (booted (Some 1) None)) in
  standsStill u (fst (run Scenario.whileFrozen u)).
Proof.
  intros u.
  refine (proj1 (frozen_match_stands_still Scenario.whileFrozen u _ _ _)).
  - vm_compute. reflexivity.
  - vm_compute. reflexivity.
  - repeat constructor.
Defined.

(** X21.  Pausing a running match and resuming it gives back the match as
    it was, clocks included, with the engine running and measuring from the
    moment of the resume: the first frame afterwards hands over the time
    since the resume (capped at 1000 ms), however long the pause was. *)
Theorem pause_time_not_charged (a : App) (c : AppCallback)
    (perfNow1 handle1 perfNow2 handle2 : Z) :
  status (gameState a) = RUNNING -> _onTick (timerEngine a) = Some c ->
  let a2 :=
    AppHandlers._handleTogglePause perfNow2 handle2
      (AppHandlers._handleTogglePause perfNow1 handle1 a) in
  gameState a2 = gameState a /\ periodManager a2 = periodManager a /\
  moveCounter a2 = moveCounter a /\
  TimerEngineOps.isRunning (timerEngine a2) = true /\
  forall call timestamp handle,
    TimerEngineOps.delivered (snd (TimerEngineOps._tick call timestamp handle (timerEngine a2)))
    = if 0 <? Z.min (timestamp - perfNow2) 1000
      then [Z.min (timestamp - perfNow2) 1000] else [].
Proof.
  intros Hs Hcb. cbv zeta.
  unfold AppHandlers._handleTogglePause at 2. rewrite Hs.
  unfold AppHandlers._handleTogglePause. cbn [gameState].
  unfold GameStateOps.pause. rewrite Hs. cbn [set_status status].
  cbn [gameState timerEngine periodManager moveCounter].
  unfold GameStateOps.resume. cbn [set_status status].
  assert (AppHandlers.startEngine perfNow2 handle2 (AppOps.stopEngine (timerEngine a))
          = mkTimerEngine (Some handle2) perfNow2 true (Some c)
              (_hiddenAtWallClock (timerEngine a))) as ->.
  { unfold AppHandlers.startEngine, AppOps.stopEngine, TimerEngineOps.start,
      TimerEngineOps.stop.
    destruct (_running (timerEngine a)) eqn:Hr; cbn; rewrite ?Hr; cbn; rewrite Hcb;
      reflexivity. }
  repeat split.
  - destruct (gameState a); cbn in *. subst. reflexivity.
  - intros call timestamp handle.
    unfold TimerEngineOps._tick, TimerEngineOps.deliver. cbn.
    destruct (0 <? Z.min (timestamp - perfNow2) 1000); reflexivity.
Qed.

Lemma pause_time_not_charged_witness :
  let a := app (fst (run [evClockTap LEFT 0 1; evTick 1000 5] (booted None None))) in
  gameState (AppHandlers._handleTogglePause 90000 3 (AppHandlers._handleTogglePause 2000 2 a))
  = gameState a.
Proof.
  intros a.
  refine (proj1 (pause_time_not_charged a boundOnTick 2000 2 90000 3 _ _)).
  - vm_compute. reflexivity.
  - vm_compute. reflexivity.
Defined.

(** ** The sound manager under the handlers *)

Lemma checkAndBeep_disabled (remainingMs : Z) (sm : SoundManager) :
  _enabled sm = false -> SoundManagerOps.checkAndBeep remainingMs sm = (sm, []).
Proof. intros H. unfold SoundManagerOps.checkAndBeep. rewrite H. reflexivity. Qed.

Lemma onEvent_disabled (ev : Event) (u : AppUi) (sm : SoundManager) :
  _enabled sm = false -> notToggleSound ev ->
  _enabled (fst (AppSound.onEvent ev u sm)) = false /\ snd (AppSound.onEvent ev u sm) = [].
Proof.
  intros H Hev. destruct ev; cbn [AppSound.onEvent notToggleSound] in *;
    try contradiction; cbv zeta; try (split; [exact H | reflexivity]).
  - unfold AppSound.onTap. destruct (match status _ with IDLE => _ | _ => _ end);
      split; auto.
  - unfold AppSound.onTap. destruct (match status _ with IDLE => _ | _ => _ end);
      split; auto.
  - unfold AppSound._onTick. cbv zeta.
    destruct (status (gameState (app u))); try (split; [exact H | reflexivity]).
    destruct (activePlayer (gameState (app u))) as [active |];
      [| split; [exact H | reflexivity]].
    destruct (PeriodManagerOps.onTick _ _ _ _) as [[gs1 pm1] result | st];
      [| split; [exact H | reflexivity]].
    assert ((if soundEnabled gs1
             then match PeriodManagerOps.getMethod active pm1 with
                  | Some m =>
                      if decide (TimingMethodOps.getType m = UPCOUNT) then (sm, [])
                      else SoundManagerOps.checkAndBeep
                             (timeMs (GameStateOps.getPlayer active gs1)) sm
                  | None => (sm, [])
                  end
             else (sm, [])) = (sm, [])) as ->.
    { destruct (soundEnabled gs1); [| reflexivity].
      destruct (PeriodManagerOps.getMethod active pm1) as [m |]; [| reflexivity].
      destruct (decide _); [reflexivity | apply checkAndBeep_disabled; exact H]. }
    unfold SoundManagerOps.playPeriodBeep. rewrite H.
    destruct (periodTransition result); cbn; split; auto.
    destruct (soundEnabled gs1); reflexivity.
Qed.

(** X22.  A sound manager that is not enabled stays so and asks for no
    beep, whatever events follow, as long as the sound is not toggled: the
    handlers that select an option write the option's sound default to the
    match only, never to the sound manager, so that a match whose sound
    setting is on is silent until the sound is toggled off and on. *)
Theorem sound_default_is_not_heard (evs : list Event) (u : AppUi) (sm : SoundManager) :
  SoundManagerOps.isEnabled sm = false -> List.Forall notToggleSound evs ->
  SoundManagerOps.isEnabled (fst (AppSound.onEvents evs u sm)) = false /\
  snd (AppSound.onEvents evs u sm) = [].
Proof.
  unfold SoundManagerOps.isEnabled.
  revert u sm. induction evs as [| ev evs IH]; intros u sm H Hall.
  - cbn. auto.
  - inversion Hall as [| ? ? Hev Hrest]; subst.
    destruct (onEvent_disabled ev u sm H Hev) as [H1 H2].
    cbn [AppSound.onEvents].
    destruct (AppSound.onEvent ev u sm) as [sm1 out1]. cbn [fst snd] in *.
    specialize (IH (stateOf (step ev u)) sm1 H1 Hrest).
    destruct (AppSound.onEvents evs (stateOf (step ev u)) sm1) as [sm2 out2].
    cbn [fst snd] in *. destruct IH as [IH1 IH2]. subst. auto.
Qed.

Lemma sound_default_is_not_heard_witness :
  soundEnabled (gameState (app (booted (Some 20) None))) = true /\
  snd (AppSound.onEvents lastSeconds (booted (Some 20) None) SoundManagerOps.new) = [].
Proof.
  split; [vm_compute; reflexivity |].
  refine (proj2 (sound_default_is_not_heard lastSeconds (booted (Some 20) None)
                   SoundManagerOps.new _ _)).
  - reflexivity.
  - repeat constructor.
Defined.

(** The same match with the sound toggled off and on before it starts: the
    warning, two countdown beeps, the beep of the last second and the beep
    of the period transition. *)
Example sound_heard_after_two_toggles :
  snd (AppSound.onEvents (evToggleSound :: evToggleSound :: lastSeconds)
         (booted (Some 20) None) SoundManagerOps.new)
  = [mkBeep 880 80; mkBeep 880 80; mkBeep 880 80; mkBeep 880 300; mkBeep 880 300].
Proof. vm_compute. reflexivity. Qed.

(** ** Beeps of one turn *)

Lemma ceilSeconds_spec (t : Z) :
  1000 * (SoundManagerOps.ceilSeconds t - 1) < t <= 1000 * SoundManagerOps.ceilSeconds t.
Proof.
  unfold SoundManagerOps.ceilSeconds.
  pose proof (Z.div_mod (- t) 1000 ltac:(lia)).
  pose proof (Z.mod_pos_bound (- t) 1000 ltac:(lia)). lia.
Qed.

Lemma checkAndBeep_potential (t' t : Z) (sm : SoundManager) :
  t' <= t -> beepSecondAhead sm t ->
  let '(sm', out) := SoundManagerOps.checkAndBeep t' sm in
  Z.of_nat (length out) + beepsLeft sm' t' <= beepsLeft sm t /\
  beepSecondAhead sm' t' /\ 0 <= beepsLeft sm' t'.
Proof.
  intros Hle HJ. unfold beepSecondAhead in HJ.
  pose proof (ceilSeconds_spec t) as Hc. pose proof (ceilSeconds_spec t') as Hc'.
  assert (forall k, _lastBeepSecond sm = Some k ->
                    (k = 0 /\ t' <= 1000) \/ SoundManagerOps.ceilSeconds t' <= k) as HJ'.
  { intros k Hk. destruct (HJ k Hk) as [[-> H1] | H1]; [left; lia | right; lia]. }
  unfold SoundManagerOps.checkAndBeep, SoundConfig.WARNING_TIME_MS,
    SoundConfig.COUNTDOWN_START_MS, SoundConfig.FINAL_BEEP_MS.
  assert (Z.of_nat (length (@nil Beep)) + beepsLeft sm t' <= beepsLeft sm t /\
          beepSecondAhead sm t' /\ 0 <= beepsLeft sm t') as Hsame.
  { split; [| split; [exact HJ' |]].
    - unfold beepsLeft. cbv zeta. cbn [length].
      destruct (_lastBeepSecond sm) as [k |] eqn:Hk.
      + specialize (HJ k eq_refl). specialize (HJ' k eq_refl).
        repeat destruct (decide _); try congruence;
          repeat match goal with H : Some _ = Some _ |- _ => injection H as H end;
          repeat match goal with H : Some ?a <> Some ?b |- _ =>
                   assert (a <> b) by congruence; clear H end;
          destruct (_warningPlayed sm);
          repeat match goal with |- context [?a <=? ?b] => destruct (Z.leb_spec a b) end;
          cbn [andb]; lia.
      + repeat destruct (decide _); try congruence; destruct (_warningPlayed sm); lia.
    - unfold beepsLeft. cbv zeta.
      repeat destruct (decide _); destruct (_warningPlayed sm);
        repeat match goal with |- context [?a <=? ?b] => destruct (Z.leb_spec a b) end;
        cbn [andb]; lia. }
  destruct (_enabled sm); [| exact Hsame].
  destruct (Z.leb_spec t' 10000); destruct (_warningPlayed sm) eqn:Hw;
    destruct (Z.ltb_spec 5000 t'); cbn [andb negb];
    destruct (Z.leb_spec t' 5000); destruct (Z.ltb_spec 1000 t'); cbn [andb];
    destruct (Z.leb_spec t' 1000); destruct (Z.ltb_spec 0 t'); cbn [andb];
    try lia; try exact Hsame.
  all: try (destruct (decide (_lastBeepSecond sm = Some (SoundManagerOps.ceilSeconds t')))
              as [Hl | Hl]; [exact Hsame |]).
  all: try (destruct (decide (_lastBeepSecond sm = Some 0)) as [Hl | Hl]; [exact Hsame |]).
  all: (split; [| split]);
    [ unfold beepsLeft; cbv zeta; cbn [length _warningPlayed _lastBeepSecond];
      rewrite ?Hw;
      destruct (_lastBeepSecond sm) as [k |] eqn:Hk;
      [ specialize (HJ k eq_refl) | ];
      repeat destruct (decide _); try congruence;
      repeat match goal with H : Some _ = Some _ |- _ => injection H as H end;
          repeat match goal with H : Some ?a <> Some ?b |- _ =>
                   assert (a <> b) by congruence; clear H end;
      repeat match goal with |- context [?a <=? ?b] => destruct (Z.leb_spec a b) end;
      cbn [andb]; lia
    | unfold beepSecondAhead; cbn [_lastBeepSecond]; intros k Hk; injection Hk as <-; lia
    | unfold beepsLeft; cbv zeta; cbn [_warningPlayed _lastBeepSecond];
      repeat destruct (decide _); try congruence;
      repeat match goal with H : Some _ = Some _ |- _ => injection H as H end;
          repeat match goal with H : Some ?a <> Some ?b |- _ =>
                   assert (a <> b) by congruence; clear H end;
      repeat match goal with |- context [?a <=? ?b] => destruct (Z.leb_spec a b) end;
      cbn [andb]; lia ].
Qed.

Lemma checkAll_potential (times : list Z) (t : Z) (sm : SoundManager) :
  descending t times -> beepSecondAhead sm t -> 0 <= beepsLeft sm t ->
  Z.of_nat (length (snd (SoundManagerOps.checkAll times sm))) <= beepsLeft sm t.
Proof.
  revert t sm. induction times as [| t' rest IH]; intros t sm Hd HJ H0.
  - cbn. exact H0.
  - destruct Hd as [Hle Hd]. cbn [SoundManagerOps.checkAll].
    pose proof (checkAndBeep_potential t' t sm Hle HJ) as Hstep.
    destruct (SoundManagerOps.checkAndBeep t' sm) as [sm1 out1].
    destruct Hstep as (Hpot & HJ1 & H01).
    specialize (IH t' sm1 Hd HJ1 H01).
    destruct (SoundManagerOps.checkAll rest sm1) as [sm2 out2]. cbn [snd] in *.
    rewrite length_app. lia.
Qed.

(** X23.  Between two resets of the beep state, with remaining times that
    never grow from one call to the next, [checkAndBeep] asks for at most
    six beeps, however many calls there are: the warning, the seconds 5 to
    2 of the countdown, and the last second. *)
Theorem beeps_of_a_turn_bounded (times : list Z) (t0 : Z) (sm : SoundManager) :
  descending t0 times ->
  Z.of_nat (length (snd (SoundManagerOps.checkAll times
                           (SoundManagerOps.resetBeepState sm)))) <= 6.
Proof.
  intros Hd.
  pose proof (checkAll_potential times t0 (SoundManagerOps.resetBeepState sm) Hd) as H.
  assert (beepSecondAhead (SoundManagerOps.resetBeepState sm) t0) as HJ.
  { unfold beepSecondAhead. cbn. discriminate. }
  assert (0 <= beepsLeft (SoundManagerOps.resetBeepState sm) t0 <= 6) as [H0 H6].
  { unfold beepsLeft. cbv zeta. cbn [SoundManagerOps.resetBeepState _warningPlayed
                                      _lastBeepSecond].
    repeat destruct (decide _); try congruence; lia. }
  specialize (H HJ H0). lia.
Qed.

Lemma beeps_of_a_turn_bounded_witness :
  Z.of_nat
    (length (snd (SoundManagerOps.checkAll
                    [9990; 9980; 5000; 4990; 4001; 4000; 3000; 2500; 1200; 1000; 900; 16; 0]
                    (SoundManagerOps.resetBeepState (mkSoundManager true (Some 3) true)))))
  <= 6.
Proof.
  apply (beeps_of_a_turn_bounded _ 10000). cbn. lia.
Defined.

(** The bound is reached. *)
Example six_beeps_of_a_turn :
  snd (SoundManagerOps.checkAll
         [9990; 9980; 5000; 4990; 4001; 4000; 3000; 2500; 1200; 1000; 900; 16; 0]
         (SoundManagerOps.resetBeepState (mkSoundManager true (Some 3) true)))
  = [mkBeep 880 80; mkBeep 880 80; mkBeep 880 80; mkBeep 880 80; mkBeep 880 80;
     mkBeep 880 300].
Proof. vm_compute. reflexivity. Qed.

(** ** Expiry as the tick reports it and as [isExpired] sees it *)

Lemma clampExpiry_isExpired (p : PlayerState) :
  expired (snd (clampExpiry p)) = (timeMs (fst (clampExpiry p)) <=? 0).
Proof.
  unfold clampExpiry. destruct (Z.leb_spec (timeMs p) 0); cbn.
  - reflexivity.
  - symmetry. apply Z.leb_gt. assumption.
Qed.

(** X24.  For each of the seven methods, a tick reports expiry exactly when
    the method's [isExpired] holds of the clock that the tick leaves. *)
Theorem tick_expiry_agrees_with_isExpired (m : TimingMethod) (d : Z) (p : PlayerState) :
  expired (snd (TimingMethodOps.onTick m d p))
  = TimingMethodMore.isExpired m (fst (TimingMethodOps.onTick m d p)).
Proof.
  destruct m as [| f | b | u | b | c |];
    cbn [TimingMethodOps.onTick TimingMethodMore.isExpired].
  1-4, 6: (unfold TimeMethod.onTick, FischerMethod.onTick, BronsteinDelayMethod.onTick,
             UsDelayMethod.onTick, CanadianByoYomiMethod.onTick, TimeMethod.isExpired,
             FischerMethod.isExpired, BronsteinDelayMethod.isExpired,
             UsDelayMethod.isExpired, CanadianByoYomiMethod.isExpired;
           cbv zeta; apply clampExpiry_isExpired).
  - unfold ByoYomiMethod.onTick, ByoYomiMethod.isExpired. cbv zeta.
    change (timeMs (set_timeMs (timeMs p - d) p)) with (timeMs p - d).
    destruct (Z.leb_spec (timeMs p - d) 0) as [Hle | Hgt].
    + destruct (Z.eqb_spec (ByoYomiMethod.byoMoments b) 0) as [Hinf | Hfin];
        [reflexivity |].
      pose proof (consumeMoments_exit b (set_timeMs (timeMs p - d) p) false) as Hex.
      destruct (ByoYomiMethod.consumeMoments b (set_timeMs (timeMs p - d) p) false)
        as [p2 r | p2 me]; cbn [fst snd].
      * destruct Hex as (-> & Ht & Hm & _). symmetry. apply andb_true_iff.
        split; apply Z.leb_le; lia.
      * destruct Hex as (Hor & _).
        destruct (Z.leb_spec (timeMs p2) 0) as [H0 | H0]; cbn [fst snd expired].
        -- symmetry. apply andb_true_iff. split; apply Z.leb_le; cbn; lia.
        -- destruct me; cbn [fst snd expired]; symmetry; apply andb_false_iff; left;
             apply Z.leb_gt; exact H0.
    + cbn [fst snd expired]. destruct (ByoYomiMethod.byoMoments b =? 0); [reflexivity |].
      symmetry. apply andb_false_iff. left. apply Z.leb_gt. cbn. exact Hgt.
  - reflexivity.
Qed.

(** ** A Fischer period that ends by moves *)

(** X25.  A side on a Fischer period with a required number of moves, which
    has made them, and a tick that leaves time on its clock.  If a further
    period follows (one that is not the END marker), the tick moves this
    side alone into it: no flag is set, the other side is untouched, and the
    moves of the new period count from here.  The clock is assigned by the
    new period's method: its main time is added to what is left when it is
    sudden death, Fischer, Bronstein or US delay; the clock is set to its
    byo-yomi time, and what was left is dropped, when it is a byo-yomi or a
    Canadian byo-yomi; the clock is set to 0 when it is the up-count.  If
    the side is in the last period, the tick sets the blinking flag and
    reports expiry although time is left. *)
Theorem fischer_moves_complete (s : Player) (g : GameState) (pm : PeriodManager)
    (f : FischerMethod.t) (config : OptionConfig) (d now : Z) :
  let p := GameStateOps.getPlayer s g in
  PeriodManagerOps.getMethod s pm = Some (ofFischer f) ->
  optionConfig g = Some config ->
  d < timeMs p ->
  0 < FischerMethod.movesRequired f
    <= moves p - default 0 (_periodStartMoves pm !! s) ->
  (forall nextc,
      currentPeriod p + 1 < Z.of_nat (length (periods config)) ->
      periodAt (periods config) (currentPeriod p + 1) = Some nextc ->
      method nextc <> END ->
      exists g' pm',
        PeriodManagerOps.onTick d s now (g, pm)
          = Normal (g', pm') (mkPeriodResult false true) /\
        currentPeriod (GameStateOps.getPlayer s g') = currentPeriod p + 1 /\
        flagState (GameStateOps.getPlayer s g') = flagState p /\
        GameStateOps.getOpponent s g' = GameStateOps.getOpponent s g /\
        PeriodManagerOps.getMethod s pm' = Some (PeriodManagerOps.createMethod nextc) /\
        _periodStartMoves pm' !! s = Some (moves p) /\
        (addsMainTime (method nextc) = true ->
         timeMs (GameStateOps.getPlayer s g') = timeMs p - d + orZero (cfg_timeMs nextc)) /\
        (method nextc = BYO_YOMI \/ method nextc = CANADIAN_BYO ->
         timeMs (GameStateOps.getPlayer s g') = orZero (cfg_byoTimeMs nextc)) /\
        (method nextc = UPCOUNT -> timeMs (GameStateOps.getPlayer s g') = 0))
  /\ (Z.of_nat (length (periods config)) <= currentPeriod p + 1 ->
      exists g',
        PeriodManagerOps.onTick d s now (g, pm)
          = Normal (g', pm) (mkPeriodResult true false) /\
        flagState (GameStateOps.getPlayer s g') = BLINKING /\
        timeMs (GameStateOps.getPlayer s g') = timeMs p - d /\
        0 < timeMs (GameStateOps.getPlayer s g')).
Proof.
  intros p Hm Hcfg Hd Hmoves.
  assert (PeriodManagerOps.onTick d s now (g, pm)
          = PeriodManagerOps._transitionToNextPeriod s true now
              (GameStateOps.setPlayer s (set_timeMs (timeMs p - d) p) g, pm)) as Htick.
  { unfold PeriodManagerOps.onTick. rewrite Hm. cbn [TimingMethodOps.onTick].
    unfold FischerMethod.onTick, clampExpiry. fold p.
    change (timeMs (set_timeMs (timeMs p - d) p)) with (timeMs p - d).
    destruct (Z.leb_spec (timeMs p - d) 0); [lia |]. cbn [expired].
    unfold FischerMethod.isPeriodCompleteByMoves.
    change (moves (set_timeMs (timeMs p - d) p)) with (moves p).
    destruct (Z.leb_spec (FischerMethod.movesRequired f) 0); [lia |].
    destruct (Z.leb_spec (FischerMethod.movesRequired f)
                (moves p - default 0 (_periodStartMoves pm !! s))); [| lia].
    reflexivity. }
  rewrite Htick. unfold PeriodManagerOps._transitionToNextPeriod.
  destruct (setPlayer_frame s (set_timeMs (timeMs p - d) p) g) as (_ & _ & Hc & _).
  rewrite Hc, Hcfg. cbv zeta. rewrite getPlayer_setPlayer.
  change (currentPeriod (set_timeMs (timeMs p - d) p)) with (currentPeriod p).
  split.
  - intros nextc Hlt Hat Hend.
    destruct (Z.leb_spec (Z.of_nat (length (periods config))) (currentPeriod p + 1));
      [lia |].
    rewrite Hat. destruct (decide (method nextc = END)); [contradiction |].
    pose proof (transitionPlayer_frame s (currentPeriod p + 1)
                  (periodAt (periods config) (currentPeriod p)) nextc
                  (GameStateOps.setPlayer s (set_timeMs (timeMs p - d) p) g) pm) as Hf.
    pose proof (transitionPlayer_time s (currentPeriod p + 1)
                  (periodAt (periods config) (currentPeriod p)) nextc
                  (GameStateOps.setPlayer s (set_timeMs (timeMs p - d) p) g) pm) as Ht.
    cbv zeta in Hf, Ht.
    assert (_periodStartMoves
              (snd (PeriodManagerOps._transitionPlayerToPeriod s (currentPeriod p + 1)
                      (periodAt (periods config) (currentPeriod p)) nextc
                      (GameStateOps.setPlayer s (set_timeMs (timeMs p - d) p) g, pm))) !! s
            = Some (moves p)) as Hstart.
    { unfold PeriodManagerOps._transitionPlayerToPeriod. cbv zeta.
      cbn [snd _periodStartMoves]. rewrite lookup_insert_eq, getPlayer_setPlayer.
      destruct (method nextc); reflexivity. }
    destruct (PeriodManagerOps._transitionPlayerToPeriod _ _ _ _ _) as [g' pm'].
    cbn [fst snd] in *.
    destruct Hf as (_ & _ & _ & _ & Ho & _ & Hmeth & Hcp & Hfl & Htime).
    destruct Ht as [Hbyo Hup].
    rewrite getPlayer_setPlayer, getOpponent_setPlayer in *.
    exists g', pm'. repeat split; auto.
  - intros Hge.
    destruct (Z.leb_spec (Z.of_nat (length (periods config))) (currentPeriod p + 1));
      [| lia].
    eexists. split; [reflexivity |]. rewrite getPlayer_setPlayer.
    cbn. repeat split; lia.
Qed.

Lemma fischer_moves_complete_witness :
  exists g' pm',
    PeriodManagerOps.onTick 1000 LEFT 7 (afterMoves fischerByMoves 40)
      = Normal (g', pm') (mkPeriodResult false true) /\
    currentPeriod (GameStateOps.getPlayer LEFT g') = 1 /\
    timeMs (GameStateOps.getPlayer LEFT g') = 5400000 - 1000 + 1800000.
Proof.
  assert (PeriodManagerOps.getMethod LEFT (snd (afterMoves fischerByMoves 40))
          = Some (ofFischer (FischerMethod.mk 30000 40))) as Hm
    by (vm_compute; reflexivity).
  assert (optionConfig (fst (afterMoves fischerByMoves 40)) = Some fischerByMoves) as Hc
    by reflexivity.
  destruct (fischer_moves_complete LEFT (fst (afterMoves fischerByMoves 40))
              (snd (afterMoves fischerByMoves 40)) (FischerMethod.mk 30000 40)
              fischerByMoves 1000 7 Hm Hc) as [Hnext _].
  - vm_compute. reflexivity.
  - vm_compute. split; [reflexivity | discriminate].
  - destruct (Hnext (mkPeriodConfig FISCHER (Some 1800000) (Some 30000) (Some 20) None None))
      as (g' & pm' & E & Hp & _ & _ & _ & _ & Ht & _).
    + vm_compute. reflexivity.
    + reflexivity.
    + discriminate.
    + exists g', pm'. split; [exact E |]. split; [exact Hp |]. apply Ht. reflexivity.
Defined.

(** In the only period of a match, the fortieth move of the left side: the
    next tick raises its flag with an hour and a half on its clock. *)
Example fischer_last_period_moves_complete :
  let out := PeriodManagerOps.onTick 1000 LEFT 7 (afterMoves fischerOnePeriod 40) in
  threw out = false /\
  flagState (GameStateOps.getPlayer LEFT (fst (stateOf out))) = BLINKING /\
  timeMs (GameStateOps.getPlayer LEFT (fst (stateOf out))) = 5399000.
Proof. vm_compute. repeat split. Qed.

(** ** The sound setting and the sound manager *)

Lemma setPlayer_sound (s : Player) (p : PlayerState) (g : GameState) :
  soundEnabled (GameStateOps.setPlayer s p g) = soundEnabled g.
Proof. destruct s; reflexivity. Qed.

Lemma transition_sound (s : Player) (idx : Z) (old : option PeriodConfig)
    (newc : PeriodConfig) (st : GameState * PeriodManager) :
  soundEnabled (fst (PeriodManagerOps._transitionPlayerToPeriod s idx old newc st))
  = soundEnabled (fst st).
Proof.
  destruct st as [g pm]. unfold PeriodManagerOps._transitionPlayerToPeriod. cbv zeta.
  cbn [fst]. apply setPlayer_sound.
Qed.

Lemma PeriodManager_onTick_sound (deltaMs : Z) (s : Player) (now : Z)
    (g : GameState) (pm : PeriodManager) :
  soundEnabled (fst (stateOf (PeriodManagerOps.onTick deltaMs s now (g, pm))))
  = soundEnabled g.
Proof.
  pose proof (PeriodManager_onTick_cases deltaMs s now g pm) as Hcases.
  cbv zeta in Hcases. unfold afterMethodTick in Hcases.
  destruct Hcases as [[_ E] | [E | [E | [(config & nextc & _ & _ & _ & _ & E) | [E _]]]]];
    [| | | destruct E as [E | [[_ E] | [_ E]]] |]; rewrite E; cbn [stateOf fst];
    rewrite ?transition_sound; cbn [fst]; rewrite ?setPlayer_sound; reflexivity.
Qed.

Lemma onTurnStartOf_sound (o : option Player) (st : GameState * PeriodManager) :
  soundEnabled (fst (AppHandlers.onTurnStartOf o st)) = soundEnabled (fst st).
Proof.
  destruct o as [s |]; [| reflexivity]. destruct st as [g pm].
  unfold AppHandlers.onTurnStartOf, PeriodManagerOps.onTurnStart.
  destruct (PeriodManagerOps.getMethod s pm) as [m |]; [| reflexivity].
  destruct (TimingMethodOps.onTurnStart m (GameStateOps.getPlayer s g)). cbn [fst].
  apply setPlayer_sound.
Qed.

Lemma onTurnEndOf_sound (o : option Player) (st : GameState * PeriodManager) :
  soundEnabled (fst (AppHandlers.onTurnEndOf o st)) = soundEnabled (fst st).
Proof.
  destruct o as [s |]; [| reflexivity]. destruct st as [g pm].
  unfold AppHandlers.onTurnEndOf, PeriodManagerOps.onTurnEnd.
  destruct (PeriodManagerOps.getMethod s pm) as [m |]; [| reflexivity].
  destruct (TimingMethodOps.onTurnEnd m (GameStateOps.getPlayer s g)). cbn [fst].
  apply setPlayer_sound.
Qed.

Lemma startMatch_sound (s : Player) (perfNow handle : Z) (a : App) :
  soundEnabled (gameState (AppHandlers.startMatch s perfNow handle a))
  = soundEnabled (gameState a).
Proof.
  unfold AppHandlers.startMatch. cbv zeta.
  pose proof (onTurnStartOf_sound (activePlayer (GameStateOps.startGame s (gameState a)))
                (GameStateOps.startGame s (gameState a),
                 PeriodManagerOps.init (GameStateOps.startGame s (gameState a))
                   (periodManager a))) as H.
  destruct (AppHandlers.onTurnStartOf _ _) as [g2 pm2]. cbn [fst gameState] in *.
  rewrite H. destruct s; reflexivity.
Qed.

Lemma switchTurn_sound (g : GameState) :
  soundEnabled (GameStateOps.switchTurn g) = soundEnabled g.
Proof.
  unfold GameStateOps.switchTurn. destruct (status g); try reflexivity.
  destruct (activePlayer g) as [[] |]; reflexivity.
Qed.

Lemma _switchTurn_sound (a : App) :
  soundEnabled (gameState (AppHandlers._switchTurn a)) = soundEnabled (gameState a).
Proof.
  unfold AppHandlers._switchTurn. cbv zeta.
  pose proof (onTurnEndOf_sound (activePlayer (gameState a)) (gameState a, periodManager a))
    as H1.
  destruct (AppHandlers.onTurnEndOf _ _) as [g1 pm1]. cbn [fst] in H1.
  pose proof (onTurnStartOf_sound (activePlayer (GameStateOps.switchTurn g1))
                (GameStateOps.switchTurn g1, pm1)) as H2.
  destruct (AppHandlers.onTurnStartOf _ _) as [g3 pm3]. cbn [fst gameState] in *.
  rewrite H2, switchTurn_sound. exact H1.
Qed.

Lemma _handleTogglePause_sound (perfNow handle : Z) (a : App) :
  soundEnabled (gameState (AppHandlers._handleTogglePause perfNow handle a))
  = soundEnabled (gameState a).
Proof.
  unfold AppHandlers._handleTogglePause, GameStateOps.pause, GameStateOps.resume.
  destruct (status (gameState a)); reflexivity.
Qed.

Lemma _onTick_sound (deltaMs now : Z) (a : App) :
  soundEnabled (gameState (stateOf (AppOps._onTick deltaMs now a)))
  = soundEnabled (gameState a).
Proof.
  unfold AppOps._onTick. cbv zeta.
  destruct (status (gameState a)); try reflexivity.
  destruct (activePlayer (gameState a)) as [s |]; [| reflexivity].
  pose proof (PeriodManager_onTick_sound deltaMs s now (gameState a) (periodManager a)) as H.
  destruct (PeriodManagerOps.onTick _ _ _ _) as [[gs1 pm1] r | [gs1 pm1]];
    cbn [stateOf fst] in H; [| exact H].
  destruct (expiredResult r); [| exact H].
  set (gs2 := if decide _ then _ else gs1).
  assert (soundEnabled gs2 = soundEnabled gs1) as H2.
  { unfold gs2. destruct (decide _); [apply setPlayer_sound | reflexivity]. }
  destruct (freezeEnabled gs2 && GameStateOps.isInFinalPeriod s gs2); cbn [stateOf gameState].
  - unfold GameStateOps.freeze. destruct (status gs2); cbn; congruence.
  - congruence.
Qed.

Lemma exitCorrectionMode_sound (g : GameState) :
  soundEnabled (GameStateOps.exitCorrectionMode g) = soundEnabled g.
Proof. unfold GameStateOps.exitCorrectionMode. destruct (status g); reflexivity. Qed.

Lemma applyCorrection_sound (c : Corrected) (a : App) :
  soundEnabled (gameState (AppOps.applyCorrection c a)) = soundEnabled (gameState a).
Proof.
  unfold AppOps.applyCorrection. cbv zeta. cbn [optionConfig set_right set_left].
  destruct (optionConfig (gameState a)); cbn [gameState];
    rewrite exitCorrectionMode_sound; reflexivity.
Qed.

Lemma step_sound (ev : Event) (u : AppUi) :
  noNewOption ev ->
  soundEnabled (gameState (app (stateOf (step ev u))))
  = match ev with
    | evToggleSound => negb (soundEnabled (gameState (app u)))
    | _ => soundEnabled (gameState (app u))
    end.
Proof.
  intros Hev. destruct ev; cbn [step noNewOption] in *; try contradiction;
    cbn [stateOf AppHandlers.set_app app].
  - unfold AppHandlers._handleClockTap. destruct (status (gameState (app u)));
      try reflexivity; [apply startMatch_sound |].
    destruct (decide _); [apply _switchTurn_sound | reflexivity].
  - unfold AppHandlers._handleSwitchTurn. destruct (status (gameState (app u)));
      try reflexivity; [apply startMatch_sound | apply _switchTurn_sound].
  - apply _handleTogglePause_sound.
  - pose proof (_onTick_sound deltaMs now (app u)) as H.
    destruct (AppOps._onTick deltaMs now (app u)); exact H.
  - unfold AppHandlers._openSettings, GameStateOps.pause. cbv zeta.
    destruct (_resetPending u); cbn [AppHandlers._cancelResetConfirmation app];
      destruct (status (gameState (app u))) eqn:Hs; cbn; rewrite ?Hs; reflexivity.
  - reflexivity.
  - unfold AppHandlers._toggleFreeze, GameStateOps.toggleFreeze.
    destruct (hasBeenStarted (gameState (app u))); reflexivity.
  - reflexivity.
  - unfold AppHandlers._handleEscape. destruct (_resetPending u); [reflexivity |].
    destruct (CorrectionModeOps.isActive (correctionMode u)).
    + unfold AppHandlers.overlayCancel, CorrectionModeOps.cancel.
      cbn [AppHandlers.set_app app AppHandlers.set_gameState gameState].
      rewrite exitCorrectionMode_sound.
      destruct (_onCancel (correctionMode u)) as [[] |]; cbn [AppHandlers.runCancel];
        [apply exitCorrectionMode_sound | reflexivity].
    + destruct settingsVisible; [reflexivity |].
      destruct (status (gameState (app u))) eqn:Hs; try reflexivity.
      cbn [AppHandlers.set_app app]. apply _handleTogglePause_sound.
  - unfold AppHandlers._handleNav.
    destruct (CorrectionModeOps.isActive (correctionMode u)); [| reflexivity].
    destruct direction; cbn [overlayStep liftOverlay stateOf app];
      try reflexivity;
      match goal with |- context [liftOverlay u ?c] => destruct c end; reflexivity.
  - unfold AppHandlers._enterCorrection. cbv zeta.
    destruct (status (gameState (app u))) eqn:Hs; try reflexivity;
      unfold GameStateOps.enterCorrectionMode; rewrite Hs; reflexivity.
  - destruct (CorrectionModeOps.isActive (correctionMode u)); [| reflexivity].
    destruct (overlayStep op (correctionMode u)); reflexivity.
  - destruct (CorrectionModeOps.isActive (correctionMode u)); [| reflexivity].
    unfold AppHandlers.overlaySave.
    destruct (CorrectionModeOps.save (correctionMode u)) as [cm [[[] c] |]];
      cbn [stateOf app AppHandlers.runSave]; [apply applyCorrection_sound | reflexivity].
  - destruct (CorrectionModeOps.isActive (correctionMode u)); [| reflexivity].
    unfold AppHandlers.overlayCancel.
    destruct (CorrectionModeOps.cancel (correctionMode u)) as [cm [[] |]];
      cbn [stateOf app AppHandlers.runCancel AppHandlers.set_gameState gameState];
      [apply exitCorrectionMode_sound | reflexivity].
Qed.

Lemma checkAndBeep_enabled (t : Z) (sm : SoundManager) :
  _enabled (fst (SoundManagerOps.checkAndBeep t sm)) = _enabled sm.
Proof.
  unfold SoundManagerOps.checkAndBeep.
  destruct (_enabled sm) eqn:E; [| exact E]. cbv zeta.
  repeat match goal with
         | |- context [if ?c then _ else _] => destruct c
         end; cbn [fst _enabled]; auto.
Qed.

Lemma onEvent_enabled (ev : Event) (u : AppUi) (sm : SoundManager) :
  _enabled (fst (AppSound.onEvent ev u sm))
  = match ev with
    | evToggleSound => negb (soundEnabled (gameState (app u)))
    | _ => _enabled sm
    end.
Proof.
  destruct ev; cbn [AppSound.onEvent]; cbv zeta; try reflexivity.
  - unfold AppSound.onTap. destruct (match status _ with IDLE => _ | _ => _ end);
      reflexivity.
  - unfold AppSound.onTap. destruct (match status _ with IDLE => _ | _ => _ end);
      reflexivity.
  - unfold AppSound._onTick. cbv zeta.
    destruct (status (gameState (app u))); try reflexivity.
    destruct (activePlayer (gameState (app u))) as [active |]; [| reflexivity].
    destruct (PeriodManagerOps.onTick _ _ _ _) as [[gs1 pm1] result | st];
      [| reflexivity].
    assert (_enabled (fst (if soundEnabled gs1
                           then match PeriodManagerOps.getMethod active pm1 with
                                | Some m =>
                                    if decide (TimingMethodOps.getType m = UPCOUNT)
                                    then (sm, [])
                                    else SoundManagerOps.checkAndBeep
                                           (timeMs (GameStateOps.getPlayer active gs1)) sm
                                | None => (sm, [])
                                end
                           else (sm, []))) = _enabled sm) as H.
    { destruct (soundEnabled gs1); [| reflexivity].
      destruct (PeriodManagerOps.getMethod active pm1) as [m |]; [| reflexivity].
      destruct (decide _); [reflexivity | apply checkAndBeep_enabled]. }
    destruct (if soundEnabled gs1 then _ else _) as [sm1 out1]. cbn [fst] in H.
    destruct (periodTransition result); cbn [fst SoundManagerOps.resetBeepState _enabled];
      exact H.
Qed.

Lemma soundFollows_kept (evs : list Event) (u : AppUi) (sm : SoundManager) :
  soundFollows u sm -> List.Forall noNewOption evs ->
  soundFollows (fst (run evs u)) (fst (AppSound.onEvents evs u sm)).
Proof.
  revert u sm. induction evs as [| ev evs IH]; intros u sm H Hall.
  - exact H.
  - inversion Hall as [| ? ? Hev Hrest]; subst.
    cbn [run AppSound.onEvents].
    pose proof (step_sound ev u Hev) as Hs. pose proof (onEvent_enabled ev u sm) as He.
    destruct (AppSound.onEvent ev u sm) as [sm1 out1]. cbn [fst] in He.
    assert (soundFollows (stateOf (step ev u)) sm1) as H1.
    { unfold soundFollows, SoundManagerOps.isEnabled in *. rewrite He, Hs.
      destruct ev; try exact H; reflexivity. }
    specialize (IH (stateOf (step ev u)) sm1 H1 Hrest).
    destruct (run evs (stateOf (step ev u))) as [u' t].
    destruct (AppSound.onEvents evs (stateOf (step ev u)) sm1) as [sm2 out2].
    exact IH.
Qed.

(** X26.  The first event is a toggle of the sound.  After it the sound
    manager is enabled exactly when the match's sound setting is on, and
    this stays so through whatever events follow, up to the next new option
    or reset (which write the option's sound default to the match only). *)
Theorem toggle_makes_sound_follow (evs : list Event) (u : AppUi) (sm : SoundManager) :
  List.Forall noNewOption evs ->
  soundFollows (fst (run (evToggleSound :: evs) u))
    (fst (AppSound.onEvents (evToggleSound :: evs) u sm)).
Proof.
  intros Hall.
  pose proof (soundFollows_kept evs (stateOf (step evToggleSound u))
                (fst (AppSound.onEvent evToggleSound u sm)) eq_refl Hall) as H.
  cbn [run AppSound.onEvents].
  destruct (AppSound.onEvent evToggleSound u sm) as [sm1 out1]. cbn [fst] in H.
  destruct (run evs (stateOf (step evToggleSound u))) as [u' t].
  destruct (AppSound.onEvents evs (stateOf (step evToggleSound u)) sm1) as [sm2 out2].
  exact H.
Qed.

Lemma toggle_makes_sound_follow_witness :
  soundFollows (fst (run (evToggleSound :: lastSeconds) (booted (Some 20) None)))
    (fst (AppSound.onEvents (evToggleSound :: lastSeconds) (booted (Some 20) None)
            SoundManagerOps.new)).
Proof.
  apply toggle_makes_sound_follow. repeat constructor.
Defined.

(** ** The stored custom options *)

(** X27.  Whatever is stored, [loadCustomOptions] gives exactly five slots;
    a slot holds an option exactly when the stored array has, at that place
    among its first five, an entry with a [periods] array that is not
    empty, and then it holds that entry.  [loadCustomOption] gives the
    option of a slot within 0 to 4 and nothing for any other slot. *)
Theorem stored_custom_options_normalised (parsed : option (list StoredSlot)) :
  length (StorageManager.loadCustomOptions parsed) = 5%nat /\
  (forall (i : nat) (c : OptionConfig),
      StorageManager.loadCustomOptions parsed !! i = Some (Some c) <->
      (i < 5)%nat /\ periods c <> [] /\
      exists l, parsed = Some l /\ l !! i = Some (slotOption c)) /\
  (forall (slot : Z) (c : OptionConfig),
      StorageManager.loadCustomOption slot parsed = Some c <->
      0 <= slot < 5 /\
      StorageManager.loadCustomOptions parsed !! Z.to_nat slot = Some (Some c)).
Proof.
  split; [apply loadCustomOptions_valid |]. split.
  - intros i c. unfold StorageManager.loadCustomOptions, Limits.MAX_MANUAL_OPTIONS.
    change (Z.to_nat 5) with 5%nat.
    destruct parsed as [l |].
    + rewrite list_lookup_map_option. split.
      * intros H.
        destruct (take 5 (l ++ replicate (5 - length l) slotNull) !! i) as [slot |] eqn:E;
          [| discriminate H].
        cbn [option_map] in H.
        assert (i < 5)%nat as Hi.
        { apply lookup_lt_Some in E. rewrite length_take in E. lia. }
        rewrite lookup_take_lt in E by exact Hi.
        destruct slot as [| | c']; try discriminate H.
        destruct (periods c') eqn:Ep; [discriminate H |].
        injection H as <-.
        split; [exact Hi |]. split; [congruence |].
        exists l. split; [reflexivity |].
        destruct (decide (i < length l)%nat) as [Hl | Hl].
        -- rewrite lookup_app_l in E by exact Hl. exact E.
        -- rewrite lookup_app_r in E by lia.
           apply lookup_replicate in E as [E _]. discriminate E.
      * intros (Hi & Hne & l' & Hl' & Hat). injection Hl' as <-.
        rewrite lookup_take_lt by exact Hi.
        rewrite lookup_app_l by (apply lookup_lt_Some in Hat; exact Hat).
        rewrite Hat. cbn [option_map].
        destruct (periods c) eqn:Ep; [contradiction | reflexivity].
    + split.
      * intros H. destruct i as [| [| [| [| [| i]]]]]; discriminate H.
      * intros (_ & _ & l & Hl & _). discriminate Hl.
  - intros slot c. unfold StorageManager.loadCustomOption, Limits.MAX_MANUAL_OPTIONS.
    destruct (Z.ltb_spec slot 0); destruct (Z.leb_spec 5 slot); cbn [orb];
      try (split; [discriminate | intros [? _]; lia]).
    destruct (StorageManager.loadCustomOptions parsed !! Z.to_nat slot) as [[c' |] |];
      split; try discriminate; try (intros [_ H1]; discriminate H1).
    + intros H1. injection H1 as <-. split; [lia | reflexivity].
    + intros [_ H1]. injection H1 as <-. reflexivity.
Qed.

(** ** A Bronstein period entered in the middle of a turn *)

(** X28.  A side on a Bronstein period runs out of time during a turn that
    it began with [S] on its clock, and the next period is a Bronstein period
    too, with a main time above [S] and a delay that is not negative.  The
    tick that finds the expiry adds the new period's main time and leaves the
    snapshot of the turn's start at [S]; and when the side then ends its
    turn, [onTurnEnd] cuts its clock down to [S]: the time of the new period
    is lost. *)
Theorem bronstein_transition_cuts_clock (s : Player) (g : GameState) (pm : PeriodManager)
    (b : BronsteinDelayMethod.t) (config : OptionConfig) (nextc : PeriodConfig)
    (d now : Z) :
  let p := GameStateOps.getPlayer s g in
  PeriodManagerOps.getMethod s pm = Some (ofBronsteinDelay b) ->
  optionConfig g = Some config ->
  currentPeriod p + 1 < Z.of_nat (length (periods config)) ->
  periodAt (periods config) (currentPeriod p + 1) = Some nextc ->
  method nextc = DELAY ->
  timeMs p <= d ->
  0 < turnStartTimeMs p < orZero (cfg_timeMs nextc) ->
  0 <= orZero (cfg_delayMs nextc) ->
  exists g1 pm1,
    PeriodManagerOps.onTick d s now (g, pm) = Normal (g1, pm1) (mkPeriodResult false true) /\
    timeMs (GameStateOps.getPlayer s g1) = orZero (cfg_timeMs nextc) /\
    turnStartTimeMs (GameStateOps.getPlayer s g1) = turnStartTimeMs p /\
    timeMs (GameStateOps.getPlayer s (fst (PeriodManagerOps.onTurnEnd s (g1, pm1))))
      = turnStartTimeMs p.
Proof.
  intros p Hm Hcfg Hlt Hat Hmeth Hd HS Hdelay.
  assert (GameStateOps.isInFinalPeriod s
            (GameStateOps.setPlayer s (set_timeMs 0 (set_timeMs (timeMs p - d) p)) g)
          = false) as Hfinal.
  { unfold GameStateOps.isInFinalPeriod.
    destruct (setPlayer_frame s (set_timeMs 0 (set_timeMs (timeMs p - d) p)) g)
      as (_ & _ & -> & _).
    rewrite Hcfg, getPlayer_setPlayer. cbn [currentPeriod set_timeMs].
    apply Z.leb_gt. lia. }
  unfold PeriodManagerOps.onTick. rewrite Hm. cbn [TimingMethodOps.onTick].
  unfold BronsteinDelayMethod.onTick, clampExpiry. fold p.
  change (timeMs (set_timeMs (timeMs p - d) p)) with (timeMs p - d).
  destruct (Z.leb_spec (timeMs p - d) 0); [| lia]. cbn [expired].
  unfold PeriodManagerOps._handleExpiry. rewrite Hfinal.
  unfold PeriodManagerOps._transitionToNextPeriod.
  destruct (setPlayer_frame s (set_timeMs 0 (set_timeMs (timeMs p - d) p)) g)
    as (_ & _ & Hc & _).
  rewrite Hc, Hcfg. cbv zeta. rewrite getPlayer_setPlayer.
  change (currentPeriod (set_timeMs 0 (set_timeMs (timeMs p - d) p)))
    with (currentPeriod p).
  destruct (Z.leb_spec (Z.of_nat (length (periods config))) (currentPeriod p + 1));
    [lia |].
  rewrite Hat. destruct (decide (method nextc = END)); [congruence |].
  set (q := PlayerStateOps.setFlag NON_BLINKING now
              (set_timeMs 0 (set_timeMs (timeMs p - d) p))).
  set (g0 := GameStateOps.setPlayer s q
               (GameStateOps.setPlayer s (set_timeMs 0 (set_timeMs (timeMs p - d) p)) g)).
  assert (forall st,
             PeriodManagerOps.getMethod s (snd st)
               = Some (ofBronsteinDelay (BronsteinDelayMethod.new nextc)) ->
             timeMs (GameStateOps.getPlayer s (fst st)) = orZero (cfg_timeMs nextc) ->
             turnStartTimeMs (GameStateOps.getPlayer s (fst st)) = turnStartTimeMs p ->
             timeMs (GameStateOps.getPlayer s (fst (PeriodManagerOps.onTurnEnd s st)))
             = turnStartTimeMs p) as Hend.
  { intros [g1 pm1] H1 H2 H3. cbn [fst snd] in *.
    unfold PeriodManagerOps.onTurnEnd. rewrite H1. cbn [TimingMethodOps.onTurnEnd fst].
    rewrite getPlayer_setPlayer. unfold BronsteinDelayMethod.onTurnEnd. cbv zeta.
    rewrite H2, H3.
    destruct (Z.leb_spec (orZero (cfg_timeMs nextc)) 0); [lia |].
    destruct (Z.leb_spec (turnStartTimeMs p) 0); [lia |].
    change (timeMs (set_timeMs ?x ?y)) with x.
    change (turnStartTimeMs (set_timeMs ?x ?y)) with (turnStartTimeMs y).
    rewrite H3.
    destruct (Z.ltb_spec (turnStartTimeMs p)
                (orZero (cfg_timeMs nextc)
                 + Z.min (BronsteinDelayMethod.delayMs (BronsteinDelayMethod.new nextc))
                     (Z.max 0 (turnStartTimeMs p - orZero (cfg_timeMs nextc)))));
      [reflexivity |].
    cbn [BronsteinDelayMethod.delayMs BronsteinDelayMethod.new] in *. lia. }
  assert (forall (gA : GameState) (pmA : PeriodManager),
             timeMs (GameStateOps.getPlayer s gA) = 0 ->
             turnStartTimeMs (GameStateOps.getPlayer s gA) = turnStartTimeMs p ->
             let st := PeriodManagerOps._transitionPlayerToPeriod s (currentPeriod p + 1)
                         (periodAt (periods config) (currentPeriod p)) nextc (gA, pmA) in
             PeriodManagerOps.getMethod s (snd st)
               = Some (ofBronsteinDelay (BronsteinDelayMethod.new nextc)) /\
             timeMs (GameStateOps.getPlayer s (fst st)) = orZero (cfg_timeMs nextc) /\
             turnStartTimeMs (GameStateOps.getPlayer s (fst st)) = turnStartTimeMs p) as Htr.
  { intros gA pmA H1 H2. unfold PeriodManagerOps._transitionPlayerToPeriod. cbv zeta.
    cbn [fst snd]. rewrite getPlayer_setPlayer, Hmeth.
    unfold PeriodManagerOps.getMethod. cbn [activeMethods]. rewrite lookup_insert_eq.
    unfold PeriodManagerOps.createMethod. rewrite Hmeth.
    repeat split; cbn; lia. }
  assert (forall (gA : GameState) (pmA : PeriodManager),
             let st := PeriodManagerOps._transitionPlayerToPeriod (opposite s)
                         (currentPeriod p + 1)
                         (periodAt (periods config) (currentPeriod p)) nextc (gA, pmA) in
             PeriodManagerOps.getMethod s (snd st) = PeriodManagerOps.getMethod s pmA /\
             GameStateOps.getPlayer s (fst st) = GameStateOps.getPlayer s gA) as Hopp.
  { intros gA pmA.
    pose proof (transitionPlayer_frame (opposite s) (currentPeriod p + 1)
                  (periodAt (periods config) (currentPeriod p)) nextc gA pmA) as Hf.
    cbv zeta in *. destruct Hf as (_ & _ & _ & _ & Ho & Hmo & _).
    rewrite opposite_involutive in Hmo. rewrite getOpponent_opposite in Ho.
    rewrite getOpponent_opposite in Ho. split; [exact Hmo | exact Ho]. }
  destruct (Htr g0 pm) as (T1 & T2 & T3).
  { unfold g0. rewrite getPlayer_setPlayer. reflexivity. }
  { unfold g0. rewrite getPlayer_setPlayer. reflexivity. }
  fold q. fold g0.
  set (st2 := PeriodManagerOps._transitionPlayerToPeriod s (currentPeriod p + 1)
                (periodAt (periods config) (currentPeriod p)) nextc (g0, pm)) in *.
  destruct (currentPeriod (GameStateOps.getOpponent s (fst st2)) =? currentPeriod p).
  - destruct st2 as [g2 pm2]. cbn [fst snd] in *.
    destruct (Hopp g2 pm2) as [O1 O2]. cbv zeta in O1, O2.
    destruct (PeriodManagerOps._transitionPlayerToPeriod (opposite s) _ _ _ _)
      as [g3 pm3] eqn:E3. cbn [fst snd] in *.
    exists g3, pm3. split; [reflexivity |].
    rewrite O2. split; [exact T2 |]. split; [exact T3 |].
    apply (Hend (g3, pm3)); cbn [fst snd]; congruence.
  - destruct st2 as [g2 pm2]. cbn [fst snd] in *.
    exists g2, pm2. split; [reflexivity |]. split; [exact T2 |]. split; [exact T3 |].
    apply (Hend (g2, pm2)); assumption.
Qed.

Lemma bronstein_transition_cuts_clock_witness :
  let a := app (fst (run (take 5 bronsteinTimeTrouble) (booted (Some 17) None))) in
  exists g1 pm1,
    PeriodManagerOps.onTick 70000 RIGHT 7 (gameState a, periodManager a)
      = Normal (g1, pm1) (mkPeriodResult false true) /\
    timeMs (GameStateOps.getPlayer RIGHT g1) = 900000 /\
    timeMs (GameStateOps.getPlayer RIGHT (fst (PeriodManagerOps.onTurnEnd RIGHT (g1, pm1))))
      = 70000.
Proof.
  intros a.
  assert (PeriodManagerOps.getMethod RIGHT (periodManager a)
          = Some (ofBronsteinDelay (BronsteinDelayMethod.mk 30000))) as Hm
    by (vm_compute; reflexivity).
  assert (optionConfig (gameState a) = Some bronsteinTwoPeriods) as Hc
    by (vm_compute; reflexivity).
  destruct (bronstein_transition_cuts_clock RIGHT (gameState a) (periodManager a)
              (BronsteinDelayMethod.mk 30000) bronsteinTwoPeriods
              (mkPeriodConfig DELAY (Some 900000) (Some 30000) None None None)
              70000 7 Hm Hc) as (g1 & pm1 & E & H1 & H2 & H3).
  - vm_compute. reflexivity.
  - vm_compute. reflexivity.
  - reflexivity.
  - vm_compute. discriminate.
  - vm_compute. split; reflexivity.
  - vm_compute. discriminate.
  - exists g1, pm1. split; [exact E |]. split; [exact H1 |]. rewrite H3.
    vm_compute. reflexivity.
Defined.

(** The same through the handlers of [App]: the right side ends the turn in
    which it reached the second period with 70 s, not with what is left of
    15 min. *)
Example bronstein_time_trouble_ends_with_70s :
  let a := app (fst (run bronsteinTimeTrouble (booted (Some 17) None))) in
  currentPeriod (right (gameState a)) = 1 /\ timeMs (right (gameState a)) = 70000 /\
  currentPeriod (left (gameState a)) = 1 /\
  timeMs (left (gameState a)) = 7200000 - 1000 + 1000 + 900000.
Proof. vm_compute. repeat split. Qed.

(** ** The freeze setting during a match *)

Lemma keepsFreeze_refl (g : GameState) : keepsFreeze g g.
Proof. split; auto. Qed.

Lemma keepsFreeze_trans (g1 g2 g3 : GameState) :
  keepsFreeze g1 g2 -> keepsFreeze g2 g3 -> keepsFreeze g1 g3.
Proof. intros [A1 A2] [B1 B2]. split; [congruence | auto]. Qed.

Lemma setPlayer_freeze (s : Player) (p : PlayerState) (g : GameState) :
  keepsFreeze g (GameStateOps.setPlayer s p g).
Proof. destruct s; split; auto. Qed.

Lemma transition_freeze (s : Player) (idx : Z) (old : option PeriodConfig)
    (newc : PeriodConfig) (st : GameState * PeriodManager) :
  keepsFreeze (fst st) (fst (PeriodManagerOps._transitionPlayerToPeriod s idx old newc st)).
Proof.
  destruct st as [g pm]. unfold PeriodManagerOps._transitionPlayerToPeriod. cbv zeta.
  cbn [fst]. apply setPlayer_freeze.
Qed.

Lemma PeriodManager_onTick_freeze (deltaMs : Z) (s : Player) (now : Z)
    (g : GameState) (pm : PeriodManager) :
  keepsFreeze g (fst (stateOf (PeriodManagerOps.onTick deltaMs s now (g, pm)))).
Proof.
  pose proof (PeriodManager_onTick_cases deltaMs s now g pm) as Hcases.
  cbv zeta in Hcases. unfold afterMethodTick in Hcases.
  destruct Hcases as [[_ E] | [E | [E | [(config & nextc & _ & _ & _ & _ & E) | [E _]]]]];
    [| | | destruct E as [E | [[_ E] | [_ E]]] |]; rewrite E; cbn [stateOf fst];
    repeat first
      [ apply keepsFreeze_refl
      | apply setPlayer_freeze
      | eapply keepsFreeze_trans; [| apply transition_freeze]; cbn [fst]
      | eapply keepsFreeze_trans; [| apply setPlayer_freeze] ].
Qed.

Lemma onTurnStartOf_freeze (o : option Player) (st : GameState * PeriodManager) :
  keepsFreeze (fst st) (fst (AppHandlers.onTurnStartOf o st)).
Proof.
  destruct o as [s |]; [| apply keepsFreeze_refl]. destruct st as [g pm].
  unfold AppHandlers.onTurnStartOf, PeriodManagerOps.onTurnStart.
  destruct (PeriodManagerOps.getMethod s pm) as [m |]; [| apply keepsFreeze_refl].
  destruct (TimingMethodOps.onTurnStart m (GameStateOps.getPlayer s g)). cbn [fst].
  apply setPlayer_freeze.
Qed.

Lemma onTurnEndOf_freeze (o : option Player) (st : GameState * PeriodManager) :
  keepsFreeze (fst st) (fst (AppHandlers.onTurnEndOf o st)).
Proof.
  destruct o as [s |]; [| apply keepsFreeze_refl]. destruct st as [g pm].
  unfold AppHandlers.onTurnEndOf, PeriodManagerOps.onTurnEnd.
  destruct (PeriodManagerOps.getMethod s pm) as [m |]; [| apply keepsFreeze_refl].
  destruct (TimingMethodOps.onTurnEnd m (GameStateOps.getPlayer s g)). cbn [fst].
  apply setPlayer_freeze.
Qed.

Lemma startMatch_freeze (s : Player) (perfNow handle : Z) (a : App) :
  keepsFreeze (gameState a) (gameState (AppHandlers.startMatch s perfNow handle a)).
Proof.
  unfold AppHandlers.startMatch. cbv zeta.
  pose proof (onTurnStartOf_freeze (activePlayer (GameStateOps.startGame s (gameState a)))
                (GameStateOps.startGame s (gameState a),
                 PeriodManagerOps.init (GameStateOps.startGame s (gameState a))
                   (periodManager a))) as H.
  destruct (AppHandlers.onTurnStartOf _ _) as [g2 pm2]. cbn [fst gameState] in *.
  eapply keepsFreeze_trans; [| exact H]. destruct s; split; auto.
Qed.

Lemma switchTurn_freeze (g : GameState) : keepsFreeze g (GameStateOps.switchTurn g).
Proof.
  unfold GameStateOps.switchTurn. destruct (status g); try apply keepsFreeze_refl.
  destruct (activePlayer g) as [[] |]; split; auto.
Qed.

Lemma _switchTurn_freeze (a : App) :
  keepsFreeze (gameState a) (gameState (AppHandlers._switchTurn a)).
Proof.
  unfold AppHandlers._switchTurn. cbv zeta.
  pose proof (onTurnEndOf_freeze (activePlayer (gameState a)) (gameState a, periodManager a))
    as H1.
  destruct (AppHandlers.onTurnEndOf _ _) as [g1 pm1]. cbn [fst] in H1.
  pose proof (onTurnStartOf_freeze (activePlayer (GameStateOps.switchTurn g1))
                (GameStateOps.switchTurn g1, pm1)) as H2.
  destruct (AppHandlers.onTurnStartOf _ _) as [g3 pm3]. cbn [fst gameState] in *.
  eapply keepsFreeze_trans; [exact H1 |].
  eapply keepsFreeze_trans; [apply switchTurn_freeze | exact H2].
Qed.

Lemma _handleTogglePause_freeze (perfNow handle : Z) (a : App) :
  keepsFreeze (gameState a) (gameState (AppHandlers._handleTogglePause perfNow handle a)).
Proof.
  unfold AppHandlers._handleTogglePause, GameStateOps.pause, GameStateOps.resume.
  destruct (status (gameState a)); split; auto.
Qed.

Lemma _onTick_freeze (deltaMs now : Z) (a : App) :
  keepsFreeze (gameState a) (gameState (stateOf (AppOps._onTick deltaMs now a))).
Proof.
  unfold AppOps._onTick. cbv zeta.
  destruct (status (gameState a)); try apply keepsFreeze_refl.
  destruct (activePlayer (gameState a)) as [s |]; [| apply keepsFreeze_refl].
  pose proof (PeriodManager_onTick_freeze deltaMs s now (gameState a) (periodManager a))
    as H.
  destruct (PeriodManagerOps.onTick _ _ _ _) as [[gs1 pm1] r | [gs1 pm1]];
    cbn [stateOf fst] in H; [| exact H].
  destruct (expiredResult r); [| exact H].
  set (gs2 := if decide _ then _ else gs1).
  assert (keepsFreeze gs1 gs2) as H2.
  { unfold gs2. destruct (decide _); [apply setPlayer_freeze | apply keepsFreeze_refl]. }
  destruct (freezeEnabled gs2 && GameStateOps.isInFinalPeriod s gs2); cbn [stateOf gameState].
  - eapply keepsFreeze_trans; [exact H |]. eapply keepsFreeze_trans; [exact H2 |].
    unfold GameStateOps.freeze. destruct (status gs2); split; auto.
  - eapply keepsFreeze_trans; eassumption.
Qed.

Lemma exitCorrectionMode_freeze (g : GameState) :
  keepsFreeze g (GameStateOps.exitCorrectionMode g).
Proof. unfold GameStateOps.exitCorrectionMode. destruct (status g); split; auto. Qed.

Lemma applyCorrection_freeze (c : Corrected) (a : App) :
  keepsFreeze (gameState a) (gameState (AppOps.applyCorrection c a)).
Proof.
  unfold AppOps.applyCorrection. cbv zeta. cbn [optionConfig set_right set_left].
  destruct (optionConfig (gameState a)); cbn [gameState];
    (eapply keepsFreeze_trans; [| apply exitCorrectionMode_freeze]); split; auto.
Qed.

Lemma step_freeze (ev : Event) (u : AppUi) :
  noNewOption ev -> hasBeenStarted (gameState (app u)) = true ->
  keepsFreeze (gameState (app u)) (gameState (app (stateOf (step ev u)))).
Proof.
  intros Hev Hst. destruct ev; cbn [step noNewOption] in *; try contradiction;
    cbn [stateOf AppHandlers.set_app app].
  - unfold AppHandlers._handleClockTap. destruct (status (gameState (app u)));
      try apply keepsFreeze_refl; [apply startMatch_freeze |].
    destruct (decide _); [apply _switchTurn_freeze | apply keepsFreeze_refl].
  - unfold AppHandlers._handleSwitchTurn. destruct (status (gameState (app u)));
      try apply keepsFreeze_refl; [apply startMatch_freeze | apply _switchTurn_freeze].
  - apply _handleTogglePause_freeze.
  - pose proof (_onTick_freeze deltaMs now (app u)) as H.
    destruct (AppOps._onTick deltaMs now (app u)); exact H.
  - unfold AppHandlers._openSettings, GameStateOps.pause. cbv zeta.
    destruct (_resetPending u); cbn [AppHandlers._cancelResetConfirmation app];
      destruct (status (gameState (app u))) eqn:Hs; cbn; rewrite ?Hs; split; auto.
  - split; auto.
  - unfold AppHandlers._toggleFreeze, GameStateOps.toggleFreeze. rewrite Hst.
    apply keepsFreeze_refl.
  - apply keepsFreeze_refl.
  - unfold AppHandlers._handleEscape.
    destruct (_resetPending u); [apply keepsFreeze_refl |].
    destruct (CorrectionModeOps.isActive (correctionMode u)).
    + unfold AppHandlers.overlayCancel, CorrectionModeOps.cancel.
      cbn [AppHandlers.set_app app AppHandlers.set_gameState gameState].
      eapply keepsFreeze_trans; [| apply exitCorrectionMode_freeze].
      destruct (_onCancel (correctionMode u)) as [[] |]; cbn [AppHandlers.runCancel];
        [apply exitCorrectionMode_freeze | apply keepsFreeze_refl].
    + destruct settingsVisible; [apply keepsFreeze_refl |].
      destruct (status (gameState (app u))) eqn:Hs; try apply keepsFreeze_refl.
      cbn [AppHandlers.set_app app]. apply _handleTogglePause_freeze.
  - unfold AppHandlers._handleNav.
    destruct (CorrectionModeOps.isActive (correctionMode u)); [| apply keepsFreeze_refl].
    destruct direction; cbn [overlayStep liftOverlay stateOf app];
      try apply keepsFreeze_refl;
      match goal with |- context [liftOverlay u ?c] => destruct c end;
      apply keepsFreeze_refl.
  - unfold AppHandlers._enterCorrection. cbv zeta.
    destruct (status (gameState (app u))) eqn:Hs; try apply keepsFreeze_refl;
      unfold GameStateOps.enterCorrectionMode; rewrite Hs; split; auto.
  - destruct (CorrectionModeOps.isActive (correctionMode u)); [| apply keepsFreeze_refl].
    destruct (overlayStep op (correctionMode u)); apply keepsFreeze_refl.
  - destruct (CorrectionModeOps.isActive (correctionMode u)); [| apply keepsFreeze_refl].
    unfold AppHandlers.overlaySave.
    destruct (CorrectionModeOps.save (correctionMode u)) as [cm [[[] c] |]];
      cbn [stateOf app AppHandlers.runSave];
      [apply applyCorrection_freeze | apply keepsFreeze_refl].
  - destruct (CorrectionModeOps.isActive (correctionMode u)); [| apply keepsFreeze_refl].
    unfold AppHandlers.overlayCancel.
    destruct (CorrectionModeOps.cancel (correctionMode u)) as [cm [[] |]];
      cbn [stateOf app AppHandlers.runCancel AppHandlers.set_gameState gameState];
      [apply exitCorrectionMode_freeze | apply keepsFreeze_refl].
Qed.

(** X29.  Once a match has been started, its freeze setting stays what it
    is: whatever events follow, short of a new option or a confirmed reset,
    the setting is unchanged (the freeze toggle does nothing) and the match
    still counts as started. *)
Theorem freeze_setting_locked (evs : list Event) (u : AppUi) :
  hasBeenStarted (gameState (app u)) = true -> List.Forall noNewOption evs ->
  freezeEnabled (gameState (app (fst (run evs u)))) = freezeEnabled (gameState (app u)) /\
  hasBeenStarted (gameState (app (fst (run evs u)))) = true.
Proof.
  revert u. induction evs as [| ev evs IH]; intros u Hst Hall.
  - cbn. auto.
  - inversion Hall as [| ? ? Hev Hrest]; subst.
    destruct (step_freeze ev u Hev Hst) as [Hf Hs]. specialize (Hs Hst).
    cbn [run]. specialize (IH (stateOf (step ev u)) Hs Hrest).
    destruct (run evs (stateOf (step ev u))) as [u' t]. cbn [fst] in *.
    destruct IH as [IH1 IH2]. split; [congruence | exact IH2].
Qed.

Lemma freeze_setting_locked_witness :
  let u := fst (run [evToggleFreeze; evClockTap LEFT 0 1] (booted (Some 1) None)) in
  freezeEnabled
    (gameState (app (fst (run [evToggleFreeze; evTick 1000 5; evTogglePause 0 0;
                               evToggleFreeze; evToggleFreeze] u))))
  = true.
Proof.
  intros u.
  refine (eq_trans (proj1 (freeze_setting_locked _ u _ _)) _).
  - vm_compute. reflexivity.
  - repeat constructor.
  - vm_compute. reflexivity.
Defined.
